(** * tuih: a shallow embedding of tui.h and its specification

    The development follows the single header [tui.h]:

    - the cell and event value types;
    - the display-width table [tui_char_width] and the UTF-8 codec;
    - the context: double buffer, output buffer, input ring;
    - the frame life cycle ([tui_begin_frame], drawing calls,
      [tui_end_frame]);
    - the input decoder ([tui_parse_escape_sequence], [tui_poll_event]);
    - the widget tree, hotkeys and the event router.

    Conventions.  A C [int] is a [Z], and where the source can leave the
    range of [int] the result is wrapped to 32 bits ([int_wrap]);
    [uint32_t] and [uint8_t] values are [Z]s in their range, and bit
    operations are the [Z] ones.  A pointer
    that may be [NULL] is an [option].  Arrays are lists read with [!!] and
    written with [<[ _ := _ ]>]; every write in the source is guarded by a
    bounds test, which the embedding keeps.  A C string is the list of the
    bytes that precede its terminating NUL. *)

From Stdlib Require Import ZArith Lia List String Ascii Bool.
From stdpp Require Import base list.

Local Open Scope Z_scope.

(** ** Public types *)

Record tui_cell := mk_cell {
  codepoint : Z;
  fg : Z;
  bg : Z;
  underline_color : Z;
  style : Z
}.

Inductive tui_key :=
| TUI_KEY_NONE | TUI_KEY_UP | TUI_KEY_DOWN | TUI_KEY_LEFT | TUI_KEY_RIGHT
| TUI_KEY_ENTER | TUI_KEY_ESC | TUI_KEY_BACKSPACE | TUI_KEY_TAB
| TUI_KEY_SPACE | TUI_KEY_CHAR | TUI_KEY_HOME | TUI_KEY_END
| TUI_KEY_PAGEUP | TUI_KEY_PAGEDOWN | TUI_KEY_INSERT | TUI_KEY_DELETE
| TUI_KEY_F1 | TUI_KEY_F2 | TUI_KEY_F3 | TUI_KEY_F4 | TUI_KEY_F5
| TUI_KEY_F6 | TUI_KEY_F7 | TUI_KEY_F8 | TUI_KEY_F9 | TUI_KEY_F10
| TUI_KEY_F11 | TUI_KEY_F12.

Inductive tui_event_type :=
| TUI_EVENT_NONE | TUI_EVENT_KEY | TUI_EVENT_MOUSE | TUI_EVENT_RESIZE
| TUI_EVENT_PASTE_START | TUI_EVENT_PASTE_END
| TUI_EVENT_FOCUS_IN | TUI_EVENT_FOCUS_OUT.

Inductive tui_mouse_button :=
| TUI_MOUSE_NONE | TUI_MOUSE_LEFT | TUI_MOUSE_MIDDLE | TUI_MOUSE_RIGHT
| TUI_MOUSE_RELEASE | TUI_MOUSE_WHEEL_UP | TUI_MOUSE_WHEEL_DOWN
| TUI_MOUSE_MOVE.

Record tui_event := mk_event {
  type : tui_event_type;
  key : tui_key;
  ch : Z;
  mouse_button : tui_mouse_button;
  mouse_x : Z;
  mouse_y : Z;
  new_width : Z;
  new_height : Z;
  ctrl : bool;
  alt : bool;
  shift : bool
}.

#[global] Instance tui_key_eq_dec : EqDecision tui_key.
Proof. solve_decision. Defined.
#[global] Instance tui_event_type_eq_dec : EqDecision tui_event_type.
Proof. solve_decision. Defined.
#[global] Instance tui_mouse_button_eq_dec : EqDecision tui_mouse_button.
Proof. solve_decision. Defined.
#[global] Instance tui_cell_eq_dec : EqDecision tui_cell.
Proof. solve_decision. Defined.

(** Style flags and colours. *)
Definition TUI_STYLE_NONE : Z := 0x00.
Definition TUI_STYLE_BOLD : Z := 0x01.
Definition TUI_STYLE_DIM : Z := 0x02.
Definition TUI_STYLE_ITALIC : Z := 0x04.
Definition TUI_STYLE_UNDERLINE : Z := 0x08.
Definition TUI_STYLE_BLINK : Z := 0x10.
Definition TUI_STYLE_REVERSE : Z := 0x20.
Definition TUI_STYLE_STRIKETHROUGH : Z := 0x40.
Definition TUI_STYLE_UNDERCURL : Z := 0x80.

Definition TUI_COLOR_DEFAULT : Z := 0x80000000.
Definition TUI_COLOR_RED : Z := 0x00CC0000.

Definition TUI_MAX_WIDTH : Z := 512.
Definition TUI_MAX_HEIGHT : Z := 256.
Definition TUI_INPUT_BUFFER_SIZE : Z := 64.
Definition TUI_OUTPUT_BUFFER_SIZE : Z := 65536.

(** The value an [int] holds after an operation whose mathematical result
    is [v]: the result reduced to 32 bits, two's complement.  Inside the
    range it is [v] itself. *)
Definition int_wrap (v : Z) : Z := (v + 2 ^ 31) mod 2 ^ 32 - 2 ^ 31.

Definition TUI_MAX_HOTKEYS : Z := 32.
Definition TUI_MAX_FOCUS_STACK : Z := 16.

(** ** Display width (wcwidth) *)

(** Closed interval test, as the source writes [cp >= lo && cp <= hi]. *)
Definition between (lo hi cp : Z) : bool := (lo <=? cp) && (cp <=? hi).

Definition tui_char_width (cp : Z) : Z :=
  if cp =? 0 then 0
  else if (cp <? 32) || ((0x7F <=? cp) && (cp <? 0xA0)) then 0
  else if between 0x0300 0x036F cp || between 0x1AB0 0x1AFF cp
          || between 0x1DC0 0x1DFF cp || between 0x20D0 0x20FF cp
          || between 0xFE20 0xFE2F cp
          || (cp =? 0x200B) || (cp =? 0x200C)
          || (cp =? 0x200D) || (cp =? 0xFEFF) then 0
  else if between 0x1100 0x115F cp || between 0x2E80 0x9FFF cp
          || between 0xAC00 0xD7A3 cp || between 0xF900 0xFAFF cp
          || between 0xFE10 0xFE1F cp || between 0xFE30 0xFE6F cp
          || between 0xFF00 0xFF60 cp || between 0xFFE0 0xFFE6 cp
          || between 0x20000 0x2FFFD cp || between 0x30000 0x3FFFD cp then 2
  else if between 0x1F300 0x1F9FF cp || between 0x2600 0x26FF cp
          || between 0x2700 0x27BF cp then 2
  else 1.

(** The ranges of section 6 of the specification, word for word: every
    code point in one of them is said to take two columns. *)
Definition spec_wide_range (cp : Z) : bool :=
  between 0x1100 0x115F cp || between 0x2E80 0x9FFF cp
  || between 0xAC00 0xD7A3 cp || between 0xF900 0xFAFF cp
  || between 0xFE10 0xFE6F cp
  || between 0xFF00 0xFF60 cp || between 0xFFE0 0xFFE6 cp
  || between 0x20000 0x2FFFD cp || between 0x30000 0x3FFFD cp
  || between 0x1F300 0x1F9FF cp || between 0x2600 0x27BF cp.

(** Controls, combining marks and zero-width format characters. *)
Definition zero_width_code (cp : Z) : bool :=
  (cp <? 32) || between 0x7F 0x9F cp
  || between 0x0300 0x036F cp || between 0x1AB0 0x1AFF cp
  || between 0x1DC0 0x1DFF cp || between 0x20D0 0x20FF cp
  || between 0xFE20 0xFE2F cp
  || (cp =? 0x200B) || (cp =? 0x200C) || (cp =? 0x200D) || (cp =? 0xFEFF).

(** The wide ranges with the Combining Half Marks block taken out of
    0xFE10-0xFE6F, which is what the table implements. *)
Definition wide_code (cp : Z) : bool :=
  spec_wide_range cp && negb (between 0xFE20 0xFE2F cp).

(** ** UTF-8 *)

Definition tui_utf8_encode (codepoint : Z) : list Z :=
  if codepoint <? 0x80 then [codepoint]
  else if codepoint <? 0x800 then
    [Z.lor 0xC0 (Z.shiftr codepoint 6);
     Z.lor 0x80 (Z.land codepoint 0x3F)]
  else if codepoint <? 0x10000 then
    [Z.lor 0xE0 (Z.shiftr codepoint 12);
     Z.lor 0x80 (Z.land (Z.shiftr codepoint 6) 0x3F);
     Z.lor 0x80 (Z.land codepoint 0x3F)]
  else if codepoint <? 0x110000 then
    [Z.lor 0xF0 (Z.shiftr codepoint 18);
     Z.lor 0x80 (Z.land (Z.shiftr codepoint 12) 0x3F);
     Z.lor 0x80 (Z.land (Z.shiftr codepoint 6) 0x3F);
     Z.lor 0x80 (Z.land codepoint 0x3F)]
  else [63].

(** [tui_utf8_decode data] is [(n, cp)]: the number of bytes taken (0 for
    an empty input) and the code point written through [out]. *)
Definition tui_utf8_decode (data : list Z) : Z * Z :=
  match data with
  | [] => (0, 0)
  | b0 :: rest =>
    if b0 <? 0x80 then (1, b0)
    else
      match rest with
      | b1 :: rest1 =>
        if Z.land b0 0xE0 =? 0xC0 then
          (2, Z.lor (Z.shiftl (Z.land b0 0x1F) 6) (Z.land b1 0x3F))
        else
          match rest1 with
          | b2 :: rest2 =>
            if Z.land b0 0xF0 =? 0xE0 then
              (3, Z.lor (Z.lor (Z.shiftl (Z.land b0 0x0F) 12)
                               (Z.shiftl (Z.land b1 0x3F) 6))
                        (Z.land b2 0x3F))
            else
              match rest2 with
              | b3 :: _ =>
                if Z.land b0 0xF8 =? 0xF0 then
                  (4, Z.lor (Z.lor (Z.lor (Z.shiftl (Z.land b0 0x07) 18)
                                          (Z.shiftl (Z.land b1 0x3F) 12))
                                   (Z.shiftl (Z.land b2 0x3F) 6))
                            (Z.land b3 0x3F))
                else (1, b0)
              | [] => (1, b0)
              end
          | [] => (1, b0)
          end
      | [] => (1, b0)
      end
  end.

(** ** The context

    [struct tui_context], restricted to the fields the modelled functions
    read or write.  [output_buffer] holds the [output_pos] bytes waiting in
    the C array, so [output_pos] is its length.  The terminal behind
    [tty_fd] is part of the record: [tty_in] are the bytes it has sent that
    no [read] has taken yet, and [tty_out] the bytes [write] has delivered
    to it.  The mouse fields carry the prefix [ctx_] because the event
    record owns the plain names. *)

Record tui_context := mk_context {
  width : Z;
  height : Z;
  front_buffer : list tui_cell;
  back_buffer : list tui_cell;
  current_fg : Z;
  current_bg : Z;
  current_style : Z;
  input_buffer : list Z;
  input_start : Z;
  input_end : Z;
  output_buffer : list Z;
  cursor_x : Z;
  cursor_y : Z;
  cursor_visible : bool;
  button_pressed : bool;
  ctx_mouse_x : Z;
  ctx_mouse_y : Z;
  ctx_mouse_button : tui_mouse_button;
  resized : bool;
  current_underline_color : Z;
  is_pasting : bool;
  initialized : bool;
  in_frame : bool;
  needs_redraw : bool;
  tty_in : list Z;
  tty_out : list Z
}.

Definition set_width (v : Z) (c : tui_context) : tui_context :=
  {| width := v; height := height c; front_buffer := front_buffer c;
     back_buffer := back_buffer c; current_fg := current_fg c;
     current_bg := current_bg c; current_style := current_style c;
     input_buffer := input_buffer c; input_start := input_start c;
     input_end := input_end c; output_buffer := output_buffer c;
     cursor_x := cursor_x c; cursor_y := cursor_y c;
     cursor_visible := cursor_visible c; button_pressed := button_pressed c;
     ctx_mouse_x := ctx_mouse_x c; ctx_mouse_y := ctx_mouse_y c;
     ctx_mouse_button := ctx_mouse_button c; resized := resized c;
     current_underline_color := current_underline_color c;
     is_pasting := is_pasting c; initialized := initialized c;
     in_frame := in_frame c; needs_redraw := needs_redraw c;
     tty_in := tty_in c; tty_out := tty_out c |}.

Definition set_height (v : Z) (c : tui_context) : tui_context :=
  {| width := width c; height := v; front_buffer := front_buffer c;
     back_buffer := back_buffer c; current_fg := current_fg c;
     current_bg := current_bg c; current_style := current_style c;
     input_buffer := input_buffer c; input_start := input_start c;
     input_end := input_end c; output_buffer := output_buffer c;
     cursor_x := cursor_x c; cursor_y := cursor_y c;
     cursor_visible := cursor_visible c; button_pressed := button_pressed c;
     ctx_mouse_x := ctx_mouse_x c; ctx_mouse_y := ctx_mouse_y c;
     ctx_mouse_button := ctx_mouse_button c; resized := resized c;
     current_underline_color := current_underline_color c;
     is_pasting := is_pasting c; initialized := initialized c;
     in_frame := in_frame c; needs_redraw := needs_redraw c;
     tty_in := tty_in c; tty_out := tty_out c |}.

Definition set_front_buffer (v : list tui_cell) (c : tui_context) : tui_context :=
  {| width := width c; height := height c; front_buffer := v;
     back_buffer := back_buffer c; current_fg := current_fg c;
     current_bg := current_bg c; current_style := current_style c;
     input_buffer := input_buffer c; input_start := input_start c;
     input_end := input_end c; output_buffer := output_buffer c;
     cursor_x := cursor_x c; cursor_y := cursor_y c;
     cursor_visible := cursor_visible c; button_pressed := button_pressed c;
     ctx_mouse_x := ctx_mouse_x c; ctx_mouse_y := ctx_mouse_y c;
     ctx_mouse_button := ctx_mouse_button c; resized := resized c;
     current_underline_color := current_underline_color c;
     is_pasting := is_pasting c; initialized := initialized c;
     in_frame := in_frame c; needs_redraw := needs_redraw c;
     tty_in := tty_in c; tty_out := tty_out c |}.

Definition set_back_buffer (v : list tui_cell) (c : tui_context) : tui_context :=
  {| width := width c; height := height c; front_buffer := front_buffer c;
     back_buffer := v; current_fg := current_fg c;
     current_bg := current_bg c; current_style := current_style c;
     input_buffer := input_buffer c; input_start := input_start c;
     input_end := input_end c; output_buffer := output_buffer c;
     cursor_x := cursor_x c; cursor_y := cursor_y c;
     cursor_visible := cursor_visible c; button_pressed := button_pressed c;
     ctx_mouse_x := ctx_mouse_x c; ctx_mouse_y := ctx_mouse_y c;
     ctx_mouse_button := ctx_mouse_button c; resized := resized c;
     current_underline_color := current_underline_color c;
     is_pasting := is_pasting c; initialized := initialized c;
     in_frame := in_frame c; needs_redraw := needs_redraw c;
     tty_in := tty_in c; tty_out := tty_out c |}.

Definition set_current_fg (v : Z) (c : tui_context) : tui_context :=
  {| width := width c; height := height c; front_buffer := front_buffer c;
     back_buffer := back_buffer c; current_fg := v;
     current_bg := current_bg c; current_style := current_style c;
     input_buffer := input_buffer c; input_start := input_start c;
     input_end := input_end c; output_buffer := output_buffer c;
     cursor_x := cursor_x c; cursor_y := cursor_y c;
     cursor_visible := cursor_visible c; button_pressed := button_pressed c;
     ctx_mouse_x := ctx_mouse_x c; ctx_mouse_y := ctx_mouse_y c;
     ctx_mouse_button := ctx_mouse_button c; resized := resized c;
     current_underline_color := current_underline_color c;
     is_pasting := is_pasting c; initialized := initialized c;
     in_frame := in_frame c; needs_redraw := needs_redraw c;
     tty_in := tty_in c; tty_out := tty_out c |}.

Definition set_current_bg (v : Z) (c : tui_context) : tui_context :=
  {| width := width c; height := height c; front_buffer := front_buffer c;
     back_buffer := back_buffer c; current_fg := current_fg c;
     current_bg := v; current_style := current_style c;
     input_buffer := input_buffer c; input_start := input_start c;
     input_end := input_end c; output_buffer := output_buffer c;
     cursor_x := cursor_x c; cursor_y := cursor_y c;
     cursor_visible := cursor_visible c; button_pressed := button_pressed c;
     ctx_mouse_x := ctx_mouse_x c; ctx_mouse_y := ctx_mouse_y c;
     ctx_mouse_button := ctx_mouse_button c; resized := resized c;
     current_underline_color := current_underline_color c;
     is_pasting := is_pasting c; initialized := initialized c;
     in_frame := in_frame c; needs_redraw := needs_redraw c;
     tty_in := tty_in c; tty_out := tty_out c |}.

Definition set_current_style (v : Z) (c : tui_context) : tui_context :=
  {| width := width c; height := height c; front_buffer := front_buffer c;
     back_buffer := back_buffer c; current_fg := current_fg c;
     current_bg := current_bg c; current_style := v;
     input_buffer := input_buffer c; input_start := input_start c;
     input_end := input_end c; output_buffer := output_buffer c;
     cursor_x := cursor_x c; cursor_y := cursor_y c;
     cursor_visible := cursor_visible c; button_pressed := button_pressed c;
     ctx_mouse_x := ctx_mouse_x c; ctx_mouse_y := ctx_mouse_y c;
     ctx_mouse_button := ctx_mouse_button c; resized := resized c;
     current_underline_color := current_underline_color c;
     is_pasting := is_pasting c; initialized := initialized c;
     in_frame := in_frame c; needs_redraw := needs_redraw c;
     tty_in := tty_in c; tty_out := tty_out c |}.

Definition set_input_buffer (v : list Z) (c : tui_context) : tui_context :=
  {| width := width c; height := height c; front_buffer := front_buffer c;
     back_buffer := back_buffer c; current_fg := current_fg c;
     current_bg := current_bg c; current_style := current_style c;
     input_buffer := v; input_start := input_start c;
     input_end := input_end c; output_buffer := output_buffer c;
     cursor_x := cursor_x c; cursor_y := cursor_y c;
     cursor_visible := cursor_visible c; button_pressed := button_pressed c;
     ctx_mouse_x := ctx_mouse_x c; ctx_mouse_y := ctx_mouse_y c;
     ctx_mouse_button := ctx_mouse_button c; resized := resized c;
     current_underline_color := current_underline_color c;
     is_pasting := is_pasting c; initialized := initialized c;
     in_frame := in_frame c; needs_redraw := needs_redraw c;
     tty_in := tty_in c; tty_out := tty_out c |}.

Definition set_input_start (v : Z) (c : tui_context) : tui_context :=
  {| width := width c; height := height c; front_buffer := front_buffer c;
     back_buffer := back_buffer c; current_fg := current_fg c;
     current_bg := current_bg c; current_style := current_style c;
     input_buffer := input_buffer c; input_start := v;
     input_end := input_end c; output_buffer := output_buffer c;
     cursor_x := cursor_x c; cursor_y := cursor_y c;
     cursor_visible := cursor_visible c; button_pressed := button_pressed c;
     ctx_mouse_x := ctx_mouse_x c; ctx_mouse_y := ctx_mouse_y c;
     ctx_mouse_button := ctx_mouse_button c; resized := resized c;
     current_underline_color := current_underline_color c;
     is_pasting := is_pasting c; initialized := initialized c;
     in_frame := in_frame c; needs_redraw := needs_redraw c;
     tty_in := tty_in c; tty_out := tty_out c |}.

Definition set_input_end (v : Z) (c : tui_context) : tui_context :=
  {| width := width c; height := height c; front_buffer := front_buffer c;
     back_buffer := back_buffer c; current_fg := current_fg c;
     current_bg := current_bg c; current_style := current_style c;
     input_buffer := input_buffer c; input_start := input_start c;
     input_end := v; output_buffer := output_buffer c;
     cursor_x := cursor_x c; cursor_y := cursor_y c;
     cursor_visible := cursor_visible c; button_pressed := button_pressed c;
     ctx_mouse_x := ctx_mouse_x c; ctx_mouse_y := ctx_mouse_y c;
     ctx_mouse_button := ctx_mouse_button c; resized := resized c;
     current_underline_color := current_underline_color c;
     is_pasting := is_pasting c; initialized := initialized c;
     in_frame := in_frame c; needs_redraw := needs_redraw c;
     tty_in := tty_in c; tty_out := tty_out c |}.

Definition set_output_buffer (v : list Z) (c : tui_context) : tui_context :=
  {| width := width c; height := height c; front_buffer := front_buffer c;
     back_buffer := back_buffer c; current_fg := current_fg c;
     current_bg := current_bg c; current_style := current_style c;
     input_buffer := input_buffer c; input_start := input_start c;
     input_end := input_end c; output_buffer := v; cursor_x := cursor_x c;
     cursor_y := cursor_y c; cursor_visible := cursor_visible c;
     button_pressed := button_pressed c; ctx_mouse_x := ctx_mouse_x c;
     ctx_mouse_y := ctx_mouse_y c; ctx_mouse_button := ctx_mouse_button c;
     resized := resized c;
     current_underline_color := current_underline_color c;
     is_pasting := is_pasting c; initialized := initialized c;
     in_frame := in_frame c; needs_redraw := needs_redraw c;
     tty_in := tty_in c; tty_out := tty_out c |}.

Definition set_cursor_x (v : Z) (c : tui_context) : tui_context :=
  {| width := width c; height := height c; front_buffer := front_buffer c;
     back_buffer := back_buffer c; current_fg := current_fg c;
     current_bg := current_bg c; current_style := current_style c;
     input_buffer := input_buffer c; input_start := input_start c;
     input_end := input_end c; output_buffer := output_buffer c;
     cursor_x := v; cursor_y := cursor_y c;
     cursor_visible := cursor_visible c; button_pressed := button_pressed c;
     ctx_mouse_x := ctx_mouse_x c; ctx_mouse_y := ctx_mouse_y c;
     ctx_mouse_button := ctx_mouse_button c; resized := resized c;
     current_underline_color := current_underline_color c;
     is_pasting := is_pasting c; initialized := initialized c;
     in_frame := in_frame c; needs_redraw := needs_redraw c;
     tty_in := tty_in c; tty_out := tty_out c |}.

Definition set_cursor_y (v : Z) (c : tui_context) : tui_context :=
  {| width := width c; height := height c; front_buffer := front_buffer c;
     back_buffer := back_buffer c; current_fg := current_fg c;
     current_bg := current_bg c; current_style := current_style c;
     input_buffer := input_buffer c; input_start := input_start c;
     input_end := input_end c; output_buffer := output_buffer c;
     cursor_x := cursor_x c; cursor_y := v;
     cursor_visible := cursor_visible c; button_pressed := button_pressed c;
     ctx_mouse_x := ctx_mouse_x c; ctx_mouse_y := ctx_mouse_y c;
     ctx_mouse_button := ctx_mouse_button c; resized := resized c;
     current_underline_color := current_underline_color c;
     is_pasting := is_pasting c; initialized := initialized c;
     in_frame := in_frame c; needs_redraw := needs_redraw c;
     tty_in := tty_in c; tty_out := tty_out c |}.

Definition set_cursor_visible (v : bool) (c : tui_context) : tui_context :=
  {| width := width c; height := height c; front_buffer := front_buffer c;
     back_buffer := back_buffer c; current_fg := current_fg c;
     current_bg := current_bg c; current_style := current_style c;
     input_buffer := input_buffer c; input_start := input_start c;
     input_end := input_end c; output_buffer := output_buffer c;
     cursor_x := cursor_x c; cursor_y := cursor_y c; cursor_visible := v;
     button_pressed := button_pressed c; ctx_mouse_x := ctx_mouse_x c;
     ctx_mouse_y := ctx_mouse_y c; ctx_mouse_button := ctx_mouse_button c;
     resized := resized c;
     current_underline_color := current_underline_color c;
     is_pasting := is_pasting c; initialized := initialized c;
     in_frame := in_frame c; needs_redraw := needs_redraw c;
     tty_in := tty_in c; tty_out := tty_out c |}.

Definition set_button_pressed (v : bool) (c : tui_context) : tui_context :=
  {| width := width c; height := height c; front_buffer := front_buffer c;
     back_buffer := back_buffer c; current_fg := current_fg c;
     current_bg := current_bg c; current_style := current_style c;
     input_buffer := input_buffer c; input_start := input_start c;
     input_end := input_end c; output_buffer := output_buffer c;
     cursor_x := cursor_x c; cursor_y := cursor_y c;
     cursor_visible := cursor_visible c; button_pressed := v;
     ctx_mouse_x := ctx_mouse_x c; ctx_mouse_y := ctx_mouse_y c;
     ctx_mouse_button := ctx_mouse_button c; resized := resized c;
     current_underline_color := current_underline_color c;
     is_pasting := is_pasting c; initialized := initialized c;
     in_frame := in_frame c; needs_redraw := needs_redraw c;
     tty_in := tty_in c; tty_out := tty_out c |}.

Definition set_ctx_mouse_x (v : Z) (c : tui_context) : tui_context :=
  {| width := width c; height := height c; front_buffer := front_buffer c;
     back_buffer := back_buffer c; current_fg := current_fg c;
     current_bg := current_bg c; current_style := current_style c;
     input_buffer := input_buffer c; input_start := input_start c;
     input_end := input_end c; output_buffer := output_buffer c;
     cursor_x := cursor_x c; cursor_y := cursor_y c;
     cursor_visible := cursor_visible c; button_pressed := button_pressed c;
     ctx_mouse_x := v; ctx_mouse_y := ctx_mouse_y c;
     ctx_mouse_button := ctx_mouse_button c; resized := resized c;
     current_underline_color := current_underline_color c;
     is_pasting := is_pasting c; initialized := initialized c;
     in_frame := in_frame c; needs_redraw := needs_redraw c;
     tty_in := tty_in c; tty_out := tty_out c |}.

Definition set_ctx_mouse_y (v : Z) (c : tui_context) : tui_context :=
  {| width := width c; height := height c; front_buffer := front_buffer c;
     back_buffer := back_buffer c; current_fg := current_fg c;
     current_bg := current_bg c; current_style := current_style c;
     input_buffer := input_buffer c; input_start := input_start c;
     input_end := input_end c; output_buffer := output_buffer c;
     cursor_x := cursor_x c; cursor_y := cursor_y c;
     cursor_visible := cursor_visible c; button_pressed := button_pressed c;
     ctx_mouse_x := ctx_mouse_x c; ctx_mouse_y := v;
     ctx_mouse_button := ctx_mouse_button c; resized := resized c;
     current_underline_color := current_underline_color c;
     is_pasting := is_pasting c; initialized := initialized c;
     in_frame := in_frame c; needs_redraw := needs_redraw c;
     tty_in := tty_in c; tty_out := tty_out c |}.

Definition set_ctx_mouse_button (v : tui_mouse_button) (c : tui_context) : tui_context :=
  {| width := width c; height := height c; front_buffer := front_buffer c;
     back_buffer := back_buffer c; current_fg := current_fg c;
     current_bg := current_bg c; current_style := current_style c;
     input_buffer := input_buffer c; input_start := input_start c;
     input_end := input_end c; output_buffer := output_buffer c;
     cursor_x := cursor_x c; cursor_y := cursor_y c;
     cursor_visible := cursor_visible c; button_pressed := button_pressed c;
     ctx_mouse_x := ctx_mouse_x c; ctx_mouse_y := ctx_mouse_y c;
     ctx_mouse_button := v; resized := resized c;
     current_underline_color := current_underline_color c;
     is_pasting := is_pasting c; initialized := initialized c;
     in_frame := in_frame c; needs_redraw := needs_redraw c;
     tty_in := tty_in c; tty_out := tty_out c |}.

Definition set_resized (v : bool) (c : tui_context) : tui_context :=
  {| width := width c; height := height c; front_buffer := front_buffer c;
     back_buffer := back_buffer c; current_fg := current_fg c;
     current_bg := current_bg c; current_style := current_style c;
     input_buffer := input_buffer c; input_start := input_start c;
     input_end := input_end c; output_buffer := output_buffer c;
     cursor_x := cursor_x c; cursor_y := cursor_y c;
     cursor_visible := cursor_visible c; button_pressed := button_pressed c;
     ctx_mouse_x := ctx_mouse_x c; ctx_mouse_y := ctx_mouse_y c;
     ctx_mouse_button := ctx_mouse_button c; resized := v;
     current_underline_color := current_underline_color c;
     is_pasting := is_pasting c; initialized := initialized c;
     in_frame := in_frame c; needs_redraw := needs_redraw c;
     tty_in := tty_in c; tty_out := tty_out c |}.

Definition set_current_underline_color (v : Z) (c : tui_context) : tui_context :=
  {| width := width c; height := height c; front_buffer := front_buffer c;
     back_buffer := back_buffer c; current_fg := current_fg c;
     current_bg := current_bg c; current_style := current_style c;
     input_buffer := input_buffer c; input_start := input_start c;
     input_end := input_end c; output_buffer := output_buffer c;
     cursor_x := cursor_x c; cursor_y := cursor_y c;
     cursor_visible := cursor_visible c; button_pressed := button_pressed c;
     ctx_mouse_x := ctx_mouse_x c; ctx_mouse_y := ctx_mouse_y c;
     ctx_mouse_button := ctx_mouse_button c; resized := resized c;
     current_underline_color := v; is_pasting := is_pasting c;
     initialized := initialized c; in_frame := in_frame c;
     needs_redraw := needs_redraw c; tty_in := tty_in c;
     tty_out := tty_out c |}.

Definition set_is_pasting (v : bool) (c : tui_context) : tui_context :=
  {| width := width c; height := height c; front_buffer := front_buffer c;
     back_buffer := back_buffer c; current_fg := current_fg c;
     current_bg := current_bg c; current_style := current_style c;
     input_buffer := input_buffer c; input_start := input_start c;
     input_end := input_end c; output_buffer := output_buffer c;
     cursor_x := cursor_x c; cursor_y := cursor_y c;
     cursor_visible := cursor_visible c; button_pressed := button_pressed c;
     ctx_mouse_x := ctx_mouse_x c; ctx_mouse_y := ctx_mouse_y c;
     ctx_mouse_button := ctx_mouse_button c; resized := resized c;
     current_underline_color := current_underline_color c; is_pasting := v;
     initialized := initialized c; in_frame := in_frame c;
     needs_redraw := needs_redraw c; tty_in := tty_in c;
     tty_out := tty_out c |}.

Definition set_in_frame (v : bool) (c : tui_context) : tui_context :=
  {| width := width c; height := height c; front_buffer := front_buffer c;
     back_buffer := back_buffer c; current_fg := current_fg c;
     current_bg := current_bg c; current_style := current_style c;
     input_buffer := input_buffer c; input_start := input_start c;
     input_end := input_end c; output_buffer := output_buffer c;
     cursor_x := cursor_x c; cursor_y := cursor_y c;
     cursor_visible := cursor_visible c; button_pressed := button_pressed c;
     ctx_mouse_x := ctx_mouse_x c; ctx_mouse_y := ctx_mouse_y c;
     ctx_mouse_button := ctx_mouse_button c; resized := resized c;
     current_underline_color := current_underline_color c;
     is_pasting := is_pasting c; initialized := initialized c; in_frame := v;
     needs_redraw := needs_redraw c; tty_in := tty_in c;
     tty_out := tty_out c |}.

Definition set_needs_redraw (v : bool) (c : tui_context) : tui_context :=
  {| width := width c; height := height c; front_buffer := front_buffer c;
     back_buffer := back_buffer c; current_fg := current_fg c;
     current_bg := current_bg c; current_style := current_style c;
     input_buffer := input_buffer c; input_start := input_start c;
     input_end := input_end c; output_buffer := output_buffer c;
     cursor_x := cursor_x c; cursor_y := cursor_y c;
     cursor_visible := cursor_visible c; button_pressed := button_pressed c;
     ctx_mouse_x := ctx_mouse_x c; ctx_mouse_y := ctx_mouse_y c;
     ctx_mouse_button := ctx_mouse_button c; resized := resized c;
     current_underline_color := current_underline_color c;
     is_pasting := is_pasting c; initialized := initialized c;
     in_frame := in_frame c; needs_redraw := v; tty_in := tty_in c;
     tty_out := tty_out c |}.

Definition set_tty_in (v : list Z) (c : tui_context) : tui_context :=
  {| width := width c; height := height c; front_buffer := front_buffer c;
     back_buffer := back_buffer c; current_fg := current_fg c;
     current_bg := current_bg c; current_style := current_style c;
     input_buffer := input_buffer c; input_start := input_start c;
     input_end := input_end c; output_buffer := output_buffer c;
     cursor_x := cursor_x c; cursor_y := cursor_y c;
     cursor_visible := cursor_visible c; button_pressed := button_pressed c;
     ctx_mouse_x := ctx_mouse_x c; ctx_mouse_y := ctx_mouse_y c;
     ctx_mouse_button := ctx_mouse_button c; resized := resized c;
     current_underline_color := current_underline_color c;
     is_pasting := is_pasting c; initialized := initialized c;
     in_frame := in_frame c; needs_redraw := needs_redraw c; tty_in := v;
     tty_out := tty_out c |}.

Definition set_tty_out (v : list Z) (c : tui_context) : tui_context :=
  {| width := width c; height := height c; front_buffer := front_buffer c;
     back_buffer := back_buffer c; current_fg := current_fg c;
     current_bg := current_bg c; current_style := current_style c;
     input_buffer := input_buffer c; input_start := input_start c;
     input_end := input_end c; output_buffer := output_buffer c;
     cursor_x := cursor_x c; cursor_y := cursor_y c;
     cursor_visible := cursor_visible c; button_pressed := button_pressed c;
     ctx_mouse_x := ctx_mouse_x c; ctx_mouse_y := ctx_mouse_y c;
     ctx_mouse_button := ctx_mouse_button c; resized := resized c;
     current_underline_color := current_underline_color c;
     is_pasting := is_pasting c; initialized := initialized c;
     in_frame := in_frame c; needs_redraw := needs_redraw c;
     tty_in := tty_in c; tty_out := v |}.

(** ** Output encoder *)

Definition ESC : Z := 27.

(** The bytes of a string literal of the source. *)
Definition bytes (s : string) : list Z :=
  map (fun a => Z.of_nat (nat_of_ascii a)) (list_ascii_of_string s).

Definition output_pos (c : tui_context) : Z :=
  Z.of_nat (length (output_buffer c)).

(** Everything the encoder has been given so far, in order: what reached
    the terminal followed by what still waits in the buffer. *)
Definition emitted (c : tui_context) : list Z := tty_out c ++ output_buffer c.

(** [write] is taken to succeed: the retry loop ends with the whole buffer
    delivered. *)
Definition tui_output_flush (c : tui_context) : tui_context :=
  if 0 <? output_pos c then
    set_output_buffer [] (set_tty_out (tty_out c ++ output_buffer c) c)
  else c.

(** The [while (len > 0)] loop of [tui_output_write]; each turn copies at
    least one byte, so [length data] turns are enough. *)
Fixpoint output_write_loop (fuel : nat) (c : tui_context) (data : list Z)
  : tui_context :=
  match fuel with
  | O => c
  | S fuel' =>
    let len := Z.of_nat (length data) in
    if 0 <? len then
      let space := TUI_OUTPUT_BUFFER_SIZE - output_pos c in
      let c1 := if space =? 0 then tui_output_flush c else c in
      let space1 := if space =? 0 then TUI_OUTPUT_BUFFER_SIZE else space in
      let chunk := if len <? space1 then len else space1 in
      let c2 :=
        set_output_buffer (output_buffer c1 ++ take (Z.to_nat chunk) data) c1 in
      output_write_loop fuel' c2 (drop (Z.to_nat chunk) data)
    else c
  end.

Definition tui_output_write (c : tui_context) (data : list Z) : tui_context :=
  output_write_loop (length data) c data.

Definition tui_output_str (c : tui_context) (str : list Z) : tui_context :=
  tui_output_write c str.

(** [while (value > 0 && pos > 0) { buf[--pos] = '0' + value % 10; ... }];
    the result is [pos] and the characters from [buf + pos] on. *)
Fixpoint int_digits_loop (fuel : nat) (value pos : Z) (buf : list Z)
  : Z * list Z :=
  match fuel with
  | O => (pos, buf)
  | S fuel' =>
    if (0 <? value) && (0 <? pos) then
      int_digits_loop fuel' (Z.quot value 10) (pos - 1)
                      ((48 + Z.rem value 10) :: buf)
    else (pos, buf)
  end.

(** The string [buf + pos] that [tui_output_int] builds. *)
Definition decimal (value : Z) : list Z :=
  if value =? 0 then [48]
  else
    let neg := value <? 0 in
    let value := if neg then int_wrap (- value) else value in
    let '(pos, buf) := int_digits_loop 15 value 15 [] in
    if neg && (0 <? pos) then 45 :: buf else buf.

Definition tui_output_int (c : tui_context) (value : Z) : tui_context :=
  tui_output_str c (decimal value).

Definition tui_ansi_move_cursor (c : tui_context) (x y : Z) : tui_context :=
  let c := tui_output_str c (ESC :: bytes "[") in
  let c := tui_output_int c (int_wrap (y + 1)) in
  let c := tui_output_str c (bytes ";") in
  let c := tui_output_int c (int_wrap (x + 1)) in
  tui_output_str c (bytes "H").

Definition tui_ansi_hide_cursor (c : tui_context) : tui_context :=
  tui_output_str c (ESC :: bytes "[?25l").

Definition tui_ansi_show_cursor (c : tui_context) : tui_context :=
  tui_output_str c (ESC :: bytes "[?25h").

Definition tui_ansi_reset (c : tui_context) : tui_context :=
  tui_output_str c (ESC :: bytes "[0m").

Definition tui_ansi_set_fg (c : tui_context) (color : Z) : tui_context :=
  if negb (Z.land color 0x80000000 =? 0) then
    tui_output_str c (ESC :: bytes "[39m")
  else
    let c := tui_output_str c (ESC :: bytes "[38;2;") in
    let c := tui_output_int c (Z.land (Z.shiftr color 16) 0xFF) in
    let c := tui_output_str c (bytes ";") in
    let c := tui_output_int c (Z.land (Z.shiftr color 8) 0xFF) in
    let c := tui_output_str c (bytes ";") in
    let c := tui_output_int c (Z.land color 0xFF) in
    tui_output_str c (bytes "m").

Definition tui_ansi_set_bg (c : tui_context) (color : Z) : tui_context :=
  if negb (Z.land color 0x80000000 =? 0) then
    tui_output_str c (ESC :: bytes "[49m")
  else
    let c := tui_output_str c (ESC :: bytes "[48;2;") in
    let c := tui_output_int c (Z.land (Z.shiftr color 16) 0xFF) in
    let c := tui_output_str c (bytes ";") in
    let c := tui_output_int c (Z.land (Z.shiftr color 8) 0xFF) in
    let c := tui_output_str c (bytes ";") in
    let c := tui_output_int c (Z.land color 0xFF) in
    tui_output_str c (bytes "m").

Definition style_has (style flag : Z) : bool := negb (Z.land style flag =? 0).

Definition tui_ansi_set_style (c : tui_context) (style : Z) : tui_context :=
  let c := if style_has style TUI_STYLE_BOLD
           then tui_output_str c (ESC :: bytes "[1m") else c in
  let c := if style_has style TUI_STYLE_DIM
           then tui_output_str c (ESC :: bytes "[2m") else c in
  let c := if style_has style TUI_STYLE_ITALIC
           then tui_output_str c (ESC :: bytes "[3m") else c in
  let c := if style_has style TUI_STYLE_UNDERLINE
           then tui_output_str c (ESC :: bytes "[4m") else c in
  let c := if style_has style TUI_STYLE_BLINK
           then tui_output_str c (ESC :: bytes "[5m") else c in
  let c := if style_has style TUI_STYLE_REVERSE
           then tui_output_str c (ESC :: bytes "[7m") else c in
  let c := if style_has style TUI_STYLE_STRIKETHROUGH
           then tui_output_str c (ESC :: bytes "[9m") else c in
  if style_has style TUI_STYLE_UNDERCURL
  then tui_output_str c (ESC :: bytes "[4:3m") else c.

(** [snprintf(buf, sizeof buf, "\x1b[58;2;%d;%d;%dm", r, g, b)]: the three
    components are bytes, so the 24-byte buffer is never too small. *)
Definition tui_ansi_set_underline_color (c : tui_context) (color : Z)
  : tui_context :=
  if negb (Z.land color 0x80000000 =? 0) then
    tui_output_str c (ESC :: bytes "[59m")
  else
    let r := Z.land (Z.shiftr color 16) 0xFF in
    let g := Z.land (Z.shiftr color 8) 0xFF in
    let b := Z.land color 0xFF in
    tui_output_str c
      (ESC :: bytes "[58;2;" ++ decimal r ++ bytes ";" ++ decimal g
           ++ bytes ";" ++ decimal b ++ bytes "m").

Definition BEGIN_SYNC : list Z := ESC :: bytes "[?2026h".
Definition END_SYNC : list Z := ESC :: bytes "[?2026l".

Definition tui_ansi_begin_sync (c : tui_context) : tui_context :=
  tui_output_str c BEGIN_SYNC.

Definition tui_ansi_end_sync (c : tui_context) : tui_context :=
  tui_output_str c END_SYNC.

(** ** Buffers *)

Definition tui_make_empty_cell : tui_cell :=
  mk_cell 32 TUI_COLOR_DEFAULT TUI_COLOR_DEFAULT TUI_COLOR_DEFAULT
          TUI_STYLE_NONE.

(** [y * TUI_MAX_WIDTH + x], as an index into a buffer. *)
Definition cell_index (x y : Z) : nat := Z.to_nat (y * TUI_MAX_WIDTH + x).

Definition tui_clear_buffer (buffer : list tui_cell) (width height : Z)
  : list tui_cell :=
  foldl (fun buf y =>
           foldl (fun buf x => <[cell_index x y := tui_make_empty_cell]> buf)
                 buf (seqZ 0 width))
        buffer (seqZ 0 height).

Definition tui_cell_equal (a b : tui_cell) : bool :=
  (codepoint a =? codepoint b) && (fg a =? fg b) && (bg a =? bg b)
  && (underline_color a =? underline_color b) && (style a =? style b).

(** [ws] is what the size query answers: [Some (cols, rows)] when the
    [ioctl] succeeds, [None] when it fails.  *)
Definition tui_get_terminal_size (c : tui_context) (ws : option (Z * Z))
  : tui_context :=
  let '(w, h) :=
    match ws with
    | Some (ws_col, ws_row) =>
      if (0 <? ws_col) && (0 <? ws_row) then (ws_col, ws_row) else (80, 24)
    | None => (80, 24)
    end in
  let w := if TUI_MAX_WIDTH <? w then TUI_MAX_WIDTH else w in
  let h := if TUI_MAX_HEIGHT <? h then TUI_MAX_HEIGHT else h in
  set_height h (set_width w c).

(** ** Frame life cycle and drawing calls

    For a public function [tui_f] that starts with [if (!ctx) return], the
    embedding has [ctx_f], the function on the context the pointer refers
    to, here, and [Api.tui_f] on the pointer itself, with its test, in the
    module [Api] below. *)

Definition ctx_begin_frame (c : tui_context) (ws : option (Z * Z))
  : tui_context :=
  if negb (initialized c) then c
  else
    let c := tui_get_terminal_size c ws in
    let c := set_back_buffer
               (tui_clear_buffer (back_buffer c) TUI_MAX_WIDTH TUI_MAX_HEIGHT)
               c in
    let c := set_current_fg TUI_COLOR_DEFAULT c in
    let c := set_current_bg TUI_COLOR_DEFAULT c in
    let c := set_current_style TUI_STYLE_NONE c in
    let c := set_button_pressed false c in
    set_in_frame true c.

(** The cell a drawing call stores: the code point with the current pen. *)
Definition pen_cell (c : tui_context) (cp : Z) : tui_cell :=
  mk_cell cp (current_fg c) (current_bg c) (current_underline_color c)
          (current_style c).

Definition ctx_set_cell (c : tui_context) (x y codepoint : Z) : tui_context :=
  if negb (in_frame c) then c
  else if (x <? 0) || (width c <=? x) || (y <? 0) || (height c <=? y) then c
  else
    set_back_buffer (<[cell_index x y := pen_cell c codepoint]> (back_buffer c))
                    c.

Definition ctx_set_cell_wide (c : tui_context) (x y codepoint : Z)
  : tui_context :=
  if negb (in_frame c) then c
  else if (x <? 0) || (width c - 1 <=? x) || (y <? 0) || (height c <=? y)
  then c
  else
    let b := <[cell_index x y := pen_cell c codepoint]> (back_buffer c) in
    let b := <[cell_index (x + 1) y := pen_cell c 32]> b in
    set_back_buffer b c.

(** One turn of the [while] loop of [tui_label], entered with
    [pos < len] and [cur_x < ctx->width]: [rest] is the text from [pos] on;
    the result is the context, [y], [cur_x] and the bytes to skip. *)
Definition label_step (c : tui_context) (x y cur_x : Z) (rest : list Z)
  : tui_context * Z * Z * Z :=
  let '(char_len, codepoint) := tui_utf8_decode rest in
  if codepoint =? 10 then (c, y + 1, x, char_len)
  else if 32 <=? codepoint then
    let char_width := tui_char_width codepoint in
    if char_width =? 2 then
      if cur_x + 1 <? width c then
        (ctx_set_cell_wide c cur_x y codepoint, y, cur_x + 2, char_len)
      else (c, y, cur_x + 1, char_len)
    else if char_width =? 1 then
      (ctx_set_cell c cur_x y codepoint, y, cur_x + 1, char_len)
    else (c, y, cur_x, char_len)
  else (c, y, cur_x, char_len).

(** The loop itself.  Every turn skips at least one byte, so a fuel of
    [length text] never runs out before the text does. *)
Fixpoint label_loop (fuel : nat) (c : tui_context) (x y cur_x : Z)
  (rest : list Z) : tui_context :=
  match fuel with
  | O => c
  | S fuel' =>
    if (0 <? Z.of_nat (length rest)) && (cur_x <? width c) then
      let '(c', y', cur_x', char_len) := label_step c x y cur_x rest in
      label_loop fuel' c' x y' cur_x' (drop (Z.to_nat char_len) rest)
    else c
  end.

Definition ctx_label (c : tui_context) (x y : Z) (text : option (list Z))
  : tui_context :=
  match text with
  | None => c
  | Some text =>
    if negb (in_frame c) then c
    else label_loop (length text) c x y x text
  end.

(** The running values of the diff loop of [tui_end_frame]. *)
Record diff_state := mk_diff {
  ds_ctx : tui_context;
  last_fg : Z;
  last_bg : Z;
  last_underline_color : Z;
  last_style : Z;
  last_x : Z;
  last_y : Z
}.

(** The body of the inner loop, for the cell at [(x, y)]. *)
Definition diff_cell (st : diff_state) (x y : Z) : diff_state :=
  let c := ds_ctx st in
  let idx := cell_index x y in
  match front_buffer c !! idx, back_buffer c !! idx with
  | Some front, Some back =>
    if tui_cell_equal front back then st
    else
      let c := if negb (last_x st =? x - 1) || negb (last_y st =? y)
               then tui_ansi_move_cursor c x y else c in
      let restyle := negb (style back =? last_style st) in
      let c := if restyle
               then tui_ansi_set_style (tui_ansi_reset c) (style back)
               else c in
      let l_style := if restyle then style back else last_style st in
      let l_fg := if restyle then 0xFFFFFFFF else last_fg st in
      let l_bg := if restyle then 0xFFFFFFFF else last_bg st in
      let l_ul := if restyle then 0xFFFFFFFF else last_underline_color st in
      let fg_changed := negb (fg back =? l_fg) in
      let c := if fg_changed then tui_ansi_set_fg c (fg back) else c in
      let l_fg := if fg_changed then fg back else l_fg in
      let bg_changed := negb (bg back =? l_bg) in
      let c := if bg_changed then tui_ansi_set_bg c (bg back) else c in
      let l_bg := if bg_changed then bg back else l_bg in
      let ul_changed := negb (underline_color back =? l_ul) in
      let c := if ul_changed
               then tui_ansi_set_underline_color c (underline_color back)
               else c in
      let l_ul := if ul_changed then underline_color back else l_ul in
      let c := tui_output_write c (tui_utf8_encode (codepoint back)) in
      let c := set_front_buffer (<[idx := back]> (front_buffer c)) c in
      mk_diff c l_fg l_bg l_ul l_style x y
  | _, _ => st
  end.

Definition diff_row (st : diff_state) (y : Z) : diff_state :=
  foldl (fun st x => diff_cell st x y) st (seqZ 0 (width (ds_ctx st))).

Definition diff_loop (st : diff_state) : diff_state :=
  foldl diff_row st (seqZ 0 (height (ds_ctx st))).

(** [tui_end_frame], block by block.  First the full redraw that
    [needs_redraw] asks for: reset, erase, home, flush, and a blank front
    buffer. *)
Definition hard_clear (c : tui_context) : tui_context :=
  tui_output_flush
    (tui_output_str
       (tui_output_str (tui_output_str c (ESC :: bytes "[0m"))
                       (ESC :: bytes "[2J"))
       (ESC :: bytes "[H")).

Definition redraw_prologue (c : tui_context) : tui_context :=
  if needs_redraw c then
    let c := hard_clear (set_needs_redraw false c) in
    set_front_buffer
      (tui_clear_buffer (front_buffer c) TUI_MAX_WIDTH TUI_MAX_HEIGHT) c
  else c.

(** The values the diff loop starts from. *)
Definition diff_start (c : tui_context) : diff_state :=
  mk_diff c 0xFFFFFFFF 0xFFFFFFFF 0xFFFFFFFF 0xFF (-2) (-2).

(** After the diff: the cursor, the end of the synchronized block, the
    flush. *)
Definition place_cursor (c : tui_context) : tui_context :=
  if cursor_visible c
  then tui_ansi_show_cursor (tui_ansi_move_cursor c (cursor_x c) (cursor_y c))
  else c.

Definition frame_epilogue (c : tui_context) : tui_context :=
  set_in_frame false (tui_output_flush (tui_ansi_end_sync (place_cursor c))).

Definition ctx_end_frame (c : tui_context) : tui_context :=
  if negb (initialized c) || negb (in_frame c) then c
  else
    let c := redraw_prologue c in
    let c := tui_ansi_begin_sync c in
    let st := diff_loop (diff_start c) in
    frame_epilogue (ds_ctx st).

Definition ctx_set_cursor (c : tui_context) (x y : Z) : tui_context :=
  set_cursor_y y (set_cursor_x x c).

Definition ctx_show_cursor (c : tui_context) (show : bool) : tui_context :=
  let c := set_cursor_visible show c in
  if negb (in_frame c) then
    tui_output_flush
      (if show then tui_ansi_show_cursor c else tui_ansi_hide_cursor c)
  else c.

Definition ctx_fill (c : tui_context) (x y w h ch : Z) : tui_context :=
  if negb (in_frame c) then c
  else
    foldl (fun c j =>
             foldl (fun c i => ctx_set_cell c (x + i) (y + j) ch) c (seqZ 0 w))
          c (seqZ 0 h).

Definition ctx_clear (c : tui_context) : tui_context :=
  if negb (in_frame c) then c
  else
    foldl (fun c y =>
             foldl (fun c x => ctx_set_cell c x y 32) c (seqZ 0 (width c)))
          c (seqZ 0 (height c)).

Definition ctx_hline (c : tui_context) (x y len ch : Z) : tui_context :=
  if negb (in_frame c) then c
  else foldl (fun c i => ctx_set_cell c (x + i) y ch) c (seqZ 0 len).

Definition ctx_vline (c : tui_context) (x y len ch : Z) : tui_context :=
  if negb (in_frame c) then c
  else foldl (fun c i => ctx_set_cell c x (y + i) ch) c (seqZ 0 len).

(** The calls a host makes on a live context between and inside frames,
    other than the two frame boundaries. *)
Inductive draw_call :=
| SetFg (color : Z)
| SetBg (color : Z)
| SetStyle (style : Z)
| SetUnderlineColor (color : Z)
| SetCell (x y codepoint : Z)
| SetCellWide (x y codepoint : Z)
| Label (x y : Z) (text : option (list Z))
| Fill (x y w h ch : Z)
| Hline (x y len ch : Z)
| Vline (x y len ch : Z)
| Clear
| SetCursor (x y : Z)
| ShowCursor (show : bool).

Definition run_draw_call (c : tui_context) (d : draw_call) : tui_context :=
  match d with
  | SetFg color => set_current_fg color c
  | SetBg color => set_current_bg color c
  | SetStyle s => set_current_style s c
  | SetUnderlineColor color => set_current_underline_color color c
  | SetCell x y cp => ctx_set_cell c x y cp
  | SetCellWide x y cp => ctx_set_cell_wide c x y cp
  | Label x y text => ctx_label c x y text
  | Fill x y w h ch => ctx_fill c x y w h ch
  | Hline x y len ch => ctx_hline c x y len ch
  | Vline x y len ch => ctx_vline c x y len ch
  | Clear => ctx_clear c
  | SetCursor x y => ctx_set_cursor c x y
  | ShowCursor show => ctx_show_cursor c show
  end.

Definition run_draw_calls (c : tui_context) (ds : list draw_call)
  : tui_context := foldl run_draw_call c ds.

(** A cell of the visible rectangle. *)
Definition visible (c : tui_context) (x y : Z) : Prop :=
  0 <= x < width c /\ 0 <= y < height c.

(** What [tui_create] establishes and every modelled function keeps: both
    buffers have [TUI_MAX_WIDTH * TUI_MAX_HEIGHT] cells, the terminal size
    is clamped, the output buffer has not overrun. *)
Record ctx_wf (c : tui_context) : Prop := mk_ctx_wf {
  wf_front : length (front_buffer c) = Z.to_nat (TUI_MAX_WIDTH * TUI_MAX_HEIGHT);
  wf_back : length (back_buffer c) = Z.to_nat (TUI_MAX_WIDTH * TUI_MAX_HEIGHT);
  wf_width : width c <= TUI_MAX_WIDTH;
  wf_height : height c <= TUI_MAX_HEIGHT;
  wf_output : output_pos c <= TUI_OUTPUT_BUFFER_SIZE
}.

(** ** Events: field updates *)


Definition set_type (v : tui_event_type) (e : tui_event) : tui_event :=
  {| type := v; key := key e; ch := ch e; mouse_button := mouse_button e;
     mouse_x := mouse_x e; mouse_y := mouse_y e; new_width := new_width e;
     new_height := new_height e; ctrl := ctrl e; alt := alt e;
     shift := shift e |}.

Definition set_key (v : tui_key) (e : tui_event) : tui_event :=
  {| type := type e; key := v; ch := ch e; mouse_button := mouse_button e;
     mouse_x := mouse_x e; mouse_y := mouse_y e; new_width := new_width e;
     new_height := new_height e; ctrl := ctrl e; alt := alt e;
     shift := shift e |}.

Definition set_ch (v : Z) (e : tui_event) : tui_event :=
  {| type := type e; key := key e; ch := v; mouse_button := mouse_button e;
     mouse_x := mouse_x e; mouse_y := mouse_y e; new_width := new_width e;
     new_height := new_height e; ctrl := ctrl e; alt := alt e;
     shift := shift e |}.

Definition set_mouse_button (v : tui_mouse_button) (e : tui_event) : tui_event :=
  {| type := type e; key := key e; ch := ch e; mouse_button := v;
     mouse_x := mouse_x e; mouse_y := mouse_y e; new_width := new_width e;
     new_height := new_height e; ctrl := ctrl e; alt := alt e;
     shift := shift e |}.

Definition set_mouse_x (v : Z) (e : tui_event) : tui_event :=
  {| type := type e; key := key e; ch := ch e;
     mouse_button := mouse_button e; mouse_x := v; mouse_y := mouse_y e;
     new_width := new_width e; new_height := new_height e; ctrl := ctrl e;
     alt := alt e; shift := shift e |}.

Definition set_mouse_y (v : Z) (e : tui_event) : tui_event :=
  {| type := type e; key := key e; ch := ch e;
     mouse_button := mouse_button e; mouse_x := mouse_x e; mouse_y := v;
     new_width := new_width e; new_height := new_height e; ctrl := ctrl e;
     alt := alt e; shift := shift e |}.

Definition set_new_width (v : Z) (e : tui_event) : tui_event :=
  {| type := type e; key := key e; ch := ch e;
     mouse_button := mouse_button e; mouse_x := mouse_x e;
     mouse_y := mouse_y e; new_width := v; new_height := new_height e;
     ctrl := ctrl e; alt := alt e; shift := shift e |}.

Definition set_new_height (v : Z) (e : tui_event) : tui_event :=
  {| type := type e; key := key e; ch := ch e;
     mouse_button := mouse_button e; mouse_x := mouse_x e;
     mouse_y := mouse_y e; new_width := new_width e; new_height := v;
     ctrl := ctrl e; alt := alt e; shift := shift e |}.

Definition set_ctrl (v : bool) (e : tui_event) : tui_event :=
  {| type := type e; key := key e; ch := ch e;
     mouse_button := mouse_button e; mouse_x := mouse_x e;
     mouse_y := mouse_y e; new_width := new_width e;
     new_height := new_height e; ctrl := v; alt := alt e; shift := shift e |}.

Definition set_alt (v : bool) (e : tui_event) : tui_event :=
  {| type := type e; key := key e; ch := ch e;
     mouse_button := mouse_button e; mouse_x := mouse_x e;
     mouse_y := mouse_y e; new_width := new_width e;
     new_height := new_height e; ctrl := ctrl e; alt := v;
     shift := shift e |}.

Definition set_shift (v : bool) (e : tui_event) : tui_event :=
  {| type := type e; key := key e; ch := ch e;
     mouse_button := mouse_button e; mouse_x := mouse_x e;
     mouse_y := mouse_y e; new_width := new_width e;
     new_height := new_height e; ctrl := ctrl e; alt := alt e; shift := v |}.

(** ** Input ring *)

(** The code of the first character of a literal: [chr "A"] is ['A']. *)
Definition chr (s : string) : Z :=
  match s with
  | String a _ => Z.of_nat (nat_of_ascii a)
  | EmptyString => 0
  end.

(** C's [%] truncates towards zero: it is [Z.rem]. *)
Definition tui_input_available (c : tui_context) : Z :=
  Z.rem (input_end c - input_start c + TUI_INPUT_BUFFER_SIZE)
        TUI_INPUT_BUFFER_SIZE.

Definition tui_input_peek (c : tui_context) (offset : Z) : Z :=
  default 0
    (input_buffer c
       !! Z.to_nat (Z.rem (input_start c + offset) TUI_INPUT_BUFFER_SIZE)).

Definition tui_input_consume (c : tui_context) (count : Z) : tui_context :=
  set_input_start (Z.rem (input_start c + count) TUI_INPUT_BUFFER_SIZE) c.

(** [memcpy]-like store of [data] into [buf] from index [pos] on. *)
Fixpoint store_at (buf : list Z) (pos : nat) (data : list Z) : list Z :=
  match data with
  | [] => buf
  | b :: data' => store_at (<[pos := b]> buf) (S pos) data'
  end.

(** [tui_posix_read_input]: the non-blocking [read] hands over the bytes
    that wait on the terminal, as many as the contiguous free space takes.
    The result is the context and the number of bytes added. *)
Definition tui_posix_read_input (c : tui_context) : tui_context * Z :=
  let available :=
    if input_start c <=? input_end c then
      let a := TUI_INPUT_BUFFER_SIZE - input_end c in
      if input_start c =? 0 then a - 1 else a
    else input_start c - input_end c - 1 in
  if available <=? 0 then (c, 0)
  else
    let data := take (Z.to_nat available) (tty_in c) in
    let n := Z.of_nat (length data) in
    if 0 <? n then
      let c := set_input_buffer
                 (store_at (input_buffer c) (Z.to_nat (input_end c)) data) c in
      let c := set_tty_in (drop (length data) (tty_in c)) c in
      let c := set_input_end
                 (Z.rem (input_end c + n) TUI_INPUT_BUFFER_SIZE) c in
      (c, n)
    else (c, 0).

(** The ring is in order: 64 slots, both indices inside. *)
Record ring_wf (c : tui_context) : Prop := mk_ring_wf {
  rw_len : length (input_buffer c) = Z.to_nat TUI_INPUT_BUFFER_SIZE;
  rw_start : 0 <= input_start c < TUI_INPUT_BUFFER_SIZE;
  rw_end : 0 <= input_end c < TUI_INPUT_BUFFER_SIZE
}.

(** The bytes the ring holds, oldest first. *)
Definition ring_contents (c : tui_context) : list Z :=
  map (tui_input_peek c) (seqZ 0 (tui_input_available c)).

(** ** Input decoder

    [tui_parse_escape_sequence] reads the ring only through
    [tui_input_available] and [tui_input_peek], and changes the context only
    by a final [tui_input_consume] and by [is_pasting].  Its body is written
    here over the two reads, [available] and [peek], and answers with what
    it does to the context. *)

Inductive parse_result :=
| Incomplete
    (** [return 0] with the ring untouched *)
| Dropped (n : Z)
    (** [tui_input_consume(ctx, n); return 0] *)
| Emitted (n : Z) (paste : option bool) (ev : tui_event).
    (** [tui_input_consume(ctx, n); return 1] with the event [ev]; [paste]
        is the value stored in [is_pasting], if any *)

Definition tui_decode_modifiers (modifier_param : Z) (ev : tui_event)
  : tui_event :=
  let bits := modifier_param - 1 in
  let ev := set_shift (negb (Z.land bits 1 =? 0)) ev in
  let ev := set_alt (negb (Z.land bits 2 =? 0)) ev in
  set_ctrl (negb (Z.land bits 4 =? 0)) ev.

(** What [tui_parse_escape_sequence] stores in the event before it looks
    at the first byte. *)
Definition reset_event (ev : tui_event) : tui_event :=
  let ev := set_type TUI_EVENT_NONE ev in
  let ev := set_key TUI_KEY_NONE ev in
  let ev := set_ch 0 ev in
  let ev := set_mouse_button TUI_MOUSE_NONE ev in
  let ev := set_mouse_x 0 ev in
  let ev := set_mouse_y 0 ev in
  let ev := set_ctrl false ev in
  let ev := set_alt false ev in
  set_shift false ev.

(** A key event. *)
Definition key_event (k : tui_key) (ev : tui_event) : tui_event :=
  set_key k (set_type TUI_EVENT_KEY ev).

Section decoder.
Variable available : Z.
Variable peek : Z -> Z.

(** The result of [tui_parse_csi_params]. *)
Record csi_params := mk_csi {
  param_count : Z;
  params : list Z;
  end_pos : Z;
  final_char : Z
}.

Definition csi_failed (params : list Z) : csi_params :=
  mk_csi 0 params (-1) 0.

(** [params[param_count++] = has_digit ? current_param : 0], under the
    guard [param_count < max_params]. *)
Definition push_param (max_params param_count current_param : Z)
  (has_digit : bool) (params : list Z) : Z * list Z :=
  if param_count <? max_params then
    (param_count + 1,
     <[Z.to_nat param_count := if has_digit then current_param else 0]>
       params)
  else (param_count, params).

(** The scan loop [while (i < available && i < 32)]. *)
Fixpoint csi_params_loop (fuel : nat) (max_params i param_count
  current_param : Z) (has_digit : bool) (params : list Z) : csi_params :=
  match fuel with
  | O => csi_failed params
  | S fuel' =>
    if (i <? available) && (i <? 32) then
      let c := peek i in
      if (chr "0" <=? c) && (c <=? chr "9") then
        csi_params_loop fuel' max_params (i + 1) param_count
                        (int_wrap (current_param * 10 + (c - chr "0"))) true
                        params
      else if c =? chr ";" then
        let '(pc, ps) :=
          push_param max_params param_count current_param has_digit params in
        csi_params_loop fuel' max_params (i + 1) pc 0 false ps
      else if (0x40 <=? c) && (c <=? 0x7E) then
        let '(pc, ps) :=
          push_param max_params param_count current_param has_digit params in
        mk_csi pc ps i c
      else if (c =? chr "<") || (c =? chr ">") || (c =? chr "?")
              || (c =? chr "=") then
        csi_params_loop fuel' max_params (i + 1) param_count current_param
                        has_digit params
      else csi_failed params
    else csi_failed params
  end.

(** [int params[4] = {0}] and the call; the loop makes at most 32
    turns. *)
Definition tui_parse_csi_params (start max_params : Z) : csi_params :=
  csi_params_loop 32 max_params start 0 0 false [0; 0; 0; 0].

Definition param (p : csi_params) (i : nat) : Z := default 0 (params p !! i).

(** [ESC [ 200 ~] and [ESC [ 201 ~]; [None] when the block falls
    through. *)
Definition parse_paste (b2 : Z) (ev : tui_event) : option parse_result :=
  if (b2 =? chr "2") && (6 <=? available) then
    if (peek 3 =? chr "0") && (peek 5 =? chr "~") then
      let b4 := peek 4 in
      if b4 =? chr "0" then
        Some (Emitted 6 (Some true) (set_type TUI_EVENT_PASTE_START ev))
      else if b4 =? chr "1" then
        Some (Emitted 6 (Some false) (set_type TUI_EVENT_PASTE_END ev))
      else None
    else None
  else None.

(** The button of a press report, [switch (button_code & 0x43)]. *)
Definition mouse_button_of (button_code : Z) : tui_mouse_button :=
  let masked := Z.land button_code 0x43 in
  if masked =? 0 then TUI_MOUSE_LEFT
  else if masked =? 1 then TUI_MOUSE_MIDDLE
  else if masked =? 2 then TUI_MOUSE_RIGHT
  else if masked =? 3 then TUI_MOUSE_RELEASE
  else if masked =? 64 then TUI_MOUSE_WHEEL_UP
  else if masked =? 65 then TUI_MOUSE_WHEEL_DOWN
  else if negb (Z.land button_code 32 =? 0) then TUI_MOUSE_MOVE
  else TUI_MOUSE_NONE.

(** The SGR mouse block [ESC [ < ...]. *)
Definition parse_mouse (b2 : Z) (ev : tui_event) : option parse_result :=
  if b2 =? chr "<" then
    let p := tui_parse_csi_params 3 4 in
    if end_pos p <? 0 then Some Incomplete
    else if ((final_char p =? chr "M") || (final_char p =? chr "m"))
            && (3 <=? param_count p) then
      let button_code := param p 0 in
      let mx := int_wrap (param p 1 - 1) in
      let my := int_wrap (param p 2 - 1) in
      let ev := set_type TUI_EVENT_MOUSE ev in
      let ev := set_mouse_x mx ev in
      let ev := set_mouse_y my ev in
      let ev :=
        if final_char p =? chr "m" then set_mouse_button TUI_MOUSE_RELEASE ev
        else set_mouse_button (mouse_button_of button_code) ev in
      Some (Emitted (end_pos p + 1) None ev)
    else None
  else None.

(** [switch (b2)] for the plain arrows, Home and End. *)
Definition parse_arrow (b2 : Z) (ev : tui_event) : option parse_result :=
  if b2 =? chr "A" then Some (Emitted 3 None (key_event TUI_KEY_UP ev))
  else if b2 =? chr "B" then Some (Emitted 3 None (key_event TUI_KEY_DOWN ev))
  else if b2 =? chr "C" then
    Some (Emitted 3 None (key_event TUI_KEY_RIGHT ev))
  else if b2 =? chr "D" then Some (Emitted 3 None (key_event TUI_KEY_LEFT ev))
  else if b2 =? chr "H" then Some (Emitted 3 None (key_event TUI_KEY_HOME ev))
  else if b2 =? chr "F" then Some (Emitted 3 None (key_event TUI_KEY_END ev))
  else None.

(** Arrow keys with modifiers, [ESC [ 1 ; m X]. *)
Definition modified_arrow_key (final_char : Z) : tui_key :=
  if final_char =? chr "A" then TUI_KEY_UP
  else if final_char =? chr "B" then TUI_KEY_DOWN
  else if final_char =? chr "C" then TUI_KEY_RIGHT
  else if final_char =? chr "D" then TUI_KEY_LEFT
  else if final_char =? chr "H" then TUI_KEY_HOME
  else if final_char =? chr "F" then TUI_KEY_END
  else TUI_KEY_NONE.

(** [ESC [ P ~]. *)
Definition tilde_key (p0 : Z) : tui_key :=
  if p0 =? 1 then TUI_KEY_HOME
  else if p0 =? 2 then TUI_KEY_INSERT
  else if p0 =? 3 then TUI_KEY_DELETE
  else if p0 =? 4 then TUI_KEY_END
  else if p0 =? 5 then TUI_KEY_PAGEUP
  else if p0 =? 6 then TUI_KEY_PAGEDOWN
  else if p0 =? 11 then TUI_KEY_F1
  else if p0 =? 12 then TUI_KEY_F2
  else if p0 =? 13 then TUI_KEY_F3
  else if p0 =? 14 then TUI_KEY_F4
  else if p0 =? 15 then TUI_KEY_F5
  else if p0 =? 17 then TUI_KEY_F6
  else if p0 =? 18 then TUI_KEY_F7
  else if p0 =? 19 then TUI_KEY_F8
  else if p0 =? 20 then TUI_KEY_F9
  else if p0 =? 21 then TUI_KEY_F10
  else if p0 =? 23 then TUI_KEY_F11
  else if p0 =? 24 then TUI_KEY_F12
  else TUI_KEY_NONE.

(** Extended CSI sequences with parameters. *)
Definition parse_extended (ev : tui_event) : parse_result :=
  let p := tui_parse_csi_params 2 4 in
  if end_pos p <? 0 then Incomplete
  else
    let ev := set_type TUI_EVENT_KEY ev in
    let ev := if (2 <=? param_count p) && (1 <? param p 1)
              then tui_decode_modifiers (param p 1) ev else ev in
    let arrow := (2 <=? param_count p) && (param p 0 =? 1) in
    let ev := if arrow then set_key (modified_arrow_key (final_char p)) ev
              else ev in
    if arrow && negb (bool_decide (key ev = TUI_KEY_NONE)) then
      Emitted (end_pos p + 1) None ev
    else
      let ev :=
        if (final_char p =? chr "~") && (1 <=? param_count p)
        then set_key (tilde_key (param p 0)) ev
        else set_key TUI_KEY_NONE ev in
      Emitted (end_pos p + 1) None ev.

(** The branch [b1 == '[']. *)
Definition parse_csi (ev : tui_event) : parse_result :=
  if available <? 3 then Incomplete
  else
    let b2 := peek 2 in
    if b2 =? chr "I" then Emitted 3 None (set_type TUI_EVENT_FOCUS_IN ev)
    else if b2 =? chr "O" then
      Emitted 3 None (set_type TUI_EVENT_FOCUS_OUT ev)
    else
      match parse_paste b2 ev with
      | Some r => r
      | None =>
        match parse_mouse b2 ev with
        | Some r => r
        | None =>
          match parse_arrow b2 ev with
          | Some r => r
          | None => parse_extended ev
          end
        end
      end.

(** The branch [b1 == 'O']. *)
Definition ss3_key (b2 : Z) : tui_key :=
  if b2 =? chr "A" then TUI_KEY_UP
  else if b2 =? chr "B" then TUI_KEY_DOWN
  else if b2 =? chr "C" then TUI_KEY_RIGHT
  else if b2 =? chr "D" then TUI_KEY_LEFT
  else if b2 =? chr "H" then TUI_KEY_HOME
  else if b2 =? chr "F" then TUI_KEY_END
  else if b2 =? chr "P" then TUI_KEY_F1
  else if b2 =? chr "Q" then TUI_KEY_F2
  else if b2 =? chr "R" then TUI_KEY_F3
  else if b2 =? chr "S" then TUI_KEY_F4
  else TUI_KEY_NONE.

Definition parse_ss3 (ev : tui_event) : parse_result :=
  if available <? 3 then Incomplete
  else Emitted 3 None (key_event (ss3_key (peek 2)) ev).

(** A regular character, possibly UTF-8. *)
Definition parse_char (b0 : Z) (ev : tui_event) : parse_result :=
  let len :=
    if Z.land b0 0x80 =? 0 then 1
    else if Z.land b0 0xE0 =? 0xC0 then 2
    else if Z.land b0 0xF0 =? 0xE0 then 3
    else if Z.land b0 0xF8 =? 0xF0 then 4
    else 0 in
  if len =? 0 then Dropped 1
  else if available <? len then Incomplete
  else
    let temp := map peek (seqZ 0 len) in
    let codepoint := snd (tui_utf8_decode temp) in
    Emitted len None (set_ch codepoint (key_event TUI_KEY_CHAR ev)).

(** The whole function; [event] is what the caller's struct holds. *)
Definition parse_escape_sequence (event : tui_event) : parse_result :=
  if available <? 1 then Incomplete
  else
    let ev := reset_event event in
    let b0 := peek 0 in
    if b0 =? 0x1B then
      if available <? 2 then Incomplete
      else
        let b1 := peek 1 in
        if b1 =? chr "[" then parse_csi ev
        else if b1 =? chr "O" then parse_ss3 ev
        else Emitted 1 None (key_event TUI_KEY_ESC ev)
    else if (b0 =? 13) || (b0 =? 10) then
      Emitted 1 None (key_event TUI_KEY_ENTER ev)
    else if (b0 =? 0x7F) || (b0 =? 0x08) then
      Emitted 1 None (key_event TUI_KEY_BACKSPACE ev)
    else if b0 =? 9 then
      Emitted 1 None (set_ch 9 (key_event TUI_KEY_TAB ev))
    else if b0 =? 32 then
      Emitted 1 None (set_ch 32 (key_event TUI_KEY_SPACE ev))
    else if b0 =? 0 then
      Emitted 1 None
              (set_ctrl true (set_ch 32 (key_event TUI_KEY_SPACE ev)))
    else if (1 <=? b0) && (b0 <=? 26) && negb (b0 =? 9) && negb (b0 =? 13)
            && negb (b0 =? 10) then
      Emitted 1 None
              (set_ctrl true
                 (set_ch (chr "a" + (b0 - 1)) (key_event TUI_KEY_CHAR ev)))
    else parse_char b0 ev.
End decoder.

(** [tui_parse_escape_sequence] on the context: the return value and the
    event struct after the call. *)
Definition tui_parse_escape_sequence (c : tui_context) (event : tui_event)
  : tui_context * Z * tui_event :=
  match parse_escape_sequence (tui_input_available c) (tui_input_peek c) event
  with
  | Incomplete =>
    (c, 0, if tui_input_available c <? 1 then event else reset_event event)
  | Dropped n => (tui_input_consume c n, 0, reset_event event)
  | Emitted n paste ev =>
    let c := match paste with Some b => set_is_pasting b c | None => c end in
    (tui_input_consume c n, 1, ev)
  end.

(** What [tui_poll_event] stores in the event on entry. *)
Definition poll_init_event (ev : tui_event) : tui_event :=
  let ev := set_type TUI_EVENT_NONE ev in
  let ev := set_key TUI_KEY_NONE ev in
  let ev := set_ch 0 ev in
  let ev := set_mouse_button TUI_MOUSE_NONE ev in
  let ev := set_mouse_x 0 ev in
  let ev := set_mouse_y 0 ev in
  let ev := set_new_width 0 ev in
  set_new_height 0 ev.

(** [resize] is the state of the SIGWINCH latch when the call starts:
    [None] when it is clear, [Some ws] when it is set, [ws] being the answer
    of the size query that follows. *)
Definition ctx_poll_event (c : tui_context) (event : tui_event)
  (resize : option (option (Z * Z))) : tui_context * Z * tui_event :=
  let event := poll_init_event event in
  let c1 := match resize with
            | Some ws => tui_get_terminal_size c ws
            | None => c
            end in
  if negb (width c1 =? width c) || negb (height c1 =? height c) then
    let c1 := set_needs_redraw true (set_resized true c1) in
    let event := set_type TUI_EVENT_RESIZE event in
    let event := set_new_width (width c1) event in
    let event := set_new_height (height c1) event in
    (c1, 1, event)
  else
    let c2 := fst (tui_posix_read_input c1) in
    if 0 <? tui_input_available c2 then
      let '(c3, r, ev) := tui_parse_escape_sequence c2 event in
      if negb (r =? 0) then
        let c3 :=
          if bool_decide (type ev = TUI_EVENT_MOUSE) then
            set_ctx_mouse_button (mouse_button ev)
              (set_ctx_mouse_y (mouse_y ev) (set_ctx_mouse_x (mouse_x ev) c3))
          else c3 in
        let c3 := if bool_decide (key ev = TUI_KEY_ENTER)
                  then set_button_pressed true c3 else c3 in
        (c3, 1, ev)
      else (c3, 0, ev)
    else (c2, 0, event).

(** *** Streams of events

    The host polls again and again, with the same event struct.
    [poll_repeatedly n] makes [n] calls and collects the events of those
    that return 1. *)
Fixpoint poll_repeatedly (n : nat) (c : tui_context) (event : tui_event)
  : list tui_event * (tui_context * tui_event) :=
  match n with
  | O => ([], (c, event))
  | S n' =>
    let '(c', r, ev) := ctx_poll_event c event None in
    let '(evs, final) := poll_repeatedly n' c' ev in
    (if negb (r =? 0) then ev :: evs else evs, final)
  end.

(** A call that neither reads nor consumes leaves the context as it was,
    and so does every later one; every other call moves at least one byte
    from the terminal to the ring or out of the ring.  This many calls
    therefore reach the point where polling has nothing more to give. *)
Definition polls_needed (c : tui_context) : nat :=
  (Z.to_nat (tui_input_available c) + 2 * length (tty_in c) + 1)%nat.

Definition drain (c : tui_context) (event : tui_event)
  : list tui_event * (tui_context * tui_event) :=
  poll_repeatedly (polls_needed c) c event.

(** The terminal sends the bytes [bs]. *)
Definition tty_send (c : tui_context) (bs : list Z) : tui_context :=
  set_tty_in (tty_in c ++ bs) c.

(** All of the stream arrives, then the host polls. *)
Definition feed_at_once (c : tui_context) (event : tui_event) (sigma : list Z)
  : list tui_event :=
  fst (drain (tty_send c sigma) event).

(** The stream arrives one byte at a time and the host polls after each. *)
Fixpoint feed_bytewise (c : tui_context) (event : tui_event)
  (sigma : list Z) : list tui_event :=
  match sigma with
  | [] => []
  | b :: sigma' =>
    let '(evs, (c', event')) := drain (tty_send c [b]) event in
    evs ++ feed_bytewise c' event' sigma'
  end.

(** The decoder on a plain list of waiting bytes, and the events of a
    whole stream read that way; used to reason about the two feeds. *)
Definition list_peek (l : list Z) (i : Z) : Z := default 0 (l !! Z.to_nat i).

Definition blank_event : tui_event :=
  mk_event TUI_EVENT_NONE TUI_KEY_NONE 0 TUI_MOUSE_NONE 0 0 0 0
           false false false.

Definition decode_list (l : list Z) : parse_result :=
  parse_escape_sequence (Z.of_nat (length l)) (list_peek l) blank_event.

Fixpoint stream_events (fuel : nat) (l : list Z) : list tui_event * list Z :=
  match fuel with
  | O => ([], l)
  | S fuel' =>
    match decode_list l with
    | Incomplete => ([], l)
    | Dropped n => stream_events fuel' (drop (Z.to_nat n) l)
    | Emitted n _ ev =>
      let '(evs, rest) := stream_events fuel' (drop (Z.to_nat n) l) in
      (ev :: evs, rest)
    end
  end.

(** ** Widgets

    Widgets live in an arena, a list of records; a [tui_widget*] is an
    index into it, and [NULL] is [None].

    An event handler is a C function that receives the widget, the event
    and its user data.  The router sees of it only what it does to the
    event, which the library lets it do through three helpers.  A handler
    is therefore the function that, from the widget and the event it is
    given, lists the helpers it calls. *)

Inductive tui_widget_type :=
| TUI_WIDGET_CONTAINER | TUI_WIDGET_PANEL | TUI_WIDGET_LABEL
| TUI_WIDGET_BUTTON | TUI_WIDGET_TEXTBOX | TUI_WIDGET_TEXTAREA
| TUI_WIDGET_CHECKBOX | TUI_WIDGET_RADIO | TUI_WIDGET_LIST
| TUI_WIDGET_PROGRESS | TUI_WIDGET_SLIDER | TUI_WIDGET_SPINNER
| TUI_WIDGET_DROPDOWN | TUI_WIDGET_TABS | TUI_WIDGET_SCROLLBAR
| TUI_WIDGET_SPLITTER | TUI_WIDGET_CUSTOM.

Inductive tui_event_phase :=
| TUI_PHASE_CAPTURE | TUI_PHASE_TARGET | TUI_PHASE_BUBBLE.

#[global] Instance tui_widget_type_eq_dec : EqDecision tui_widget_type.
Proof. solve_decision. Defined.
#[global] Instance tui_event_phase_eq_dec : EqDecision tui_event_phase.
Proof. solve_decision. Defined.

Record tui_widget_event := mk_widget_event {
  base : tui_event;
  phase : tui_event_phase;
  target : option nat;
  current : option nat;
  stopped : bool;
  prevented : bool;
  consumed : bool
}.


Definition set_phase (v : tui_event_phase) (e : tui_widget_event) : tui_widget_event :=
  {| base := base e; phase := v; target := target e; current := current e;
     stopped := stopped e; prevented := prevented e;
     consumed := consumed e |}.

Definition set_target (v : option nat) (e : tui_widget_event) : tui_widget_event :=
  {| base := base e; phase := phase e; target := v; current := current e;
     stopped := stopped e; prevented := prevented e;
     consumed := consumed e |}.

Definition set_current (v : option nat) (e : tui_widget_event) : tui_widget_event :=
  {| base := base e; phase := phase e; target := target e; current := v;
     stopped := stopped e; prevented := prevented e;
     consumed := consumed e |}.

Definition set_stopped (v : bool) (e : tui_widget_event) : tui_widget_event :=
  {| base := base e; phase := phase e; target := target e;
     current := current e; stopped := v; prevented := prevented e;
     consumed := consumed e |}.

Definition set_prevented (v : bool) (e : tui_widget_event) : tui_widget_event :=
  {| base := base e; phase := phase e; target := target e;
     current := current e; stopped := stopped e; prevented := v;
     consumed := consumed e |}.

Definition set_consumed (v : bool) (e : tui_widget_event) : tui_widget_event :=
  {| base := base e; phase := phase e; target := target e;
     current := current e; stopped := stopped e; prevented := prevented e;
     consumed := v |}.
Inductive helper := Stop | Prevent | Consume.

Definition tui_event_handler : Type :=
  option nat -> tui_widget_event -> list helper.

Definition tui_widget_event_stop (e : tui_widget_event) : tui_widget_event :=
  set_stopped true e.

Definition tui_widget_event_prevent (e : tui_widget_event)
  : tui_widget_event := set_prevented true e.

Definition tui_widget_event_consume (e : tui_widget_event)
  : tui_widget_event := set_stopped true (set_consumed true e).

Definition run_helper (e : tui_widget_event) (h : helper) : tui_widget_event :=
  match h with
  | Stop => tui_widget_event_stop e
  | Prevent => tui_widget_event_prevent e
  | Consume => tui_widget_event_consume e
  end.

(** The event after the call [handler(widget, event, userdata)]. *)
Definition run_handler (h : tui_event_handler) (widget : option nat)
  (e : tui_widget_event) : tui_widget_event :=
  foldl run_helper e (h widget e).

Record tui_handler_entry := mk_handler_entry {
  event_type : tui_event_type;
  handler : tui_event_handler;
  capture : bool
}.

Record tui_hotkey := mk_hotkey {
  hk_key : tui_key;
  hk_ch : Z;
  hk_ctrl : bool;
  hk_alt : bool;
  hk_shift : bool;
  hk_handler : option tui_event_handler;
  hk_active : bool
}.

(** The [textarea] arm of the state union.  [lines] is the array of line
    pointers, [line_capacity] long; a line is [NULL] or a string. *)
Record textarea_state := mk_textarea {
  lines : option (list (option (list Z)));
  line_count : Z;
  line_capacity : Z;
  cursor_row : Z;
  cursor_col : Z;
  scroll_row : Z;
  line_numbers : bool;
  editable : bool;
  max_line_len : Z
}.


Definition set_lines (v : option (list (option (list Z)))) (t : textarea_state) : textarea_state :=
  {| lines := v; line_count := line_count t;
     line_capacity := line_capacity t; cursor_row := cursor_row t;
     cursor_col := cursor_col t; scroll_row := scroll_row t;
     line_numbers := line_numbers t; editable := editable t;
     max_line_len := max_line_len t |}.

Definition set_line_count (v : Z) (t : textarea_state) : textarea_state :=
  {| lines := lines t; line_count := v; line_capacity := line_capacity t;
     cursor_row := cursor_row t; cursor_col := cursor_col t;
     scroll_row := scroll_row t; line_numbers := line_numbers t;
     editable := editable t; max_line_len := max_line_len t |}.

Definition set_cursor_row (v : Z) (t : textarea_state) : textarea_state :=
  {| lines := lines t; line_count := line_count t;
     line_capacity := line_capacity t; cursor_row := v;
     cursor_col := cursor_col t; scroll_row := scroll_row t;
     line_numbers := line_numbers t; editable := editable t;
     max_line_len := max_line_len t |}.

Definition set_cursor_col (v : Z) (t : textarea_state) : textarea_state :=
  {| lines := lines t; line_count := line_count t;
     line_capacity := line_capacity t; cursor_row := cursor_row t;
     cursor_col := v; scroll_row := scroll_row t;
     line_numbers := line_numbers t; editable := editable t;
     max_line_len := max_line_len t |}.

Definition set_scroll_row (v : Z) (t : textarea_state) : textarea_state :=
  {| lines := lines t; line_count := line_count t;
     line_capacity := line_capacity t; cursor_row := cursor_row t;
     cursor_col := cursor_col t; scroll_row := v;
     line_numbers := line_numbers t; editable := editable t;
     max_line_len := max_line_len t |}.
(** The state union, with the arms the embedding looks into. *)
Inductive widget_state :=
| ButtonState (pressed : bool)
| CheckboxState (checked : bool)
| TextareaState (ta : textarea_state)
| OtherState.

Record tui_widget := mk_widget {
  w_type : tui_widget_type;
  w_x : Z;
  w_y : Z;
  w_width : Z;
  w_height : Z;
  w_parent : option nat;
  w_children : list nat;
  w_visible : bool;
  w_enabled : bool;
  w_focusable : bool;
  w_focused : bool;
  w_tab_index : Z;
  w_handlers : list tui_handler_entry;
  w_has_border : bool;
  w_state : widget_state
}.


Definition set_w_focused (v : bool) (w : tui_widget) : tui_widget :=
  {| w_type := w_type w; w_x := w_x w; w_y := w_y w; w_width := w_width w;
     w_height := w_height w; w_parent := w_parent w;
     w_children := w_children w; w_visible := w_visible w;
     w_enabled := w_enabled w; w_focusable := w_focusable w; w_focused := v;
     w_tab_index := w_tab_index w; w_handlers := w_handlers w;
     w_has_border := w_has_border w; w_state := w_state w |}.

Definition set_w_state (v : widget_state) (w : tui_widget) : tui_widget :=
  {| w_type := w_type w; w_x := w_x w; w_y := w_y w; w_width := w_width w;
     w_height := w_height w; w_parent := w_parent w;
     w_children := w_children w; w_visible := w_visible w;
     w_enabled := w_enabled w; w_focusable := w_focusable w;
     w_focused := w_focused w; w_tab_index := w_tab_index w;
     w_handlers := w_handlers w; w_has_border := w_has_border w;
     w_state := v |}.
Record tui_widget_manager := mk_widget_manager {
  root : option nat;
  focus : option nat;
  hover : option nat;
  hotkeys : list tui_hotkey
}.


Definition set_focus (v : option nat) (wm : tui_widget_manager) : tui_widget_manager :=
  {| root := root wm; focus := v; hover := hover wm; hotkeys := hotkeys wm |}.

Definition set_hover (v : option nat) (wm : tui_widget_manager) : tui_widget_manager :=
  {| root := root wm; focus := focus wm; hover := v; hotkeys := hotkeys wm |}.

(** ** Bounds *)

(** The [while (p)] walk of [tui_widget_get_absolute_bounds] from the
    parent [p] up; a tree of [fuel] widgets has no longer chain. *)
Fixpoint abs_walk (fuel : nat) (ws : list tui_widget) (p : option nat)
  (abs_x abs_y : Z) : Z * Z :=
  match fuel with
  | O => (abs_x, abs_y)
  | S fuel' =>
    match p with
    | None => (abs_x, abs_y)
    | Some i =>
      match ws !! i with
      | None => (abs_x, abs_y)
      | Some pw => abs_walk fuel' ws (w_parent pw) (abs_x + w_x pw)
                            (abs_y + w_y pw)
      end
    end
  end.

(** [(x, y, width, height)]. *)
Definition tui_widget_get_absolute_bounds (ws : list tui_widget)
  (w : tui_widget) : Z * Z * Z * Z :=
  let '(abs_x, abs_y) := abs_walk (length ws) ws (w_parent w) (w_x w) (w_y w) in
  (abs_x, abs_y, w_width w, w_height w).

Definition tui_widget_contains_point (ws : list tui_widget) (w : tui_widget)
  (px py : Z) : bool :=
  let '(x, y, width, height) := tui_widget_get_absolute_bounds ws w in
  (x <=? px) && (px <? x + width) && (y <=? py) && (py <? y + height).

(** ** Textarea input *)

(** [lines[i]]; outside the array it reads as [NULL]. *)
Definition line_at (ls : list (option (list Z))) (i : Z) : option (list Z) :=
  default None (ls !! Z.to_nat i).

(** [line ? (int)strlen(line) : 0]. *)
Definition line_len (line : option (list Z)) : Z :=
  match line with Some s => Z.of_nat (length s) | None => 0 end.

(** The string a buffer holds: the bytes before the first NUL. *)
Fixpoint cstr (s : list Z) : list Z :=
  match s with
  | [] => []
  | b :: s' => if b =? 0 then [] else b :: cstr s'
  end.

(** [memmove(line + col + n, line + col, ...)] followed by storing [ins]
    at [line + col]. *)
Definition insert_at (line : list Z) (col : Z) (ins : list Z) : list Z :=
  cstr (take (Z.to_nat col) line ++ ins ++ drop (Z.to_nat col) line).

(** [memmove(line + col, line + col + 1, ...)]. *)
Definition delete_at (line : list Z) (col : Z) : list Z :=
  take (Z.to_nat col) line ++ drop (Z.to_nat (col + 1)) line.

(** [for (i = from; i < line_count - 1; i++) lines[i] = lines[i + 1]]. *)
Definition shift_up (ls : list (option (list Z))) (from line_count : Z)
  : list (option (list Z)) :=
  foldl (fun ls i => <[Z.to_nat i := line_at ls (i + 1)]> ls) ls
        (seqZ from (line_count - 1 - from)).

(** [for (i = line_count; i > row + 1; i--) lines[i] = lines[i - 1]]. *)
Definition shift_down (ls : list (option (list Z))) (row line_count : Z)
  : list (option (list Z)) :=
  foldl (fun ls i => <[Z.to_nat i := line_at ls (i - 1)]> ls) ls
        (reverse (seqZ (row + 2) (line_count - row - 1))).

(** Clamp the column: [col = len] when [col > len]. *)
Definition clamp_col (col len : Z) : Z := if len <? col then len else col.

Section textarea.
(** The widget, its state and its line array. *)
Variable w : tui_widget.
Variable ta : textarea_state.
Variable ls : list (option (list Z)).
Variable e : tui_widget_event.

Let row := cursor_row ta.
Let col := cursor_col ta.
Let scroll := scroll_row ta.
Let max_len := if 0 <? max_line_len ta then max_line_len ta else 256.
Let visible_rows := w_height w - (if w_has_border w then 2 else 0).
Let gutter_width := if line_numbers ta then 5 else 0.
Let current_line := line_at ls row.
Let current_line_len := line_len current_line.

(** Keep row [r] in view below: [scroll_row = r - visible_rows + 1] when
    [r >= scroll_row + visible_rows]. *)
Definition scroll_down_to (r s : Z) : Z :=
  if s + visible_rows <=? r then r - visible_rows + 1 else s.

(** Keep row [r] in view above: [scroll_row = r] when [r < scroll_row]. *)
Definition scroll_up_to (r s : Z) : Z := if r <? s then r else s.

(** The mouse branch; [ax], [ay] are the absolute position. *)
Definition textarea_mouse (ax ay : Z) : textarea_state * bool :=
  match mouse_button (base e) with
  | TUI_MOUSE_LEFT =>
    let click_row := mouse_y (base e) - ay + scroll in
    let click_col := mouse_x (base e) - ax - gutter_width in
    if (0 <=? click_row) && (click_row <? line_count ta) then
      let len := line_len (line_at ls click_row) in
      let c := if 0 <=? click_col then click_col else 0 in
      (set_cursor_col (clamp_col c len) (set_cursor_row click_row ta), true)
    else (ta, true)
  | TUI_MOUSE_WHEEL_UP =>
    let s := scroll - 3 in
    (set_scroll_row (if s <? 0 then 0 else s) ta, true)
  | TUI_MOUSE_WHEEL_DOWN =>
    let s := scroll + 3 in
    let max_scroll := line_count ta - visible_rows in
    let max_scroll := if max_scroll <? 0 then 0 else max_scroll in
    (set_scroll_row (if max_scroll <? s then max_scroll else s) ta, true)
  | _ => (ta, false)
  end.

(** The first [switch]: navigation keys.  [None] is the [default]. *)
Definition textarea_navigate : option (textarea_state * bool) :=
  match key (base e) with
  | TUI_KEY_UP =>
    if 0 <? row then
      let r := row - 1 in
      let c := clamp_col col (line_len (line_at ls r)) in
      Some (set_scroll_row (scroll_up_to r scroll)
              (set_cursor_col c (set_cursor_row r ta)), true)
    else Some (ta, true)
  | TUI_KEY_DOWN =>
    if row <? line_count ta - 1 then
      let r := row + 1 in
      let c := clamp_col col (line_len (line_at ls r)) in
      Some (set_scroll_row (scroll_down_to r scroll)
              (set_cursor_col c (set_cursor_row r ta)), true)
    else Some (ta, true)
  | TUI_KEY_LEFT =>
    if 0 <? col then Some (set_cursor_col (col - 1) ta, true)
    else if 0 <? row then
      let r := row - 1 in
      Some (set_scroll_row (scroll_up_to r scroll)
              (set_cursor_col (line_len (line_at ls r))
                 (set_cursor_row r ta)), true)
    else Some (ta, true)
  | TUI_KEY_RIGHT =>
    if col <? current_line_len then Some (set_cursor_col (col + 1) ta, true)
    else if row <? line_count ta - 1 then
      let r := row + 1 in
      Some (set_scroll_row (scroll_down_to r scroll)
              (set_cursor_col 0 (set_cursor_row r ta)), true)
    else Some (ta, true)
  | TUI_KEY_HOME =>
    if ctrl (base e) then
      Some (set_scroll_row 0 (set_cursor_col 0 (set_cursor_row 0 ta)), true)
    else Some (set_cursor_col 0 ta, true)
  | TUI_KEY_END =>
    if ctrl (base e) then
      let r := line_count ta - 1 in
      Some (set_scroll_row (scroll_down_to r scroll)
              (set_cursor_col (line_len (line_at ls r))
                 (set_cursor_row r ta)), true)
    else Some (set_cursor_col current_line_len ta, true)
  | TUI_KEY_PAGEUP =>
    let r := row - visible_rows in
    let r := if r <? 0 then 0 else r in
    let s := scroll - visible_rows in
    let s := if s <? 0 then 0 else s in
    let c := clamp_col col (line_len (line_at ls r)) in
    Some (set_cursor_col c (set_scroll_row s (set_cursor_row r ta)), true)
  | TUI_KEY_PAGEDOWN =>
    let r := row + visible_rows in
    let r := if line_count ta <=? r then line_count ta - 1 else r in
    let s := scroll + visible_rows in
    let max_scroll := line_count ta - visible_rows in
    let max_scroll := if max_scroll <? 0 then 0 else max_scroll in
    let s := if max_scroll <? s then max_scroll else s in
    let c := clamp_col col (line_len (line_at ls r)) in
    Some (set_cursor_col c (set_scroll_row s (set_cursor_row r ta)), true)
  | _ => None
  end.

(** [malloc] succeeds or not: an input of the call. *)
Variable malloc_ok : bool.

(** The second [switch]: editing keys.  The answer holds the new line
    array too. *)
Definition textarea_edit
  : list (option (list Z)) * textarea_state * bool :=
  match key (base e) with
  | TUI_KEY_BACKSPACE =>
    match current_line with
    | Some line =>
      if 0 <? col then
        (<[Z.to_nat row := Some (delete_at line (col - 1))]> ls,
         set_cursor_col (col - 1) ta, true)
      else if (col =? 0) && (0 <? row) then
        let prev_line := line_at ls (row - 1) in
        let prev_len := line_len prev_line in
        if prev_len + current_line_len <? max_len then
          let ls1 := match prev_line with
                     | Some prev =>
                       <[Z.to_nat (row - 1) := Some (prev ++ line)]> ls
                     | None => ls
                     end in
          let ls2 := shift_up ls1 row (line_count ta) in
          let r := row - 1 in
          (ls2,
           set_scroll_row (scroll_up_to r scroll)
             (set_cursor_col prev_len
                (set_cursor_row r (set_line_count (line_count ta - 1) ta))),
           true)
        else (ls, ta, true)
      else (ls, ta, true)
    | None =>
      if (col =? 0) && (0 <? row) then
        let prev_len := line_len (line_at ls (row - 1)) in
        if prev_len + 0 <? max_len then
          let ls2 := shift_up ls row (line_count ta) in
          let r := row - 1 in
          (ls2,
           set_scroll_row (scroll_up_to r scroll)
             (set_cursor_col prev_len
                (set_cursor_row r (set_line_count (line_count ta - 1) ta))),
           true)
        else (ls, ta, true)
      else (ls, ta, true)
    end
  | TUI_KEY_DELETE =>
    match current_line with
    | Some line =>
      if col <? current_line_len then
        (<[Z.to_nat row := Some (delete_at line col)]> ls, ta, true)
      else if row <? line_count ta - 1 then
        let next_line := line_at ls (row + 1) in
        if current_line_len + line_len next_line <? max_len then
          let ls1 :=
            <[Z.to_nat row := Some (line ++ default [] next_line)]> ls in
          let ls2 := shift_up ls1 (row + 1) (line_count ta) in
          (ls2, set_line_count (line_count ta - 1) ta, true)
        else (ls, ta, true)
      else (ls, ta, true)
    | None => (ls, ta, true)
    end
  | TUI_KEY_ENTER =>
    if line_count ta <? line_capacity ta then
      let ls1 := shift_down ls row (line_count ta) in
      let after_cursor :=
        match current_line with
        | Some line => drop (Z.to_nat col) line
        | None => []
        end in
      if malloc_ok then
        let new_line := take (Z.to_nat (max_len - 1)) after_cursor in
        let ls2 := <[Z.to_nat (row + 1) := Some new_line]> ls1 in
        let ls3 :=
          match current_line with
          | Some line =>
            <[Z.to_nat row := Some (take (Z.to_nat col) line)]> ls2
          | None => ls2
          end in
        let r := row + 1 in
        (ls3,
         set_scroll_row (scroll_down_to r scroll)
           (set_cursor_col 0
              (set_cursor_row r (set_line_count (line_count ta + 1) ta))),
         true)
      else (ls1, ta, true)
    else (ls, ta, true)
  | TUI_KEY_TAB =>
    match current_line with
    | Some line =>
      if current_line_len + 4 <? max_len then
        (<[Z.to_nat row := Some (insert_at line col [32; 32; 32; 32])]> ls,
         set_cursor_col (col + 4) ta, true)
      else (ls, ta, true)
    | None => (ls, ta, true)
    end
  | TUI_KEY_SPACE =>
    match current_line with
    | Some line =>
      if current_line_len <? max_len - 1 then
        (<[Z.to_nat row := Some (insert_at line col [32])]> ls,
         set_cursor_col (col + 1) ta, true)
      else (ls, ta, true)
    | None => (ls, ta, true)
    end
  | TUI_KEY_CHAR =>
    match current_line with
    | Some line =>
      if (current_line_len <? max_len - 1) && (32 <=? ch (base e)) then
        (<[Z.to_nat row := Some (insert_at line col
                                   [Z.land (ch (base e)) 0xFF])]> ls,
         set_cursor_col (col + 1) ta, true)
      else (ls, ta, true)
    | None => (ls, ta, true)
    end
  | _ => (ls, ta, false)
  end.
End textarea.

(** [tui_widget_handle_textarea_input]; the widget is returned with its
    new state. *)
Definition tui_widget_handle_textarea_input (ws : list tui_widget)
  (w : tui_widget) (e : tui_widget_event) (malloc_ok : bool)
  : tui_widget * bool :=
  match w_state w with
  | TextareaState ta =>
    match lines ta with
    | None => (w, false)
    | Some ls =>
      if line_count ta =? 0 then (w, false)
      else if bool_decide (type (base e) = TUI_EVENT_MOUSE) then
        let '(ax, ay, _, _) := tui_widget_get_absolute_bounds ws w in
        let '(ta', r) := textarea_mouse w ta ls e ax ay in
        (set_w_state (TextareaState ta') w, r)
      else if negb (bool_decide (type (base e) = TUI_EVENT_KEY)) then
        (w, false)
      else
        match textarea_navigate w ta ls e with
        | Some (ta', r) => (set_w_state (TextareaState ta') w, r)
        | None =>
          if negb (editable ta) then (w, false)
          else
            let '(ls', ta', r) := textarea_edit w ta ls e malloc_ok in
            (set_w_state (TextareaState (set_lines (Some ls') ta')) w, r)
        end
    end
  | _ => (w, false)
  end.

(** ** Event router *)

(** What the router makes run, in the order it does: a hotkey handler with
    the widget it is given, a handler of a widget (by its index in the
    widget's table, with the phase flag it is registered under), or the
    built-in behaviour of a widget. *)
Inductive call :=
| HotkeyCall (i : nat) (widget : option nat)
| HandlerCall (w : nat) (i : nat) (capture : bool)
| DefaultCall (w : nat).

(** The loop of [tui_widget_call_handlers]: [entries] are the handlers
    from index [i] on. *)
Fixpoint call_handlers_loop (w i : nat) (entries : list tui_handler_entry)
  (capture_flag : bool) (e : tui_widget_event) (tr : list call)
  : tui_widget_event * list call :=
  match entries with
  | [] => (e, tr)
  | entry :: rest =>
    if stopped e then (e, tr)
    else if Bool.eqb (capture entry) capture_flag
            && bool_decide (event_type entry = type (base e)) then
      let e := set_current (Some w) e in
      call_handlers_loop w (S i) rest capture_flag
                         (run_handler (handler entry) (Some w) e)
                         (tr ++ [HandlerCall w i capture_flag])
    else call_handlers_loop w (S i) rest capture_flag e tr
  end.

Definition tui_widget_call_handlers (ws : list tui_widget) (w : nat)
  (capture_flag : bool) (e : tui_widget_event) (tr : list call)
  : tui_widget_event * list call :=
  match ws !! w with
  | Some wd => call_handlers_loop w 0 (w_handlers wd) capture_flag e tr
  | None => (e, tr)
  end.

(** The climb of [tui_widget_build_path], target first. *)
Fixpoint build_path_loop (max_depth : nat) (ws : list tui_widget)
  (w : option nat) : list nat :=
  match max_depth with
  | O => []
  | S d =>
    match w with
    | None => []
    | Some i =>
      i :: build_path_loop d ws
             (match ws !! i with Some wd => w_parent wd | None => None end)
    end
  end.

(** The path, root first after the reversal. *)
Definition tui_widget_build_path (ws : list tui_widget) (target : nat)
  (max_depth : nat) : list nat :=
  reverse (build_path_loop max_depth ws (Some target)).

(** The deepest visible widget at a point; children are tried last
    first.  A tree of [fuel] widgets is no deeper than [fuel]. *)
Fixpoint tui_widget_hit_test_recursive (fuel : nat) (ws : list tui_widget)
  (w : option nat) (x y : Z) : option nat :=
  match fuel with
  | O => None
  | S fuel' =>
    match w with
    | None => None
    | Some i =>
      match ws !! i with
      | None => None
      | Some wd =>
        if negb (w_visible wd) then None
        else if negb (tui_widget_contains_point ws wd x y) then None
        else
          match
            foldl (fun hit child =>
                     match hit with
                     | Some _ => hit
                     | None =>
                       tui_widget_hit_test_recursive fuel' ws (Some child) x y
                     end)
                  None (reverse (w_children wd))
          with
          | Some hit => Some hit
          | None => Some i
          end
      end
    end
  end.

Definition tui_wm_hit_test (wm : option tui_widget_manager)
  (ws : list tui_widget) (x y : Z) : option nat :=
  match wm with
  | None => None
  | Some m =>
    match root m with
    | None => None
    | Some r => tui_widget_hit_test_recursive (length ws) ws (Some r) x y
    end
  end.

(** [widget->focused = b], when the pointer is not [NULL]. *)
Definition mark_focused (ws : list tui_widget) (w : option nat) (b : bool)
  : list tui_widget :=
  match w with
  | Some i =>
    match ws !! i with
    | Some wd => <[i := set_w_focused b wd]> ws
    | None => ws
    end
  | None => ws
  end.

Definition tui_wm_focus (wm : tui_widget_manager) (ws : list tui_widget)
  (widget : option nat) : tui_widget_manager * list tui_widget :=
  let ws := mark_focused ws (focus wm) false in
  (set_focus widget wm, mark_focused ws widget true).

(** The hotkey test of [tui_wm_check_hotkeys]. *)
Definition hotkey_match (hk : tui_hotkey) (e : tui_widget_event) : bool :=
  if bool_decide (hk_key hk = TUI_KEY_CHAR) then
    bool_decide (key (base e) = TUI_KEY_CHAR) && (ch (base e) =? hk_ch hk)
  else bool_decide (key (base e) = hk_key hk).

(** The loop over the table, from entry [i] on; the boolean is the
    function's result. *)
Fixpoint check_hotkeys_loop (i : nat) (hks : list tui_hotkey)
  (e : tui_widget_event) (tr : list call)
  : bool * tui_widget_event * list call :=
  match hks with
  | [] => (false, e, tr)
  | hk :: rest =>
    if negb (hk_active hk) then check_hotkeys_loop (S i) rest e tr
    else
      match hotkey_match hk e, hk_handler hk with
      | true, Some h =>
        let e := run_handler h None e in
        let tr := tr ++ [HotkeyCall i None] in
        if consumed e then (true, e, tr)
        else check_hotkeys_loop (S i) rest e tr
      | _, _ => check_hotkeys_loop (S i) rest e tr
      end
  end.

Definition tui_wm_check_hotkeys (wm : tui_widget_manager)
  (e : tui_widget_event) (tr : list call)
  : bool * tui_widget_event * list call :=
  if negb (bool_decide (type (base e) = TUI_EVENT_KEY)) then (false, e, tr)
  else check_hotkeys_loop 0 (hotkeys wm) e tr.

Definition tui_widget_handle_button_input (w : tui_widget)
  (e : tui_widget_event) : tui_widget * bool :=
  let activate :=
    if bool_decide (type (base e) = TUI_EVENT_KEY) then
      bool_decide (key (base e) = TUI_KEY_ENTER)
      || bool_decide (key (base e) = TUI_KEY_SPACE)
    else if bool_decide (type (base e) = TUI_EVENT_MOUSE) then
      bool_decide (mouse_button (base e) = TUI_MOUSE_LEFT)
    else false in
  if activate then (set_w_state (ButtonState true) w, true) else (w, false).

Definition tui_widget_handle_checkbox_input (w : tui_widget)
  (e : tui_widget_event) : tui_widget * bool :=
  let toggle :=
    if bool_decide (type (base e) = TUI_EVENT_KEY) then
      bool_decide (key (base e) = TUI_KEY_ENTER)
      || bool_decide (key (base e) = TUI_KEY_SPACE)
    else if bool_decide (type (base e) = TUI_EVENT_MOUSE) then
      bool_decide (mouse_button (base e) = TUI_MOUSE_LEFT)
    else false in
  if toggle then
    (match w_state w with
     | CheckboxState b => set_w_state (CheckboxState (negb b)) w
     | _ => w
     end, true)
  else (w, false).

(** [we = {0}; we.base = *event]. *)
Definition initial_widget_event (event : tui_event) : tui_widget_event :=
  mk_widget_event event TUI_PHASE_CAPTURE None None false false false.

Section router.
(** Focus navigation, which the router calls for the Tab key. *)
Variable tui_wm_focus_next :
  tui_widget_manager -> list tui_widget ->
  tui_widget_manager * list tui_widget.

(** The built-in behaviour of the widget types whose state the
    embedding does not look into: the new state and the result. *)
Variable other_input : tui_widget -> tui_widget_event -> widget_state * bool.

(** Whether the allocation made when a text area splits a line
    succeeds. *)
Variable malloc_ok : bool.

Definition tui_widget_handle_default_input (ws : list tui_widget)
  (w : tui_widget) (e : tui_widget_event) : tui_widget * bool :=
  if negb (w_enabled w) then (w, false)
  else if negb (bool_decide (phase e = TUI_PHASE_TARGET)) then (w, false)
  else
    match w_type w with
    | TUI_WIDGET_BUTTON => tui_widget_handle_button_input w e
    | TUI_WIDGET_CHECKBOX => tui_widget_handle_checkbox_input w e
    | TUI_WIDGET_TEXTAREA =>
      tui_widget_handle_textarea_input ws w e malloc_ok
    | TUI_WIDGET_TEXTBOX | TUI_WIDGET_RADIO | TUI_WIDGET_LIST
    | TUI_WIDGET_SLIDER | TUI_WIDGET_SPINNER | TUI_WIDGET_DROPDOWN
    | TUI_WIDGET_TABS | TUI_WIDGET_SCROLLBAR | TUI_WIDGET_SPLITTER =>
      let '(s, r) := other_input w e in (set_w_state s w, r)
    | _ => (w, false)
    end.

(** Target selection. *)
Definition select_target (wm : tui_widget_manager) (ws : list tui_widget)
  (event : tui_event)
  : tui_widget_manager * list tui_widget * option nat :=
  let '(wm, ws, target) :=
    if bool_decide (type event = TUI_EVENT_MOUSE) then
      let t := tui_wm_hit_test (Some wm) ws (mouse_x event) (mouse_y event) in
      let wm := set_hover t wm in
      let focusable :=
        match t with
        | Some i =>
          match ws !! i with Some wd => w_focusable wd | None => false end
        | None => false
        end in
      if bool_decide (mouse_button event = TUI_MOUSE_LEFT) && focusable then
        let '(wm, ws) := tui_wm_focus wm ws t in (wm, ws, t)
      else (wm, ws, t)
    else (wm, ws, focus wm) in
  (wm, ws, match target with Some t => Some t | None => root wm end).

(** [for (i = 0; i < path_len - 1 && !we.stopped; i++)]. *)
Definition capture_phase (ws : list tui_widget) (path : list nat)
  (e : tui_widget_event) (tr : list call) : tui_widget_event * list call :=
  foldl (fun st w =>
           if stopped (fst st) then st
           else tui_widget_call_handlers ws w true (fst st) (snd st))
        (e, tr) (take (length path - 1) path).

Definition target_phase (ws : list tui_widget) (target : nat)
  (e : tui_widget_event) (tr : list call)
  : list tui_widget * tui_widget_event * list call :=
  if stopped e then (ws, e, tr)
  else
    let e := set_current (Some target) (set_phase TUI_PHASE_TARGET e) in
    let '(e, tr) := tui_widget_call_handlers ws target true e tr in
    let '(ws, e, tr) :=
      if negb (stopped e) && negb (prevented e) then
        match ws !! target with
        | Some wd =>
          let '(wd', r) := tui_widget_handle_default_input ws wd e in
          (<[target := wd']> ws, if r then set_consumed true e else e,
           tr ++ [DefaultCall target])
        | None => (ws, e, tr)
        end
      else (ws, e, tr) in
    let '(e, tr) := tui_widget_call_handlers ws target false e tr in
    (ws, e, tr).

(** [for (i = path_len - 2; i >= 0 && !we.stopped; i--)]. *)
Definition bubble_phase (ws : list tui_widget) (path : list nat)
  (e : tui_widget_event) (tr : list call) : tui_widget_event * list call :=
  foldl (fun st w =>
           if stopped (fst st) then st
           else tui_widget_call_handlers ws w false (fst st) (snd st))
        (e, tr) (reverse (take (length path - 1) path)).

(** The three phases, for the target [t]. *)
Definition phased_dispatch (ws : list tui_widget) (t : nat)
  (we : tui_widget_event) (tr : list call) : list tui_widget * list call :=
  let we := set_target (Some t) we in
  let path := tui_widget_build_path ws t 64 in
  let we := set_phase TUI_PHASE_CAPTURE we in
  let '(we, tr) := capture_phase ws path we tr in
  let '(ws, we, tr) := target_phase ws t we tr in
  let we := set_phase TUI_PHASE_BUBBLE we in
  let '(_, tr) := bubble_phase ws path we tr in
  (ws, tr).

(** What follows the hotkey check: the target is chosen and the event goes
    through the three phases. *)
Definition dispatch_to_target (wm : tui_widget_manager)
  (ws : list tui_widget) (event : tui_event) (we : tui_widget_event)
  (tr : list call) : tui_widget_manager * list tui_widget * list call :=
  let '(wm, ws, target) := select_target wm ws event in
  match target with
  | None => (wm, ws, tr)
  | Some t => let '(ws, tr) := phased_dispatch ws t we tr in (wm, ws, tr)
  end.

Definition wm_route_event (wm : tui_widget_manager) (ws : list tui_widget)
  (event : tui_event) : tui_widget_manager * list tui_widget * list call :=
  let we := initial_widget_event event in
  if bool_decide (type event = TUI_EVENT_KEY)
     && bool_decide (key event = TUI_KEY_TAB) then
    let '(wm, ws) := tui_wm_focus_next wm ws in (wm, ws, [])
  else
    let '(hit, we, tr) := tui_wm_check_hotkeys wm we [] in
    if hit then (wm, ws, tr)
    else dispatch_to_target wm ws event we tr.
End router.

(** *** The order the specification gives

    For an event of kind [k] routed to the target [t]: capture handlers on
    the ancestors, root first; capture handlers on [t]; the built-in
    behaviour of [t]; bubble handlers on [t]; bubble handlers on the
    ancestors, leaf first.  A stop ends everything; a prevent skips the
    built-in behaviour. *)

Inductive sched_item :=
| SHandler (w i : nat) (entry : tui_handler_entry) (ph : tui_event_phase)
| SDefault (w : nat).

(** The handlers of a table, from index [i] on, that are registered for
    the kind [k] under the phase flag [capture_flag]. *)
Fixpoint handler_items_from (w i : nat) (entries : list tui_handler_entry)
  (k : tui_event_type) (capture_flag : bool) (ph : tui_event_phase)
  : list sched_item :=
  match entries with
  | [] => []
  | entry :: rest =>
    let others := handler_items_from w (S i) rest k capture_flag ph in
    if Bool.eqb (capture entry) capture_flag
       && bool_decide (event_type entry = k)
    then SHandler w i entry ph :: others
    else others
  end.

Definition handler_items (ws : list tui_widget) (k : tui_event_type)
  (capture_flag : bool) (ph : tui_event_phase) (w : nat) : list sched_item :=
  match ws !! w with
  | Some wd => handler_items_from w 0 (w_handlers wd) k capture_flag ph
  | None => []
  end.

(** The target and all its ancestors, target first: the parent chain.
    In a tree no chain is longer than the number of widgets, so a climb of
    one step more reaches the end of every chain. *)
Definition parent_chain (ws : list tui_widget) (t : nat) : list nat :=
  build_path_loop (S (length ws)) ws (Some t).

(** All the ancestors of [t], root first. *)
Definition ancestors (ws : list tui_widget) (t : nat) : list nat :=
  reverse (tail (parent_chain ws t)).

(** The order of the five groups, for the ancestors [anc], root first. *)
Definition schedule_over (anc : list nat) (ws : list tui_widget)
  (k : tui_event_type) (t : nat) : list sched_item :=
  concat (map (handler_items ws k true TUI_PHASE_CAPTURE) anc)
  ++ handler_items ws k true TUI_PHASE_TARGET t
  ++ [SDefault t]
  ++ handler_items ws k false TUI_PHASE_TARGET t
  ++ concat (map (handler_items ws k false TUI_PHASE_BUBBLE) (reverse anc)).

Definition spec_schedule (ws : list tui_widget) (k : tui_event_type)
  (t : nat) : list sched_item :=
  schedule_over (ancestors ws t) ws k t.

(** The ancestors the router has on the path it builds: the path of
    [tui_widget_build_path(target, path, 64)] without its last entry, the
    target. *)
Definition routed_ancestors (ws : list tui_widget) (t : nat) : list nat :=
  let path := tui_widget_build_path ws t 64 in
  take (length path - 1) path.

Section router_spec.
Variable other_input : tui_widget -> tui_widget_event -> widget_state * bool.
Variable malloc_ok : bool.

(** Going through a schedule: an item runs unless the event is stopped;
    the built-in behaviour is skipped when the event is prevented, and
    marks the event consumed when it handles it. *)
Fixpoint run_schedule (ws : list tui_widget) (items : list sched_item)
  (e : tui_widget_event) : list call :=
  match items with
  | [] => []
  | item :: rest =>
    if stopped e then []
    else
      match item with
      | SHandler w i entry ph =>
        let e := set_current (Some w) (set_phase ph e) in
        HandlerCall w i (capture entry)
          :: run_schedule ws rest (run_handler (handler entry) (Some w) e)
      | SDefault w =>
        let e := set_current (Some w) (set_phase TUI_PHASE_TARGET e) in
        if prevented e then run_schedule ws rest e
        else
          match ws !! w with
          | Some wd =>
            let r := snd (tui_widget_handle_default_input
                            other_input malloc_ok ws wd e) in
            DefaultCall w
              :: run_schedule ws rest (if r then set_consumed true e else e)
          | None => run_schedule ws rest e
          end
      end
  end.

(** The event after a schedule has been gone through. *)
Fixpoint after_schedule (ws : list tui_widget) (items : list sched_item)
  (e : tui_widget_event) : tui_widget_event :=
  match items with
  | [] => e
  | item :: rest =>
    if stopped e then e
    else
      match item with
      | SHandler w i entry ph =>
        let e := set_current (Some w) (set_phase ph e) in
        after_schedule ws rest (run_handler (handler entry) (Some w) e)
      | SDefault w =>
        let e := set_current (Some w) (set_phase TUI_PHASE_TARGET e) in
        if prevented e then after_schedule ws rest e
        else
          match ws !! w with
          | Some wd =>
            let r := snd (tui_widget_handle_default_input
                            other_input malloc_ok ws wd e) in
            after_schedule ws rest (if r then set_consumed true e else e)
          | None => after_schedule ws rest e
          end
      end
  end.

(** The calls the specification expects for the target [t]. *)
Definition spec_trace (ws : list tui_widget) (t : nat)
  (we : tui_widget_event) : list call :=
  run_schedule ws (spec_schedule ws (type (base we)) t)
               (set_target (Some t) we).

(** The calls of the same order over the ancestors on the router's
    path. *)
Definition routed_trace (ws : list tui_widget) (t : nat)
  (we : tui_widget_event) : list call :=
  run_schedule ws (schedule_over (routed_ancestors ws t) ws
                                 (type (base we)) t)
               (set_target (Some t) we).
End router_spec.

(** Two events that differ at most in [phase] and [current], the two
    fields the router stores anew before each call. *)
Definition same_flags (e1 e2 : tui_widget_event) : Prop :=
  base e1 = base e2 /\ target e1 = target e2 /\ stopped e1 = stopped e2
  /\ prevented e1 = prevented e2 /\ consumed e1 = consumed e2.

(** ** Boxes

    [tui_box_chars[style]]: the two top corners, the two bottom corners,
    the horizontal and the vertical stroke.  A style outside the
    enumeration draws as [TUI_BORDER_SINGLE]. *)
Definition TUI_BORDER_SINGLE : Z := 1.
Definition TUI_BORDER_ASCII : Z := 5.

Definition tui_box_chars : list (list Z) :=
  [[32; 32; 32; 32; 32; 32];
   [0x250C; 0x2510; 0x2514; 0x2518; 0x2500; 0x2502];
   [0x2554; 0x2557; 0x255A; 0x255D; 0x2550; 0x2551];
   [0x256D; 0x256E; 0x2570; 0x256F; 0x2500; 0x2502];
   [0x250F; 0x2513; 0x2517; 0x251B; 0x2501; 0x2503];
   [43; 43; 43; 43; 45; 124]].

(** [chars[k]] of [tui_box], after the style has been checked. *)
Definition box_char (style : Z) (k : nat) : Z :=
  let style := if (style <? 0) || (TUI_BORDER_ASCII <? style)
               then TUI_BORDER_SINGLE else style in
  default 0 (default [] (tui_box_chars !! Z.to_nat style) !! k).

Definition ctx_box (c : tui_context) (x y w h style : Z) : tui_context :=
  if negb (in_frame c) || (w <? 2) || (h <? 2) then c
  else
    let c := ctx_set_cell c x y (box_char style 0) in
    let c := ctx_set_cell c (x + w - 1) y (box_char style 1) in
    let c := ctx_set_cell c x (y + h - 1) (box_char style 2) in
    let c := ctx_set_cell c (x + w - 1) (y + h - 1) (box_char style 3) in
    let c :=
      foldl (fun c i =>
               ctx_set_cell (ctx_set_cell c (x + i) y (box_char style 4))
                            (x + i) (y + h - 1) (box_char style 4))
            c (seqZ 1 (w - 2)) in
    foldl (fun c i =>
             ctx_set_cell (ctx_set_cell c x (y + i) (box_char style 5))
                          (x + w - 1) (y + i) (box_char style 5))
          c (seqZ 1 (h - 2)).

(** ** Text measure

    [tui_text_width]: the number of characters of a string, counted by
    their first bytes.  [text] holds the bytes before the NUL, [None] is
    the [NULL] pointer; a byte that starts no character counts as one. *)
Definition text_char_len (b : Z) : Z :=
  if Z.land b 0x80 =? 0 then 1
  else if Z.land b 0xE0 =? 0xC0 then 2
  else if Z.land b 0xF0 =? 0xE0 then 3
  else if Z.land b 0xF8 =? 0xF0 then 4
  else 1.

(** The [while (pos < len)] loop; [pos] grows in each turn, so
    [length text] turns are enough. *)
Fixpoint text_width_loop (fuel : nat) (text : list Z) (pos width : Z) : Z :=
  match fuel with
  | O => width
  | S fuel' =>
    if pos <? Z.of_nat (length text) then
      text_width_loop fuel' text
        (pos + text_char_len (default 0 (text !! Z.to_nat pos))) (width + 1)
    else width
  end.

Definition tui_text_width (text : option (list Z)) : Z :=
  match text with
  | None => 0
  | Some s => text_width_loop (length s) s 0 0
  end.


(** ** Base64, for the clipboard

    [tui_base64_encode (input, input_len, output, output_size)]: [input]
    holds the [input_len] bytes, the answer the string left in [output],
    whose length is the return value. *)
Definition tui_base64_table : list Z :=
  bytes "ABCDEFGHIJKLMNOPQRSTUVWXYZabcdefghijklmnopqrstuvwxyz0123456789+/".

Definition base64_char (i : Z) : Z :=
  default 0 (tui_base64_table !! Z.to_nat i).

(** [a4] from [a3]. *)
Definition base64_quad (a0 a1 a2 : Z) : list Z :=
  [Z.land (Z.shiftr a0 2) 0x3F;
   Z.land (Z.lor (Z.shiftl a0 4) (Z.shiftr a1 4)) 0x3F;
   Z.land (Z.lor (Z.shiftl a1 2) (Z.shiftr a2 6)) 0x3F;
   Z.land a2 0x3F].

(** [output[j++] = c] for the characters of [cs] in turn, as long as
    [j < output_size - 1]. *)
Definition base64_put (output_size : Z) (out cs : list Z) : list Z :=
  out ++ take (Z.to_nat (output_size - 1 - Z.of_nat (length out))) cs.

(** The loop over the input, three bytes at a time, and the block for the
    one or two bytes that are left: their characters, then the padding. *)
Fixpoint base64_loop (input : list Z) (output_size : Z) (out : list Z)
  : list Z :=
  match input with
  | a0 :: a1 :: a2 :: rest =>
    base64_loop rest output_size
      (base64_put output_size out (map base64_char (base64_quad a0 a1 a2)))
  | [a0; a1] =>
    base64_put output_size
      (base64_put output_size out
         (map base64_char (take 3 (base64_quad a0 a1 0))))
      [61]
  | [a0] =>
    base64_put output_size
      (base64_put output_size out
         (map base64_char (take 2 (base64_quad a0 0 0))))
      [61; 61]
  | [] => out
  end.

Definition tui_base64_encode (input : list Z) (output_size : Z) : list Z :=
  base64_loop input output_size [].

(** ** The public entry points and their handles

    Every function of the interface that takes a context or a widget
    manager, as far as its handles go: the test each one starts with,
    with C's order of evaluation, and behind it the body, which runs on a
    handle that the test has found to be set.  A handle is an [option],
    [None] for [NULL].  Reading a field through a handle is a step of its
    own that fails on [NULL], so that a function which forgot its test, or
    made it too late, would show as [NullDereference]. *)
Module Api.

Inductive outcome (A : Type) : Type :=
| Returns (a : A)
| NullDereference.
Arguments Returns {A} a.
Arguments NullDereference {A}.

Definition bind {A B : Type} (m : outcome A) (k : A -> outcome B)
  : outcome B :=
  match m with
  | Returns a => k a
  | NullDereference => NullDereference
  end.

Notation "'let*' x ':=' m 'in' k" := (bind m (fun x => k))
  (at level 10, x name, m at level 100, k at level 200).

(** [p->f], and [*p] with [f] the identity. *)
Definition get {T A : Type} (p : option T) (f : T -> A) : outcome A :=
  match p with
  | Some c => Returns (f c)
  | None => NullDereference
  end.

(** The conditions [p] and [!p] on a pointer. *)
Definition is_set {T : Type} (p : option T) : outcome bool :=
  Returns (match p with Some _ => true | None => false end).

Definition is_null {T : Type} (p : option T) : outcome bool :=
  Returns (match p with Some _ => false | None => true end).

(** A condition on the other arguments. *)
Definition test (b : bool) : outcome bool := Returns b.

(** [a || b], [a && b] and [!a]: the right operand is evaluated only when
    the left one does not decide. *)
Definition or_else (a b : outcome bool) : outcome bool :=
  let* x := a in if x then Returns true else b.

Definition and_then (a b : outcome bool) : outcome bool :=
  let* x := a in if x then b else Returns false.

Definition not_ (a : outcome bool) : outcome bool :=
  let* x := a in Returns (negb x).

(** [if (g) return; body] and [if (g) { body }] in a function without a
    result; [if (g) return r; body] in a function with one. *)
Definition leaves_if {T : Type} (g : outcome bool) (p : option T)
  (body : T -> T) : outcome (option T) :=
  let* stop := g in
  if stop then Returns p else let* c := get p body in Returns (Some c).

Definition runs_if {T : Type} (g : outcome bool) (p : option T)
  (body : T -> T) : outcome (option T) :=
  leaves_if (not_ g) p body.

Definition returns_if {T R : Type} (g : outcome bool) (p : option T) (r : R)
  (body : T -> T * R) : outcome (option T * R) :=
  let* stop := g in
  if stop then Returns (p, r)
  else let* cr := get p body in Returns (Some (fst cr), snd cr).

(** What the embedding does not look into: the fields of the context and
    of the manager that only these functions use, and the bodies of the
    functions that are not modelled. *)
Record unmodelled := mk_unmodelled {
  mouse_enabled : tui_context -> bool;
  bracketed_paste_enabled : tui_context -> bool;
  focus_events_enabled : tui_context -> bool;
  theme : tui_context -> option Z;
  default_theme : Z;
  focus_stack_top : tui_widget_manager -> Z;
  destroy : tui_context -> tui_context;
  button : tui_context -> Z -> Z -> list Z -> tui_context * Z;
  enable_mouse : tui_context -> tui_context;
  disable_mouse : tui_context -> tui_context;
  set_cursor_shape : tui_context -> Z -> tui_context;
  enable_bracketed_paste : tui_context -> tui_context;
  disable_bracketed_paste : tui_context -> tui_context;
  enable_focus_events : tui_context -> tui_context;
  disable_focus_events : tui_context -> tui_context;
  clipboard_set : tui_context -> list Z -> tui_context;
  hyperlink_start : tui_context -> list Z -> tui_context;
  hyperlink_end : tui_context -> tui_context;
  label_aligned : tui_context -> Z -> Z -> Z -> list Z -> Z -> tui_context;
  popup_box :
    tui_context -> Z -> Z -> Z -> Z -> option (list Z) -> Z -> tui_context;
  wrap_text :
    tui_context -> Z -> Z -> Z -> Z -> list Z -> tui_context * Z;
  set_theme : tui_context -> option Z -> tui_context;
  focus_next :
    tui_widget_manager -> list tui_widget ->
    tui_widget_manager * list tui_widget;
  focus_prev :
    tui_widget_manager -> list tui_widget ->
    tui_widget_manager * list tui_widget;
  push_focus :
    tui_widget_manager -> list tui_widget -> option nat ->
    tui_widget_manager * list tui_widget;
  pop_focus :
    tui_widget_manager -> list tui_widget ->
    tui_widget_manager * list tui_widget;
  unregister_hotkey :
    tui_widget_manager -> tui_key -> Z -> bool -> bool -> bool ->
    tui_widget_manager;
  other_input : tui_widget -> tui_widget_event -> widget_state * bool;
  malloc_ok : bool;
  draw :
    tui_widget_manager -> list tui_widget -> tui_context -> tui_context
}.

Section entry_points.
Variable rest : unmodelled.

(** *** Life cycle and frames *)

Definition tui_destroy (ctx : option tui_context)
  : outcome (option tui_context) :=
  leaves_if (is_null ctx) ctx (destroy rest).

Definition tui_clear (ctx : option tui_context)
  : outcome (option tui_context) :=
  leaves_if (or_else (is_null ctx) (not_ (get ctx in_frame))) ctx ctx_clear.

Definition tui_begin_frame (ctx : option tui_context) (ws : option (Z * Z))
  : outcome (option tui_context) :=
  leaves_if (or_else (is_null ctx) (not_ (get ctx initialized))) ctx
            (fun c => ctx_begin_frame c ws).

Definition tui_end_frame (ctx : option tui_context)
  : outcome (option tui_context) :=
  leaves_if (or_else (is_null ctx)
               (or_else (not_ (get ctx initialized))
                        (not_ (get ctx in_frame))))
            ctx ctx_end_frame.

Definition tui_get_width (ctx : option tui_context) : outcome Z :=
  let* set := is_set ctx in if set then get ctx width else Returns 0.

Definition tui_get_height (ctx : option tui_context) : outcome Z :=
  let* set := is_set ctx in if set then get ctx height else Returns 0.

(** *** The pen *)

Definition tui_set_fg (ctx : option tui_context) (color : Z)
  : outcome (option tui_context) :=
  runs_if (is_set ctx) ctx (set_current_fg color).

Definition tui_set_bg (ctx : option tui_context) (color : Z)
  : outcome (option tui_context) :=
  runs_if (is_set ctx) ctx (set_current_bg color).

Definition tui_set_style (ctx : option tui_context) (style : Z)
  : outcome (option tui_context) :=
  runs_if (is_set ctx) ctx (set_current_style style).

Definition tui_set_underline_color (ctx : option tui_context) (color : Z)
  : outcome (option tui_context) :=
  runs_if (is_set ctx) ctx (set_current_underline_color color).

Definition tui_reset_underline_color (ctx : option tui_context)
  : outcome (option tui_context) :=
  runs_if (is_set ctx) ctx (set_current_underline_color TUI_COLOR_DEFAULT).

(** *** Drawing *)

Definition tui_set_cell (ctx : option tui_context) (x y codepoint : Z)
  : outcome (option tui_context) :=
  leaves_if (or_else (is_null ctx) (not_ (get ctx in_frame))) ctx
            (fun c => ctx_set_cell c x y codepoint).

Definition tui_set_cell_wide (ctx : option tui_context) (x y codepoint : Z)
  : outcome (option tui_context) :=
  leaves_if (or_else (is_null ctx) (not_ (get ctx in_frame))) ctx
            (fun c => ctx_set_cell_wide c x y codepoint).

Definition tui_label (ctx : option tui_context) (x y : Z)
  (text : option (list Z)) : outcome (option tui_context) :=
  leaves_if (or_else (is_null ctx)
               (or_else (not_ (get ctx in_frame)) (is_null text)))
            ctx (fun c => ctx_label c x y text).

Definition tui_button (ctx : option tui_context) (x y : Z)
  (text : option (list Z)) : outcome (option tui_context * Z) :=
  let* stop := or_else (is_null ctx)
            (or_else (not_ (get ctx in_frame)) (is_null text)) in
  if stop then Returns (ctx, 0)
  else
    let* t := get text id in
    let* cr := get ctx (fun c => button rest c x y t) in
    Returns (Some (fst cr), snd cr).

Definition tui_box (ctx : option tui_context) (x y w h style : Z)
  : outcome (option tui_context) :=
  leaves_if (or_else (is_null ctx)
               (or_else (not_ (get ctx in_frame))
                        (or_else (test (w <? 2)) (test (h <? 2)))))
            ctx (fun c => ctx_box c x y w h style).

Definition tui_fill (ctx : option tui_context) (x y w h ch : Z)
  : outcome (option tui_context) :=
  leaves_if (or_else (is_null ctx) (not_ (get ctx in_frame))) ctx
            (fun c => ctx_fill c x y w h ch).

Definition tui_hline (ctx : option tui_context) (x y len ch : Z)
  : outcome (option tui_context) :=
  leaves_if (or_else (is_null ctx) (not_ (get ctx in_frame))) ctx
            (fun c => ctx_hline c x y len ch).

Definition tui_vline (ctx : option tui_context) (x y len ch : Z)
  : outcome (option tui_context) :=
  leaves_if (or_else (is_null ctx) (not_ (get ctx in_frame))) ctx
            (fun c => ctx_vline c x y len ch).

Definition tui_label_aligned (ctx : option tui_context) (x y width : Z)
  (text : option (list Z)) (align : Z) : outcome (option tui_context) :=
  let* stop := or_else (is_null ctx)
            (or_else (not_ (get ctx in_frame)) (is_null text)) in
  if stop then Returns ctx
  else
    let* t := get text id in
    let* c := get ctx (fun c => label_aligned rest c x y width t align) in
    Returns (Some c).

Definition tui_popup_box (ctx : option tui_context) (x y w h : Z)
  (title : option (list Z)) (style : Z) : outcome (option tui_context) :=
  leaves_if (or_else (is_null ctx)
               (or_else (not_ (get ctx in_frame))
                        (or_else (test (w <? 4)) (test (h <? 3)))))
            ctx (fun c => popup_box rest c x y w h title style).

Definition tui_wrap_text (ctx : option tui_context) (x y width max_lines : Z)
  (text : option (list Z)) : outcome (option tui_context * Z) :=
  let* stop := or_else (is_null ctx)
            (or_else (not_ (get ctx in_frame))
                     (or_else (is_null text) (test (width <? 1)))) in
  if stop then Returns (ctx, 0)
  else
    let* t := get text id in
    let* cr := get ctx (fun c => wrap_text rest c x y width max_lines t) in
    Returns (Some (fst cr), snd cr).

(** *** Events, cursor and terminal modes *)

Definition tui_poll_event (ctx : option tui_context)
  (event : option tui_event) (resize : option (option (Z * Z)))
  : outcome (option tui_context * option tui_event * Z) :=
  let* stop := or_else (is_null ctx) (is_null event) in
  if stop then Returns (ctx, event, 0)
  else
    let* e := get event id in
    let* r := get ctx (fun c => ctx_poll_event c e resize) in
    Returns (Some (fst (fst r)), Some (snd r), snd (fst r)).

Definition tui_set_cursor (ctx : option tui_context) (x y : Z)
  : outcome (option tui_context) :=
  runs_if (is_set ctx) ctx (fun c => ctx_set_cursor c x y).

Definition tui_show_cursor (ctx : option tui_context) (show : bool)
  : outcome (option tui_context) :=
  runs_if (is_set ctx) ctx (fun c => ctx_show_cursor c show).

Definition tui_enable_mouse (ctx : option tui_context)
  : outcome (option tui_context) :=
  runs_if (and_then (is_set ctx) (not_ (get ctx (mouse_enabled rest)))) ctx
          (enable_mouse rest).

Definition tui_disable_mouse (ctx : option tui_context)
  : outcome (option tui_context) :=
  runs_if (and_then (is_set ctx) (get ctx (mouse_enabled rest))) ctx
          (disable_mouse rest).

Definition tui_resized (ctx : option tui_context)
  : outcome (option tui_context * bool) :=
  returns_if (is_null ctx) ctx false
             (fun c => (set_resized false c, resized c)).

Definition tui_set_cursor_shape (ctx : option tui_context) (shape : Z)
  : outcome (option tui_context) :=
  leaves_if (is_null ctx) ctx (fun c => set_cursor_shape rest c shape).

Definition tui_enable_bracketed_paste (ctx : option tui_context)
  : outcome (option tui_context) :=
  runs_if (and_then (is_set ctx)
             (not_ (get ctx (bracketed_paste_enabled rest))))
          ctx (enable_bracketed_paste rest).

Definition tui_disable_bracketed_paste (ctx : option tui_context)
  : outcome (option tui_context) :=
  runs_if (and_then (is_set ctx) (get ctx (bracketed_paste_enabled rest)))
          ctx (disable_bracketed_paste rest).

Definition tui_is_pasting (ctx : option tui_context) : outcome bool :=
  let* set := is_set ctx in if set then get ctx is_pasting else Returns false.

Definition tui_enable_focus_events (ctx : option tui_context)
  : outcome (option tui_context) :=
  runs_if (and_then (is_set ctx)
             (not_ (get ctx (focus_events_enabled rest))))
          ctx (enable_focus_events rest).

Definition tui_disable_focus_events (ctx : option tui_context)
  : outcome (option tui_context) :=
  runs_if (and_then (is_set ctx) (get ctx (focus_events_enabled rest)))
          ctx (disable_focus_events rest).

Definition tui_begin_sync (ctx : option tui_context)
  : outcome (option tui_context) :=
  runs_if (is_set ctx) ctx tui_ansi_begin_sync.

Definition tui_end_sync (ctx : option tui_context)
  : outcome (option tui_context) :=
  runs_if (is_set ctx) ctx
          (fun c => tui_output_flush (tui_ansi_end_sync c)).

Definition tui_clipboard_set (ctx : option tui_context)
  (text : option (list Z)) : outcome (option tui_context) :=
  let* stop := or_else (is_null ctx) (is_null text) in
  if stop then Returns ctx
  else
    let* t := get text id in
    let* c := get ctx (fun c => clipboard_set rest c t) in
    Returns (Some c).

Definition tui_hyperlink_start (ctx : option tui_context)
  (url : option (list Z)) : outcome (option tui_context) :=
  let* go := and_then (is_set ctx) (is_set url) in
  if go then
    let* u := get url id in
    let* c := get ctx (fun c => hyperlink_start rest c u) in
    Returns (Some c)
  else Returns ctx.

Definition tui_hyperlink_end (ctx : option tui_context)
  : outcome (option tui_context) :=
  runs_if (is_set ctx) ctx (hyperlink_end rest).

Definition tui_set_theme (ctx : option tui_context) (new_theme : option Z)
  : outcome (option tui_context) :=
  runs_if (is_set ctx) ctx (fun c => set_theme rest c new_theme).

Definition tui_get_theme (ctx : option tui_context) : outcome Z :=
  let* own := and_then (is_set ctx)
           (get ctx (fun c => match theme rest c with
                              | Some _ => true
                              | None => false
                              end)) in
  if own then get ctx (fun c => default (default_theme rest) (theme rest c))
  else Returns (default_theme rest).

(** *** The widget manager *)

Definition tui_wm_init (wm : option tui_widget_manager)
  : outcome (option tui_widget_manager) :=
  leaves_if (is_null wm) wm (fun _ => mk_widget_manager None None None []).

Definition tui_wm_set_root (wm : option tui_widget_manager)
  (new_root : option nat) : outcome (option tui_widget_manager) :=
  runs_if (is_set wm) wm
          (fun m => mk_widget_manager new_root (focus m) (hover m)
                                      (hotkeys m)).

Definition tui_wm_hit_test (wm : option tui_widget_manager)
  (ws : list tui_widget) (x y : Z) : outcome (option nat) :=
  let* stop := or_else (is_null wm)
            (get wm (fun m => match root m with
                              | Some _ => false
                              | None => true
                              end)) in
  if stop then Returns None
  else
    get wm (fun m => tui_widget_hit_test_recursive (length ws) ws (root m)
                                                   x y).

Definition tui_wm_focus (wm : option tui_widget_manager)
  (ws : list tui_widget) (widget : option nat)
  : outcome (option tui_widget_manager * list tui_widget) :=
  let* stop := is_null wm in
  if stop then Returns (wm, ws)
  else
    let* r := get wm (fun m => tui_wm_focus m ws widget) in
    Returns (Some (fst r), snd r).

Definition tui_wm_focus_next (wm : option tui_widget_manager)
  (ws : list tui_widget)
  : outcome (option tui_widget_manager * list tui_widget) :=
  let* stop := or_else (is_null wm)
            (get wm (fun m => match root m with
                              | Some _ => false
                              | None => true
                              end)) in
  if stop then Returns (wm, ws)
  else
    let* r := get wm (fun m => focus_next rest m ws) in
    Returns (Some (fst r), snd r).

Definition tui_wm_focus_prev (wm : option tui_widget_manager)
  (ws : list tui_widget)
  : outcome (option tui_widget_manager * list tui_widget) :=
  let* stop := or_else (is_null wm)
            (get wm (fun m => match root m with
                              | Some _ => false
                              | None => true
                              end)) in
  if stop then Returns (wm, ws)
  else
    let* r := get wm (fun m => focus_prev rest m ws) in
    Returns (Some (fst r), snd r).

Definition tui_wm_get_focus (wm : option tui_widget_manager)
  : outcome (option nat) :=
  let* set := is_set wm in if set then get wm focus else Returns None.

Definition tui_wm_push_focus (wm : option tui_widget_manager)
  (ws : list tui_widget) (modal_root : option nat)
  : outcome (option tui_widget_manager * list tui_widget) :=
  let* stop :=
    or_else (is_null wm)
            (get wm (fun m => TUI_MAX_FOCUS_STACK <=? focus_stack_top rest m))
  in
  if stop then Returns (wm, ws)
  else
    let* r := get wm (fun m => push_focus rest m ws modal_root) in
    Returns (Some (fst r), snd r).

Definition tui_wm_pop_focus (wm : option tui_widget_manager)
  (ws : list tui_widget)
  : outcome (option tui_widget_manager * list tui_widget) :=
  let* stop := or_else (is_null wm)
            (get wm (fun m => focus_stack_top rest m <=? 0)) in
  if stop then Returns (wm, ws)
  else
    let* r := get wm (fun m => pop_focus rest m ws) in
    Returns (Some (fst r), snd r).

Definition tui_wm_register_hotkey (wm : option tui_widget_manager)
  (key : tui_key) (ch : Z) (ctrl alt shift : bool)
  (handler : option tui_event_handler)
  : outcome (option tui_widget_manager) :=
  leaves_if (or_else (is_null wm)
               (get wm (fun m => TUI_MAX_HOTKEYS
                                 <=? Z.of_nat (length (hotkeys m)))))
            wm
            (fun m =>
               mk_widget_manager (root m) (focus m) (hover m)
                 (hotkeys m
                    ++ [mk_hotkey key ch ctrl alt shift handler true])).

Definition tui_wm_unregister_hotkey (wm : option tui_widget_manager)
  (key : tui_key) (ch : Z) (ctrl alt shift : bool)
  : outcome (option tui_widget_manager) :=
  leaves_if (is_null wm) wm
            (fun m => unregister_hotkey rest m key ch ctrl alt shift).

Definition tui_wm_route_event (wm : option tui_widget_manager)
  (ws : list tui_widget) (event : option tui_event)
  : outcome (option tui_widget_manager * list tui_widget * list call) :=
  let* stop := or_else (is_null wm) (is_null event) in
  if stop then Returns (wm, ws, [])
  else
    let* ev := get event id in
    let* r := get wm (fun m => wm_route_event (focus_next rest)
                                              (other_input rest)
                                              (malloc_ok rest) m ws ev) in
    Returns (Some (fst (fst r)), snd (fst r), snd r).

Definition tui_wm_draw (wm : option tui_widget_manager)
  (ws : list tui_widget) (ctx : option tui_context)
  : outcome (option tui_context) :=
  let* stop := or_else (is_null wm)
            (or_else (get wm (fun m => match root m with
                                       | Some _ => false
                                       | None => true
                                       end))
                     (is_null ctx)) in
  if stop then Returns ctx
  else
    let* m := get wm id in
    let* c := get ctx (draw rest m ws) in
    Returns (Some c).
End entry_points.
End Api.

(** ** Predicates used in the proofs *)

(** [c'] is [c] but for the two output fields. *)
Definition out_only (c c' : tui_context) : Prop :=
  c' = set_tty_out (tty_out c') (set_output_buffer (output_buffer c') c).

(** [c'] is [c] after the encoder was given [data]. *)
Definition appends (c c' : tui_context) (data : list Z) : Prop :=
  out_only c c' /\ emitted c' = emitted c ++ data
  /\ output_pos c' <= TUI_OUTPUT_BUFFER_SIZE.

(** The front and the back buffer hold the same cell at index [j]. *)
Definition eq_at (c : tui_context) (j : nat) : Prop :=
  exists cell, front_buffer c !! j = Some cell /\ back_buffer c !! j = Some cell.

(** What the diff loop keeps of the context it starts from. *)
Record diff_keeps (c c' : tui_context) : Prop := mk_diff_keeps {
  dk_back : back_buffer c' = back_buffer c;
  dk_width : width c' = width c;
  dk_height : height c' = height c;
  dk_front_len : length (front_buffer c') = length (front_buffer c);
  dk_cursor : cursor_visible c' = cursor_visible c
              /\ cursor_x c' = cursor_x c /\ cursor_y c' = cursor_y c;
  dk_init : initialized c' = initialized c;
  dk_eq : forall j, eq_at c j -> eq_at c' j
}.

(** What a drawing call keeps of the context. *)
Record draw_keeps (c c' : tui_context) : Prop := mk_draw_keeps {
  dw_init : initialized c' = initialized c;
  dw_frame : in_frame c' = in_frame c;
  dw_width : width c' = width c;
  dw_height : height c' = height c;
  dw_front : front_buffer c' = front_buffer c;
  dw_back_len : length (back_buffer c') = length (back_buffer c);
  dw_out : output_pos c <= TUI_OUTPUT_BUFFER_SIZE ->
           output_pos c' <= TUI_OUTPUT_BUFFER_SIZE;
  dw_idle : in_frame c = false -> back_buffer c' = back_buffer c
}.

(** One frame: begin, the host's calls, end. *)
Definition run_frame (c : tui_context) (ws : option (Z * Z))
  (calls : list draw_call) : tui_context :=
  ctx_end_frame (run_draw_calls (ctx_begin_frame c ws) calls).

(** The bytes [tui_end_frame] spends on the cursor. *)
Definition cursor_bytes (c : tui_context) : list Z :=
  if cursor_visible c then
    ((ESC :: bytes "[") ++ decimal (int_wrap (cursor_y c + 1)) ++ bytes ";"
       ++ decimal (int_wrap (cursor_x c + 1)) ++ bytes "H")
    ++ (ESC :: bytes "[?25h")
  else [].

(** The second of two frames with the same picture: [c2] is a context
    inside a frame that follows the frame ended on [c1], with the terminal
    size of [c1] and, on the visible rectangle, the back buffer of [c1]. *)
Record same_frame_again (c1 c2 : tui_context) : Prop := mk_same_frame_again {
  sf_wf1 : ctx_wf c1;
  sf_init1 : initialized c1 = true;
  sf_frame1 : in_frame c1 = true;
  sf_wf2 : ctx_wf c2;
  sf_init2 : initialized c2 = true;
  sf_frame2 : in_frame c2 = true;
  sf_redraw : needs_redraw c2 = false;
  sf_width : width c2 = width c1;
  sf_height : height c2 = height c1;
  sf_front : front_buffer c2 = front_buffer (ctx_end_frame c1);
  sf_back : forall x y, visible c1 x y ->
            back_buffer c2 !! cell_index x y = back_buffer c1 !! cell_index x y
}.

(** The entry section 4.7 of the specification names: the first active
    entry whose key equals the event's key and, for a CHAR entry, whose
    char equals the event's ch; with its index in the table. *)
Fixpoint first_matching_hotkey (i : nat) (hks : list tui_hotkey)
  (ev : tui_event) : option (nat * tui_hotkey) :=
  match hks with
  | [] => None
  | hk :: rest =>
    if hk_active hk && bool_decide (hk_key hk = key ev)
       && (negb (bool_decide (hk_key hk = TUI_KEY_CHAR))
           || (hk_ch hk =? ch ev))
    then Some (i, hk)
    else first_matching_hotkey (S i) rest ev
  end.

(** A call of a hotkey handler with a NULL widget. *)
Definition hotkey_call (c : call) : Prop := exists i, c = HotkeyCall i None.

(** Two arenas whose widgets have the same handler tables. *)
Definition same_handlers (ws ws' : list tui_widget) : Prop :=
  forall w, w_handlers <$> (ws' !! w) = w_handlers <$> (ws !! w).

(** The decoder consumes at least one byte and no more than wait; and it
    gives up no byte without an event. *)
Definition consumes_within (av : Z) (r : parse_result) : Prop :=
  match r with
  | Incomplete => True
  | Dropped n | Emitted n _ _ => 1 <= n <= av
  end.

Definition not_dropped (r : parse_result) : Prop :=
  match r with Dropped _ => False | _ => True end.

(** Nothing the decoder can decode is waiting, in the ring or on the
    terminal: so it is for a context that has just been created, and after
    the host has polled until nothing came. *)
Definition at_rest (c : tui_context) : Prop :=
  decode_list (ring_contents c ++ tty_in c) = Incomplete.

(** The events of a stream, and what is left of it where the decoder
    stops. *)
Definition events_of (l : list Z) : list tui_event :=
  fst (stream_events (S (length l)) l).

Definition rest_of (l : list Z) : list Z :=
  snd (stream_events (S (length l)) l).

(** What the decoder tests on the bytes the encoder writes: a lead byte of
    a two-, three- or four-byte sequence carrying the bits [t], and a
    continuation byte carrying the bits [y]. *)
Definition lead2_ok (t : Z) : bool :=
  negb (Z.lor 192 t <? 128) && (Z.land (Z.lor 192 t) 224 =? 192)
  && (Z.land (Z.lor 192 t) 31 =? t).

Definition lead3_ok (t : Z) : bool :=
  negb (Z.lor 224 t <? 128) && negb (Z.land (Z.lor 224 t) 224 =? 192)
  && (Z.land (Z.lor 224 t) 240 =? 224) && (Z.land (Z.lor 224 t) 15 =? t).

Definition lead4_ok (t : Z) : bool :=
  negb (Z.lor 240 t <? 128) && negb (Z.land (Z.lor 240 t) 224 =? 192)
  && negb (Z.land (Z.lor 240 t) 240 =? 224)
  && (Z.land (Z.lor 240 t) 248 =? 240) && (Z.land (Z.lor 240 t) 7 =? t).

Definition cont_ok (y : Z) : bool := Z.land (Z.lor 128 y) 63 =? y.

(** The number a string of decimal digits stands for. *)
Definition digits_value (ds : list Z) : Z :=
  foldl (fun acc d => acc * 10 + (d - 48)) 0 ds.

(** An ASCII digit. *)
Definition is_digit (d : Z) : Prop := 48 <= d <= 57.

(** The cell [(px, py)] lies in the rectangle of [w] columns and [h] rows
    whose top left corner is [(x, y)]. *)
Definition in_rect (x y w h px py : Z) : bool :=
  (x <=? px) && (px <? x + w) && (y <=? py) && (py <? y + h).

(** The points a loop over the rows [ys] with an inner loop over the
    columns [xs] visits, in its order. *)
Definition grid (xs ys : list Z) : list (Z * Z) :=
  flat_map (fun y => map (fun x => (x, y)) xs) ys.

(** [tui_set_cell] on each point of a list in turn. *)
Definition set_cells (c : tui_context) (pts : list (Z * Z)) (ch : Z)
  : tui_context :=
  foldl (fun c p => ctx_set_cell c (fst p) (snd p) ch) c pts.

(** [c'] extends the output of [c]. *)
Definition grows (c c' : tui_context) : Prop :=
  output_pos c <= TUI_OUTPUT_BUFFER_SIZE ->
  output_pos c' <= TUI_OUTPUT_BUFFER_SIZE
  /\ exists d, emitted c' = emitted c ++ d.

(** The bytes of the full redraw. *)
Definition redraw_bytes (c : tui_context) : list Z :=
  if needs_redraw c
  then (ESC :: bytes "[0m") ++ (ESC :: bytes "[2J") ++ (ESC :: bytes "[H")
  else [].

(** The scan of the children in [tui_widget_hit_test_recursive], from a
    running answer. *)
Definition hit_children (rec : nat -> option nat) (hit : option nat)
  (children : list nat) : option nat :=
  foldl (fun hit child => match hit with Some _ => hit | None => rec child end)
        hit children.

(** Only the widget the manager has in [focus] carries the focus flag. *)
Definition one_focus (wm : tui_widget_manager) (ws : list tui_widget) : Prop :=
  forall j wd, ws !! j = Some wd -> w_focused wd = true -> focus wm = Some j.

(** Two widgets that differ in the focus flag at most. *)
Definition same_but_focus (a b : tui_widget) : Prop :=
  set_w_focused false a = set_w_focused false b.

(** The line limit of a text area: [max_line_len], or 256 when that is not
    positive. *)
Definition ta_max_len (ta : textarea_state) : Z :=
  if 0 <? max_line_len ta then max_line_len ta else 256.

(** A line pointer is [NULL] or a string, without a NUL inside, that fits
    a buffer of [max_len] bytes with its terminator. *)
Definition line_ok (max_len : Z) (o : option (list Z)) : Prop :=
  match o with
  | Some l => Forall (fun b => b <> 0) l /\ Z.of_nat (length l) < max_len
  | None => True
  end.

(** What the text-area code relies on when it indexes the line array
    with the cursor row and a line with the cursor column. *)
Record text_ok (ta : textarea_state) (ls : list (option (list Z)))
  : Prop := mk_text_ok {
  tk_count : 0 < line_count ta <= line_capacity ta;
  tk_cap : line_capacity ta <= Z.of_nat (length ls);
  tk_row : 0 <= cursor_row ta < line_count ta;
  tk_col : 0 <= cursor_col ta <= line_len (line_at ls (cursor_row ta));
  tk_lines : Forall (line_ok (ta_max_len ta)) ls
}.

(** The length the decoder reads off the first byte of a character: 0
    for a byte that starts none. *)
Definition lead_len (b0 : Z) : Z :=
  if Z.land b0 0x80 =? 0 then 1
  else if Z.land b0 0xE0 =? 0xC0 then 2
  else if Z.land b0 0xF0 =? 0xE0 then 3
  else if Z.land b0 0xF8 =? 0xF0 then 4
  else 0.

(** The same by ranges of the byte. *)
Definition lead_len_by_range (b : Z) : Z :=
  if b <? 128 then 1 else if b <? 192 then 0 else if b <? 224 then 2
  else if b <? 240 then 3 else if b <? 248 then 4 else 0.

(** A code point a key press sends as a character of its own: not a
    control character, not the space and not DEL. *)
Definition typed (cp : Z) : Prop := 33 <= cp < 0x110000 /\ cp <> 127.

(** A value of a [uint8_t]. *)
Definition is_byte (b : Z) : Prop := 0 <= b < 256.

(** The characters of the encoding when nothing cuts it short. *)
Fixpoint base64_text (input : list Z) : list Z :=
  match input with
  | a0 :: a1 :: a2 :: rest =>
    map base64_char (base64_quad a0 a1 a2) ++ base64_text rest
  | [a0; a1] => map base64_char (take 3 (base64_quad a0 a1 0)) ++ [61]
  | [a0] => map base64_char (take 2 (base64_quad a0 0 0)) ++ [61; 61]
  | [] => []
  end.

(** The place of a character in the table. *)
Definition base64_index (c : Z) : Z :=
  if (65 <=? c) && (c <=? 90) then c - 65
  else if (97 <=? c) && (c <=? 122) then c - 71
  else if (48 <=? c) && (c <=? 57) then c + 4
  else if c =? 43 then 62 else 63.

(** Reading an encoding back, four characters at a time. *)
Fixpoint base64_inverse (s : list Z) : list Z :=
  match s with
  | c0 :: c1 :: c2 :: c3 :: rest =>
    let i0 := base64_index c0 in
    let i1 := base64_index c1 in
    let i2 := base64_index c2 in
    let i3 := base64_index c3 in
    let b0 := i0 * 4 + i1 / 16 in
    let b1 := (i1 mod 16) * 16 + i2 / 4 in
    let b2 := (i2 mod 4) * 64 + i3 in
    if c2 =? 61 then [b0]
    else if c3 =? 61 then [b0; b1]
    else b0 :: b1 :: b2 :: base64_inverse rest
  | _ => []
  end.

(** The number of characters of the encoding of [n] bytes. *)
Definition base64_length (n : nat) : Z := 4 * ((Z.of_nat n + 2) / 3).

(** The parent of the widget at [i]: [ws[i].parent]. *)
Definition parent_of (ws : list tui_widget) (i : nat) : option nat :=
  match ws !! i with Some wd => w_parent wd | None => None end.

(** [tui_set_cell] on each point of a list in turn, each with a code
    point of its own. *)
Definition draw_items (c : tui_context) (items : list (Z * Z * Z))
  : tui_context :=
  foldl (fun c it => ctx_set_cell c (fst (fst it)) (snd (fst it)) (snd it))
        c items.

(** The calls of [tui_box], in its order. *)
Definition box_items (x y w h style : Z) : list (Z * Z * Z) :=
  [(x, y, box_char style 0); (x + w - 1, y, box_char style 1);
   (x, y + h - 1, box_char style 2);
   (x + w - 1, y + h - 1, box_char style 3)]
  ++ flat_map (fun i => [(x + i, y, box_char style 4);
                         (x + i, y + h - 1, box_char style 4)])
              (seqZ 1 (w - 2))
  ++ flat_map (fun i => [(x, y + i, box_char style 5);
                         (x + w - 1, y + i, box_char style 5)])
              (seqZ 1 (h - 2)).

(** The cell [(px, py)] lies on the border of the rectangle. *)
Definition on_border (x y w h px py : Z) : bool :=
  in_rect x y w h px py
  && ((px =? x) || (px =? x + w - 1) || (py =? y) || (py =? y + h - 1)).

(** The glyph of a border cell. *)
Definition box_glyph (x y w h style px py : Z) : Z :=
  if py =? y then
    if px =? x then box_char style 0
    else if px =? x + w - 1 then box_char style 1 else box_char style 4
  else if py =? y + h - 1 then
    if px =? x then box_char style 2
    else if px =? x + w - 1 then box_char style 3 else box_char style 4
  else box_char style 5.

(** The bytes of the escape sequences that a changed cell may need: the
    cursor address, a colour, the style flags. *)
Definition move_bytes (x y : Z) : list Z :=
  (ESC :: bytes "[") ++ decimal (int_wrap (y + 1)) ++ bytes ";"
    ++ decimal (int_wrap (x + 1)) ++ bytes "H".

Definition rgb_bytes (select default : string) (color : Z) : list Z :=
  if negb (Z.land color 0x80000000 =? 0) then ESC :: bytes default
  else
    (ESC :: bytes select) ++ decimal (Z.land (Z.shiftr color 16) 0xFF)
      ++ bytes ";" ++ decimal (Z.land (Z.shiftr color 8) 0xFF)
      ++ bytes ";" ++ decimal (Z.land color 0xFF) ++ bytes "m".

Definition flag_bytes (style flag : Z) (code : string) : list Z :=
  if style_has style flag then ESC :: bytes code else [].

Definition style_bytes (style : Z) : list Z :=
  flag_bytes style TUI_STYLE_BOLD "[1m"
    ++ flag_bytes style TUI_STYLE_DIM "[2m"
    ++ flag_bytes style TUI_STYLE_ITALIC "[3m"
    ++ flag_bytes style TUI_STYLE_UNDERLINE "[4m"
    ++ flag_bytes style TUI_STYLE_BLINK "[5m"
    ++ flag_bytes style TUI_STYLE_REVERSE "[7m"
    ++ flag_bytes style TUI_STYLE_STRIKETHROUGH "[9m"
    ++ flag_bytes style TUI_STYLE_UNDERCURL "[4:3m".

(** Before the first changed cell of a frame nothing has been sent: the
    colours and the style are values no comparison is meant to meet, the
    position is off the screen. *)
Definition nothing_sent : tui_cell :=
  mk_cell 0 0xFFFFFFFF 0xFFFFFFFF 0xFFFFFFFF 0xFF.

(** The bytes of one changed cell, [cell] at [(x, y)], when the changed
    cell before it was [prev] at [(px, py)]: the cursor address unless the
    cell is the right neighbour of the one before; on another style the
    reset and the flags of the new style, after which no colour counts as
    sent; each colour that is not the one sent last; the character. *)
Definition cell_bytes (px py : Z) (prev : tui_cell) (x y : Z)
  (cell : tui_cell) : list Z :=
  let restyle := negb (style cell =? style prev) in
  let sent (color : Z) := if restyle then 0xFFFFFFFF else color in
  (if (px =? x - 1) && (py =? y) then [] else move_bytes x y)
    ++ (if restyle then (ESC :: bytes "[0m") ++ style_bytes (style cell)
        else [])
    ++ (if fg cell =? sent (fg prev) then []
        else rgb_bytes "[38;2;" "[39m" (fg cell))
    ++ (if bg cell =? sent (bg prev) then []
        else rgb_bytes "[48;2;" "[49m" (bg cell))
    ++ (if underline_color cell =? sent (underline_color prev) then []
        else rgb_bytes "[58;2;" "[59m" (underline_color cell))
    ++ tui_utf8_encode (codepoint cell).

Fixpoint cells_bytes (px py : Z) (prev : tui_cell)
  (cells : list (Z * Z * tui_cell)) : list Z :=
  match cells with
  | [] => []
  | (x, y, cell) :: rest =>
    cell_bytes px py prev x y cell ++ cells_bytes x y cell rest
  end.

(** The cells of [back] that differ from [front], among the points [pts]
    and in their order, each with its place. *)
Definition changed_cells (front back : list tui_cell) (pts : list (Z * Z))
  : list (Z * Z * tui_cell) :=
  omap (fun p =>
          match front !! cell_index (fst p) (snd p),
                back !! cell_index (fst p) (snd p) with
          | Some f, Some b => if tui_cell_equal f b then None else Some (p, b)
          | _, _ => None
          end) pts.

(** What the terminal shows when [tui_end_frame] starts to compare: the
    front buffer, or a blank screen when a full redraw erases it first. *)
Definition screen_before (c : tui_context) : list tui_cell :=
  if needs_redraw c
  then replicate (Z.to_nat (TUI_MAX_WIDTH * TUI_MAX_HEIGHT))
                 tui_make_empty_cell
  else front_buffer c.

(** The bytes of the cells of a frame: the changed cells of the visible
    rectangle, row by row from the top and from left to right in a row. *)
Definition frame_body (c : tui_context) : list Z :=
  cells_bytes (-2) (-2) nothing_sent
    (changed_cells (screen_before c) (back_buffer c)
                   (grid (seqZ 0 (width c)) (seqZ 0 (height c)))).

(** The state of the diff loop after the changed cell [prev] at
    [(px, py)]. *)
Definition diff_after (c : tui_context) (px py : Z) (prev : tui_cell)
  : diff_state :=
  mk_diff c (fg prev) (bg prev) (underline_color prev) (style prev) px py.


(** ** Example data *)

(** A context inside a frame on a terminal of [w] columns and [h] rows,
    both buffers blank, the pen at its defaults. *)
Definition blank_buffer : list tui_cell :=
  replicate (Z.to_nat (TUI_MAX_WIDTH * TUI_MAX_HEIGHT)) tui_make_empty_cell.

Definition example_ctx (w h : Z) (cursor : bool) : tui_context :=
  {| width := w; height := h;
     front_buffer := blank_buffer; back_buffer := blank_buffer;
     current_fg := TUI_COLOR_DEFAULT; current_bg := TUI_COLOR_DEFAULT;
     current_style := TUI_STYLE_NONE;
     input_buffer := replicate 64 0; input_start := 0; input_end := 0;
     output_buffer := [];
     cursor_x := 0; cursor_y := 0; cursor_visible := cursor;
     button_pressed := false;
     ctx_mouse_x := 0; ctx_mouse_y := 0; ctx_mouse_button := TUI_MOUSE_NONE;
     resized := false; current_underline_color := TUI_COLOR_DEFAULT;
     is_pasting := false; initialized := true; in_frame := true;
     needs_redraw := false; tty_in := []; tty_out := [] |}.

(** A mouse event as the decoder leaves it in a struct that
    [tui_poll_event] has just cleared. *)
Definition mouse_event (b : tui_mouse_button) (x y : Z) : tui_event :=
  mk_event TUI_EVENT_MOUSE TUI_KEY_NONE 0 b x y 0 0 false false false.

(** What the host sees when the terminal sends [report] to an idle
    80 x 24 session and the host polls until nothing is left. *)
Definition decoded (report : list Z) : list tui_event :=
  feed_at_once (example_ctx 80 24 false) blank_event report.

(** The cell at column [x] of row [y] of the back buffer. *)
Definition back_cell (c : tui_context) (x y : Z) : option tui_cell :=
  back_buffer c !! cell_index x y.

(** The text ["ab\ncd"] drawn at the origin of an empty frame [w] columns
    wide and two rows high. *)
Definition two_lines (w : Z) : tui_context :=
  ctx_label (example_ctx w 2 false) 0 0
            (Some (bytes "ab" ++ [10] ++ bytes "cd")).

(** A cell of the default pen. *)
Definition plain_cell (s : string) : tui_cell :=
  mk_cell (chr s) TUI_COLOR_DEFAULT TUI_COLOR_DEFAULT TUI_COLOR_DEFAULT
          TUI_STYLE_NONE.

(** A key press without modifiers, and an event on its way through the
    target phase at the widget [t]. *)
Definition key_press (k : tui_key) (c : Z) : tui_event :=
  mk_event TUI_EVENT_KEY k c TUI_MOUSE_NONE 0 0 0 0 false false false.

Definition at_target (ev : tui_event) (t : nat) : tui_widget_event :=
  mk_widget_event ev TUI_PHASE_TARGET (Some t) (Some t) false false false.

(** A visible, enabled, focusable widget of 20 x 5 cells without
    children. *)
Definition plain_widget (t : tui_widget_type) (parent : option nat)
  (handlers : list tui_handler_entry) (st : widget_state) : tui_widget :=
  mk_widget t 0 0 20 5 parent [] true true true false 0 handlers false st.

(** A text area of capacity 4 whose only line is ["Hello World"], the
    cursor at column 5. *)
Definition hello_state : textarea_state :=
  mk_textarea (Some [Some (bytes "Hello World"); None; None; None])
              1 4 0 5 0 false true 256.

Definition hello_textarea : tui_widget :=
  plain_widget TUI_WIDGET_TEXTAREA None [] (TextareaState hello_state).

Definition stopping : tui_event_handler := fun _ _ => [Stop].
Definition idle : tui_event_handler := fun _ _ => [].

(** Focus navigation and the built-in behaviours the embedding leaves
    open, for the examples: nothing moves. *)
Definition no_focus_next (wm : tui_widget_manager) (ws : list tui_widget)
  : tui_widget_manager * list tui_widget := (wm, ws).

Definition no_other_input (w : tui_widget) (e : tui_widget_event)
  : widget_state * bool := (w_state w, false).



(** A chain of 65 containers, each the only child of the one before: the
    widget 0 is the root and has a capture handler for key events, the
    widget 64 is the leaf and has the focus. *)
Definition deep_chain : list tui_widget :=
  map (fun i =>
         match i with
         | O =>
           plain_widget TUI_WIDGET_CONTAINER None
             [mk_handler_entry TUI_EVENT_KEY idle true] OtherState
         | S j => plain_widget TUI_WIDGET_CONTAINER (Some j) [] OtherState
         end)
      (seq 0 65).

Definition deep_manager : tui_widget_manager :=
  mk_widget_manager (Some 0%nat) (Some 64%nat) None [].

(** A panel with a button in it: the panel stops key events in its
    capture phase or lets them through, the button has one handler of each
    kind. *)
Definition panel_and_button (panel_handler : tui_event_handler)
  : list tui_widget :=
  [plain_widget TUI_WIDGET_PANEL None
     [mk_handler_entry TUI_EVENT_KEY panel_handler true;
      mk_handler_entry TUI_EVENT_KEY idle false] OtherState;
   plain_widget TUI_WIDGET_BUTTON (Some 0%nat)
     [mk_handler_entry TUI_EVENT_KEY idle true;
      mk_handler_entry TUI_EVENT_KEY idle false] (ButtonState false)].

Definition button_manager : tui_widget_manager :=
  mk_widget_manager (Some 0%nat) (Some 1%nat) None [].

(** An idle 80 x 24 session to which the terminal has sent [bs], before
    the host polls. *)
Definition session_with (bs : list Z) : tui_context :=
  tty_send (example_ctx 80 24 false) bs.

(** A CSI sequence of 32 bytes that has not ended yet: ESC, [ and thirty
    digits. *)
Definition long_csi : list Z := ESC :: chr "[" :: replicate 30 (chr "1").

(** The same session after the bytes have been read into the ring. *)
Definition session_holding (bs : list Z) : tui_context :=
  fst (tui_posix_read_input (session_with bs)).

(** A 20 x 5 panel at (10, 3) with one child, a 6 x 1 button at (2, 1)
    inside it, and a hidden 20 x 5 overlay as its second child. *)
Definition framed_button : list tui_widget :=
  [mk_widget TUI_WIDGET_PANEL 10 3 20 5 None [1%nat; 2%nat] true true false
     false 0 [] true OtherState;
   mk_widget TUI_WIDGET_BUTTON 2 1 6 1 (Some 0%nat) [] true true true false
     0 [] false (ButtonState false);
   mk_widget TUI_WIDGET_PANEL 0 0 20 5 (Some 0%nat) [] false true false
     false 0 [] false OtherState].

(** A frame with something on it: two bold red letters on the first row
    and a visible cursor below them, on a terminal of 10 columns and 3
    rows. *)
Definition hi_calls : list draw_call :=
  [SetFg TUI_COLOR_RED; SetStyle TUI_STYLE_BOLD;
   Label 1 0 (Some (bytes "Hi")); SetCursor 3 1; ShowCursor true].

Definition hi_frame : tui_context :=
  run_draw_calls (example_ctx 10 3 false) hi_calls.

(** The next frame on the same terminal with the same calls. *)
Definition hi_again : tui_context :=
  run_draw_calls (ctx_begin_frame (ctx_end_frame hi_frame) (Some (10, 3)))
                 hi_calls.



(** * Properties *)

(** ** The output encoder only appends *)

Lemma out_only_refl c : out_only c c.
Proof. unfold out_only. destruct c; reflexivity. Qed.

Lemma out_only_trans c1 c2 c3 : out_only c1 c2 -> out_only c2 c3 -> out_only c1 c3.
Proof.
  unfold out_only. intros H1 H2. rewrite H2, H1. destruct c1; reflexivity.
Qed.

Lemma out_only_set_output_buffer c b : out_only c (set_output_buffer b c).
Proof. unfold out_only. destruct c; reflexivity. Qed.

Lemma out_only_set_tty_out c b : out_only c (set_tty_out b c).
Proof. unfold out_only. destruct c; reflexivity. Qed.

Lemma flush_out_only c : out_only c (tui_output_flush c).
Proof.
  unfold tui_output_flush. destruct (0 <? output_pos c).
  - eapply out_only_trans; [apply out_only_set_tty_out | apply out_only_set_output_buffer].
  - apply out_only_refl.
Qed.

Lemma flush_emitted c : emitted (tui_output_flush c) = emitted c.
Proof.
  unfold tui_output_flush, emitted, output_pos.
  destruct (output_buffer c) as [|b l] eqn:E; simpl.
  - rewrite E. reflexivity.
  - destruct c; simpl in *. rewrite app_nil_r. reflexivity.
Qed.

Lemma flush_output_pos c : output_pos (tui_output_flush c) <= TUI_OUTPUT_BUFFER_SIZE.
Proof.
  unfold tui_output_flush, output_pos.
  destruct (output_buffer c) as [|b l] eqn:E; simpl.
  - rewrite E. simpl. unfold TUI_OUTPUT_BUFFER_SIZE. lia.
  - destruct c; simpl. unfold TUI_OUTPUT_BUFFER_SIZE. lia.
Qed.

Lemma write_loop_spec fuel : forall c data,
  (length data <= fuel)%nat ->
  output_pos c <= TUI_OUTPUT_BUFFER_SIZE ->
  let c' := output_write_loop fuel c data in
  out_only c c' /\ emitted c' = emitted c ++ data
  /\ output_pos c' <= TUI_OUTPUT_BUFFER_SIZE.
Proof.
  induction fuel as [|fuel IH]; intros c data Hlen Hpos; simpl.
  - destruct data; [|simpl in Hlen; lia].
    rewrite app_nil_r. split; [apply out_only_refl|]. split; [reflexivity|lia].
  - destruct (Z.ltb_spec 0 (Z.of_nat (length data))) as [Hpos'|Hz].
    2:{ destruct data; [|simpl in Hz; lia]. rewrite app_nil_r.
        split; [apply out_only_refl|]. split; [reflexivity|lia]. }
    set (space := TUI_OUTPUT_BUFFER_SIZE - output_pos c).
    set (c1 := if space =? 0 then tui_output_flush c else c).
    set (space1 := if space =? 0 then TUI_OUTPUT_BUFFER_SIZE else space).
    set (chunk := if Z.of_nat (length data) <? space1 then Z.of_nat (length data) else space1).
    assert (Hc1 : out_only c c1 /\ (emitted c1 = emitted c
                  /\ (output_pos c1 + space1 <= TUI_OUTPUT_BUFFER_SIZE /\ 0 < space1))).
    { unfold c1, space1. destruct (Z.eqb_spec space 0) as [E|E].
      - split; [apply flush_out_only|]. split; [apply flush_emitted|].
        unfold tui_output_flush. unfold space in E.
        assert ((0 <? output_pos c) = true) as ->.
        { apply Z.ltb_lt. unfold TUI_OUTPUT_BUFFER_SIZE in *. lia. }
        unfold output_pos. destruct c; simpl. unfold TUI_OUTPUT_BUFFER_SIZE. lia.
      - split; [apply out_only_refl|]. split; [reflexivity|]. unfold space in *. lia. }
    destruct Hc1 as (Ho & He & Hsp & Hsp0).
    assert (Hchunk : 0 < chunk <= Z.of_nat (length data) /\ chunk <= space1).
    { unfold chunk. destruct (Z.ltb_spec (Z.of_nat (length data)) space1); lia. }
    set (c2 := set_output_buffer (output_buffer c1 ++ take (Z.to_nat chunk) data) c1).
    assert (Hpos2 : output_pos c2 <= TUI_OUTPUT_BUFFER_SIZE).
    { unfold c2, output_pos in *. simpl.
      rewrite length_app, length_take. lia. }
    specialize (IH c2 (drop (Z.to_nat chunk) data)).
    destruct IH as (I1 & I2 & I3); [rewrite length_drop; lia | exact Hpos2 |].
    split; [|split].
    + eapply out_only_trans; [exact Ho|]. eapply out_only_trans; [|exact I1].
      apply out_only_set_output_buffer.
    + rewrite I2. rewrite <- He. unfold c2, emitted. simpl.
      rewrite <- !app_assoc. rewrite take_drop. reflexivity.
    + exact I3.
Qed.

Lemma write_loop_out_only fuel : forall c data,
  out_only c (output_write_loop fuel c data).
Proof.
  induction fuel as [|fuel IH]; intros c data; simpl.
  - apply out_only_refl.
  - destruct (0 <? Z.of_nat (length data)); [|apply out_only_refl].
    eapply out_only_trans; [|apply IH].
    destruct (TUI_OUTPUT_BUFFER_SIZE - output_pos c =? 0).
    + eapply out_only_trans; [apply flush_out_only|].
      apply out_only_set_output_buffer.
    + apply out_only_set_output_buffer.
Qed.

Lemma write_out_only c data : out_only c (tui_output_write c data).
Proof. apply write_loop_out_only. Qed.

Lemma appends_nil c : output_pos c <= TUI_OUTPUT_BUFFER_SIZE -> appends c c [].
Proof.
  intros H. split; [apply out_only_refl|]. split; [|exact H].
  rewrite app_nil_r. reflexivity.
Qed.

Lemma appends_trans c1 c2 c3 d1 d2 :
  appends c1 c2 d1 -> appends c2 c3 d2 -> appends c1 c3 (d1 ++ d2).
Proof.
  intros (A1 & A2 & A3) (B1 & B2 & B3). split; [|split].
  - eapply out_only_trans; eassumption.
  - rewrite B2, A2, app_assoc. reflexivity.
  - exact B3.
Qed.

Lemma appends_pos c c' d : appends c c' d -> output_pos c' <= TUI_OUTPUT_BUFFER_SIZE.
Proof. intros (_ & _ & H). exact H. Qed.

Lemma write_appends c data :
  output_pos c <= TUI_OUTPUT_BUFFER_SIZE -> appends c (tui_output_write c data) data.
Proof. intros H. apply (write_loop_spec (length data) c data); [lia | exact H]. Qed.

Lemma flush_appends c :
  appends c (tui_output_flush c) [].
Proof.
  split; [apply flush_out_only|]. split; [|apply flush_output_pos].
  rewrite app_nil_r. apply flush_emitted.
Qed.


Lemma write2_appends c d1 d2 :
  output_pos c <= TUI_OUTPUT_BUFFER_SIZE ->
  appends c (tui_output_write (tui_output_write c d1) d2) (d1 ++ d2).
Proof.
  intros H. eapply appends_trans; [apply write_appends; exact H|].
  apply write_appends. eapply appends_pos. apply write_appends. exact H.
Qed.

Lemma move_cursor_appends c x y :
  output_pos c <= TUI_OUTPUT_BUFFER_SIZE ->
  appends c (tui_ansi_move_cursor c x y)
    ((ESC :: bytes "[") ++ decimal (int_wrap (y + 1)) ++ bytes ";"
       ++ decimal (int_wrap (x + 1))
       ++ bytes "H").
Proof.
  intros H. unfold tui_ansi_move_cursor, tui_output_int, tui_output_str.
  pose proof (write_appends c (ESC :: bytes "[") H) as H1.
  pose proof (write_appends _ (decimal (int_wrap (y + 1)))
                (appends_pos _ _ _ H1)) as H2.
  pose proof (write_appends _ (bytes ";") (appends_pos _ _ _ H2)) as H3.
  pose proof (write_appends _ (decimal (int_wrap (x + 1)))
                (appends_pos _ _ _ H3)) as H4.
  pose proof (write_appends _ (bytes "H") (appends_pos _ _ _ H4)) as H5.
  exact (appends_trans _ _ _ _ _ H1
           (appends_trans _ _ _ _ _ H2
              (appends_trans _ _ _ _ _ H3 (appends_trans _ _ _ _ _ H4 H5)))).
Qed.

Lemma show_cursor_appends c :
  output_pos c <= TUI_OUTPUT_BUFFER_SIZE ->
  appends c (tui_ansi_show_cursor c) (ESC :: bytes "[?25h").
Proof. apply write_appends. Qed.

Lemma hide_cursor_appends c :
  output_pos c <= TUI_OUTPUT_BUFFER_SIZE ->
  appends c (tui_ansi_hide_cursor c) (ESC :: bytes "[?25l").
Proof. apply write_appends. Qed.

Lemma begin_sync_appends c :
  output_pos c <= TUI_OUTPUT_BUFFER_SIZE ->
  appends c (tui_ansi_begin_sync c) BEGIN_SYNC.
Proof. apply write_appends. Qed.

Lemma end_sync_appends c :
  output_pos c <= TUI_OUTPUT_BUFFER_SIZE ->
  appends c (tui_ansi_end_sync c) END_SYNC.
Proof. apply write_appends. Qed.

(** The other sequences: what matters is that they only append. *)
Lemma move_cursor_out_only c x y : out_only c (tui_ansi_move_cursor c x y).
Proof.
  unfold tui_ansi_move_cursor, tui_output_int, tui_output_str.
  repeat (eapply out_only_trans; [|apply write_out_only]). apply out_only_refl.
Qed.

Lemma reset_out_only c : out_only c (tui_ansi_reset c).
Proof. apply write_out_only. Qed.

Lemma set_fg_out_only c color : out_only c (tui_ansi_set_fg c color).
Proof.
  unfold tui_ansi_set_fg, tui_output_int, tui_output_str.
  destruct (negb _).
  - apply write_out_only.
  - repeat (eapply out_only_trans; [|apply write_out_only]). apply out_only_refl.
Qed.

Lemma set_bg_out_only c color : out_only c (tui_ansi_set_bg c color).
Proof.
  unfold tui_ansi_set_bg, tui_output_int, tui_output_str.
  destruct (negb _).
  - apply write_out_only.
  - repeat (eapply out_only_trans; [|apply write_out_only]). apply out_only_refl.
Qed.

Lemma set_underline_color_out_only c color :
  out_only c (tui_ansi_set_underline_color c color).
Proof.
  unfold tui_ansi_set_underline_color, tui_output_str.
  destruct (negb _); apply write_out_only.
Qed.

Lemma set_style_out_only c s : out_only c (tui_ansi_set_style c s).
Proof.
  unfold tui_ansi_set_style, tui_output_str.
  repeat match goal with
         | |- context [if style_has ?a ?b then _ else _] =>
           destruct (style_has a b)
         end;
  repeat (eapply out_only_trans; [|apply write_out_only]); apply out_only_refl.
Qed.
(** ** The diff loop *)

Lemma out_only_front c c' : out_only c c' -> front_buffer c' = front_buffer c.
Proof. intros H. rewrite H. reflexivity. Qed.

Lemma out_only_back c c' : out_only c c' -> back_buffer c' = back_buffer c.
Proof. intros H. rewrite H. reflexivity. Qed.

Lemma out_only_size c c' :
  out_only c c' -> width c' = width c /\ height c' = height c.
Proof. intros H. rewrite H. split; reflexivity. Qed.

Lemma out_only_cursor c c' :
  out_only c c' ->
  cursor_visible c' = cursor_visible c
  /\ cursor_x c' = cursor_x c /\ cursor_y c' = cursor_y c.
Proof. intros H. rewrite H. repeat split; reflexivity. Qed.

Lemma out_only_flags c c' :
  out_only c c' ->
  initialized c' = initialized c /\ in_frame c' = in_frame c
  /\ needs_redraw c' = needs_redraw c.
Proof. intros H. rewrite H. repeat split; reflexivity. Qed.

(** Closes [out_only c (f ... c)] for a chain of encoder calls. *)
Ltac solve_out_only :=
  repeat match goal with
         | |- out_only _ (tui_output_write _ _) =>
           eapply out_only_trans; [|apply write_out_only]
         | |- out_only _ (tui_output_str _ _) =>
           eapply out_only_trans; [|apply write_out_only]
         | |- out_only _ (tui_output_flush _) =>
           eapply out_only_trans; [|apply flush_out_only]
         | |- out_only _ (if ?b then _ else _) => destruct b
         | |- out_only _ (tui_ansi_set_underline_color _ _) =>
           eapply out_only_trans; [|apply set_underline_color_out_only]
         | |- out_only _ (tui_ansi_set_bg _ _) =>
           eapply out_only_trans; [|apply set_bg_out_only]
         | |- out_only _ (tui_ansi_set_fg _ _) =>
           eapply out_only_trans; [|apply set_fg_out_only]
         | |- out_only _ (tui_ansi_set_style _ _) =>
           eapply out_only_trans; [|apply set_style_out_only]
         | |- out_only _ (tui_ansi_reset _) =>
           eapply out_only_trans; [|apply reset_out_only]
         | |- out_only _ (tui_ansi_move_cursor _ _ _) =>
           eapply out_only_trans; [|apply move_cursor_out_only]
         | |- out_only _ (tui_ansi_show_cursor _) =>
           eapply out_only_trans; [|apply write_out_only]
         | |- out_only _ (tui_ansi_hide_cursor _) =>
           eapply out_only_trans; [|apply write_out_only]
         | |- out_only _ (tui_ansi_begin_sync _) =>
           eapply out_only_trans; [|apply write_out_only]
         | |- out_only _ (tui_ansi_end_sync _) =>
           eapply out_only_trans; [|apply write_out_only]
         end;
  apply out_only_refl.

Lemma tui_cell_equal_eq a b : tui_cell_equal a b = true -> a = b.
Proof.
  unfold tui_cell_equal. intros H.
  repeat (apply andb_prop in H; destruct H as [H ?]).
  destruct a, b; simpl in *. f_equal; apply Z.eqb_eq; assumption.
Qed.

Lemma diff_keeps_refl c : diff_keeps c c.
Proof. split; auto. Qed.

Lemma diff_keeps_trans c1 c2 c3 :
  diff_keeps c1 c2 -> diff_keeps c2 c3 -> diff_keeps c1 c3.
Proof.
  intros [A1 A2 A3 A4 A5 A6 A7] [B1 B2 B3 B4 B5 B6 B7].
  split; try congruence; auto.
  destruct A5 as (? & ? & ?), B5 as (? & ? & ?). repeat split; congruence.
Qed.

Lemma diff_cell_keeps st x y :
  diff_keeps (ds_ctx st) (ds_ctx (diff_cell st x y)).
Proof.
  unfold diff_cell.
  destruct (front_buffer (ds_ctx st) !! cell_index x y) as [f|] eqn:Ef;
    [|apply diff_keeps_refl].
  destruct (back_buffer (ds_ctx st) !! cell_index x y) as [b|] eqn:Eb;
    [|apply diff_keeps_refl].
  destruct (tui_cell_equal f b); [apply diff_keeps_refl|].
  cbv zeta. cbn [ds_ctx].
  match goal with
  | |- diff_keeps _ (set_front_buffer _ ?C) => assert (Ho : out_only (ds_ctx st) C)
  end.
  { solve_out_only. }
  match goal with
  | |- diff_keeps _ (set_front_buffer _ ?C) => set (c5 := C) in *
  end.
  pose proof (out_only_front _ _ Ho) as Hf.
  pose proof (out_only_back _ _ Ho) as Hb.
  pose proof (out_only_size _ _ Ho) as [Hw Hh].
  pose proof (out_only_cursor _ _ Ho) as Hc.
  pose proof (out_only_flags _ _ Ho) as (Hi & _ & _).
  split; cbn [back_buffer width height front_buffer set_front_buffer
              cursor_visible cursor_x cursor_y initialized]; auto.
  - rewrite length_insert, Hf. reflexivity.
  - intros j (cell & Hj1 & Hj2). unfold eq_at.
    cbn [back_buffer front_buffer set_front_buffer]. rewrite Hb, Hf.
    destruct (decide (j = cell_index x y)) as [->|Hne].
    + exists cell. split; [|exact Hj2].
      rewrite list_lookup_insert_eq by (eapply lookup_lt_Some; eauto). congruence.
    + exists cell. rewrite list_lookup_insert_ne by congruence. auto.
Qed.

Lemma diff_cell_syncs st x y :
  (cell_index x y < length (front_buffer (ds_ctx st)))%nat ->
  (cell_index x y < length (back_buffer (ds_ctx st)))%nat ->
  eq_at (ds_ctx (diff_cell st x y)) (cell_index x y).
Proof.
  intros Hlf Hlb.
  destruct (lookup_lt_is_Some_2 _ _ Hlf) as [f Ef].
  destruct (lookup_lt_is_Some_2 _ _ Hlb) as [b Eb].
  pose proof (diff_cell_keeps st x y) as Hk.
  unfold diff_cell in *. rewrite Ef, Eb in *.
  destruct (tui_cell_equal f b) eqn:E.
  - apply tui_cell_equal_eq in E. subst. exists b. auto.
  - cbv zeta in *. cbn [ds_ctx] in *. exists b.
    destruct Hk as [Hb _ _ _ _ _ _].
    cbn [back_buffer front_buffer set_front_buffer] in *.
    split; [|rewrite Hb; exact Eb].
    apply list_lookup_insert_eq.
    match goal with |- (_ < length (front_buffer ?C))%nat =>
      assert (Ho : out_only (ds_ctx st) C) end.
    2:{ rewrite (out_only_front _ _ Ho). exact Hlf. }
    solve_out_only.
Qed.

Lemma diff_fold_keeps y xs : forall st,
  diff_keeps (ds_ctx st) (ds_ctx (foldl (fun st x => diff_cell st x y) st xs)).
Proof.
  induction xs as [|a xs IH]; intros st; simpl.
  - apply diff_keeps_refl.
  - eapply diff_keeps_trans; [apply diff_cell_keeps | apply IH].
Qed.

Lemma diff_fold_syncs y xs : forall st x,
  x ∈ xs ->
  (cell_index x y < length (front_buffer (ds_ctx st)))%nat ->
  (cell_index x y < length (back_buffer (ds_ctx st)))%nat ->
  eq_at (ds_ctx (foldl (fun st x => diff_cell st x y) st xs)) (cell_index x y).
Proof.
  induction xs as [|a xs IH]; intros st x Hin Hf Hb; simpl.
  - inversion Hin.
  - apply elem_of_cons in Hin as [->|Hin].
    + apply (dk_eq _ _ (diff_fold_keeps y xs _)). apply diff_cell_syncs; assumption.
    + pose proof (diff_cell_keeps st a y) as Hk.
      apply IH; [assumption| |].
      * rewrite (dk_front_len _ _ Hk). exact Hf.
      * rewrite (dk_back _ _ Hk). exact Hb.
Qed.

Lemma diff_row_keeps st y : diff_keeps (ds_ctx st) (ds_ctx (diff_row st y)).
Proof. apply diff_fold_keeps. Qed.

Lemma diff_rows_keeps ys : forall st,
  diff_keeps (ds_ctx st) (ds_ctx (foldl diff_row st ys)).
Proof.
  induction ys as [|a ys IH]; intros st; simpl.
  - apply diff_keeps_refl.
  - eapply diff_keeps_trans; [apply diff_row_keeps | apply IH].
Qed.

Lemma diff_rows_syncs ys : forall st x y,
  y ∈ ys -> 0 <= x < width (ds_ctx st) ->
  (cell_index x y < length (front_buffer (ds_ctx st)))%nat ->
  (cell_index x y < length (back_buffer (ds_ctx st)))%nat ->
  eq_at (ds_ctx (foldl diff_row st ys)) (cell_index x y).
Proof.
  induction ys as [|a ys IH]; intros st x y Hin Hx Hf Hb; simpl.
  - inversion Hin.
  - apply elem_of_cons in Hin as [->|Hin].
    + apply (dk_eq _ _ (diff_rows_keeps ys _)). unfold diff_row.
      apply diff_fold_syncs; [|assumption..].
      apply elem_of_seqZ. lia.
    + pose proof (diff_row_keeps st a) as Hk.
      apply IH; [assumption| | |].
      * rewrite (dk_width _ _ Hk). exact Hx.
      * rewrite (dk_front_len _ _ Hk). exact Hf.
      * rewrite (dk_back _ _ Hk). exact Hb.
Qed.

Lemma diff_loop_keeps st : diff_keeps (ds_ctx st) (ds_ctx (diff_loop st)).
Proof. unfold diff_loop. apply diff_rows_keeps. Qed.

Lemma diff_loop_syncs st x y :
  0 <= x < width (ds_ctx st) -> 0 <= y < height (ds_ctx st) ->
  (cell_index x y < length (front_buffer (ds_ctx st)))%nat ->
  (cell_index x y < length (back_buffer (ds_ctx st)))%nat ->
  eq_at (ds_ctx (diff_loop st)) (cell_index x y).
Proof.
  intros Hx Hy Hf Hb. unfold diff_loop.
  apply diff_rows_syncs; try assumption. apply elem_of_seqZ. lia.
Qed.

Lemma cell_index_in_range x y :
  0 <= x < TUI_MAX_WIDTH -> 0 <= y < TUI_MAX_HEIGHT ->
  (cell_index x y < Z.to_nat (TUI_MAX_WIDTH * TUI_MAX_HEIGHT))%nat.
Proof. unfold cell_index, TUI_MAX_WIDTH, TUI_MAX_HEIGHT. intros. nia. Qed.

Lemma clear_buffer_length buf w h : length (tui_clear_buffer buf w h) = length buf.
Proof.
  unfold tui_clear_buffer. generalize (seqZ 0 h) as ys. intros ys. revert buf.
  induction ys as [|y ys IH]; intros buf; simpl; [reflexivity|].
  rewrite IH. generalize (seqZ 0 w) as xs. intros xs. revert buf.
  induction xs as [|x xs IHx]; intros buf; simpl; [reflexivity|].
  rewrite IHx. apply length_insert.
Qed.

(** Reduces projections of updated contexts, and nothing else. *)
Ltac ctx_simpl :=
  cbn [width height front_buffer back_buffer current_fg current_bg
       current_style input_buffer input_start input_end output_buffer
       cursor_x cursor_y cursor_visible button_pressed ctx_mouse_x
       ctx_mouse_y ctx_mouse_button resized current_underline_color
       is_pasting initialized in_frame needs_redraw tty_in tty_out set_width
       set_height set_front_buffer set_back_buffer set_current_fg
       set_current_bg set_current_style set_input_buffer set_input_start
       set_input_end set_output_buffer set_cursor_x set_cursor_y
       set_cursor_visible set_button_pressed set_ctx_mouse_x set_ctx_mouse_y
       set_ctx_mouse_button set_resized set_current_underline_color
       set_is_pasting set_in_frame set_needs_redraw set_tty_in set_tty_out
       ds_ctx negb orb andb fst snd].

Ltac ctx_simpl_in H :=
  cbn [width height front_buffer back_buffer current_fg current_bg
       current_style input_buffer input_start input_end output_buffer
       cursor_x cursor_y cursor_visible button_pressed ctx_mouse_x
       ctx_mouse_y ctx_mouse_button resized current_underline_color
       is_pasting initialized in_frame needs_redraw tty_in tty_out set_width
       set_height set_front_buffer set_back_buffer set_current_fg
       set_current_bg set_current_style set_input_buffer set_input_start
       set_input_end set_output_buffer set_cursor_x set_cursor_y
       set_cursor_visible set_button_pressed set_ctx_mouse_x set_ctx_mouse_y
       set_ctx_mouse_button set_resized set_current_underline_color
       set_is_pasting set_in_frame set_needs_redraw set_tty_in set_tty_out
       ds_ctx negb orb andb fst snd] in H.

(** ** Drawing calls *)

Lemma draw_keeps_refl c : draw_keeps c c.
Proof. split; auto. Qed.

Lemma draw_keeps_trans c1 c2 c3 :
  draw_keeps c1 c2 -> draw_keeps c2 c3 -> draw_keeps c1 c3.
Proof.
  intros [A1 A2 A3 A4 A5 A6 A7 A8] [B1 B2 B3 B4 B5 B6 B7 B8].
  split; try congruence; auto.
  intros H. rewrite B8 by congruence. auto.
Qed.

Lemma draw_keeps_foldl {A} (f : tui_context -> A -> tui_context) l :
  (forall c a, draw_keeps c (f c a)) ->
  forall c, draw_keeps c (foldl f c l).
Proof.
  intros Hf. induction l as [|a l IH]; intros c; simpl.
  - apply draw_keeps_refl.
  - eapply draw_keeps_trans; [apply Hf | apply IH].
Qed.

Lemma set_cell_keeps c x y cp : draw_keeps c (ctx_set_cell c x y cp).
Proof.
  unfold ctx_set_cell. destruct (in_frame c) eqn:E; simpl.
  - destruct (_ || _); [apply draw_keeps_refl|].
    split; simpl; auto; [apply length_insert | congruence].
  - apply draw_keeps_refl.
Qed.

Lemma set_cell_wide_keeps c x y cp : draw_keeps c (ctx_set_cell_wide c x y cp).
Proof.
  unfold ctx_set_cell_wide. destruct (in_frame c) eqn:E; simpl.
  - destruct (_ || _); [apply draw_keeps_refl|].
    split; simpl; auto; [rewrite !length_insert; reflexivity | congruence].
  - apply draw_keeps_refl.
Qed.

Lemma label_step_keeps c x y cur_x rest :
  draw_keeps c (label_step c x y cur_x rest).1.1.1.
Proof.
  unfold label_step. destruct (tui_utf8_decode rest) as [n cp].
  repeat match goal with
         | |- context [if ?b then _ else _] => destruct b
         end; simpl;
  first [apply draw_keeps_refl | apply set_cell_keeps | apply set_cell_wide_keeps].
Qed.

Lemma label_loop_keeps fuel : forall c x y cur_x rest,
  draw_keeps c (label_loop fuel c x y cur_x rest).
Proof.
  induction fuel as [|fuel IH]; intros; simpl; [apply draw_keeps_refl|].
  destruct (_ && _); [|apply draw_keeps_refl].
  pose proof (label_step_keeps c x y cur_x rest) as Hs.
  destruct (label_step c x y cur_x rest) as [[[c' y'] cx'] n]. simpl in Hs.
  eapply draw_keeps_trans; [exact Hs | apply IH].
Qed.

Lemma label_keeps c x y text : draw_keeps c (ctx_label c x y text).
Proof.
  unfold ctx_label. destruct text; [|apply draw_keeps_refl].
  destruct (negb _); [apply draw_keeps_refl | apply label_loop_keeps].
Qed.

Lemma show_cursor_keeps c show : draw_keeps c (ctx_show_cursor c show).
Proof.
  unfold ctx_show_cursor.
  assert (H0 : draw_keeps c (set_cursor_visible show c)) by (split; simpl; auto).
  eapply draw_keeps_trans; [exact H0|].
  generalize (set_cursor_visible show c) as c1. clear. intros c1.
  destruct (negb (in_frame c1)); [|apply draw_keeps_refl].
  match goal with |- draw_keeps _ ?C => assert (Ho : out_only c1 C) end.
  { solve_out_only. }
  pose proof (out_only_flags _ _ Ho) as (? & ? & ?).
  pose proof (out_only_size _ _ Ho) as (? & ?).
  split; auto using out_only_front, out_only_back.
  - rewrite (out_only_back _ _ Ho). reflexivity.
  - intros _. apply flush_output_pos.
Qed.

Lemma run_draw_call_keeps c d : draw_keeps c (run_draw_call c d).
Proof.
  destruct d; simpl;
    try (split; simpl; auto; fail);
    try apply set_cell_keeps; try apply set_cell_wide_keeps;
    try apply label_keeps; try apply show_cursor_keeps.
  - unfold ctx_fill. destruct (negb _); [apply draw_keeps_refl|].
    apply draw_keeps_foldl. intros c0 j. apply draw_keeps_foldl.
    intros. apply set_cell_keeps.
  - unfold ctx_hline. destruct (negb _); [apply draw_keeps_refl|].
    apply draw_keeps_foldl. intros. apply set_cell_keeps.
  - unfold ctx_vline. destruct (negb _); [apply draw_keeps_refl|].
    apply draw_keeps_foldl. intros. apply set_cell_keeps.
  - unfold ctx_clear. destruct (negb _); [apply draw_keeps_refl|].
    apply draw_keeps_foldl. intros c0 j. apply draw_keeps_foldl.
    intros. apply set_cell_keeps.
Qed.

Lemma run_draw_calls_keeps ds : forall c, draw_keeps c (run_draw_calls c ds).
Proof. apply draw_keeps_foldl. apply run_draw_call_keeps. Qed.

(** ** Frames *)

Lemma get_terminal_size_shape c ws :
  exists w h, tui_get_terminal_size c ws = set_height h (set_width w c)
              /\ 0 < w <= TUI_MAX_WIDTH /\ 0 < h <= TUI_MAX_HEIGHT.
Proof.
  unfold tui_get_terminal_size, TUI_MAX_WIDTH, TUI_MAX_HEIGHT.
  destruct ws as [[col row]|].
  - destruct (Z.ltb_spec 0 col), (Z.ltb_spec 0 row); cbn [andb];
      eexists; eexists; (split; [reflexivity|]);
      repeat match goal with
             | |- context [Z.ltb ?a ?b] => destruct (Z.ltb_spec a b)
             end; lia.
  - eexists; eexists; (split; [reflexivity|]).
    repeat match goal with
           | |- context [Z.ltb ?a ?b] => destruct (Z.ltb_spec a b)
           end; lia.
Qed.

Lemma begin_frame_wf c ws :
  ctx_wf c -> initialized c = true ->
  let c' := ctx_begin_frame c ws in
  ctx_wf c' /\ initialized c' = true /\ in_frame c' = true
  /\ front_buffer c' = front_buffer c.
Proof.
  intros [Hf Hb Hw Hh Ho] Hi. unfold ctx_begin_frame. rewrite Hi. ctx_simpl.
  destruct (get_terminal_size_shape c ws) as (w & h & -> & Hw' & Hh').
  split; [|repeat split; ctx_simpl; assumption].
  split; ctx_simpl.
  - exact Hf.
  - rewrite clear_buffer_length. exact Hb.
  - lia.
  - lia.
  - exact Ho.
Qed.

Lemma hard_clear_out_only c : out_only c (hard_clear c).
Proof. unfold hard_clear. solve_out_only. Qed.

Lemma redraw_prologue_keeps c :
  back_buffer (redraw_prologue c) = back_buffer c
  /\ width (redraw_prologue c) = width c
  /\ height (redraw_prologue c) = height c
  /\ length (front_buffer (redraw_prologue c)) = length (front_buffer c)
  /\ initialized (redraw_prologue c) = initialized c
  /\ cursor_visible (redraw_prologue c) = cursor_visible c
  /\ cursor_x (redraw_prologue c) = cursor_x c
  /\ cursor_y (redraw_prologue c) = cursor_y c.
Proof.
  unfold redraw_prologue. destruct (needs_redraw c); [|repeat split].
  pose proof (hard_clear_out_only (set_needs_redraw false c)) as Hx.
  revert Hx. generalize (hard_clear (set_needs_redraw false c)) as X.
  intros X Hx. ctx_simpl. rewrite clear_buffer_length.
  rewrite (out_only_back _ _ Hx), (out_only_front _ _ Hx).
  destruct (out_only_size _ _ Hx) as [-> ->].
  destruct (out_only_flags _ _ Hx) as (-> & _ & _).
  destruct (out_only_cursor _ _ Hx) as (-> & -> & ->).
  repeat split.
Qed.

Lemma place_cursor_out_only c : out_only c (place_cursor c).
Proof. unfold place_cursor. solve_out_only. Qed.

Lemma frame_epilogue_keeps c :
  front_buffer (frame_epilogue c) = front_buffer c
  /\ back_buffer (frame_epilogue c) = back_buffer c
  /\ width (frame_epilogue c) = width c
  /\ height (frame_epilogue c) = height c
  /\ initialized (frame_epilogue c) = initialized c
  /\ in_frame (frame_epilogue c) = false
  /\ output_pos (frame_epilogue c) <= TUI_OUTPUT_BUFFER_SIZE.
Proof.
  unfold frame_epilogue.
  assert (Hx : out_only c (tui_output_flush (tui_ansi_end_sync (place_cursor c)))).
  { eapply out_only_trans; [apply place_cursor_out_only|]. solve_out_only. }
  pose proof (flush_output_pos (tui_ansi_end_sync (place_cursor c))) as Hp.
  revert Hx Hp.
  generalize (tui_output_flush (tui_ansi_end_sync (place_cursor c))) as X.
  intros X Hx Hp. ctx_simpl.
  rewrite (out_only_back _ _ Hx), (out_only_front _ _ Hx).
  destruct (out_only_size _ _ Hx) as [-> ->].
  destruct (out_only_flags _ _ Hx) as (-> & _ & _).
  repeat split. exact Hp.
Qed.

Lemma end_frame_unfold c :
  initialized c = true -> in_frame c = true ->
  ctx_end_frame c =
  frame_epilogue
    (ds_ctx (diff_loop (diff_start (tui_ansi_begin_sync (redraw_prologue c))))).
Proof. intros Hi Hin. unfold ctx_end_frame. rewrite Hi, Hin. reflexivity. Qed.

Lemma end_frame_syncs c :
  ctx_wf c -> initialized c = true -> in_frame c = true ->
  (forall x y, visible c x y -> eq_at (ctx_end_frame c) (cell_index x y))
  /\ back_buffer (ctx_end_frame c) = back_buffer c
  /\ width (ctx_end_frame c) = width c
  /\ height (ctx_end_frame c) = height c
  /\ in_frame (ctx_end_frame c) = false
  /\ initialized (ctx_end_frame c) = true
  /\ ctx_wf (ctx_end_frame c).
Proof.
  intros [Hf Hb Hw Hh Ho] Hi Hin. rewrite (end_frame_unfold c Hi Hin).
  destruct (redraw_prologue_keeps c) as (Pb & Pw & Ph & Pf & Pi & _).
  revert Pb Pw Ph Pf Pi. generalize (redraw_prologue c) as c1.
  intros c1 Pb Pw Ph Pf Pi.
  assert (Ho2 : out_only c1 (tui_ansi_begin_sync c1)) by solve_out_only.
  revert Ho2. generalize (tui_ansi_begin_sync c1) as c2. intros c2 Ho2.
  pose proof (diff_loop_keeps (diff_start c2)) as Hk.
  pose proof (fun x y => diff_loop_syncs (diff_start c2) x y) as Hs.
  revert Hk Hs. generalize (ds_ctx (diff_loop (diff_start c2))) as c3.
  intros c3 Hk Hs. unfold diff_start in Hk, Hs. cbn [ds_ctx] in Hk, Hs.
  destruct (frame_epilogue_keeps c3) as (Ef & Eb & Ew & Eh & Ei & Ein & Ep).
  revert Ef Eb Ew Eh Ei Ein Ep. generalize (frame_epilogue c3) as c4.
  intros c4 Ef Eb Ew Eh Ei Ein Ep.
  destruct (out_only_size _ _ Ho2) as [Hw2 Hh2].
  pose proof (out_only_back _ _ Ho2) as Hb2.
  pose proof (out_only_front _ _ Ho2) as Hf2.
  destruct (out_only_flags _ _ Ho2) as (Hi2 & _ & _).
  destruct Hk as [Kb Kw Kh Kfl Kc Ki Keq].
  assert (Hback : back_buffer c4 = back_buffer c)
    by (rewrite Eb, Kb, Hb2; exact Pb).
  assert (Hwid : width c4 = width c) by (rewrite Ew, Kw, Hw2; exact Pw).
  assert (Hhei : height c4 = height c) by (rewrite Eh, Kh, Hh2; exact Ph).
  split; [|split; [|split; [|split; [|split; [|split]]]]]; try assumption.
  - intros x y [Hx Hy]. unfold eq_at. rewrite Eb, Ef.
    apply Hs.
    + lia.
    + lia.
    + rewrite Hf2, Pf, Hf. apply cell_index_in_range; lia.
    + rewrite Hb2, Pb, Hb. apply cell_index_in_range; lia.
  - rewrite Ei, Ki, Hi2, Pi. exact Hi.
  - split.
    + rewrite Ef, Kfl, Hf2, Pf. exact Hf.
    + rewrite Hback. exact Hb.
    + lia.
    + lia.
    + exact Ep.
Qed.

Lemma example_ctx_wf w h b :
  w <= TUI_MAX_WIDTH -> h <= TUI_MAX_HEIGHT -> ctx_wf (example_ctx w h b).
Proof.
  intros Hw Hh. split; cbn [example_ctx front_buffer back_buffer width height].
  - apply length_replicate.
  - apply length_replicate.
  - exact Hw.
  - exact Hh.
  - unfold output_pos. cbn [example_ctx output_buffer length].
    unfold TUI_OUTPUT_BUFFER_SIZE. lia.
Qed.



(** ** A frame that changes nothing *)

Lemma tui_cell_equal_refl a : tui_cell_equal a a = true.
Proof. unfold tui_cell_equal. rewrite !Z.eqb_refl. reflexivity. Qed.

Lemma diff_cell_idle st x y :
  eq_at (ds_ctx st) (cell_index x y) -> diff_cell st x y = st.
Proof.
  intros (cell & Hf & Hb). unfold diff_cell. rewrite Hf, Hb.
  rewrite tui_cell_equal_refl. reflexivity.
Qed.

Lemma diff_fold_idle y xs : forall st,
  (forall x, x ∈ xs -> eq_at (ds_ctx st) (cell_index x y)) ->
  foldl (fun st x => diff_cell st x y) st xs = st.
Proof.
  induction xs as [|a xs IH]; intros st H; simpl; [reflexivity|].
  rewrite diff_cell_idle by (apply H; left).
  apply IH. intros x Hx. apply H. right. exact Hx.
Qed.

Lemma diff_rows_idle ys : forall st,
  (forall x y, 0 <= x < width (ds_ctx st) -> y ∈ ys ->
               eq_at (ds_ctx st) (cell_index x y)) ->
  foldl diff_row st ys = st.
Proof.
  induction ys as [|a ys IH]; intros st H; simpl; [reflexivity|].
  assert (E : diff_row st a = st).
  { unfold diff_row. apply diff_fold_idle. intros x Hx.
    apply elem_of_seqZ in Hx. apply H; [lia | left]. }
  rewrite E. apply IH. intros x y Hx Hy. apply H; [exact Hx | right; exact Hy].
Qed.

Lemma diff_loop_idle st :
  (forall x y, visible (ds_ctx st) x y -> eq_at (ds_ctx st) (cell_index x y)) ->
  diff_loop st = st.
Proof.
  intros H. unfold diff_loop. apply diff_rows_idle.
  intros x y Hx Hy. apply elem_of_seqZ in Hy. apply H. split; lia.
Qed.

Lemma eq_at_out_only c c' j : out_only c c' -> eq_at c j -> eq_at c' j.
Proof.
  intros Ho. unfold eq_at.
  rewrite (out_only_front _ _ Ho), (out_only_back _ _ Ho). auto.
Qed.

Lemma place_cursor_appends c :
  output_pos c <= TUI_OUTPUT_BUFFER_SIZE ->
  appends c (place_cursor c) (cursor_bytes c).
Proof.
  intros H. unfold place_cursor, cursor_bytes.
  destruct (cursor_visible c); [|apply appends_nil; exact H].
  eapply appends_trans; [apply move_cursor_appends; exact H|].
  apply show_cursor_appends. eapply appends_pos. apply move_cursor_appends. exact H.
Qed.

Lemma frame_epilogue_emitted c :
  output_pos c <= TUI_OUTPUT_BUFFER_SIZE ->
  emitted (frame_epilogue c) = emitted c ++ cursor_bytes c ++ END_SYNC.
Proof.
  intros H. unfold frame_epilogue.
  pose proof (place_cursor_appends c H) as A1.
  pose proof (end_sync_appends _ (appends_pos _ _ _ A1)) as A2.
  pose proof (flush_appends (tui_ansi_end_sync (place_cursor c))) as A3.
  pose proof (appends_trans _ _ _ _ _ A1 (appends_trans _ _ _ _ _ A2 A3)) as A.
  destruct A as (_ & E & _). rewrite app_nil_r in E.
  revert E. generalize (tui_output_flush (tui_ansi_end_sync (place_cursor c))).
  intros X E. unfold emitted in *. ctx_simpl. exact E.
Qed.

(** The output of [tui_end_frame] when no visible cell differs. *)
Lemma end_frame_idle_output c :
  ctx_wf c -> initialized c = true -> in_frame c = true ->
  needs_redraw c = false ->
  (forall x y, visible c x y -> eq_at c (cell_index x y)) ->
  emitted (ctx_end_frame c) = emitted c ++ BEGIN_SYNC ++ cursor_bytes c ++ END_SYNC.
Proof.
  intros [Hf Hb Hw Hh Ho] Hi Hin Hn Heq.
  rewrite (end_frame_unfold c Hi Hin).
  unfold redraw_prologue. rewrite Hn.
  pose proof (begin_sync_appends c Ho) as (O1 & E1 & P1).
  assert (Hc : cursor_bytes (tui_ansi_begin_sync c) = cursor_bytes c).
  { unfold cursor_bytes. destruct (out_only_cursor _ _ O1) as (-> & -> & ->).
    reflexivity. }
  assert (Hidle : diff_loop (diff_start (tui_ansi_begin_sync c))
                  = diff_start (tui_ansi_begin_sync c)).
  { apply diff_loop_idle. unfold diff_start. cbn [ds_ctx].
    intros x y [Hx Hy]. destruct (out_only_size _ _ O1) as [Ew Eh].
    apply (eq_at_out_only _ _ _ O1). apply Heq. split; lia. }
  rewrite Hidle. unfold diff_start. cbn [ds_ctx].
  rewrite frame_epilogue_emitted by exact P1.
  rewrite E1, Hc, <- app_assoc. reflexivity.
Qed.

Lemma set_in_frame_wf c b : ctx_wf c -> ctx_wf (set_in_frame b c).
Proof. intros [? ? ? ? ?]. split; assumption. Qed.

Lemma set_in_frame_fields c b :
  in_frame (set_in_frame b c) = b
  /\ initialized (set_in_frame b c) = initialized c
  /\ needs_redraw (set_in_frame b c) = needs_redraw c
  /\ width (set_in_frame b c) = width c
  /\ height (set_in_frame b c) = height c
  /\ front_buffer (set_in_frame b c) = front_buffer c
  /\ back_buffer (set_in_frame b c) = back_buffer c.
Proof. repeat split. Qed.

(** Ending a frame and opening the next one on the same picture. *)
Lemma next_frame_again c1 :
  ctx_wf c1 -> initialized c1 = true -> in_frame c1 = true ->
  needs_redraw (ctx_end_frame c1) = false ->
  same_frame_again c1 (set_in_frame true (ctx_end_frame c1)).
Proof.
  intros W I F R.
  destruct (end_frame_syncs c1 W I F) as (_ & Sb & Sw & Sh & _ & Si & Swf).
  destruct (set_in_frame_fields (ctx_end_frame c1) true)
    as (F1 & F2 & F3 & F4 & F5 & F6 & F7).
  split.
  - exact W.
  - exact I.
  - exact F.
  - apply set_in_frame_wf. exact Swf.
  - rewrite F2. exact Si.
  - exact F1.
  - rewrite F3. exact R.
  - rewrite F4. exact Sw.
  - rewrite F5. exact Sh.
  - exact F6.
  - intros x y _. rewrite F7, Sb. reflexivity.
Qed.

Lemma example_same_frame_again b :
  same_frame_again (example_ctx 10 3 b)
                   (set_in_frame true (ctx_end_frame (example_ctx 10 3 b))).
Proof.
  apply next_frame_again.
  - apply example_ctx_wf; unfold TUI_MAX_WIDTH, TUI_MAX_HEIGHT; lia.
  - reflexivity.
  - reflexivity.
  - destruct b; vm_compute; reflexivity.
Qed.

(** C2, as the code has it.  When [tui_end_frame] runs on a second frame
    with the picture of the frame before (and [needs_redraw] clear), it
    emits the begin and the end of the synchronized block and, between
    them, nothing but the cursor placement, which is there exactly when the
    cursor is visible: no cell is repositioned, styled or drawn. *)
Theorem second_end_frame_output c1 c2 :
  same_frame_again c1 c2 ->
  emitted (ctx_end_frame c2)
  = emitted c2 ++ BEGIN_SYNC ++ cursor_bytes c2 ++ END_SYNC.
Proof.
  intros [W1 I1 F1 W2 I2 F2 R2 Ew Eh Ef Eb].
  apply end_frame_idle_output; try assumption.
  intros x y [Hx Hy].
  destruct (end_frame_syncs c1 W1 I1 F1) as (S & Sb & _).
  destruct (S x y) as (cell & Hc1 & Hc2); [split; lia|].
  exists cell. rewrite Ef, Eb by (split; lia). rewrite <- Sb. auto.
Qed.


(** C2 as the specification states it fails when the cursor is visible:
    the second [tui_end_frame] then moves the cursor and shows it. *)
Lemma second_end_frame_moves_visible_cursor :
  ~ (forall c1 c2, same_frame_again c1 c2 ->
       emitted (ctx_end_frame c2) = emitted c2 ++ BEGIN_SYNC ++ END_SYNC).
Proof.
  intros H.
  specialize (H _ _ (example_same_frame_again true)).
  vm_compute in H. discriminate H.
Qed.


(** ** Display width *)

(** Case analysis on every comparison of the goal, dropping the cases
    whose bounds contradict each other. *)
Ltac cmp_case :=
  match goal with
  | |- context [(?v =? ?k)] => destruct (Z.eqb_spec v k)
  | |- context [(?v <? ?hi)] => destruct (Z.ltb_spec v hi)
  | |- context [(?lo <=? ?v)] => destruct (Z.leb_spec lo v)
  end.

Ltac split_cmp := repeat (cmp_case; simpl; try lia).

Lemma char_width_table cp :
  tui_char_width cp =
  if zero_width_code cp then 0 else if wide_code cp then 2 else 1.
Proof.
  unfold tui_char_width, zero_width_code, wide_code, spec_wide_range, between.
  split_cmp; reflexivity.
Qed.

Lemma wide_code_not_zero_width cp :
  zero_width_code cp && wide_code cp = false.
Proof.
  unfold zero_width_code, wide_code, spec_wide_range, between.
  split_cmp; reflexivity.
Qed.

(** C8, as the code has it.  [tui_char_width] is a function of the code
    point alone: 0 for controls, combining marks and zero-width format
    characters, 2 for the ranges of section 6 with the Combining Half Marks
    0xFE20-0xFE2F taken out, 1 for everything else; the class of width 0 and
    the class of width 2 do not meet. *)
Theorem tui_char_width_classes cp :
  tui_char_width cp
  = (if zero_width_code cp then 0 else if wide_code cp then 2 else 1)
  /\ zero_width_code cp && wide_code cp = false
  /\ wide_code cp = spec_wide_range cp && negb (between 0xFE20 0xFE2F cp).
Proof.
  split; [apply char_width_table|].
  split; [apply wide_code_not_zero_width|reflexivity].
Qed.

(** C8 as the specification states it fails inside 0xFE10-0xFE6F: the code
    point 0xFE20 is in that range and has width 0. *)
Lemma half_marks_are_not_wide :
  ~ (forall cp, spec_wide_range cp = true -> tui_char_width cp = 2).
Proof.
  intros H. specialize (H 0xFE20 eq_refl). vm_compute in H. discriminate H.
Qed.

(** ** NULL handles *)

(** C10.  Every public function that takes a context or a widget manager
    returns at once on a NULL handle, whatever its other arguments are,
    without reading through the handle: the functions with a result give
    their default ([tui_poll_event], [tui_button], [tui_wrap_text],
    [tui_get_width] and [tui_get_height] give 0, [tui_resized] and
    [tui_is_pasting] give false, [tui_get_theme] gives the default theme,
    [tui_wm_hit_test] and [tui_wm_get_focus] give NULL), there is no
    context afterwards either, so that no state has changed and nothing
    was emitted, and the event, the widgets and the other handle are as
    they were, with no handler called.  The functions that take a second
    pointer do the same when that one is NULL.  A body that ran without
    its test, or a test that read a field before it looked at the handle,
    would dereference NULL. *)
Theorem null_handle_is_total (rest : Api.unmodelled) :
  (Api.tui_destroy rest None = Api.Returns None
   /\ Api.tui_clear None = Api.Returns None
   /\ (forall ws, Api.tui_begin_frame None ws = Api.Returns None)
   /\ Api.tui_end_frame None = Api.Returns None
   /\ Api.tui_get_width None = Api.Returns 0
   /\ Api.tui_get_height None = Api.Returns 0)
  /\ (forall v,
        Api.tui_set_fg None v = Api.Returns None
        /\ Api.tui_set_bg None v = Api.Returns None
        /\ Api.tui_set_style None v = Api.Returns None
        /\ Api.tui_set_underline_color None v = Api.Returns None
        /\ Api.tui_reset_underline_color None = Api.Returns None)
  /\ (forall x y w h v text,
        Api.tui_set_cell None x y v = Api.Returns None
        /\ Api.tui_set_cell_wide None x y v = Api.Returns None
        /\ Api.tui_label None x y text = Api.Returns None
        /\ Api.tui_button rest None x y text = Api.Returns (None, 0)
        /\ Api.tui_box None x y w h v = Api.Returns None
        /\ Api.tui_fill None x y w h v = Api.Returns None
        /\ Api.tui_hline None x y w v = Api.Returns None
        /\ Api.tui_vline None x y h v = Api.Returns None
        /\ Api.tui_label_aligned rest None x y w text v = Api.Returns None
        /\ Api.tui_popup_box rest None x y w h text v = Api.Returns None
        /\ Api.tui_wrap_text rest None x y w h text = Api.Returns (None, 0))
  /\ (forall ctx x y w h v,
        Api.tui_label ctx x y None = Api.Returns ctx
        /\ Api.tui_button rest ctx x y None = Api.Returns (ctx, 0)
        /\ Api.tui_label_aligned rest ctx x y w None v = Api.Returns ctx
        /\ Api.tui_wrap_text rest ctx x y w h None = Api.Returns (ctx, 0)
        /\ Api.tui_clipboard_set rest ctx None = Api.Returns ctx
        /\ Api.tui_hyperlink_start rest ctx None = Api.Returns ctx)
  /\ ((forall event resize,
         Api.tui_poll_event None event resize
         = Api.Returns (None, event, 0))
      /\ (forall ctx resize,
            Api.tui_poll_event ctx None resize = Api.Returns (ctx, None, 0)))
  /\ (forall x y show shape text new_theme,
        Api.tui_set_cursor None x y = Api.Returns None
        /\ Api.tui_show_cursor None show = Api.Returns None
        /\ Api.tui_enable_mouse rest None = Api.Returns None
        /\ Api.tui_disable_mouse rest None = Api.Returns None
        /\ Api.tui_resized None = Api.Returns (None, false)
        /\ Api.tui_set_cursor_shape rest None shape = Api.Returns None
        /\ Api.tui_enable_bracketed_paste rest None = Api.Returns None
        /\ Api.tui_disable_bracketed_paste rest None = Api.Returns None
        /\ Api.tui_is_pasting None = Api.Returns false
        /\ Api.tui_enable_focus_events rest None = Api.Returns None
        /\ Api.tui_disable_focus_events rest None = Api.Returns None
        /\ Api.tui_begin_sync None = Api.Returns None
        /\ Api.tui_end_sync None = Api.Returns None
        /\ Api.tui_clipboard_set rest None text = Api.Returns None
        /\ Api.tui_hyperlink_start rest None text = Api.Returns None
        /\ Api.tui_hyperlink_end rest None = Api.Returns None
        /\ Api.tui_set_theme rest None new_theme = Api.Returns None
        /\ Api.tui_get_theme rest None
           = Api.Returns (Api.default_theme rest))
  /\ (forall ws x y widget key ch ctrl alt shift handler event ctx,
        Api.tui_wm_init None = Api.Returns None
        /\ Api.tui_wm_set_root None widget = Api.Returns None
        /\ Api.tui_wm_hit_test None ws x y = Api.Returns None
        /\ Api.tui_wm_focus None ws widget = Api.Returns (None, ws)
        /\ Api.tui_wm_focus_next rest None ws = Api.Returns (None, ws)
        /\ Api.tui_wm_focus_prev rest None ws = Api.Returns (None, ws)
        /\ Api.tui_wm_get_focus None = Api.Returns None
        /\ Api.tui_wm_push_focus rest None ws widget
           = Api.Returns (None, ws)
        /\ Api.tui_wm_pop_focus rest None ws = Api.Returns (None, ws)
        /\ Api.tui_wm_register_hotkey None key ch ctrl alt shift handler
           = Api.Returns None
        /\ Api.tui_wm_unregister_hotkey rest None key ch ctrl alt shift
           = Api.Returns None
        /\ Api.tui_wm_route_event rest None ws event
           = Api.Returns (None, ws, [])
        /\ Api.tui_wm_draw rest None ws ctx = Api.Returns ctx)
  /\ (forall wm ws,
        Api.tui_wm_route_event rest wm ws None = Api.Returns (wm, ws, [])
        /\ Api.tui_wm_draw rest wm ws None = Api.Returns None)
  /\ (forall body : tui_context -> tui_context,
        Api.leaves_if (Api.test false) None body = Api.NullDereference
        /\ Api.leaves_if
             (Api.or_else (Api.not_ (Api.get None in_frame))
                          (Api.is_null (@None tui_context)))
             None body
           = Api.NullDereference).
Proof.
  split; [repeat split|].
  split; [intros; repeat split|].
  split; [intros; repeat split|].
  split; [intros [c|] x y w h v; repeat split; try reflexivity;
          unfold Api.tui_label, Api.tui_button, Api.tui_label_aligned,
            Api.tui_wrap_text, Api.leaves_if, Api.or_else, Api.not_,
            Api.get, Api.is_null, Api.bind;
          destruct (in_frame c); reflexivity|].
  split; [split; [reflexivity|intros [c|]; reflexivity]|].
  split; [intros; repeat split|].
  split; [intros; repeat split|].
  split; [|intros; split; reflexivity].
  intros [m|] ws; split; try reflexivity.
  unfold Api.tui_wm_draw, Api.or_else, Api.get, Api.is_null, Api.bind.
  destruct (root m); reflexivity.
Qed.


(** ** SGR mouse reports *)

Lemma no_move_below_64 :
  Forall (fun pb => mouse_button_of pb <> TUI_MOUSE_MOVE) (seqZ 0 64).
Proof.
  apply Forall_forall. intros pb Hin.
  assert (H : forallb (fun pb => negb (bool_decide
                         (mouse_button_of pb = TUI_MOUSE_MOVE)))
                      (seqZ 0 64) = true) by (vm_compute; reflexivity).
  rewrite forallb_forall in H.
  specialize (H pb). rewrite negb_true_iff, bool_decide_eq_false in H.
  apply H. apply list_elem_of_In. exact Hin.
Qed.

(** C4, as the code has it.  The two reports of the specification decode
    as it says, and so do the plain buttons and the wheel.  A report whose
    button code has bit 32 set does not decode as a motion: the button is
    chosen from [Pb & 0x43], which drops bit 32, so [ESC [ < 32 ; 5 ; 3 M]
    is a LEFT press and [ESC [ < 35 ; 5 ; 3 M] a RELEASE, and no button
    code below 64 gives MOVE. *)
Theorem sgr_mouse_bit_32_is_not_motion :
  decoded (ESC :: bytes "[<0;5;3M") = [mouse_event TUI_MOUSE_LEFT 4 2]
  /\ decoded (ESC :: bytes "[<0;5;3m") = [mouse_event TUI_MOUSE_RELEASE 4 2]
  /\ decoded (ESC :: bytes "[<1;5;3M") = [mouse_event TUI_MOUSE_MIDDLE 4 2]
  /\ decoded (ESC :: bytes "[<2;5;3M") = [mouse_event TUI_MOUSE_RIGHT 4 2]
  /\ decoded (ESC :: bytes "[<64;5;3M") = [mouse_event TUI_MOUSE_WHEEL_UP 4 2]
  /\ decoded (ESC :: bytes "[<65;5;3M")
     = [mouse_event TUI_MOUSE_WHEEL_DOWN 4 2]
  /\ decoded (ESC :: bytes "[<32;5;3M") = [mouse_event TUI_MOUSE_LEFT 4 2]
  /\ decoded (ESC :: bytes "[<35;5;3M") = [mouse_event TUI_MOUSE_RELEASE 4 2]
  /\ Forall (fun pb => mouse_button_of pb <> TUI_MOUSE_MOVE) (seqZ 0 64).
Proof.
  repeat split; try (vm_compute; reflexivity).
  apply no_move_below_64.
Qed.


(** ** Labels *)

(** One turn of the loop of [tui_label], by the kind of code point. *)
Lemma label_step_newline c x y cur_x rest n :
  tui_utf8_decode rest = (n, 10) ->
  label_step c x y cur_x rest = (c, y + 1, x, n).
Proof. intros H. unfold label_step. rewrite H. reflexivity. Qed.

Lemma label_step_zero_width c x y cur_x rest n cp :
  tui_utf8_decode rest = (n, cp) -> cp <> 10 ->
  cp < 32 \/ tui_char_width cp = 0 ->
  label_step c x y cur_x rest = (c, y, cur_x, n).
Proof.
  intros H Hnl Hz. unfold label_step. rewrite H.
  destruct (Z.eqb_spec cp 10) as [|_]; [contradiction|].
  destruct (Z.leb_spec 32 cp); [|reflexivity].
  destruct Hz as [Hz|Hz]; [lia|]. rewrite Hz. reflexivity.
Qed.

Lemma label_step_narrow c x y cur_x rest n cp :
  tui_utf8_decode rest = (n, cp) -> 32 <= cp -> tui_char_width cp = 1 ->
  label_step c x y cur_x rest = (ctx_set_cell c cur_x y cp, y, cur_x + 1, n).
Proof.
  intros H Hc Hw. unfold label_step. rewrite H.
  destruct (Z.eqb_spec cp 10); [lia|].
  destruct (Z.leb_spec 32 cp); [|lia]. rewrite Hw. reflexivity.
Qed.

Lemma wide_is_printable cp : tui_char_width cp = 2 -> 32 <= cp.
Proof.
  intros Hw. destruct (Z.leb_spec 32 cp) as [H|H]; [exact H|].
  rewrite char_width_table in Hw.
  assert (Hz : zero_width_code cp = true).
  { unfold zero_width_code. destruct (Z.ltb_spec cp 32); [reflexivity|lia]. }
  rewrite Hz in Hw. discriminate Hw.
Qed.

Lemma label_step_wide c x y cur_x rest n cp :
  tui_utf8_decode rest = (n, cp) -> tui_char_width cp = 2 ->
  cur_x + 1 < width c ->
  label_step c x y cur_x rest
  = (ctx_set_cell_wide c cur_x y cp, y, cur_x + 2, n).
Proof.
  intros H Hw Hx. unfold label_step. rewrite H.
  destruct (Z.eqb_spec cp 10) as [->|_]; [discriminate Hw|].
  pose proof (wide_is_printable cp Hw).
  destruct (Z.leb_spec 32 cp) as [_|Hlt]; [|lia].
  rewrite Hw. simpl. destruct (Z.ltb_spec (cur_x + 1) (width c)); [|lia].
  reflexivity.
Qed.

(** A wide code point whose second column is not inside the row: no cell
    is written. *)
Lemma label_step_wide_at_edge c x y cur_x rest n cp :
  tui_utf8_decode rest = (n, cp) -> tui_char_width cp = 2 ->
  width c <= cur_x + 1 ->
  label_step c x y cur_x rest = (c, y, cur_x + 1, n).
Proof.
  intros H Hw Hx. unfold label_step. rewrite H.
  destruct (Z.eqb_spec cp 10) as [->|_]; [discriminate Hw|].
  pose proof (wide_is_printable cp Hw).
  destruct (Z.leb_spec 32 cp) as [_|Hlt]; [|lia].
  rewrite Hw. simpl. destruct (Z.ltb_spec (cur_x + 1) (width c)); [lia|].
  reflexivity.
Qed.

(** C7, as the code has it.  The loop of [tui_label] runs while
    [cur_x < ctx->width], so it ends as soon as a line reaches the right
    edge and what follows, a newline included, is never read: ["ab\ncd"]
    drawn at the origin of a frame two columns wide leaves row 1 blank,
    while in a frame three columns wide the second line is drawn.  A wide
    code point at the last column writes no cell. *)
Theorem label_ends_at_right_edge :
  (back_cell (two_lines 2) 0 0 = Some (plain_cell "a")
   /\ back_cell (two_lines 2) 1 0 = Some (plain_cell "b")
   /\ back_cell (two_lines 2) 0 1 = Some tui_make_empty_cell
   /\ back_cell (two_lines 2) 1 1 = Some tui_make_empty_cell)
  /\ (back_cell (two_lines 3) 0 0 = Some (plain_cell "a")
      /\ back_cell (two_lines 3) 1 0 = Some (plain_cell "b")
      /\ back_cell (two_lines 3) 0 1 = Some (plain_cell "c")
      /\ back_cell (two_lines 3) 1 1 = Some (plain_cell "d"))
  /\ ctx_label (example_ctx 10 3 false) 9 0 (Some (tui_utf8_encode 0x4E2D))
     = example_ctx 10 3 false.
Proof.
  repeat split; try (vm_compute; reflexivity).
Qed.


(** ** Splitting a line of a text area *)

Lemma line_at_insert ls j v i :
  0 <= i -> 0 <= j ->
  line_at (<[Z.to_nat j := v]> ls) i
  = if (i =? j) && (j <? Z.of_nat (length ls)) then v else line_at ls i.
Proof.
  intros Hi Hj. unfold line_at.
  destruct (Z.eqb_spec i j) as [->|Hne]; simpl.
  - destruct (Z.ltb_spec j (Z.of_nat (length ls))) as [Hlt|Hge].
    + rewrite list_lookup_insert_eq by lia. reflexivity.
    + rewrite !lookup_ge_None_2; [reflexivity|lia|rewrite length_insert; lia].
  - rewrite list_lookup_insert_ne by lia. reflexivity.
Qed.

(** The loop that makes room: the lines from [a] to [a + k - 1] each take
    the value of the line before, the others stay. *)
Lemma shift_steps_spec (k : nat) : forall ls a i,
  1 <= a -> a + Z.of_nat k <= Z.of_nat (length ls) -> 0 <= i ->
  line_at (foldl (fun ls i => <[Z.to_nat i := line_at ls (i - 1)]> ls) ls
                 (reverse (seqZ a (Z.of_nat k)))) i
  = if (a <=? i) && (i <? a + Z.of_nat k) then line_at ls (i - 1)
    else line_at ls i.
Proof.
  induction k as [|k IH]; intros ls a i Ha Hlen Hi.
  - simpl. destruct (Z.leb_spec a i), (Z.ltb_spec i (a + Z.of_nat 0));
      simpl; try reflexivity; lia.
  - rewrite seqZ_S, reverse_snoc. simpl foldl.
    rewrite IH by (rewrite ?length_insert; lia).
    destruct (Z.leb_spec a i) as [Hai|Hai]; simpl.
    + destruct (Z.ltb_spec i (a + Z.of_nat k)) as [Hik|Hik].
      * rewrite line_at_insert by lia.
        destruct (Z.eqb_spec (i - 1) (a + Z.of_nat k)); [lia|]. simpl.
        destruct (Z.ltb_spec i (a + Z.of_nat (S k))); [reflexivity|lia].
      * rewrite line_at_insert by lia.
        destruct (Z.eqb_spec i (a + Z.of_nat k)) as [->|Hne]; simpl.
        -- destruct (Z.ltb_spec (a + Z.of_nat k) (Z.of_nat (length ls)));
             [|lia].
           destruct (Z.ltb_spec (a + Z.of_nat k) (a + Z.of_nat (S k)));
             [reflexivity|lia].
        -- destruct (Z.ltb_spec i (a + Z.of_nat (S k))); [lia|reflexivity].
    + rewrite line_at_insert by lia.
      destruct (Z.eqb_spec i (a + Z.of_nat k)); [lia|]. reflexivity.
Qed.

Lemma shift_steps_length (k : nat) : forall ls a,
  length (foldl (fun ls i => <[Z.to_nat i := line_at ls (i - 1)]> ls) ls
                (reverse (seqZ a (Z.of_nat k)))) = length ls.
Proof.
  induction k as [|k IH]; intros ls a; [reflexivity|].
  rewrite seqZ_S, reverse_snoc. simpl foldl. rewrite IH, length_insert.
  reflexivity.
Qed.

Lemma shift_down_spec ls row n i :
  0 <= row < n -> n < Z.of_nat (length ls) -> 0 <= i ->
  line_at (shift_down ls row n) i
  = if (row + 2 <=? i) && (i <=? n) then line_at ls (i - 1) else line_at ls i.
Proof.
  intros Hr Hn Hi. unfold shift_down.
  replace (n - row - 1) with (Z.of_nat (Z.to_nat (n - row - 1))) by lia.
  rewrite shift_steps_spec by lia.
  destruct (Z.leb_spec (row + 2) i); simpl; [|reflexivity].
  destruct (Z.ltb_spec i (row + 2 + Z.of_nat (Z.to_nat (n - row - 1)))),
           (Z.leb_spec i n); try reflexivity; lia.
Qed.

Lemma shift_down_length ls row n : length (shift_down ls row n) = length ls.
Proof.
  unfold shift_down.
  destruct (Z.le_gt_cases (n - row - 1) 0) as [H|H].
  - rewrite seqZ_nil by lia. reflexivity.
  - replace (n - row - 1) with (Z.of_nat (Z.to_nat (n - row - 1))) by lia.
    apply shift_steps_length.
Qed.

(** C6.  An Enter key on an editable text area that has room for one more
    line and whose current line is shorter than the line limit (the cursor
    inside the line, the allocation of the new line succeeding): the line
    count grows by one, the current line keeps what was before the cursor,
    the line after it is what was after the cursor, so that the two lengths
    add up to the length of the line that was split, and the cursor goes to
    column 0 of the new line.  The lines above stay and the lines below
    move down by one. *)
Theorem textarea_enter_splits_line ws w e ta ls line :
  w_state w = TextareaState ta ->
  lines ta = Some ls ->
  type (base e) = TUI_EVENT_KEY ->
  key (base e) = TUI_KEY_ENTER ->
  editable ta = true ->
  0 <= cursor_row ta < line_count ta ->
  line_count ta < line_capacity ta ->
  line_capacity ta <= Z.of_nat (length ls) ->
  line_at ls (cursor_row ta) = Some line ->
  0 <= cursor_col ta <= Z.of_nat (length line) ->
  Z.of_nat (length line)
  < (if 0 <? max_line_len ta then max_line_len ta else 256) ->
  exists ta' ls',
    tui_widget_handle_textarea_input ws w e true
    = (set_w_state (TextareaState ta') w, true)
    /\ lines ta' = Some ls'
    /\ line_count ta' = line_count ta + 1
    /\ line_at ls' (cursor_row ta)
       = Some (take (Z.to_nat (cursor_col ta)) line)
    /\ line_at ls' (cursor_row ta + 1)
       = Some (drop (Z.to_nat (cursor_col ta)) line)
    /\ line_len (line_at ls' (cursor_row ta))
       + line_len (line_at ls' (cursor_row ta + 1))
       = Z.of_nat (length line)
    /\ cursor_row ta' = cursor_row ta + 1
    /\ cursor_col ta' = 0
    /\ (forall i, 0 <= i < cursor_row ta -> line_at ls' i = line_at ls i)
    /\ (forall i, cursor_row ta + 1 < i <= line_count ta ->
                  line_at ls' i = line_at ls (i - 1)).
Proof.
  intros Hst Hls Hty Hkey Hed Hrow Hcap Hlen Hline Hcol Hmax.
  unfold tui_widget_handle_textarea_input. rewrite Hst, Hls.
  destruct (Z.eqb_spec (line_count ta) 0) as [|_]; [lia|].
  rewrite Hty. simpl bool_decide. cbv iota. simpl negb. cbv iota.
  unfold textarea_navigate, textarea_edit. rewrite Hkey, Hed. simpl negb.
  cbv iota.
  destruct (Z.ltb_spec (line_count ta) (line_capacity ta)) as [_|]; [|lia].
  rewrite Hline.
  set (row := cursor_row ta) in *. set (col := cursor_col ta) in *.
  set (ls1 := shift_down ls row (line_count ta)).
  assert (Hl1 : length ls1 = length ls) by apply shift_down_length.
  assert (Htake :
    take (Z.to_nat ((if 0 <? max_line_len ta then max_line_len ta else 256)
                    - 1))
         (drop (Z.to_nat col) line) = drop (Z.to_nat col) line).
  { apply take_ge. rewrite length_drop. lia. }
  rewrite Htake.
  set (ls2 := <[Z.to_nat (row + 1) := Some (drop (Z.to_nat col) line)]> ls1).
  set (ls3 := <[Z.to_nat row := Some (take (Z.to_nat col) line)]> ls2).
  assert (Hl2 : length ls2 = length ls)
    by (unfold ls2; rewrite length_insert; exact Hl1).
  assert (A : line_at ls3 row = Some (take (Z.to_nat col) line)).
  { unfold ls3. rewrite line_at_insert by lia. rewrite Z.eqb_refl. simpl.
    destruct (Z.ltb_spec row (Z.of_nat (length ls2))); [reflexivity|lia]. }
  assert (B : line_at ls3 (row + 1) = Some (drop (Z.to_nat col) line)).
  { unfold ls3. rewrite line_at_insert by lia.
    destruct (Z.eqb_spec (row + 1) row); [lia|]. simpl.
    unfold ls2. rewrite line_at_insert by lia. rewrite Z.eqb_refl. simpl.
    destruct (Z.ltb_spec (row + 1) (Z.of_nat (length ls1)));
      [reflexivity|lia]. }
  eexists _, ls3. split; [reflexivity|].
  split; [reflexivity|]. split; [reflexivity|].
  split; [exact A|]. split; [exact B|].
  split.
  { rewrite A, B. simpl. rewrite length_take, length_drop. lia. }
  split; [reflexivity|]. split; [reflexivity|].
  split.
  - intros i Hi. unfold ls3. rewrite line_at_insert by lia.
    destruct (Z.eqb_spec i row); [lia|]. simpl.
    unfold ls2. rewrite line_at_insert by lia.
    destruct (Z.eqb_spec i (row + 1)); [lia|]. simpl.
    unfold ls1. rewrite shift_down_spec by lia.
    destruct (Z.leb_spec (row + 2) i); [lia|]. reflexivity.
  - intros i Hi. unfold ls3. rewrite line_at_insert by lia.
    destruct (Z.eqb_spec i row); [lia|]. simpl.
    unfold ls2. rewrite line_at_insert by lia.
    destruct (Z.eqb_spec i (row + 1)); [lia|]. simpl.
    unfold ls1. rewrite shift_down_spec by lia.
    destruct (Z.leb_spec (row + 2) i); [|lia].
    destruct (Z.leb_spec i (line_count ta)); [|lia]. reflexivity.
Qed.

Lemma textarea_enter_splits_line_witness :
  exists ta' ls',
    tui_widget_handle_textarea_input [hello_textarea] hello_textarea
      (at_target (key_press TUI_KEY_ENTER 0) 0) true
    = (set_w_state (TextareaState ta') hello_textarea, true)
    /\ lines ta' = Some ls'
    /\ line_count ta' = 2
    /\ line_at ls' 0 = Some (bytes "Hello")
    /\ line_at ls' 1 = Some (bytes " World")
    /\ line_len (line_at ls' 0) + line_len (line_at ls' 1) = 11
    /\ cursor_row ta' = 1
    /\ cursor_col ta' = 0
    /\ (forall i, 0 <= i < 0 -> line_at ls' i = line_at
          [Some (bytes "Hello World"); None; None; None] i)
    /\ (forall i, 0 + 1 < i <= 1 -> line_at ls' i = line_at
          [Some (bytes "Hello World"); None; None; None] (i - 1)).
Proof.
  apply (textarea_enter_splits_line [hello_textarea] hello_textarea
           (at_target (key_press TUI_KEY_ENTER 0) 0) hello_state
           [Some (bytes "Hello World"); None; None; None]
           (bytes "Hello World"));
    try reflexivity; simpl; lia.
Defined.


(** ** Hotkeys *)

(** The test of the code is the test of the specification. *)
Lemma hotkey_match_spec hk e :
  hotkey_match hk e
  = bool_decide (hk_key hk = key (base e))
    && (negb (bool_decide (hk_key hk = TUI_KEY_CHAR))
        || (hk_ch hk =? ch (base e))).
Proof.
  unfold hotkey_match.
  destruct (bool_decide (hk_key hk = TUI_KEY_CHAR)) eqn:Ec.
  - apply bool_decide_eq_true in Ec. rewrite Ec. simpl.
    rewrite (Z.eqb_sym (hk_ch hk)).
    destruct (bool_decide (key (base e) = TUI_KEY_CHAR)) eqn:Ek.
    + apply bool_decide_eq_true in Ek. rewrite Ek.
      rewrite bool_decide_eq_true_2 by reflexivity. reflexivity.
    + apply bool_decide_eq_false in Ek.
      rewrite bool_decide_eq_false_2 by congruence. reflexivity.
  - simpl. rewrite andb_true_r.
    destruct (bool_decide (key (base e) = hk_key hk)) eqn:Ek.
    + apply bool_decide_eq_true in Ek.
      rewrite bool_decide_eq_true_2 by congruence. reflexivity.
    + apply bool_decide_eq_false in Ek.
      rewrite bool_decide_eq_false_2 by congruence. reflexivity.
Qed.

(** The helpers never clear the consumed flag. *)
Lemma run_helper_consumed e h :
  consumed e = true -> consumed (run_helper e h) = true.
Proof. intros H. destruct h; simpl; try exact H; reflexivity. Qed.

(** The loop over the table: its answer is the consumed flag, and all it
    calls are hotkey handlers, each with a NULL widget. *)
Lemma check_hotkeys_loop_calls hks : forall i e tr0,
  consumed e = false ->
  exists calls,
    snd (check_hotkeys_loop i hks e tr0) = tr0 ++ calls
    /\ Forall hotkey_call calls
    /\ fst (fst (check_hotkeys_loop i hks e tr0))
       = consumed (snd (fst (check_hotkeys_loop i hks e tr0))).
Proof.
  induction hks as [|hk rest IH]; intros i e tr0 Hc; simpl.
  - exists []. rewrite app_nil_r, Hc. auto.
  - destruct (hk_active hk); simpl; [|apply IH; exact Hc].
    destruct (hotkey_match hk e); [|apply IH; exact Hc].
    destruct (hk_handler hk) as [h|]; [|apply IH; exact Hc].
    destruct (consumed (run_handler h None e)) eqn:Ec.
    + exists [HotkeyCall i None]. simpl. rewrite Ec.
      repeat split. constructor; [eexists; reflexivity|constructor].
    + destruct (IH (S i) (run_handler h None e)
                   (tr0 ++ [HotkeyCall i None]) Ec) as (calls & E & F & R).
      exists (HotkeyCall i None :: calls). rewrite E, <- app_assoc.
      repeat split; [|exact R].
      constructor; [eexists; reflexivity|exact F].
Qed.

(** The first call is the entry the specification names, and when its
    handler consumes the event it is the only one. *)
Lemma check_hotkeys_loop_first hks : forall i e tr0 j hk h,
  first_matching_hotkey i hks (base e) = Some (j, hk) ->
  hk_handler hk = Some h ->
  exists rest,
    snd (check_hotkeys_loop i hks e tr0) = tr0 ++ HotkeyCall j None :: rest
    /\ (consumed (run_handler h None e) = true ->
        rest = [] /\ fst (fst (check_hotkeys_loop i hks e tr0)) = true).
Proof.
  induction hks as [|hk0 rest IH]; intros i e tr0 j hk h Hf Hh; simpl in *.
  - discriminate Hf.
  - rewrite hotkey_match_spec.
    destruct (hk_active hk0); simpl in *; [|eapply IH; eassumption].
    destruct (bool_decide (hk_key hk0 = key (base e))
              && (negb (bool_decide (hk_key hk0 = TUI_KEY_CHAR))
                  || (hk_ch hk0 =? ch (base e)))) eqn:Em;
      [|eapply IH; eassumption].
    injection Hf as <- <-. rewrite Hh.
    destruct (consumed (run_handler h None e)) eqn:Ec.
    + exists []. simpl. split; [reflexivity|]. intros _. split; reflexivity.
    + destruct (check_hotkeys_loop_calls rest (S i) (run_handler h None e)
                  (tr0 ++ [HotkeyCall i None]) Ec) as (calls & E & _ & _).
      exists calls. rewrite E, <- app_assoc. split; [reflexivity|].
      intros H. discriminate H.
Qed.



(** ** The order of handler calls *)

Lemma run_helper_keeps e h :
  base (run_helper e h) = base e /\ phase (run_helper e h) = phase e
  /\ target (run_helper e h) = target e
  /\ current (run_helper e h) = current e.
Proof. destruct h; repeat split. Qed.

Lemma run_handler_keeps h w e :
  base (run_handler h w e) = base e /\ phase (run_handler h w e) = phase e
  /\ target (run_handler h w e) = target e
  /\ current (run_handler h w e) = current e.
Proof.
  unfold run_handler. generalize (h w e) as hs. intros hs. revert e.
  induction hs as [|a hs IH]; intros e; simpl; [repeat split|].
  destruct (IH (run_helper e a)) as (B & P & T & C).
  destruct (run_helper_keeps e a) as (B' & P' & T' & C').
  rewrite B, P, T, C. auto.
Qed.

Lemma same_flags_refl e : same_flags e e.
Proof. repeat split. Qed.

Lemma same_flags_restamp e1 e2 c p :
  same_flags e1 e2 ->
  set_current c (set_phase p e1) = set_current c (set_phase p e2).
Proof.
  destruct e1, e2. unfold same_flags. simpl.
  intros (-> & -> & -> & -> & ->). reflexivity.
Qed.

Lemma restamp_same e c p :
  phase e = p -> set_current c e = set_current c (set_phase p e).
Proof. destruct e. simpl. intros ->. reflexivity. Qed.

Section order.
Variable other_input : tui_widget -> tui_widget_event -> widget_state * bool.
Variable malloc_ok : bool.

Local Notation "'run'" := (run_schedule other_input malloc_ok).
Local Notation "'after'" := (after_schedule other_input malloc_ok).

Lemma run_schedule_stopped ws items e : stopped e = true -> run ws items e = [].
Proof. intros H. destruct items; simpl; [reflexivity|]. rewrite H. reflexivity. Qed.

Lemma after_schedule_stopped ws items e :
  stopped e = true -> after ws items e = e.
Proof. intros H. destruct items; simpl; [reflexivity|]. rewrite H. reflexivity. Qed.

Lemma run_schedule_app ws a : forall b e,
  run ws (a ++ b) e = run ws a e ++ run ws b (after ws a e).
Proof.
  induction a as [|item a IH]; intros b e; simpl; [reflexivity|].
  destruct (stopped e) eqn:Es.
  - rewrite run_schedule_stopped by exact Es. reflexivity.
  - destruct item as [w i entry ph|w].
    + simpl. rewrite IH. reflexivity.
    + destruct (prevented _); [apply IH|].
      destruct (ws !! w); [|apply IH]. simpl. rewrite IH. reflexivity.
Qed.

Lemma after_schedule_app ws a : forall b e,
  after ws (a ++ b) e = after ws b (after ws a e).
Proof.
  induction a as [|item a IH]; intros b e; simpl; [reflexivity|].
  destruct (stopped e) eqn:Es.
  - rewrite after_schedule_stopped by exact Es. reflexivity.
  - destruct item as [w i entry ph|w].
    + apply IH.
    + destruct (prevented _); [apply IH|].
      destruct (ws !! w); apply IH.
Qed.

(** The handlers of one widget, in one phase. *)
Lemma call_handlers_loop_order ws0 w flag ph entries : forall i e tr es,
  phase e = ph -> same_flags e es ->
  snd (call_handlers_loop w i entries flag e tr)
  = tr ++ run ws0 (handler_items_from w i entries (type (base e)) flag ph) es
  /\ same_flags (fst (call_handlers_loop w i entries flag e tr))
       (after ws0 (handler_items_from w i entries (type (base e)) flag ph) es)
  /\ phase (fst (call_handlers_loop w i entries flag e tr)) = ph
  /\ base (fst (call_handlers_loop w i entries flag e tr)) = base e
  /\ (current e = Some w ->
      current (fst (call_handlers_loop w i entries flag e tr)) = Some w).
Proof.
  induction entries as [|entry rest IH]; intros i e tr es Hph Hsf; simpl.
  - rewrite app_nil_r. auto.
  - destruct (stopped e) eqn:Es.
    + assert (Es' : stopped es = true).
      { destruct Hsf as (_ & _ & S & _). rewrite <- S. exact Es. }
      rewrite run_schedule_stopped, after_schedule_stopped by exact Es'.
      simpl. rewrite app_nil_r. auto.
    + destruct (Bool.eqb (capture entry) flag
                && bool_decide (event_type entry = type (base e))) eqn:Em.
      * simpl. assert (Es' : stopped es = false).
        { destruct Hsf as (_ & _ & S & _). rewrite <- S. exact Es. }
        rewrite Es'.
        assert (Hev : set_current (Some w) e
                      = set_current (Some w) (set_phase ph es)).
        { rewrite (restamp_same e (Some w) ph Hph).
          apply same_flags_restamp. exact Hsf. }
        rewrite <- Hev.
        destruct (run_handler_keeps (handler entry) (Some w)
                    (set_current (Some w) e)) as (B & P & _ & C).
        simpl in B, P, C.
        destruct (IH (S i) (run_handler (handler entry) (Some w)
                              (set_current (Some w) e))
                     (tr ++ [HandlerCall w i flag])
                     (run_handler (handler entry) (Some w)
                        (set_current (Some w) e)))
          as (T & F & P' & B' & C').
        { rewrite P. exact Hph. }
        { apply same_flags_refl. }
        rewrite B in T, F. rewrite T, <- app_assoc. simpl.
        apply andb_true_iff in Em. destruct Em as [Ec _].
        apply Bool.eqb_prop in Ec. rewrite Ec.
        split; [reflexivity|]. split; [exact F|]. split; [exact P'|].
        split; [rewrite B', B; reflexivity|].
        intros _. apply C'. exact C.
      * apply IH; assumption.
Qed.

Lemma call_handlers_order ws0 ws w flag ph e tr es :
  phase e = ph -> same_flags e es ->
  snd (tui_widget_call_handlers ws w flag e tr)
  = tr ++ run ws0 (handler_items ws (type (base e)) flag ph w) es
  /\ same_flags (fst (tui_widget_call_handlers ws w flag e tr))
       (after ws0 (handler_items ws (type (base e)) flag ph w) es)
  /\ phase (fst (tui_widget_call_handlers ws w flag e tr)) = ph
  /\ base (fst (tui_widget_call_handlers ws w flag e tr)) = base e
  /\ (current e = Some w ->
      current (fst (tui_widget_call_handlers ws w flag e tr)) = Some w).
Proof.
  intros Hph Hsf. unfold tui_widget_call_handlers, handler_items.
  destruct (ws !! w) as [wd|].
  - apply call_handlers_loop_order; assumption.
  - simpl. rewrite app_nil_r. auto.
Qed.

(** The handlers of a list of widgets, one after the other. *)
Lemma walk_order ws0 ws flag ph ancs : forall e tr es,
  phase e = ph -> same_flags e es ->
  let r := foldl (fun st w =>
                    if stopped (fst st) then st
                    else tui_widget_call_handlers ws w flag (fst st) (snd st))
                 (e, tr) ancs in
  snd r
  = tr ++ run ws0 (concat (map (handler_items ws (type (base e)) flag ph)
                               ancs)) es
  /\ same_flags (fst r)
       (after ws0 (concat (map (handler_items ws (type (base e)) flag ph)
                               ancs)) es)
  /\ phase (fst r) = ph
  /\ base (fst r) = base e.
Proof.
  induction ancs as [|w ancs IH]; intros e tr es Hph Hsf; simpl.
  - rewrite app_nil_r. auto.
  - rewrite run_schedule_app, after_schedule_app.
    destruct (call_handlers_order ws0 ws w flag ph e tr es Hph Hsf)
      as (T & F & P & B & _).
    destruct (stopped e) eqn:Es.
    + assert (Es' : stopped es = true).
      { destruct Hsf as (_ & _ & S & _). rewrite <- S. exact Es. }
      rewrite (run_schedule_stopped ws0 _ es Es').
      rewrite (after_schedule_stopped ws0 _ es Es'). simpl.
      apply IH; assumption.
    + destruct (tui_widget_call_handlers ws w flag e tr) as [e1 tr1].
      simpl in T, F, P, B.
      destruct (IH e1 tr1 _ P F) as (T' & F' & P' & B').
      rewrite B in T', F'. simpl in T', F', P', B'.
      split; [|split; [|split]].
      * rewrite T', T, <- app_assoc. reflexivity.
      * exact F'.
      * exact P'.
      * rewrite B'. exact B.
Qed.

(** The built-in behaviour changes the state of the widget, never its
    handler table. *)
Lemma textarea_input_handlers ws w e :
  w_handlers (fst (tui_widget_handle_textarea_input ws w e malloc_ok))
  = w_handlers w.
Proof.
  unfold tui_widget_handle_textarea_input.
  repeat match goal with
         | |- context [match ?x with _ => _ end] => destruct x
         end; reflexivity.
Qed.

Lemma default_input_handlers ws w e :
  w_handlers (fst (tui_widget_handle_default_input other_input malloc_ok
                     ws w e)) = w_handlers w.
Proof.
  unfold tui_widget_handle_default_input.
  destruct (negb (w_enabled w)); [reflexivity|].
  destruct (negb (bool_decide (phase e = TUI_PHASE_TARGET))); [reflexivity|].
  destruct (w_type w); try reflexivity;
    try (destruct (other_input w e); reflexivity).
  - unfold tui_widget_handle_button_input.
    repeat match goal with
           | |- context [if ?x then _ else _] => destruct x
           end; reflexivity.
  - apply textarea_input_handlers.
  - unfold tui_widget_handle_checkbox_input.
    repeat match goal with
           | |- context [match ?x with _ => _ end] => destruct x
           end; reflexivity.
Qed.

Lemma same_handlers_refl ws : same_handlers ws ws.
Proof. intros w. reflexivity. Qed.

Lemma same_handlers_insert ws t wd wd' :
  ws !! t = Some wd -> w_handlers wd' = w_handlers wd ->
  same_handlers ws (<[t := wd']> ws).
Proof.
  intros Ht Hh w. destruct (decide (t = w)) as [<-|Hne].
  - rewrite list_lookup_insert_eq by (eapply lookup_lt_Some; exact Ht).
    rewrite Ht. simpl. rewrite Hh. reflexivity.
  - rewrite list_lookup_insert_ne by exact Hne. reflexivity.
Qed.

Lemma same_handlers_items ws ws' k flag ph w :
  same_handlers ws ws' ->
  handler_items ws' k flag ph w = handler_items ws k flag ph w.
Proof.
  intros H. unfold handler_items. specialize (H w).
  destruct (ws' !! w), (ws !! w); simpl in H; try discriminate H;
    [|reflexivity].
  injection H as ->. reflexivity.
Qed.

Lemma same_handlers_walk ws ws' k flag ph ancs :
  same_handlers ws ws' ->
  concat (map (handler_items ws' k flag ph) ancs)
  = concat (map (handler_items ws k flag ph) ancs).
Proof.
  intros H. induction ancs as [|a ancs IH]; simpl; [reflexivity|].
  rewrite IH, (same_handlers_items ws ws') by exact H. reflexivity.
Qed.

Lemma same_flags_stamp e es c p :
  same_flags e es -> same_flags (set_current c (set_phase p e)) es.
Proof. intros H. exact H. Qed.

Lemma stamped_event e es c p :
  same_flags e es -> phase e = p -> current e = c ->
  e = set_current c (set_phase p es).
Proof.
  destruct e, es. unfold same_flags. simpl.
  intros (-> & -> & -> & -> & ->) -> ->. reflexivity.
Qed.

(** The built-in behaviour as an item of a schedule. *)
Lemma default_item ws t es e :
  e = set_current (Some t) (set_phase TUI_PHASE_TARGET es) ->
  stopped e = false ->
  run ws [SDefault t] es
  = (if prevented e then []
     else match ws !! t with Some _ => [DefaultCall t] | None => [] end)
  /\ after ws [SDefault t] es
     = (if prevented e then e
        else match ws !! t with
             | Some wd =>
               if snd (tui_widget_handle_default_input other_input malloc_ok
                         ws wd e)
               then set_consumed true e else e
             | None => e
             end).
Proof.
  intros -> Hs. simpl in Hs. simpl. rewrite Hs.
  destruct (prevented es); [split; reflexivity|].
  destruct (ws !! t); split; reflexivity.
Qed.

(** The target phase: capture handlers of the target, its built-in
    behaviour, its bubble handlers. *)
Lemma target_phase_order ws t e tr es :
  same_flags e es ->
  snd (target_phase other_input malloc_ok ws t e tr)
  = tr ++ run ws (handler_items ws (type (base e)) true TUI_PHASE_TARGET t
                  ++ [SDefault t]
                  ++ handler_items ws (type (base e)) false
                       TUI_PHASE_TARGET t) es
  /\ same_flags (snd (fst (target_phase other_input malloc_ok ws t e tr)))
       (after ws (handler_items ws (type (base e)) true TUI_PHASE_TARGET t
                  ++ [SDefault t]
                  ++ handler_items ws (type (base e)) false
                       TUI_PHASE_TARGET t) es)
  /\ base (snd (fst (target_phase other_input malloc_ok ws t e tr)))
     = base e
  /\ same_handlers ws (fst (fst (target_phase other_input malloc_ok
                                   ws t e tr))).
Proof.
  intros Hsf. unfold target_phase.
  destruct (stopped e) eqn:Es.
  { assert (Es' : stopped es = true).
    { destruct Hsf as (_ & _ & S & _). rewrite <- S. exact Es. }
    rewrite run_schedule_stopped, after_schedule_stopped by exact Es'.
    cbn [fst snd]. rewrite app_nil_r.
    split; [reflexivity|]. split; [exact Hsf|]. split; [reflexivity|].
    apply same_handlers_refl. }
  set (e2 := set_current (Some t) (set_phase TUI_PHASE_TARGET e)).
  destruct (call_handlers_order ws ws t true TUI_PHASE_TARGET e2 tr es
              eq_refl (same_flags_stamp e es _ _ Hsf))
    as (T3 & F3 & P3 & B3 & C3).
  specialize (C3 eq_refl).
  destruct (tui_widget_call_handlers ws t true e2 tr) as [e3 tr3].
  cbn [fst snd] in T3, F3, P3, B3, C3.
  change (base e2) with (base e) in T3, F3, B3.
  rewrite !run_schedule_app, !after_schedule_app.
  set (es3 := after ws (handler_items ws (type (base e)) true
                          TUI_PHASE_TARGET t) es) in *.
  assert (E3 : e3 = set_current (Some t) (set_phase TUI_PHASE_TARGET es3))
    by (apply stamped_event; assumption).
  assert (S3 : stopped es3 = stopped e3)
    by (destruct F3 as (_ & _ & S & _); symmetry; exact S).
  destruct (stopped e3) eqn:Es3.
  { (* stopped by a capture handler of the target *)
    cbn [negb andb].
    destruct (call_handlers_order ws ws t false TUI_PHASE_TARGET e3 tr3 es3
                P3 F3) as (T5 & F5 & P5 & B5 & _).
    rewrite B3 in T5, F5, B5.
    destruct (tui_widget_call_handlers ws t false e3 tr3) as [e5 tr5].
    cbn [fst snd] in T5, F5, P5, B5.
    rewrite (run_schedule_stopped ws [SDefault t] es3 S3).
    rewrite (after_schedule_stopped ws [SDefault t] es3 S3).
    cbn [fst snd app]. rewrite T5, T3, <- app_assoc.
    split; [reflexivity|]. split; [exact F5|]. split; [exact B5|].
    apply same_handlers_refl. }
  destruct (default_item ws t es3 e3 E3 Es3) as [RD AD].
  rewrite RD, AD. cbn [negb andb].
  destruct (prevented e3) eqn:Ep3.
  { cbn [negb andb].
    destruct (call_handlers_order ws ws t false TUI_PHASE_TARGET e3 tr3 e3
                P3 (same_flags_refl e3)) as (T5 & F5 & P5 & B5 & _).
    rewrite B3 in T5, F5, B5.
    destruct (tui_widget_call_handlers ws t false e3 tr3) as [e5 tr5].
    cbn [fst snd] in T5, F5, P5, B5. cbn [fst snd app].
    rewrite T5, T3, <- app_assoc.
    split; [reflexivity|]. split; [exact F5|]. split; [exact B5|].
    apply same_handlers_refl. }
  cbn [negb andb].
  destruct (ws !! t) as [wd|] eqn:Ewd.
  - pose proof (default_input_handlers ws wd e3) as Hh.
    destruct (tui_widget_handle_default_input other_input malloc_ok ws wd e3)
      as [wd' r].
    cbn [fst snd] in Hh |- *.
    pose proof (same_handlers_insert ws t wd wd' Ewd Hh) as Hsame.
    set (e4 := if r then set_consumed true e3 else e3).
    assert (P4 : phase e4 = TUI_PHASE_TARGET)
      by (unfold e4; destruct r; exact P3).
    assert (B4 : base e4 = base e)
      by (unfold e4; destruct r; exact B3).
    destruct (call_handlers_order ws (<[t := wd']> ws) t false
                TUI_PHASE_TARGET e4 (tr3 ++ [DefaultCall t]) e4
                P4 (same_flags_refl e4)) as (T5 & F5 & P5 & B5 & _).
    rewrite B4 in T5, F5, B5.
    rewrite (same_handlers_items ws _ _ _ _ _ Hsame) in T5, F5.
    destruct (tui_widget_call_handlers (<[t := wd']> ws) t false e4
                (tr3 ++ [DefaultCall t])) as [e5 tr5].
    cbn [fst snd] in T5, F5, P5, B5. cbn [fst snd].
    rewrite T5, T3, <- !app_assoc.
    split; [reflexivity|]. split; [exact F5|]. split; [exact B5|].
    exact Hsame.
  - destruct (call_handlers_order ws ws t false TUI_PHASE_TARGET e3 tr3 e3
                P3 (same_flags_refl e3)) as (T5 & F5 & P5 & B5 & _).
    rewrite B3 in T5, F5, B5.
    destruct (tui_widget_call_handlers ws t false e3 tr3) as [e5 tr5].
    cbn [fst snd] in T5, F5, P5, B5. cbn [fst snd app].
    rewrite T5, T3, <- app_assoc.
    split; [reflexivity|]. split; [exact F5|]. split; [exact B5|].
    apply same_handlers_refl.
Qed.
(** The three phases together. *)
Lemma phased_dispatch_order ws t we tr :
  snd (phased_dispatch other_input malloc_ok ws t we tr)
  = tr ++ routed_trace other_input malloc_ok ws t we.
Proof.
  unfold phased_dispatch, routed_trace, schedule_over, routed_ancestors,
    capture_phase, bubble_phase.
  set (path := tui_widget_build_path ws t 64).
  set (anc := take (length path - 1) path).
  set (es0 := set_target (Some t) we).
  set (e0 := set_phase TUI_PHASE_CAPTURE es0).
  assert (F0 : same_flags e0 es0) by (repeat split).
  destruct (walk_order ws ws true TUI_PHASE_CAPTURE anc e0 tr es0 eq_refl F0)
    as (T1 & F1 & P1 & B1).
  change (base e0) with (base we) in T1, F1, B1.
  match type of T1 with
  | snd ?x = _ => destruct x as [e1 tr1]
  end.
  cbn [fst snd] in T1, F1, P1, B1.
  destruct (target_phase_order ws t e1 tr1 _ F1) as (T2 & F2 & B2 & H2).
  rewrite B1 in T2, F2, B2.
  destruct (target_phase other_input malloc_ok ws t e1 tr1)
    as [[ws2 e2] tr2].
  cbn [fst snd] in T2, F2, B2, H2.
  assert (F2' : same_flags (set_phase TUI_PHASE_BUBBLE e2)
                  (after ws
                     (handler_items ws (type (base we)) true
                        TUI_PHASE_TARGET t
                      ++ [SDefault t]
                      ++ handler_items ws (type (base we)) false
                           TUI_PHASE_TARGET t)
                     (after ws
                        (concat (map (handler_items ws (type (base we)) true
                                        TUI_PHASE_CAPTURE) anc)) es0)))
    by exact F2.
  destruct (walk_order ws ws2 false TUI_PHASE_BUBBLE (reverse anc)
              (set_phase TUI_PHASE_BUBBLE e2) tr2 _ eq_refl F2')
    as (T3 & _).
  change (base (set_phase TUI_PHASE_BUBBLE e2)) with (base e2) in T3.
  rewrite B2 in T3. rewrite (same_handlers_walk ws ws2) in T3 by exact H2.
  match type of T3 with
  | snd ?x = _ => destruct x as [e3 tr3]
  end.
  cbn [fst snd] in T3 |- *.
  change (type (base es0)) with (type (base we)).
  rewrite T3, T2, T1.
  set (CAP := concat (map (handler_items ws (type (base we)) true
                             TUI_PHASE_CAPTURE) anc)).
  set (TC := handler_items ws (type (base we)) true TUI_PHASE_TARGET t).
  set (TB := handler_items ws (type (base we)) false TUI_PHASE_TARGET t).
  set (BUB := concat (map (handler_items ws (type (base we)) false
                             TUI_PHASE_BUBBLE) (reverse anc))).
  assert (A : TC ++ [SDefault t] ++ TB ++ BUB
              = (TC ++ [SDefault t] ++ TB) ++ BUB)
    by (rewrite <- !app_assoc; reflexivity).
  rewrite A, !run_schedule_app, <- !app_assoc. reflexivity.
Qed.

(** The climb: its first entries are a shorter climb, and a climb that
    ends before its bound is every longer climb. *)
Lemma build_path_loop_take ws : forall n m w,
  take m (build_path_loop n ws w) = build_path_loop (Nat.min m n) ws w.
Proof.
  induction n as [|n IH]; intros m w.
  - rewrite Nat.min_0_r. simpl. apply take_nil.
  - destruct m as [|m]; [reflexivity|]. simpl.
    destruct w as [i|]; [|reflexivity]. simpl. rewrite IH. reflexivity.
Qed.

Lemma build_path_loop_ended ws : forall n m w,
  (length (build_path_loop n ws w) < n)%nat -> (n <= m)%nat ->
  build_path_loop m ws w = build_path_loop n ws w.
Proof.
  induction n as [|n IH]; intros m w Hlen Hm; [lia|].
  destruct m as [|m]; [lia|]. simpl in *.
  destruct w as [i|]; [|reflexivity]. simpl in Hlen.
  rewrite (IH m) by lia. reflexivity.
Qed.

(** In a tree no deeper than the path array, the path holds all the
    ancestors. *)
Lemma routed_ancestors_all ws t :
  (length (parent_chain ws t) <= 64)%nat ->
  (length (parent_chain ws t) <= length ws)%nat ->
  routed_ancestors ws t = ancestors ws t.
Proof.
  intros H64 Hws. unfold routed_ancestors, ancestors, tui_widget_build_path.
  assert (E : build_path_loop 64 ws (Some t) = parent_chain ws t).
  { unfold parent_chain in *.
    destruct (Nat.le_gt_cases 64 (S (length ws))) as [Hle|Hgt].
    - rewrite <- (take_ge (build_path_loop (S (length ws)) ws (Some t)) 64)
        by exact H64.
      rewrite build_path_loop_take, Nat.min_l by exact Hle. reflexivity.
    - apply build_path_loop_ended; lia. }
  rewrite E. unfold parent_chain. simpl.
  rewrite reverse_cons, length_app. simpl.
  replace (length (reverse _) + 1 - 1)%nat with
    (length (reverse (build_path_loop (length ws) ws
               (match ws !! t with
                | Some wd => w_parent wd
                | None => None
                end)))) by lia.
  rewrite take_app_length. reflexivity.
Qed.
End order.

(** ** Hotkeys before dispatch *)





(** C5, as the code has it.  An event that is not a Tab key and that no
    hotkey consumes, routed to the target [t]: after the hotkey handlers,
    the calls are those of the order capture handlers on the ancestors
    root first, capture handlers on [t], built-in behaviour of [t] unless
    prevented, bubble handlers on [t], bubble handlers on the ancestors
    leaf first, cut at the first stop; the ancestors being those on the
    path of 64 entries the router builds, that is, the 63 nearest ones.
    In a tree whose chain from [t] to the root has at most 64 widgets
    these are all the ancestors, and the calls are the ones the
    specification gives. *)
Theorem route_event_handler_order
  (tui_wm_focus_next : tui_widget_manager -> list tui_widget ->
                       tui_widget_manager * list tui_widget)
  (other_input : tui_widget -> tui_widget_event -> widget_state * bool)
  (malloc_ok : bool) wm ws ev we' tr wm' ws' t :
  bool_decide (type ev = TUI_EVENT_KEY) && bool_decide (key ev = TUI_KEY_TAB)
  = false ->
  tui_wm_check_hotkeys wm (initial_widget_event ev) [] = (false, we', tr) ->
  select_target wm ws ev = (wm', ws', Some t) ->
  snd (wm_route_event tui_wm_focus_next other_input malloc_ok wm ws ev)
  = tr ++ routed_trace other_input malloc_ok ws' t we'
  /\ ((length (parent_chain ws' t) <= 64)%nat ->
      (length (parent_chain ws' t) <= length ws')%nat ->
      routed_trace other_input malloc_ok ws' t we'
      = spec_trace other_input malloc_ok ws' t we').
Proof.
  intros Htab Hhk Hsel. split.
  - unfold wm_route_event. rewrite Htab, Hhk.
    unfold dispatch_to_target. rewrite Hsel.
    pose proof (phased_dispatch_order other_input malloc_ok ws' t we' tr)
      as H.
    destruct (phased_dispatch other_input malloc_ok ws' t we' tr)
      as [ws2 tr2].
    exact H.
  - intros H64 Hws. unfold routed_trace, spec_trace, spec_schedule.
    rewrite routed_ancestors_all by assumption. reflexivity.
Qed.

Lemma route_event_handler_order_witness :
  (bool_decide (type (key_press TUI_KEY_ENTER 0) = TUI_EVENT_KEY)
   && bool_decide (key (key_press TUI_KEY_ENTER 0) = TUI_KEY_TAB) = false)
  /\ snd (wm_route_event no_focus_next no_other_input true button_manager
            (panel_and_button idle) (key_press TUI_KEY_ENTER 0))
     = [HandlerCall 0 0 true; HandlerCall 1 0 true; DefaultCall 1;
        HandlerCall 1 1 false; HandlerCall 0 1 false]
  /\ snd (wm_route_event no_focus_next no_other_input true button_manager
            (panel_and_button stopping) (key_press TUI_KEY_ENTER 0))
     = [HandlerCall 0 0 true].
Proof.
  split; [reflexivity|]. split.
  - rewrite (proj1 (route_event_handler_order no_focus_next no_other_input
                      true button_manager (panel_and_button idle)
                      (key_press TUI_KEY_ENTER 0)
                      (initial_widget_event (key_press TUI_KEY_ENTER 0)) []
                      button_manager (panel_and_button idle) 1%nat
                      eq_refl eq_refl eq_refl)).
    reflexivity.
  - rewrite (proj1 (route_event_handler_order no_focus_next no_other_input
                      true button_manager (panel_and_button stopping)
                      (key_press TUI_KEY_ENTER 0)
                      (initial_widget_event (key_press TUI_KEY_ENTER 0)) []
                      button_manager (panel_and_button stopping) 1%nat
                      eq_refl eq_refl eq_refl)).
    reflexivity.
Defined.

(** C5 as the specification states it fails in a tree deeper than the
    path array: with the focus on the leaf of a chain of 65 widgets, the
    capture handler of the root is not called. *)
Lemma deep_tree_skips_root_handlers :
  ~ (forall (tui_wm_focus_next : tui_widget_manager -> list tui_widget ->
                                 tui_widget_manager * list tui_widget)
            (other_input : tui_widget -> tui_widget_event ->
                           widget_state * bool)
            (malloc_ok : bool) wm ws ev we' tr wm' ws' t,
        bool_decide (type ev = TUI_EVENT_KEY)
        && bool_decide (key ev = TUI_KEY_TAB) = false ->
        tui_wm_check_hotkeys wm (initial_widget_event ev) []
        = (false, we', tr) ->
        select_target wm ws ev = (wm', ws', Some t) ->
        snd (wm_route_event tui_wm_focus_next other_input malloc_ok wm ws ev)
        = tr ++ spec_trace other_input malloc_ok ws' t we').
Proof.
  intros H.
  specialize (H no_focus_next no_other_input true deep_manager deep_chain
                (key_press TUI_KEY_ENTER 0)
                (initial_widget_event (key_press TUI_KEY_ENTER 0)) []
                deep_manager deep_chain 64%nat eq_refl eq_refl eq_refl).
  vm_compute in H. discriminate H.
Qed.


(** ** The decoder reads a bounded prefix *)

(** The byte values of the character literals of the goal. *)
Ltac eval_chr :=
  repeat match goal with
         | |- context [chr ?s] =>
           let v := eval vm_compute in (chr s) in change (chr s) with v
         end.

(** Two turns of the scan for the final byte: a digit, and the end of the
    bytes that wait. *)
Lemma csi_params_loop_digit av pk fuel mp i pc cp hd ps :
  i < av /\ i < 32 /\ chr "0" <= pk i <= chr "9" ->
  csi_params_loop av pk (S fuel) mp i pc cp hd ps
  = csi_params_loop av pk fuel mp (i + 1) pc
                    (int_wrap (cp * 10 + (pk i - chr "0"))) true ps.
Proof.
  intros (H1 & H2 & H3 & H4). cbn [csi_params_loop].
  destruct (Z.ltb_spec i av); [|lia]. destruct (Z.ltb_spec i 32); [|lia].
  destruct (Z.leb_spec (chr "0") (pk i)); [|lia].
  destruct (Z.leb_spec (pk i) (chr "9")); [|lia]. reflexivity.
Qed.

Lemma csi_params_loop_end av pk fuel mp i pc cp hd ps :
  av <= i -> csi_params_loop av pk fuel mp i pc cp hd ps = csi_failed ps.
Proof.
  intros H. destruct fuel; cbn [csi_params_loop]; [reflexivity|].
  destruct (Z.ltb_spec i av); [lia|]. reflexivity.
Qed.

Section windows.
Variables av1 av2 : Z.
Variables pk1 pk2 : Z -> Z.
Hypothesis Hav : av1 <= av2.
Hypothesis Hpk : forall i, 0 <= i < av1 -> pk1 i = pk2 i.

(** The scan for the final byte: with more bytes waiting it finds what it
    found, unless it had run out of bytes. *)
Lemma csi_params_loop_more fuel : forall mp i pc cp hd ps,
  0 <= i ->
  end_pos (csi_params_loop av1 pk1 fuel mp i pc cp hd ps) = -1
  \/ (csi_params_loop av1 pk1 fuel mp i pc cp hd ps
      = csi_params_loop av2 pk2 fuel mp i pc cp hd ps
      /\ i <= end_pos (csi_params_loop av1 pk1 fuel mp i pc cp hd ps) < av1).
Proof.
  induction fuel as [|fuel IH]; intros mp i pc cp hd ps Hi;
    cbn [csi_params_loop].
  - left. reflexivity.
  - destruct (Z.ltb_spec i av1) as [H1|H1]; cbn [andb]; [|left; reflexivity].
    destruct (Z.ltb_spec i av2) as [_|]; [|lia]. cbn [andb].
    destruct (i <? 32); [|left; reflexivity].
    assert (Hi' : 0 <= i + 1) by lia.
    rewrite <- (Hpk i) by lia.
    destruct ((chr "0" <=? pk1 i) && (pk1 i <=? chr "9")).
    { destruct (IH mp (i + 1) pc (int_wrap (cp * 10 + (pk1 i - chr "0")))
                   true ps Hi')
        as [E|[E B]]; [left; exact E|right].
      split; [exact E|lia]. }
    destruct (pk1 i =? chr ";").
    { destruct (push_param mp pc cp hd ps) as [pc' ps'].
      destruct (IH mp (i + 1) pc' 0 false ps' Hi') as [E|[E B]];
        [left; exact E|right]. split; [exact E|lia]. }
    destruct ((64 <=? pk1 i) && (pk1 i <=? 126)).
    { destruct (push_param mp pc cp hd ps) as [pc' ps'].
      right. cbn [end_pos]. split; [reflexivity|lia]. }
    destruct ((pk1 i =? chr "<") || (pk1 i =? chr ">") || (pk1 i =? chr "?")
              || (pk1 i =? chr "=")); [|left; reflexivity].
    destruct (IH mp (i + 1) pc cp hd ps Hi') as [E|[E B]];
      [left; exact E|right]. split; [exact E|lia].
Qed.

Lemma parse_mouse_more b2 ev :
  parse_mouse av1 pk1 b2 ev = Some Incomplete
  \/ parse_mouse av1 pk1 b2 ev = parse_mouse av2 pk2 b2 ev.
Proof.
  unfold parse_mouse. destruct (b2 =? chr "<"); [|right; reflexivity].
  unfold tui_parse_csi_params.
  assert (H0 : 0 <= 3) by lia.
  destruct (csi_params_loop_more 32 4 3 0 0 false [0; 0; 0; 0] H0)
    as [E|[E _]].
  - left. rewrite E. reflexivity.
  - right. rewrite E. reflexivity.
Qed.

Lemma parse_extended_more ev :
  parse_extended av1 pk1 ev = Incomplete
  \/ parse_extended av1 pk1 ev = parse_extended av2 pk2 ev.
Proof.
  unfold parse_extended, tui_parse_csi_params.
  assert (H0 : 0 <= 2) by lia.
  destruct (csi_params_loop_more 32 4 2 0 0 false [0; 0; 0; 0] H0)
    as [E|[E _]].
  - left. rewrite E. reflexivity.
  - right. rewrite E. reflexivity.
Qed.

(** The start of a bracketed-paste marker that is not all there yet is
    not taken for anything else. *)
Lemma parse_extended_paste_prefix ev :
  3 <= av1 < 6 ->
  pk1 2 = chr "2" ->
  (3 < av1 -> pk1 3 = chr "0") ->
  (4 < av1 -> pk1 4 = chr "0" \/ pk1 4 = chr "1") ->
  parse_extended av1 pk1 ev = Incomplete.
Proof.
  intros Hr H2 H3 H4. unfold parse_extended, tui_parse_csi_params.
  assert (E : end_pos (csi_params_loop av1 pk1 32 4 2 0 0 false [0; 0; 0; 0])
              = -1).
  { rewrite csi_params_loop_digit by (rewrite ?H2; eval_chr; lia).
    change (2 + 1) with 3.
    destruct (Z.le_gt_cases av1 3) as [L3|L3];
      [rewrite csi_params_loop_end by lia; reflexivity|].
    rewrite csi_params_loop_digit by (rewrite ?(H3 L3); eval_chr; lia).
    change (3 + 1) with 4.
    destruct (Z.le_gt_cases av1 4) as [L4|L4];
      [rewrite csi_params_loop_end by lia; reflexivity|].
    rewrite csi_params_loop_digit
      by (destruct (H4 L4) as [-> | ->]; eval_chr; lia).
    rewrite csi_params_loop_end by lia. reflexivity. }
  rewrite E. reflexivity.
Qed.

Lemma parse_csi_more ev :
  parse_csi av1 pk1 ev = Incomplete
  \/ parse_csi av1 pk1 ev = parse_csi av2 pk2 ev.
Proof.
  unfold parse_csi.
  destruct (Z.ltb_spec av1 3) as [|H3]; [left; reflexivity|].
  destruct (Z.ltb_spec av2 3); [lia|].
  rewrite <- (Hpk 2) by lia.
  destruct (pk1 2 =? chr "I"); [right; reflexivity|].
  destruct (pk1 2 =? chr "O"); [right; reflexivity|].
  assert (Rest :
    match parse_mouse av1 pk1 (pk1 2) ev with
    | Some r => r
    | None => match parse_arrow (pk1 2) ev with
              | Some r => r
              | None => parse_extended av1 pk1 ev
              end
    end = Incomplete
    \/ match parse_mouse av1 pk1 (pk1 2) ev with
       | Some r => r
       | None => match parse_arrow (pk1 2) ev with
                 | Some r => r
                 | None => parse_extended av1 pk1 ev
                 end
       end
       = match parse_mouse av2 pk2 (pk1 2) ev with
         | Some r => r
         | None => match parse_arrow (pk1 2) ev with
                   | Some r => r
                   | None => parse_extended av2 pk2 ev
                   end
         end).
  { destruct (parse_mouse_more (pk1 2) ev) as [E|E]; rewrite E.
    - left. reflexivity.
    - destruct (parse_mouse av2 pk2 (pk1 2) ev); [right; reflexivity|].
      destruct (parse_arrow (pk1 2) ev); [right; reflexivity|].
      apply parse_extended_more. }
  destruct (Z.leb_spec 6 av1) as [H6|H6].
  - (* the paste test reads the same six bytes *)
    assert (E : parse_paste av1 pk1 (pk1 2) ev
                = parse_paste av2 pk2 (pk1 2) ev).
    { unfold parse_paste.
      destruct (Z.leb_spec 6 av1), (Z.leb_spec 6 av2); try lia.
      rewrite <- (Hpk 3), <- (Hpk 4), <- (Hpk 5) by lia. reflexivity. }
    rewrite <- E. destruct (parse_paste av1 pk1 (pk1 2) ev);
      [right; reflexivity|exact Rest].
  - assert (E : parse_paste av1 pk1 (pk1 2) ev = None).
    { unfold parse_paste. destruct (Z.leb_spec 6 av1); [lia|].
      rewrite andb_false_r. reflexivity. }
    rewrite E.
    destruct (parse_paste av2 pk2 (pk1 2) ev) as [r|] eqn:E2;
      [|exact Rest].
    left. unfold parse_paste in E2.
    destruct (Z.eqb_spec (pk1 2) (chr "2")) as [B2|]; [|discriminate E2].
    cbn [andb] in E2.
    destruct (6 <=? av2); [|discriminate E2].
    destruct (Z.eqb_spec (pk2 3) (chr "0")) as [B3|]; [|discriminate E2].
    cbn [andb] in E2.
    destruct (Z.eqb_spec (pk2 5) (chr "~")) as [B5|]; [|discriminate E2].
    assert (B4 : pk2 4 = chr "0" \/ pk2 4 = chr "1").
    { destruct (Z.eqb_spec (pk2 4) (chr "0")); [left; assumption|].
      destruct (Z.eqb_spec (pk2 4) (chr "1")); [right; assumption|].
      discriminate E2. }
    rewrite B2. cbn.
    apply parse_extended_paste_prefix.
    + lia.
    + exact B2.
    + intros L. rewrite (Hpk 3) by lia. exact B3.
    + intros L. rewrite (Hpk 4) by lia. exact B4.
Qed.

Lemma parse_ss3_more ev :
  parse_ss3 av1 pk1 ev = Incomplete
  \/ parse_ss3 av1 pk1 ev = parse_ss3 av2 pk2 ev.
Proof.
  unfold parse_ss3.
  destruct (Z.ltb_spec av1 3); [left; reflexivity|].
  destruct (Z.ltb_spec av2 3); [lia|].
  rewrite (Hpk 2) by lia. right. reflexivity.
Qed.

Lemma peeks_agree len :
  len <= av1 -> map pk1 (seqZ 0 len) = map pk2 (seqZ 0 len).
Proof.
  intros H. apply map_ext_in. intros i Hi.
  apply list_elem_of_In, elem_of_seqZ in Hi. apply Hpk. lia.
Qed.

Lemma parse_char_more b0 ev :
  parse_char av1 pk1 b0 ev = Incomplete
  \/ parse_char av1 pk1 b0 ev = parse_char av2 pk2 b0 ev.
Proof.
  unfold parse_char.
  generalize (if Z.land b0 128 =? 0 then 1
              else if Z.land b0 224 =? 192 then 2
              else if Z.land b0 240 =? 224 then 3
              else if Z.land b0 248 =? 240 then 4 else 0) as len.
  intros len. destruct (len =? 0); [right; reflexivity|].
  destruct (Z.ltb_spec av1 len); [left; reflexivity|].
  destruct (Z.ltb_spec av2 len); [lia|].
  rewrite (peeks_agree len) by lia. right. reflexivity.
Qed.

(** The decoder: with more bytes waiting it answers what it answered,
    unless it had answered that the sequence was incomplete. *)
Lemma parse_more ev :
  parse_escape_sequence av1 pk1 ev = Incomplete
  \/ parse_escape_sequence av1 pk1 ev = parse_escape_sequence av2 pk2 ev.
Proof.
  unfold parse_escape_sequence.
  destruct (Z.ltb_spec av1 1); [left; reflexivity|].
  destruct (Z.ltb_spec av2 1); [lia|].
  rewrite <- (Hpk 0) by lia.
  destruct (pk1 0 =? 27).
  - destruct (Z.ltb_spec av1 2); [left; reflexivity|].
    destruct (Z.ltb_spec av2 2); [lia|].
    rewrite <- (Hpk 1) by lia.
    destruct (pk1 1 =? chr "["); [apply parse_csi_more|].
    destruct (pk1 1 =? chr "O"); [apply parse_ss3_more|].
    right. reflexivity.
  - repeat match goal with
           | |- context [if ?b then _ else _] =>
             lazymatch b with
             | context [pk1 0] => destruct b; [right; reflexivity|]
             end
           end.
    apply parse_char_more.
Qed.

(** When the two windows are the same, or both reach beyond the 32 bytes
    the scan looks at, the scan is the same. *)
Hypothesis Hfar : av1 = av2 \/ 32 <= av1.

Lemma csi_params_loop_same fuel : forall mp i pc cp hd ps,
  0 <= i ->
  csi_params_loop av1 pk1 fuel mp i pc cp hd ps
  = csi_params_loop av2 pk2 fuel mp i pc cp hd ps.
Proof.
  induction fuel as [|fuel IH]; intros mp i pc cp hd ps Hi;
    cbn [csi_params_loop].
  - reflexivity.
  - assert (C : (i <? av1) && (i <? 32) = (i <? av2) && (i <? 32)).
    { destruct (Z.ltb_spec i av1), (Z.ltb_spec i av2), (Z.ltb_spec i 32);
        simpl; try reflexivity; lia. }
    rewrite <- C.
    destruct ((i <? av1) && (i <? 32)) eqn:E; [|reflexivity].
    apply andb_true_iff in E. destruct E as [E1 E2].
    apply Z.ltb_lt in E1. rewrite <- (Hpk i) by lia.
    destruct ((chr "0" <=? pk1 i) && (pk1 i <=? chr "9"));
      [apply IH; lia|].
    destruct (pk1 i =? chr ";").
    { destruct (push_param mp pc cp hd ps) as [pc' ps']. apply IH. lia. }
    destruct ((64 <=? pk1 i) && (pk1 i <=? 126)); [reflexivity|].
    destruct ((pk1 i =? chr "<") || (pk1 i =? chr ">") || (pk1 i =? chr "?")
              || (pk1 i =? chr "=")); [|reflexivity].
    apply IH. lia.
Qed.

Lemma window_lt k : k <= 32 -> (av1 <? k) = (av2 <? k).
Proof.
  intros Hk. destruct (Z.ltb_spec av1 k), (Z.ltb_spec av2 k);
    try reflexivity; lia.
Qed.

Lemma window_le k : k <= 32 -> (k <=? av1) = (k <=? av2).
Proof.
  intros Hk. destruct (Z.leb_spec k av1), (Z.leb_spec k av2);
    try reflexivity; lia.
Qed.

Lemma parse_mouse_same b2 ev :
  parse_mouse av1 pk1 b2 ev = parse_mouse av2 pk2 b2 ev.
Proof.
  unfold parse_mouse, tui_parse_csi_params.
  rewrite (csi_params_loop_same 32 4 3) by lia. reflexivity.
Qed.

Lemma parse_extended_same ev :
  parse_extended av1 pk1 ev = parse_extended av2 pk2 ev.
Proof.
  unfold parse_extended, tui_parse_csi_params.
  rewrite (csi_params_loop_same 32 4 2) by lia. reflexivity.
Qed.

Lemma parse_paste_same b2 ev :
  parse_paste av1 pk1 b2 ev = parse_paste av2 pk2 b2 ev.
Proof.
  unfold parse_paste. rewrite <- (window_le 6) by lia.
  destruct (Z.leb_spec 6 av1); [|rewrite andb_false_r; reflexivity].
  rewrite <- (Hpk 3), <- (Hpk 4), <- (Hpk 5) by lia. reflexivity.
Qed.

Lemma parse_csi_same ev : parse_csi av1 pk1 ev = parse_csi av2 pk2 ev.
Proof.
  unfold parse_csi. rewrite <- (window_lt 3) by lia.
  destruct (Z.ltb_spec av1 3); [reflexivity|].
  rewrite <- (Hpk 2) by lia.
  rewrite parse_paste_same, parse_mouse_same, parse_extended_same.
  reflexivity.
Qed.

Lemma parse_ss3_same ev : parse_ss3 av1 pk1 ev = parse_ss3 av2 pk2 ev.
Proof.
  unfold parse_ss3. rewrite <- (window_lt 3) by lia.
  destruct (Z.ltb_spec av1 3); [reflexivity|].
  rewrite (Hpk 2) by lia. reflexivity.
Qed.

Lemma parse_char_same b0 ev :
  parse_char av1 pk1 b0 ev = parse_char av2 pk2 b0 ev.
Proof.
  unfold parse_char.
  set (len := if Z.land b0 128 =? 0 then 1
              else if Z.land b0 224 =? 192 then 2
              else if Z.land b0 240 =? 224 then 3
              else if Z.land b0 248 =? 240 then 4 else 0).
  assert (Hlen : len <= 4).
  { unfold len. repeat match goal with
                       | |- context [if ?b then _ else _] => destruct b
                       end; lia. }
  clearbody len. destruct (len =? 0); [reflexivity|].
  rewrite <- (window_lt len) by lia.
  destruct (Z.ltb_spec av1 len); [reflexivity|].
  rewrite (peeks_agree len) by lia. reflexivity.
Qed.

(** The decoder looks at no byte beyond the first 32. *)
Lemma parse_same ev :
  parse_escape_sequence av1 pk1 ev = parse_escape_sequence av2 pk2 ev.
Proof.
  unfold parse_escape_sequence. rewrite <- (window_lt 1) by lia.
  destruct (Z.ltb_spec av1 1); [reflexivity|].
  rewrite <- (Hpk 0) by lia. rewrite <- (window_lt 2) by lia.
  destruct (Z.ltb_spec av1 2).
  - destruct (pk1 0 =? 27); [reflexivity|].
    rewrite parse_char_same. reflexivity.
  - rewrite <- (Hpk 1) by lia.
    rewrite parse_csi_same, parse_ss3_same, parse_char_same. reflexivity.
Qed.
End windows.

Section one_window.
Variable av : Z.
Variable pk : Z -> Z.

Lemma csi_params_loop_bounds fuel mp i pc cp hd ps :
  0 <= i ->
  end_pos (csi_params_loop av pk fuel mp i pc cp hd ps) = -1
  \/ i <= end_pos (csi_params_loop av pk fuel mp i pc cp hd ps) < av.
Proof.
  intros Hi.
  destruct (csi_params_loop_more av av pk pk (Z.le_refl av)
              (fun i _ => eq_refl) fuel mp i pc cp hd ps Hi) as [E|[_ B]];
    [left; exact E|right; exact B].
Qed.

Lemma parse_mouse_consumes b2 ev :
  match parse_mouse av pk b2 ev with
  | Some r => consumes_within av r /\ not_dropped r
  | None => True
  end.
Proof.
  unfold parse_mouse. destruct (b2 =? chr "<"); [|exact I].
  unfold tui_parse_csi_params.
  assert (H0 : 0 <= 3) by lia.
  destruct (csi_params_loop_bounds 32 4 3 0 0 false [0; 0; 0; 0] H0)
    as [E|B].
  - rewrite E. split; exact I.
  - destruct (Z.ltb_spec (end_pos (csi_params_loop av pk 32 4 3 0 0 false
                                     [0; 0; 0; 0])) 0); [lia|].
    destruct (_ && _); [|exact I].
    cbn [consumes_within not_dropped]. split; [lia|exact I].
Qed.

Lemma parse_arrow_consumes b2 ev :
  3 <= av ->
  match parse_arrow b2 ev with
  | Some r => consumes_within av r /\ not_dropped r
  | None => True
  end.
Proof.
  intros H3. unfold parse_arrow.
  repeat match goal with
         | |- context [if ?b then _ else _] =>
           destruct b;
           [cbn [consumes_within not_dropped]; split; [lia|exact I]|]
         end.
  exact I.
Qed.

Lemma parse_paste_consumes b2 ev :
  match parse_paste av pk b2 ev with
  | Some r => consumes_within av r /\ not_dropped r
  | None => True
  end.
Proof.
  unfold parse_paste. destruct (b2 =? chr "2"); [|exact I].
  destruct (Z.leb_spec 6 av); [|exact I]. cbn [andb].
  destruct (_ && _); [|exact I].
  destruct (pk 4 =? chr "0");
    [cbn [consumes_within not_dropped]; split; [lia|exact I]|].
  destruct (pk 4 =? chr "1");
    [cbn [consumes_within not_dropped]; split; [lia|exact I]|].
  exact I.
Qed.

Lemma parse_extended_consumes ev :
  consumes_within av (parse_extended av pk ev)
  /\ not_dropped (parse_extended av pk ev).
Proof.
  unfold parse_extended, tui_parse_csi_params.
  assert (H0 : 0 <= 2) by lia.
  destruct (csi_params_loop_bounds 32 4 2 0 0 false [0; 0; 0; 0] H0)
    as [E|B].
  - rewrite E. split; exact I.
  - destruct (Z.ltb_spec (end_pos (csi_params_loop av pk 32 4 2 0 0 false
                                     [0; 0; 0; 0])) 0); [lia|].
    destruct (_ && negb _); split; cbn [consumes_within not_dropped]; try exact I; lia.
Qed.

Lemma parse_csi_consumes ev :
  consumes_within av (parse_csi av pk ev)
  /\ not_dropped (parse_csi av pk ev).
Proof.
  unfold parse_csi. destruct (Z.ltb_spec av 3); [split; exact I|].
  destruct (pk 2 =? chr "I"); [split; [cbn [consumes_within]; lia|exact I]|].
  destruct (pk 2 =? chr "O"); [split; [cbn [consumes_within]; lia|exact I]|].
  pose proof (parse_paste_consumes (pk 2) ev) as P1.
  destruct (parse_paste av pk (pk 2) ev); [exact P1|].
  pose proof (parse_mouse_consumes (pk 2) ev) as P2.
  destruct (parse_mouse av pk (pk 2) ev); [exact P2|].
  assert (H3 : 3 <= av) by lia.
  pose proof (parse_arrow_consumes (pk 2) ev H3) as P3.
  destruct (parse_arrow (pk 2) ev); [exact P3|].
  apply parse_extended_consumes.
Qed.

Lemma parse_ss3_consumes ev :
  consumes_within av (parse_ss3 av pk ev)
  /\ not_dropped (parse_ss3 av pk ev).
Proof.
  unfold parse_ss3.
  destruct (Z.ltb_spec av 3); split; cbn [consumes_within not_dropped]; try exact I; lia.
Qed.

Lemma parse_char_consumes b0 ev :
  1 <= av -> consumes_within av (parse_char av pk b0 ev).
Proof.
  intros H1. unfold parse_char.
  set (len := if Z.land b0 128 =? 0 then 1
              else if Z.land b0 224 =? 192 then 2
              else if Z.land b0 240 =? 224 then 3
              else if Z.land b0 248 =? 240 then 4 else 0).
  assert (Hlen : 0 <= len).
  { unfold len. repeat match goal with
                       | |- context [if ?b then _ else _] => destruct b
                       end; lia. }
  clearbody len. destruct (Z.eqb_spec len 0); [cbn [consumes_within]; lia|].
  destruct (Z.ltb_spec av len); cbn [consumes_within]; [exact I|lia].
Qed.

(** What the decoder consumes lies in the bytes that wait. *)
Lemma parse_consumes ev :
  consumes_within av (parse_escape_sequence av pk ev).
Proof.
  unfold parse_escape_sequence. destruct (Z.ltb_spec av 1); [exact I|].
  destruct (pk 0 =? 27).
  - destruct (Z.ltb_spec av 2); [exact I|].
    destruct (pk 1 =? chr "["); [apply parse_csi_consumes|].
    destruct (pk 1 =? chr "O"); [apply parse_ss3_consumes|].
    cbn [consumes_within]. lia.
  - repeat match goal with
           | |- context [if ?b then _ else _] =>
             lazymatch b with
             | context [pk 0] => destruct b; [cbn [consumes_within]; lia|]
             end
           end.
    apply parse_char_consumes. lia.
Qed.

(** After an ESC the decoder never gives up a byte without an event: an
    answer of 0 leaves the ring as it is. *)
Lemma parse_escape_not_dropped ev :
  pk 0 = 27 -> not_dropped (parse_escape_sequence av pk ev).
Proof.
  intros H0. unfold parse_escape_sequence.
  destruct (Z.ltb_spec av 1); [exact I|]. rewrite H0. cbn [Z.eqb Pos.eqb].
  destruct (Z.ltb_spec av 2); [exact I|].
  destruct (pk 1 =? chr "["); [apply parse_csi_consumes|].
  destruct (pk 1 =? chr "O"); [apply parse_ss3_consumes|].
  exact I.
Qed.

(** The decoder clears the event before it fills it: what the struct held
    does not matter. *)
Lemma parse_event_reset ev ev' :
  reset_event ev = reset_event ev' ->
  parse_escape_sequence av pk ev = parse_escape_sequence av pk ev'.
Proof. intros H. unfold parse_escape_sequence. rewrite H. reflexivity. Qed.
End one_window.

Lemma reset_poll_init ev : reset_event (poll_init_event ev) = blank_event.
Proof. reflexivity. Qed.

Lemma reset_blank : reset_event blank_event = blank_event.
Proof. reflexivity. Qed.


(** ** The input ring *)

Lemma rem_64 a :
  0 <= a < 128 -> Z.rem a 64 = if a <? 64 then a else a - 64.
Proof.
  intros H. rewrite Z.rem_mod_nonneg by lia.
  destruct (Z.ltb_spec a 64).
  - apply Z.mod_small. lia.
  - replace a with (a - 64 + 1 * 64) at 1 by lia.
    rewrite Z_mod_plus_full. apply Z.mod_small. lia.
Qed.

Lemma available_spec c :
  ring_wf c ->
  tui_input_available c
  = if input_start c <=? input_end c then input_end c - input_start c
    else input_end c - input_start c + 64.
Proof.
  intros [_ Hs He]. unfold tui_input_available, TUI_INPUT_BUFFER_SIZE in *.
  rewrite rem_64 by lia.
  destruct (Z.leb_spec (input_start c) (input_end c)),
           (Z.ltb_spec (input_end c - input_start c + 64) 64); lia.
Qed.

Lemma available_bounds c : ring_wf c -> 0 <= tui_input_available c <= 63.
Proof.
  intros H. rewrite (available_spec c H). destruct H as [_ Hs He].
  unfold TUI_INPUT_BUFFER_SIZE in *.
  destruct (Z.leb_spec (input_start c) (input_end c)); lia.
Qed.

Lemma map_lookup {A B} (f : A -> B) l i : map f l !! i = f <$> (l !! i).
Proof.
  revert i. induction l as [|a l IH]; intros [|i]; simpl; try reflexivity.
  apply IH.
Qed.

Lemma ring_contents_length c :
  length (ring_contents c) = Z.to_nat (tui_input_available c).
Proof. unfold ring_contents. rewrite length_map, length_seqZ. reflexivity. Qed.

Lemma ring_contents_lookup c i :
  ring_contents c !! i
  = if Z.of_nat i <? tui_input_available c
    then Some (tui_input_peek c (Z.of_nat i)) else None.
Proof.
  unfold ring_contents. rewrite map_lookup.
  destruct (Z.ltb_spec (Z.of_nat i) (tui_input_available c)).
  - rewrite lookup_seqZ_lt by lia. reflexivity.
  - rewrite lookup_seqZ_ge by lia. reflexivity.
Qed.

Lemma list_peek_ring c i :
  0 <= i < tui_input_available c ->
  list_peek (ring_contents c) i = tui_input_peek c i.
Proof.
  intros H. unfold list_peek. rewrite ring_contents_lookup.
  rewrite Z2Nat.id by lia.
  destruct (Z.ltb_spec i (tui_input_available c)); [reflexivity|lia].
Qed.

(** The decoder on the ring is the decoder on the bytes the ring holds. *)
Lemma parse_ring c ev :
  ring_wf c ->
  parse_escape_sequence (tui_input_available c) (tui_input_peek c) ev
  = parse_escape_sequence (Z.of_nat (length (ring_contents c)))
      (list_peek (ring_contents c)) ev.
Proof.
  intros H. pose proof (available_bounds c H) as B.
  rewrite ring_contents_length, Z2Nat.id by lia.
  apply parse_same; [lia| |left; reflexivity].
  intros i Hi. symmetry. apply list_peek_ring. exact Hi.
Qed.

Lemma peek_spec c i :
  ring_wf c -> 0 <= i < 64 ->
  tui_input_peek c i
  = default 0 (input_buffer c
                 !! Z.to_nat (if input_start c + i <? 64
                              then input_start c + i
                              else input_start c + i - 64)).
Proof.
  intros [_ Hs _] Hi. unfold tui_input_peek, TUI_INPUT_BUFFER_SIZE in *.
  rewrite rem_64 by lia. reflexivity.
Qed.

(** [tui_input_consume] drops the oldest bytes and nothing else. *)
Lemma consume_ring c k :
  ring_wf c -> 0 <= k <= tui_input_available c ->
  ring_wf (tui_input_consume c k)
  /\ ring_contents (tui_input_consume c k)
     = drop (Z.to_nat k) (ring_contents c)
  /\ tty_in (tui_input_consume c k) = tty_in c.
Proof.
  intros W Hk. pose proof (available_bounds c W) as B.
  pose proof (available_spec c W) as A.
  destruct W as [Hl Hs He].
  assert (W' : ring_wf (tui_input_consume c k)).
  { unfold tui_input_consume, TUI_INPUT_BUFFER_SIZE in *. split.
    - exact Hl.
    - cbn [input_start set_input_start]. unfold TUI_INPUT_BUFFER_SIZE.
      rewrite rem_64 by lia.
      destruct (Z.ltb_spec (input_start c + k) 64); lia.
    - exact He. }
  split; [exact W'|]. split; [|reflexivity].
  pose proof (available_spec _ W') as A'.
  assert (S' : input_start (tui_input_consume c k)
               = if input_start c + k <? 64 then input_start c + k
                 else input_start c + k - 64).
  { unfold tui_input_consume, TUI_INPUT_BUFFER_SIZE in *.
    cbn [input_start set_input_start]. apply rem_64. lia. }
  assert (E' : input_end (tui_input_consume c k) = input_end c)
    by reflexivity.
  assert (Av : tui_input_available (tui_input_consume c k)
               = tui_input_available c - k).
  { rewrite A', A, S', E'. unfold TUI_INPUT_BUFFER_SIZE in *.
    rewrite A in Hk.
    destruct (Z.ltb_spec (input_start c + k) 64),
             (Z.leb_spec (input_start c) (input_end c));
      repeat match goal with
             | |- context [?a <=? ?b] => destruct (Z.leb_spec a b)
             end; lia. }
  apply list_eq. intros i.
  rewrite lookup_drop, !ring_contents_lookup, Av.
  destruct (Z.ltb_spec (Z.of_nat i) (tui_input_available c - k)),
           (Z.ltb_spec (Z.of_nat (Z.to_nat k + i)) (tui_input_available c));
    try reflexivity; try lia.
  f_equal.
  rewrite (peek_spec _ _ W') by lia.
  rewrite (peek_spec c) by (try split; try assumption; lia).
  rewrite S'. change (input_buffer (tui_input_consume c k))
    with (input_buffer c).
  unfold TUI_INPUT_BUFFER_SIZE in *. do 2 f_equal. f_equal.
  repeat match goal with
         | |- context [?a <? ?b] => destruct (Z.ltb_spec a b)
         end; lia.
Qed.

Lemma store_at_length data : forall buf pos,
  length (store_at buf pos data) = length buf.
Proof.
  induction data as [|b data IH]; intros buf pos; simpl; [reflexivity|].
  rewrite IH, length_insert. reflexivity.
Qed.

Lemma store_at_lookup data : forall buf pos j,
  (pos + length data <= length buf)%nat ->
  store_at buf pos data !! j
  = if bool_decide (pos <= j < pos + length data)%nat
    then data !! (j - pos)%nat else buf !! j.
Proof.
  induction data as [|b data IH]; intros buf pos j H; simpl in *.
  - rewrite bool_decide_eq_false_2 by lia. reflexivity.
  - rewrite IH by (rewrite length_insert; lia).
    destruct (decide (j = pos)) as [->|Hne].
    + rewrite bool_decide_eq_false_2 by lia.
      rewrite bool_decide_eq_true_2 by lia.
      rewrite list_lookup_insert_eq by lia. rewrite Nat.sub_diag. reflexivity.
    + rewrite list_lookup_insert_ne by lia.
      destruct (decide (S pos <= j < S pos + length data)%nat) as [Hin|Hout].
      * rewrite !bool_decide_eq_true_2 by lia.
        replace (j - pos)%nat with (S (j - S pos)) by lia. reflexivity.
      * rewrite !bool_decide_eq_false_2 by lia. reflexivity.
Qed.

(** [tui_posix_read_input] puts the bytes it reads behind the ones the
    ring holds, overwrites none of those, and reads nothing only when no
    byte waits on the terminal or the ring is full (63 bytes). *)
Lemma read_ring c :
  ring_wf c ->
  exists data,
    tty_in c = data ++ tty_in (fst (tui_posix_read_input c))
    /\ ring_contents (fst (tui_posix_read_input c)) = ring_contents c ++ data
    /\ ring_wf (fst (tui_posix_read_input c))
    /\ snd (tui_posix_read_input c) = Z.of_nat (length data)
    /\ (data = [] -> fst (tui_posix_read_input c) = c)
    /\ (data = [] -> tty_in c = [] \/ tui_input_available c = 63).
Proof.
  intros W. pose proof (available_bounds c W) as B.
  pose proof (available_spec c W) as A.
  unfold tui_posix_read_input.
  set (space := if input_start c <=? input_end c
                then if input_start c =? 0
                     then TUI_INPUT_BUFFER_SIZE - input_end c - 1
                     else TUI_INPUT_BUFFER_SIZE - input_end c
                else input_start c - input_end c - 1).
  assert (Hsp : space = 63 - tui_input_available c
                \/ (0 < space /\ space <= 63 - tui_input_available c
                    /\ input_end c + space <= 64
                    /\ input_start c <= input_end c)).
  { destruct W as [_ Hs He]. unfold space, TUI_INPUT_BUFFER_SIZE in *.
    rewrite A.
    destruct (Z.leb_spec (input_start c) (input_end c));
      destruct (Z.eqb_spec (input_start c) 0); lia. }
  assert (Hsp2 : input_end c + space <= 64
                 /\ (input_end c < input_start c ->
                     input_end c + space < input_start c)).
  { destruct W as [_ Hs He]. unfold space, TUI_INPUT_BUFFER_SIZE in *.
    destruct (Z.leb_spec (input_start c) (input_end c));
      destruct (Z.eqb_spec (input_start c) 0); lia. }
  assert (Hsp3 : space <= 63 - tui_input_available c) by lia.
  replace (if input_start c <=? input_end c
           then let a := TUI_INPUT_BUFFER_SIZE - input_end c in
                if input_start c =? 0 then a - 1 else a
           else input_start c - input_end c - 1) with space
    by (unfold space; destruct (input_start c <=? input_end c);
        [destruct (input_start c =? 0)|]; reflexivity).
  clearbody space.
  destruct (Z.leb_spec space 0) as [H0|H0].
  { exists []. cbn [fst snd]. rewrite app_nil_r.
    split; [reflexivity|]. split; [reflexivity|]. split; [exact W|].
    split; [reflexivity|]. split; [reflexivity|]. intros _. right. lia. }
  set (data := take (Z.to_nat space) (tty_in c)).
  assert (Hdl : Z.of_nat (length data) <= space).
  { unfold data. rewrite length_take. lia. }
  destruct (Z.ltb_spec 0 (Z.of_nat (length data))) as [Hn|Hn].
  - exists data. cbn [fst snd].
    cbn [tty_in set_tty_in set_input_end set_input_buffer input_end
         input_buffer].
    split.
    { unfold data. rewrite length_take.
      destruct (Nat.le_gt_cases (Z.to_nat space) (length (tty_in c))).
      - rewrite Nat.min_l by lia. symmetry. apply take_drop.
      - rewrite Nat.min_r by lia. rewrite take_ge by lia.
        rewrite drop_all, app_nil_r. reflexivity. }
    set (c' := set_input_end _ _).
    assert (W' : ring_wf c').
    { destruct W as [Hl Hs He]. unfold c', TUI_INPUT_BUFFER_SIZE in *.
      split; cbn [input_buffer input_start input_end set_input_end
                  set_tty_in set_input_buffer].
      - rewrite store_at_length. exact Hl.
      - exact Hs.
      - unfold TUI_INPUT_BUFFER_SIZE. rewrite rem_64 by lia.
        destruct (Z.ltb_spec (input_end c + Z.of_nat (length data)) 64);
          lia. }
    assert (E' : input_end c'
                 = if input_end c + Z.of_nat (length data) <? 64
                   then input_end c + Z.of_nat (length data)
                   else input_end c + Z.of_nat (length data) - 64).
    { destruct W as [Hl Hs He]. unfold c', TUI_INPUT_BUFFER_SIZE in *.
      cbn [input_end set_input_end set_tty_in set_input_buffer].
      apply rem_64. lia. }
    assert (S' : input_start c' = input_start c) by reflexivity.
    assert (Av : tui_input_available c'
                 = tui_input_available c + Z.of_nat (length data)).
    { rewrite (available_spec _ W'), A, E', S'.
      destruct W as [Hl Hs He]. unfold TUI_INPUT_BUFFER_SIZE in *.
      rewrite A in Hsp3.
      repeat match goal with
             | |- context [?a <? ?b] => destruct (Z.ltb_spec a b)
             | |- context [?a <=? ?b] => destruct (Z.leb_spec a b)
             end; lia. }
    split; [|split; [exact W'|split; [reflexivity|split]]].
    + apply list_eq. intros i.
      rewrite ring_contents_lookup, Av.
      destruct (Z.ltb_spec (Z.of_nat i)
                  (tui_input_available c + Z.of_nat (length data)))
        as [Hi|Hi].
      * rewrite (peek_spec _ _ W') by lia. rewrite S'.
        unfold c'. cbn [input_buffer set_input_end set_tty_in
                        set_input_buffer].
        destruct W as [Hl Hs He]. unfold TUI_INPUT_BUFFER_SIZE in *.
        rewrite store_at_lookup by lia.
        destruct (Z.ltb_spec (Z.of_nat i) (tui_input_available c)) as [Ho|Hn'].
        -- (* a byte that was there *)
           rewrite lookup_app_l by (rewrite ring_contents_length; lia).
           rewrite ring_contents_lookup.
           destruct (Z.ltb_spec (Z.of_nat i) (tui_input_available c)); [|lia].
           rewrite (peek_spec c) by (try split; try assumption; lia).
           rewrite bool_decide_eq_false_2; [reflexivity|].
           rewrite A in Ho.
           repeat match goal with
                  | |- context [?a <? ?b] => destruct (Z.ltb_spec a b)
                  | H : context [?a <=? ?b] |- _ =>
                    destruct (Z.leb_spec a b)
                  end; lia.
        -- (* a byte just read *)
           rewrite lookup_app_r by (rewrite ring_contents_length; lia).
           rewrite ring_contents_length.
           assert (P : Z.to_nat (if input_start c + Z.of_nat i <? 64
                                 then input_start c + Z.of_nat i
                                 else input_start c + Z.of_nat i - 64)
                       = (Z.to_nat (input_end c)
                          + (i - Z.to_nat (tui_input_available c)))%nat).
           { rewrite A in *.
             repeat match goal with
                    | |- context [?a <? ?b] => destruct (Z.ltb_spec a b)
                    | H : context [?a <=? ?b] |- _ =>
                      destruct (Z.leb_spec a b)
                    end; lia. }
           rewrite P. rewrite bool_decide_eq_true_2 by lia.
           replace (Z.to_nat (input_end c)
                    + (i - Z.to_nat (tui_input_available c))
                    - Z.to_nat (input_end c))%nat
             with (i - Z.to_nat (tui_input_available c))%nat by lia.
           destruct (data !! (i - Z.to_nat (tui_input_available c))%nat)
             eqn:Ed; [reflexivity|].
           apply lookup_ge_None in Ed. lia.
      * symmetry. apply lookup_ge_None.
        rewrite length_app, ring_contents_length. lia.
    + intros ->. simpl in Hn. lia.
    + intros ->. simpl in Hn. lia.
  - assert (Ed : data = []) by (destruct data; [reflexivity|simpl in Hn; lia]).
    exists []. cbn [fst snd]. rewrite app_nil_r.
    split; [reflexivity|]. split; [reflexivity|]. split; [exact W|].
    split; [reflexivity|]. split; [reflexivity|].
    intros _. left. unfold data in Ed.
    destruct (tty_in c) as [|b l]; [reflexivity|].
    replace (Z.to_nat space) with (S (Z.to_nat (space - 1))) in Ed by lia.
    discriminate Ed.
Qed.


(** ** The events of a byte stream *)

Lemma list_peek_app l m i :
  0 <= i < Z.of_nat (length l) -> list_peek l i = list_peek (l ++ m) i.
Proof.
  intros H. unfold list_peek. rewrite lookup_app_l by lia. reflexivity.
Qed.

(** More bytes behind a sequence the decoder has decoded change
    nothing. *)
Lemma decode_more l m :
  decode_list l = Incomplete \/ decode_list (l ++ m) = decode_list l.
Proof.
  unfold decode_list.
  destruct (parse_more (Z.of_nat (length l)) (Z.of_nat (length (l ++ m)))
              (list_peek l) (list_peek (l ++ m))) with (ev := blank_event)
    as [E|E].
  - rewrite length_app. lia.
  - intros i Hi. apply list_peek_app. exact Hi.
  - left. exact E.
  - right. symmetry. exact E.
Qed.

(** Bytes behind the first 32 are never looked at. *)
Lemma decode_far l m :
  32 <= Z.of_nat (length l) -> decode_list (l ++ m) = decode_list l.
Proof.
  intros H. unfold decode_list. symmetry. apply parse_same.
  - rewrite length_app. lia.
  - intros i Hi. apply list_peek_app. exact Hi.
  - right. exact H.
Qed.

Lemma decode_consumes l :
  consumes_within (Z.of_nat (length l)) (decode_list l).
Proof. apply parse_consumes. Qed.

Lemma decode_nil : decode_list [] = Incomplete.
Proof. reflexivity. Qed.

Lemma stream_events_S f l :
  stream_events (S f) l
  = match decode_list l with
    | Incomplete => ([], l)
    | Dropped n => stream_events f (drop (Z.to_nat n) l)
    | Emitted n _ ev =>
      let '(evs, rest) := stream_events f (drop (Z.to_nat n) l) in
      (ev :: evs, rest)
    end.
Proof. reflexivity. Qed.

(** The fuel of [stream_events] does not matter once it exceeds the
    length of the stream. *)
Lemma stream_events_fuel f1 : forall f2 l,
  (length l < f1)%nat -> (length l < f2)%nat ->
  stream_events f1 l = stream_events f2 l.
Proof.
  induction f1 as [|f1 IH]; intros f2 l H1 H2; [lia|].
  destruct f2 as [|f2]; [lia|]. rewrite !stream_events_S.
  pose proof (decode_consumes l) as C.
  destruct (decode_list l) as [|n|n p ev]; [reflexivity| |];
    cbn [consumes_within] in C.
  - apply IH; rewrite length_drop; lia.
  - rewrite (IH f2); [reflexivity| |]; rewrite length_drop; lia.
Qed.

Lemma events_incomplete l :
  decode_list l = Incomplete -> events_of l = [] /\ rest_of l = l.
Proof.
  intros E. unfold events_of, rest_of. rewrite stream_events_S, E. auto.
Qed.

Lemma events_dropped l n :
  decode_list l = Dropped n ->
  events_of l = events_of (drop (Z.to_nat n) l)
  /\ rest_of l = rest_of (drop (Z.to_nat n) l).
Proof.
  intros E. unfold events_of, rest_of.
  rewrite (stream_events_S (length l) l), E.
  pose proof (decode_consumes l) as C. rewrite E in C.
  cbn [consumes_within] in C.
  rewrite (stream_events_fuel (length l) (S (length (drop (Z.to_nat n) l))))
    by (rewrite ?length_drop; lia).
  auto.
Qed.

Lemma events_emitted l n p ev :
  decode_list l = Emitted n p ev ->
  events_of l = ev :: events_of (drop (Z.to_nat n) l)
  /\ rest_of l = rest_of (drop (Z.to_nat n) l).
Proof.
  intros E. unfold events_of, rest_of.
  rewrite (stream_events_S (length l) l), E.
  pose proof (decode_consumes l) as C. rewrite E in C.
  cbn [consumes_within] in C.
  rewrite (stream_events_fuel (length l) (S (length (drop (Z.to_nat n) l))))
    by (rewrite ?length_drop; lia).
  destruct (stream_events _ _). auto.
Qed.

(** Where the decoder stops it can go no further. *)
Lemma rest_of_stuck l : decode_list (rest_of l) = Incomplete.
Proof.
  remember (length l) as k eqn:Hk. revert l Hk.
  induction k as [k IH] using lt_wf_ind. intros l Hk.
  pose proof (decode_consumes l) as C.
  destruct (decode_list l) as [|n|n p ev] eqn:E; cbn [consumes_within] in C.
  - destruct (events_incomplete l E) as [_ ->]. exact E.
  - destruct (events_dropped l n E) as [_ ->].
    apply (IH (length (drop (Z.to_nat n) l))); [|reflexivity].
    rewrite length_drop. lia.
  - destruct (events_emitted l n p ev E) as [_ ->].
    apply (IH (length (drop (Z.to_nat n) l))); [|reflexivity].
    rewrite length_drop. lia.
Qed.

(** The events of a stream that goes on are the events so far, then the
    events of what was left with what follows. *)
Lemma events_app l m :
  events_of (l ++ m) = events_of l ++ events_of (rest_of l ++ m)
  /\ rest_of (l ++ m) = rest_of (rest_of l ++ m).
Proof.
  remember (length l) as k eqn:Hk. revert l Hk.
  induction k as [k IH] using lt_wf_ind. intros l Hk.
  pose proof (decode_consumes l) as C.
  destruct (decode_list l) as [|n|n p ev] eqn:E; cbn [consumes_within] in C.
  - destruct (events_incomplete l E) as [-> ->]. auto.
  - destruct (decode_more l m) as [E'|E']; [congruence|]. rewrite E in E'.
    destruct (events_dropped l n E) as [-> ->].
    destruct (events_dropped _ n E') as [-> ->].
    rewrite drop_app_le by lia.
    apply (IH (length (drop (Z.to_nat n) l))); [|reflexivity].
    rewrite length_drop. lia.
  - destruct (decode_more l m) as [E'|E']; [congruence|]. rewrite E in E'.
    destruct (events_emitted l n p ev E) as [-> ->].
    destruct (events_emitted _ n p ev E') as [-> ->].
    rewrite drop_app_le by lia. simpl.
    destruct (IH (length (drop (Z.to_nat n) l))
                 ltac:(rewrite length_drop; lia)
                 (drop (Z.to_nat n) l) eq_refl) as [-> ->].
    auto.
Qed.

(** ** Polling *)

(** Two contexts with the same ring and the same waiting bytes. *)
Lemma same_ring c c' :
  input_buffer c' = input_buffer c -> input_start c' = input_start c ->
  input_end c' = input_end c -> tty_in c' = tty_in c ->
  ring_wf c ->
  ring_contents c' = ring_contents c /\ ring_wf c'
  /\ tty_in c' = tty_in c
  /\ tui_input_available c' = tui_input_available c.
Proof.
  intros Hb Hs He Ht [A B C]. split; [|split; [|split]].
  - unfold ring_contents, tui_input_available, tui_input_peek.
    rewrite Hb, Hs, He. reflexivity.
  - split; [rewrite Hb|rewrite Hs|rewrite He]; assumption.
  - exact Ht.
  - unfold tui_input_available. rewrite Hs, He. reflexivity.
Qed.

(** One call of [tui_poll_event] without a pending resize: it reads, then
    decodes what the ring holds. *)
Lemma poll_step c ev :
  ring_wf c ->
  match decode_list (ring_contents (fst (tui_posix_read_input c))) with
  | Incomplete =>
    fst (fst (ctx_poll_event c ev None)) = fst (tui_posix_read_input c)
    /\ snd (fst (ctx_poll_event c ev None)) = 0
  | Dropped n =>
    ring_wf (fst (fst (ctx_poll_event c ev None)))
    /\ ring_contents (fst (fst (ctx_poll_event c ev None)))
       = drop (Z.to_nat n) (ring_contents (fst (tui_posix_read_input c)))
    /\ tty_in (fst (fst (ctx_poll_event c ev None)))
       = tty_in (fst (tui_posix_read_input c))
    /\ snd (fst (ctx_poll_event c ev None)) = 0
  | Emitted n _ e =>
    ring_wf (fst (fst (ctx_poll_event c ev None)))
    /\ ring_contents (fst (fst (ctx_poll_event c ev None)))
       = drop (Z.to_nat n) (ring_contents (fst (tui_posix_read_input c)))
    /\ tty_in (fst (fst (ctx_poll_event c ev None)))
       = tty_in (fst (tui_posix_read_input c))
    /\ snd (fst (ctx_poll_event c ev None)) = 1
    /\ snd (ctx_poll_event c ev None) = e
  end.
Proof.
  intros W. destruct (read_ring c W) as (data & _ & _ & W2 & _).
  unfold ctx_poll_event. rewrite !Z.eqb_refl. cbn [negb orb].
  revert W2. generalize (fst (tui_posix_read_input c)) as c2. intros c2 W2.
  pose proof (available_bounds c2 W2) as B.
  pose proof (decode_consumes (ring_contents c2)) as C.
  rewrite ring_contents_length, Z2Nat.id in C by lia.
  destruct (Z.ltb_spec 0 (tui_input_available c2)) as [Hav|Hav].
  - unfold tui_parse_escape_sequence.
    rewrite (parse_event_reset _ _ (poll_init_event ev) blank_event)
      by reflexivity.
    rewrite (parse_ring c2 blank_event W2).
    fold (decode_list (ring_contents c2)).
    destruct (decode_list (ring_contents c2)) as [|n|n p e];
      cbn [consumes_within] in C.
    + split; reflexivity.
    + cbn [fst snd Z.eqb negb].
      destruct (consume_ring c2 n W2) as (W3 & R3 & T3); [lia|].
      auto.
    + cbn [fst snd Z.eqb negb].
      set (c3 := match p with
                 | Some b => set_is_pasting b c2
                 | None => c2
                 end).
      assert (S3 : ring_contents c3 = ring_contents c2 /\ ring_wf c3
                   /\ tty_in c3 = tty_in c2
                   /\ tui_input_available c3 = tui_input_available c2).
      { unfold c3. destruct p; apply same_ring; try reflexivity; exact W2. }
      destruct S3 as (R3 & W3 & T3 & A3).
      destruct (consume_ring c3 n W3) as (W4 & R4 & T4); [lia|].
      rewrite R3 in R4. rewrite T3 in T4.
      set (c4 := tui_input_consume c3 n) in *.
      set (c5 := if bool_decide (type e = TUI_EVENT_MOUSE)
                 then set_ctx_mouse_button (mouse_button e)
                        (set_ctx_mouse_y (mouse_y e)
                           (set_ctx_mouse_x (mouse_x e) c4))
                 else c4).
      assert (S5 : ring_contents c5 = ring_contents c4 /\ ring_wf c5
                   /\ tty_in c5 = tty_in c4).
      { unfold c5.
        destruct (bool_decide (type e = TUI_EVENT_MOUSE));
          [|split; [reflexivity|split; [exact W4|reflexivity]]].
        destruct (same_ring c4
                    (set_ctx_mouse_button (mouse_button e)
                       (set_ctx_mouse_y (mouse_y e)
                          (set_ctx_mouse_x (mouse_x e) c4)))
                    eq_refl eq_refl eq_refl eq_refl W4)
          as (Y1 & Y2 & Y3 & _).
        split; [exact Y1|split; [exact Y2|exact Y3]]. }
      destruct S5 as (R5 & W5 & T5).
      set (c6 := if bool_decide (key e = TUI_KEY_ENTER)
                 then set_button_pressed true c5 else c5).
      assert (S6 : ring_contents c6 = ring_contents c5 /\ ring_wf c6
                   /\ tty_in c6 = tty_in c5).
      { unfold c6.
        destruct (bool_decide (key e = TUI_KEY_ENTER));
          [|split; [reflexivity|split; [exact W5|reflexivity]]].
        destruct (same_ring c5 (set_button_pressed true c5)
                    eq_refl eq_refl eq_refl eq_refl W5)
          as (Y1 & Y2 & Y3 & _).
        split; [exact Y1|split; [exact Y2|exact Y3]]. }
      destruct S6 as (R6 & W6 & T6).
      split; [exact W6|]. split; [rewrite R6, R5; exact R4|].
      split; [rewrite T6, T5; exact T4|]. split; reflexivity.
  - assert (E : ring_contents c2 = []).
    { apply length_zero_iff_nil. rewrite ring_contents_length. lia. }
    rewrite E. cbn. split; reflexivity.
Qed.

Lemma poll_repeatedly_S n c ev :
  fst (poll_repeatedly (S n) c ev)
  = (if negb (snd (fst (ctx_poll_event c ev None)) =? 0)
     then [snd (ctx_poll_event c ev None)] else [])
    ++ fst (poll_repeatedly n (fst (fst (ctx_poll_event c ev None)))
              (snd (ctx_poll_event c ev None)))
  /\ snd (poll_repeatedly (S n) c ev)
     = snd (poll_repeatedly n (fst (fst (ctx_poll_event c ev None)))
              (snd (ctx_poll_event c ev None))).
Proof.
  cbn [poll_repeatedly].
  destruct (ctx_poll_event c ev None) as [[c' r] ev']. cbn [fst snd].
  destruct (poll_repeatedly n c' ev') as [evs final]. cbn [fst snd].
  destruct (negb (r =? 0)); auto.
Qed.

(** A call that neither reads nor consumes changes nothing, and so does
    every call after it. *)
Lemma polls_at_rest n : forall c ev,
  (forall ev, fst (fst (ctx_poll_event c ev None)) = c
              /\ snd (fst (ctx_poll_event c ev None)) = 0) ->
  fst (poll_repeatedly n c ev) = []
  /\ fst (snd (poll_repeatedly n c ev)) = c.
Proof.
  induction n as [|n IH]; intros c ev H; [auto|].
  destruct (poll_repeatedly_S n c ev) as [-> ->].
  destruct (H ev) as [-> ->]. cbn [Z.eqb negb app]. apply IH. exact H.
Qed.

Lemma polls_needed_spec c :
  polls_needed c
  = (length (ring_contents c) + 2 * length (tty_in c) + 1)%nat.
Proof. unfold polls_needed. rewrite ring_contents_length. reflexivity. Qed.

(** Polling often enough gives the events of all the bytes that wait, in
    the ring and on the terminal, and leaves what the decoder cannot
    decode. *)
Lemma poll_run n : forall c ev,
  ring_wf c -> (polls_needed c <= n)%nat ->
  fst (poll_repeatedly n c ev) = events_of (ring_contents c ++ tty_in c)
  /\ ring_wf (fst (snd (poll_repeatedly n c ev)))
  /\ ring_contents (fst (snd (poll_repeatedly n c ev)))
     ++ tty_in (fst (snd (poll_repeatedly n c ev)))
     = rest_of (ring_contents c ++ tty_in c).
Proof.
  induction n as [|n IH]; intros c ev W Hn.
  { rewrite polls_needed_spec in Hn. lia. }
  destruct (poll_repeatedly_S n c ev) as [-> ->].
  destruct (read_ring c W) as (data & Ht & Hr & W2 & _ & Hsame & Hfull).
  pose proof (poll_step c ev W) as St.
  assert (Hs : ring_contents c ++ tty_in c
               = ring_contents (fst (tui_posix_read_input c))
                 ++ tty_in (fst (tui_posix_read_input c))).
  { rewrite Hr, Ht at 1. rewrite app_assoc. reflexivity. }
  assert (Hm : (polls_needed (fst (tui_posix_read_input c)) + length data
                = polls_needed c)%nat).
  { pose proof (f_equal length Ht) as L. rewrite length_app in L.
    rewrite !polls_needed_spec, Hr, length_app. lia. }
  set (c2 := fst (tui_posix_read_input c)) in *.
  pose proof (decode_consumes (ring_contents c2)) as C.
  destruct (decode_list (ring_contents c2)) as [|k|k p e] eqn:E;
    cbn [consumes_within] in C.
  - (* nothing decoded *)
    destruct St as [Ec Er]. rewrite Er. cbn [Z.eqb negb app].
    destruct data as [|b data].
    + (* and nothing read: the decoder is at rest *)
      pose proof (Hsame eq_refl) as Ec2. rewrite Ec2 in Ec, E.
      rewrite Ec.
      assert (Erest : decode_list (ring_contents c ++ tty_in c) = Incomplete).
      { destruct (Hfull eq_refl) as [Hnil|H63].
        - rewrite Hnil, app_nil_r. exact E.
        - rewrite decode_far; [exact E|].
          rewrite ring_contents_length. lia. }
      destruct (events_incomplete _ Erest) as [-> ->].
      assert (Q : forall ev0,
                 fst (fst (ctx_poll_event c ev0 None)) = c
                 /\ snd (fst (ctx_poll_event c ev0 None)) = 0).
      { intros ev0. pose proof (poll_step c ev0 W) as St0.
        fold c2 in St0. rewrite Ec2, E in St0. exact St0. }
      destruct (polls_at_rest n c (snd (ctx_poll_event c ev None)) Q)
        as [-> ->].
      auto.
    + rewrite Ec, Hs. apply IH; [exact W2|].
      cbn [length] in Hm. lia.
  - destruct St as (W3 & R3 & T3 & Er). rewrite Er. cbn [Z.eqb negb app].
    destruct (decode_more (ring_contents c2) (tty_in c2)) as [E'|E'];
      [congruence|].
    rewrite E in E'. rewrite Hs.
    destruct (events_dropped _ k E') as [-> ->].
    rewrite drop_app_le by (rewrite ring_contents_length in *; lia).
    rewrite <- R3, <- T3. apply IH; [exact W3|].
    rewrite !polls_needed_spec in *. rewrite R3, T3, length_drop. lia.
  - destruct St as (W3 & R3 & T3 & Er & Ee). rewrite Er, Ee.
    cbn [Z.eqb negb app Pos.eqb].
    destruct (decode_more (ring_contents c2) (tty_in c2)) as [E'|E'];
      [congruence|].
    rewrite E in E'. rewrite Hs.
    destruct (events_emitted _ k p e E') as [-> ->].
    rewrite drop_app_le by (rewrite ring_contents_length in *; lia).
    rewrite <- R3, <- T3.
    destruct (IH (fst (fst (ctx_poll_event c ev None))) e W3)
      as (I1 & I2 & I3).
    { rewrite !polls_needed_spec in *. rewrite R3, T3, length_drop. lia. }
    rewrite I1. auto.
Qed.

Lemma tty_send_ring c bs :
  ring_wf c ->
  ring_contents (tty_send c bs) = ring_contents c
  /\ ring_wf (tty_send c bs)
  /\ tty_in (tty_send c bs) = tty_in c ++ bs.
Proof.
  intros W.
  destruct (same_ring c (set_tty_in (tty_in c) (tty_send c bs))
              eq_refl eq_refl eq_refl eq_refl W) as (R & W' & _).
  split; [exact R|]. split; [|reflexivity].
  destruct W' as [A B C]. split; assumption.
Qed.

Lemma drain_events c ev :
  ring_wf c ->
  fst (drain c ev) = events_of (ring_contents c ++ tty_in c)
  /\ ring_wf (fst (snd (drain c ev)))
  /\ ring_contents (fst (snd (drain c ev)))
     ++ tty_in (fst (snd (drain c ev)))
     = rest_of (ring_contents c ++ tty_in c).
Proof. intros W. apply poll_run; [exact W|]. unfold drain. lia. Qed.

(** All of a stream at once: the events of the stream, behind the bytes
    that waited already. *)
Lemma feed_at_once_events c ev sigma :
  ring_wf c ->
  feed_at_once c ev sigma
  = events_of (ring_contents c ++ tty_in c ++ sigma).
Proof.
  intros W. unfold feed_at_once.
  destruct (tty_send_ring c sigma W) as (R & W' & T).
  destruct (drain_events (tty_send c sigma) ev W') as (E & _).
  rewrite E, R, T. reflexivity.
Qed.

(** The same stream byte by byte. *)
Lemma feed_bytewise_events sigma : forall c ev,
  ring_wf c -> at_rest c ->
  feed_bytewise c ev sigma
  = events_of (ring_contents c ++ tty_in c ++ sigma).
Proof.
  induction sigma as [|b sigma IH]; intros c ev W Hrest.
  - cbn [feed_bytewise]. rewrite app_nil_r.
    destruct (events_incomplete _ Hrest) as [-> _]. reflexivity.
  - cbn [feed_bytewise].
    destruct (tty_send_ring c [b] W) as (R & W' & T).
    destruct (drain_events (tty_send c [b]) ev W') as (E & W2 & Rest).
    rewrite R, T in E, Rest.
    destruct (drain (tty_send c [b]) ev) as [evs [c' ev']].
    cbn [fst snd] in E, W2, Rest.
    rewrite (IH c' ev' W2).
    + rewrite E. rewrite app_assoc in Rest.
      rewrite (app_assoc (ring_contents c') (tty_in c') sigma), Rest.
      replace (ring_contents c ++ tty_in c ++ b :: sigma)
        with (((ring_contents c ++ tty_in c) ++ [b]) ++ sigma)
        by (rewrite <- !app_assoc; reflexivity).
      destruct (events_app ((ring_contents c ++ tty_in c) ++ [b]) sigma)
        as [-> _].
      rewrite <- !app_assoc. reflexivity.
    + unfold at_rest. rewrite Rest. apply rest_of_stuck.
Qed.


(** ** What the input side guarantees *)

Lemma example_ring_wf w h b : ring_wf (example_ctx w h b).
Proof.
  split; cbn [example_ctx input_buffer input_start input_end];
    unfold TUI_INPUT_BUFFER_SIZE; [reflexivity|lia|lia].
Qed.

Lemma session_ring_wf bs : ring_wf (session_with bs).
Proof.
  unfold session_with.
  destruct (tty_send_ring (example_ctx 80 24 false) bs
              (example_ring_wf 80 24 false)) as (_ & W & _).
  exact W.
Qed.

(** X1.  Once [tui_parse_escape_sequence] has an answer for the bytes that
    wait (an event, or a byte it drops), the same bytes followed by any
    others get the same answer: what arrives later never changes how an
    earlier sequence is decoded. *)
Theorem decoded_sequence_is_final l m :
  decode_list l <> Incomplete -> decode_list (l ++ m) = decode_list l.
Proof.
  intros H. destruct (decode_more l m) as [E|E]; [contradiction|exact E].
Qed.

Lemma decoded_sequence_is_final_witness :
  decode_list (ESC :: bytes "[A") <> Incomplete
  /\ decode_list ((ESC :: bytes "[A") ++ bytes "[B")
     = decode_list (ESC :: bytes "[A").
Proof.
  assert (H : decode_list (ESC :: bytes "[A") <> Incomplete)
    by (vm_compute; discriminate).
  split; [exact H|].
  apply (decoded_sequence_is_final (ESC :: bytes "[A") (bytes "[B") H).
Defined.

(** X2.  The decoder looks at no more than the first 32 bytes that wait:
    whatever follows them does not change its answer.  In particular an
    escape sequence that is still incomplete after 32 bytes stays
    incomplete for ever, and since nothing is consumed the input is
    blocked from then on. *)
Theorem decoder_reads_32_bytes l m :
  (32 <= length l)%nat -> decode_list (l ++ m) = decode_list l.
Proof. intros H. apply decode_far. lia. Qed.

Lemma decoder_reads_32_bytes_witness :
  (32 <= length long_csi)%nat
  /\ decode_list (long_csi ++ bytes ";5H") = decode_list long_csi
  /\ decode_list long_csi = Incomplete.
Proof.
  assert (H : (32 <= length long_csi)%nat) by (vm_compute; lia).
  split; [exact H|]. split; [|reflexivity].
  apply (decoder_reads_32_bytes long_csi (bytes ";5H") H).
Defined.

(** X3.  [tui_parse_escape_sequence] takes bytes only from the front of
    the ring and never more than the ring holds; it returns 0 or 1, and
    when it returns 1 it has taken at least one byte. *)
Theorem parse_takes_from_the_front c ev :
  ring_wf c ->
  exists k,
    0 <= k <= tui_input_available c
    /\ ring_contents (fst (fst (tui_parse_escape_sequence c ev)))
       = drop (Z.to_nat k) (ring_contents c)
    /\ ring_wf (fst (fst (tui_parse_escape_sequence c ev)))
    /\ (snd (fst (tui_parse_escape_sequence c ev)) = 0
        \/ (snd (fst (tui_parse_escape_sequence c ev)) = 1 /\ 1 <= k)).
Proof.
  intros W. pose proof (available_bounds c W) as B.
  unfold tui_parse_escape_sequence.
  pose proof (parse_consumes (tui_input_available c) (tui_input_peek c) ev)
    as C.
  destruct (parse_escape_sequence (tui_input_available c) (tui_input_peek c)
              ev) as [|n|n p e]; cbn [consumes_within] in C; cbn [fst snd].
  - exists 0. split; [lia|]. split; [reflexivity|]. split; [exact W|].
    left. reflexivity.
  - exists n. destruct (consume_ring c n W) as (W' & R & _); [lia|].
    split; [lia|]. split; [exact R|]. split; [exact W'|]. left. reflexivity.
  - exists n.
    assert (S : ring_contents (match p with
                               | Some b => set_is_pasting b c
                               | None => c
                               end) = ring_contents c
                /\ ring_wf (match p with
                            | Some b => set_is_pasting b c
                            | None => c
                            end)
                /\ tui_input_available (match p with
                                        | Some b => set_is_pasting b c
                                        | None => c
                                        end) = tui_input_available c).
    { destruct p as [b|].
      - destruct (same_ring c (set_is_pasting b c)
                    eq_refl eq_refl eq_refl eq_refl W) as (R & W' & _ & A).
        auto.
      - auto. }
    destruct S as (R & W' & A).
    destruct (consume_ring _ n W') as (W'' & R' & _); [lia|].
    rewrite R in R'.
    split; [lia|]. split; [exact R'|]. split; [exact W''|].
    right. split; [reflexivity|lia].
Qed.

Lemma session_holding_wf bs : ring_wf (session_holding bs).
Proof.
  unfold session_holding.
  destruct (read_ring _ (session_ring_wf bs)) as (_ & _ & _ & W & _).
  exact W.
Qed.

Lemma parse_takes_from_the_front_witness :
  ring_wf (session_holding (ESC :: bytes "[Ax"))
  /\ ring_contents (session_holding (ESC :: bytes "[Ax")) = ESC :: bytes "[Ax"
  /\ snd (fst (tui_parse_escape_sequence
                 (session_holding (ESC :: bytes "[Ax")) blank_event)) = 1
  /\ ring_contents
       (fst (fst (tui_parse_escape_sequence
                    (session_holding (ESC :: bytes "[Ax")) blank_event)))
     = bytes "x"
  /\ exists k,
       1 <= k <= 4
       /\ bytes "x" = drop (Z.to_nat k) (ESC :: bytes "[Ax").
Proof.
  pose proof (session_holding_wf (ESC :: bytes "[Ax")) as W.
  assert (R : ring_contents (session_holding (ESC :: bytes "[Ax"))
              = ESC :: bytes "[Ax") by (vm_compute; reflexivity).
  assert (A : tui_input_available (session_holding (ESC :: bytes "[Ax")) = 4)
    by (vm_compute; reflexivity).
  assert (V : snd (fst (tui_parse_escape_sequence
                          (session_holding (ESC :: bytes "[Ax"))
                          blank_event)) = 1) by (vm_compute; reflexivity).
  assert (C : ring_contents
                (fst (fst (tui_parse_escape_sequence
                             (session_holding (ESC :: bytes "[Ax"))
                             blank_event)))
              = bytes "x") by (vm_compute; reflexivity).
  split; [exact W|]. split; [exact R|]. split; [exact V|].
  split; [exact C|].
  destruct (parse_takes_from_the_front _ blank_event W)
    as (k & Hk & E & _ & [H0|[_ H1]]).
  - rewrite V in H0. discriminate H0.
  - exists k. rewrite A in Hk. rewrite C, R in E.
    split; [lia|exact E].
Defined.

(** X4.  After an ESC the decoder gives up no byte without an event: when
    the ring starts with ESC and [tui_parse_escape_sequence] returns 0, the
    context is exactly as it was, so that the bytes still to come can
    complete the sequence. *)
Theorem unfinished_escape_is_kept c ev :
  tui_input_peek c 0 = 27 ->
  snd (fst (tui_parse_escape_sequence c ev)) = 0 ->
  fst (fst (tui_parse_escape_sequence c ev)) = c.
Proof.
  intros H0. unfold tui_parse_escape_sequence.
  pose proof (parse_escape_not_dropped (tui_input_available c)
                (tui_input_peek c) ev H0) as N.
  destruct (parse_escape_sequence (tui_input_available c) (tui_input_peek c)
              ev) as [|n|n p e]; cbn [fst snd not_dropped] in *.
  - reflexivity.
  - contradiction.
  - discriminate.
Qed.

Lemma unfinished_escape_is_kept_witness :
  tui_input_peek (session_holding (ESC :: bytes "[1;5")) 0 = 27
  /\ snd (fst (tui_parse_escape_sequence
                 (session_holding (ESC :: bytes "[1;5")) blank_event)) = 0
  /\ fst (fst (tui_parse_escape_sequence
                 (session_holding (ESC :: bytes "[1;5")) blank_event))
     = session_holding (ESC :: bytes "[1;5").
Proof.
  assert (H0 : tui_input_peek (session_holding (ESC :: bytes "[1;5")) 0 = 27)
    by (vm_compute; reflexivity).
  assert (H1 : snd (fst (tui_parse_escape_sequence
                           (session_holding (ESC :: bytes "[1;5"))
                           blank_event)) = 0)
    by (vm_compute; reflexivity).
  split; [exact H0|]. split; [exact H1|].
  apply (unfinished_escape_is_kept _ blank_event H0 H1).
Defined.

(** X5.  [tui_posix_read_input] puts the bytes it reads behind the bytes
    the ring holds, in the order they came, and overwrites none of those;
    what it does not read stays on the terminal; the ring never holds more
    than 63 bytes; and it reads nothing only when no byte waits or the ring
    is full. *)
Theorem read_input_appends c :
  ring_wf c ->
  exists data,
    tty_in c = data ++ tty_in (fst (tui_posix_read_input c))
    /\ ring_contents (fst (tui_posix_read_input c)) = ring_contents c ++ data
    /\ ring_wf (fst (tui_posix_read_input c))
    /\ snd (tui_posix_read_input c) = Z.of_nat (length data)
    /\ (length (ring_contents (fst (tui_posix_read_input c))) <= 63)%nat
    /\ (data = [] ->
        tty_in c = [] \/ length (ring_contents c) = 63%nat).
Proof.
  intros W. destruct (read_ring c W) as (data & T & R & W' & N & _ & F).
  exists data. split; [exact T|]. split; [exact R|]. split; [exact W'|].
  split; [exact N|]. split.
  - rewrite ring_contents_length.
    pose proof (available_bounds _ W'). lia.
  - intros Hd. destruct (F Hd) as [H|H]; [left; exact H|right].
    rewrite ring_contents_length, H. reflexivity.
Qed.

Lemma read_input_appends_witness :
  ring_wf (session_with (bytes "hi"))
  /\ ring_contents (session_holding (bytes "hi")) = bytes "hi"
  /\ exists data,
       tty_in (session_with (bytes "hi"))
       = data ++ tty_in (fst (tui_posix_read_input
                                (session_with (bytes "hi"))))
       /\ ring_contents (fst (tui_posix_read_input
                                (session_with (bytes "hi"))))
          = ring_contents (session_with (bytes "hi")) ++ data
       /\ ring_wf (fst (tui_posix_read_input (session_with (bytes "hi"))))
       /\ snd (tui_posix_read_input (session_with (bytes "hi")))
          = Z.of_nat (length data)
       /\ (length (ring_contents
                     (fst (tui_posix_read_input
                             (session_with (bytes "hi"))))) <= 63)%nat
       /\ (data = [] ->
           tty_in (session_with (bytes "hi")) = []
           \/ length (ring_contents (session_with (bytes "hi"))) = 63%nat).
Proof.
  split; [apply session_ring_wf|]. split; [vm_compute; reflexivity|].
  apply (read_input_appends (session_with (bytes "hi"))).
  apply session_ring_wf.
Defined.

(** X6.  [tui_input_consume] with a count no larger than what the ring
    holds drops that many of the oldest bytes and leaves the others, and
    the bytes still on the terminal, as they are. *)
Theorem input_consume_drops c k :
  ring_wf c -> 0 <= k <= tui_input_available c ->
  ring_wf (tui_input_consume c k)
  /\ ring_contents (tui_input_consume c k)
     = drop (Z.to_nat k) (ring_contents c)
  /\ tui_input_available (tui_input_consume c k) = tui_input_available c - k
  /\ tty_in (tui_input_consume c k) = tty_in c.
Proof.
  intros W Hk. destruct (consume_ring c k W Hk) as (W' & R & T).
  split; [exact W'|]. split; [exact R|]. split; [|exact T].
  pose proof (available_bounds c W). pose proof (available_bounds _ W').
  pose proof (f_equal (@length Z) R) as L.
  rewrite length_drop, !ring_contents_length in L. lia.
Qed.

Lemma input_consume_drops_witness :
  ring_wf (session_holding (bytes "abc"))
  /\ 0 <= 2 <= tui_input_available (session_holding (bytes "abc"))
  /\ ring_contents (tui_input_consume (session_holding (bytes "abc")) 2)
     = bytes "c".
Proof.
  assert (W : ring_wf (session_holding (bytes "abc"))).
  { unfold session_holding.
    destruct (read_ring _ (session_ring_wf (bytes "abc")))
      as (_ & _ & _ & W & _).
    exact W. }
  assert (A : 0 <= 2 <= tui_input_available (session_holding (bytes "abc")))
    by (vm_compute; split; discriminate).
  split; [exact W|]. split; [exact A|].
  rewrite (proj1 (proj2 (input_consume_drops _ 2 W A))).
  vm_compute. reflexivity.
Defined.

(** X7.  Feeding a byte stream to a decoder at rest one byte at a time,
    polling after each byte until nothing comes, gives the same events in
    the same order as handing over the whole stream and then polling until
    nothing comes. *)
Theorem bytewise_feed_is_feed_at_once c ev sigma :
  ring_wf c -> at_rest c ->
  feed_bytewise c ev sigma = feed_at_once c ev sigma.
Proof.
  intros W R. rewrite feed_bytewise_events, feed_at_once_events by assumption.
  reflexivity.
Qed.

Lemma bytewise_feed_is_feed_at_once_witness :
  ring_wf (example_ctx 80 24 false)
  /\ at_rest (example_ctx 80 24 false)
  /\ feed_bytewise (example_ctx 80 24 false) blank_event
       (ESC :: bytes "[<0;5;3Ma")
     = [mouse_event TUI_MOUSE_LEFT 4 2; key_press TUI_KEY_CHAR (chr "a")]
  /\ feed_at_once (example_ctx 80 24 false) blank_event
       (ESC :: bytes "[<0;5;3Ma")
     = [mouse_event TUI_MOUSE_LEFT 4 2; key_press TUI_KEY_CHAR (chr "a")].
Proof.
  assert (W : ring_wf (example_ctx 80 24 false)) by apply example_ring_wf.
  assert (R : at_rest (example_ctx 80 24 false)) by reflexivity.
  split; [exact W|]. split; [exact R|].
  rewrite (bytewise_feed_is_feed_at_once _ blank_event
             (ESC :: bytes "[<0;5;3Ma") W R).
  split; vm_compute; reflexivity.
Defined.


(** ** Incremental decoding *)

(** A proper prefix of a sequence that the decoder takes as a whole is
    incomplete. *)
Lemma proper_prefix_incomplete l m p e :
  m <> [] ->
  decode_list (l ++ m) = Emitted (Z.of_nat (length (l ++ m))) p e ->
  decode_list l = Incomplete.
Proof.
  intros Hm E. destruct (decode_more l m) as [H|H]; [exact H|].
  pose proof (decode_consumes l) as C. rewrite <- H, E in C.
  cbn [consumes_within] in C. rewrite length_app in C.
  destruct m; [contradiction|]. cbn [length] in C. lia.
Qed.

(** When the bytes in the ring are incomplete, the decoder returns 0 and
    leaves the context alone. *)
Lemma incomplete_ring_waits c ev :
  ring_wf c -> decode_list (ring_contents c) = Incomplete ->
  fst (tui_parse_escape_sequence c (poll_init_event ev)) = (c, 0).
Proof.
  intros W H. unfold tui_parse_escape_sequence.
  rewrite (parse_ring c _ W).
  rewrite (parse_event_reset _ _ (poll_init_event ev) blank_event)
    by reflexivity.
  unfold decode_list in H. rewrite H. reflexivity.
Qed.

(** C3.  For every byte stream, feeding it to a decoder at rest one byte
    at a time, polling after each byte until nothing comes, gives the same
    events in the same order as handing over the whole stream and polling
    until nothing comes.  An incomplete sequence, that is a proper prefix
    of bytes that the decoder takes as one event, yields no event and
    consumes nothing: the decoder returns 0 and the context is as it was.
    And after an ESC the decoder never gives up a byte without an
    event. *)
Theorem bytewise_events_are_one_shot_events c ev sigma :
  ring_wf c -> at_rest c ->
  feed_bytewise c ev sigma = feed_at_once c ev sigma
  /\ (forall l m p e,
        m <> [] ->
        decode_list (l ++ m) = Emitted (Z.of_nat (length (l ++ m))) p e ->
        decode_list l = Incomplete)
  /\ (forall c' ev',
        ring_wf c' -> decode_list (ring_contents c') = Incomplete ->
        fst (tui_parse_escape_sequence c' (poll_init_event ev')) = (c', 0))
  /\ (forall c' ev',
        tui_input_peek c' 0 = 27 ->
        snd (fst (tui_parse_escape_sequence c' ev')) = 0 ->
        fst (fst (tui_parse_escape_sequence c' ev')) = c').
Proof.
  intros W R. split; [|split; [|split]].
  - rewrite feed_bytewise_events, feed_at_once_events by assumption.
    reflexivity.
  - apply proper_prefix_incomplete.
  - apply incomplete_ring_waits.
  - intros c' ev' H0. unfold tui_parse_escape_sequence.
    pose proof (parse_escape_not_dropped (tui_input_available c')
                  (tui_input_peek c') ev' H0) as N.
    destruct (parse_escape_sequence (tui_input_available c')
                (tui_input_peek c') ev') as [|n|n p e];
      cbn [fst snd not_dropped] in *.
    + reflexivity.
    + contradiction.
    + discriminate.
Qed.

Lemma bytewise_events_are_one_shot_events_witness :
  (ring_wf (example_ctx 80 24 false) /\ at_rest (example_ctx 80 24 false))
  /\ feed_bytewise (example_ctx 80 24 false) blank_event
       ((ESC :: bytes "[A") ++ [195; 169] ++ (ESC :: bytes "[<0;5;3m"))
     = [key_press TUI_KEY_UP 0; key_press TUI_KEY_CHAR 233;
        mouse_event TUI_MOUSE_RELEASE 4 2]
  /\ feed_at_once (example_ctx 80 24 false) blank_event
       ((ESC :: bytes "[A") ++ [195; 169] ++ (ESC :: bytes "[<0;5;3m"))
     = [key_press TUI_KEY_UP 0; key_press TUI_KEY_CHAR 233;
        mouse_event TUI_MOUSE_RELEASE 4 2]
  /\ decode_list (ESC :: bytes "[<0;5;3") = Incomplete
  /\ fst (tui_parse_escape_sequence
            (session_holding (ESC :: bytes "[<0;5;3"))
            (poll_init_event blank_event))
     = (session_holding (ESC :: bytes "[<0;5;3"), 0).
Proof.
  assert (W : ring_wf (example_ctx 80 24 false)) by apply example_ring_wf.
  assert (R : at_rest (example_ctx 80 24 false)) by reflexivity.
  split; [split; [exact W|exact R]|].
  destruct (bytewise_events_are_one_shot_events _ blank_event
              ((ESC :: bytes "[A") ++ [195; 169]
                 ++ (ESC :: bytes "[<0;5;3m")) W R)
    as (E & Hpre & Hwait & _).
  assert (I : decode_list (ESC :: bytes "[<0;5;3") = Incomplete).
  { apply (Hpre (ESC :: bytes "[<0;5;3") (bytes "m") None
                (mouse_event TUI_MOUSE_RELEASE 4 2));
      [discriminate|vm_compute; reflexivity]. }
  split; [rewrite E; vm_compute; reflexivity|].
  split; [vm_compute; reflexivity|]. split; [exact I|].
  apply Hwait; [apply session_holding_wf|].
  replace (ring_contents (session_holding (ESC :: bytes "[<0;5;3")))
    with (ESC :: bytes "[<0;5;3") by (vm_compute; reflexivity).
  exact I.
Defined.


(** ** UTF-8 *)

(** A test that holds for every number below a bound, by trying them. *)
Lemma below_bound (f : Z -> bool) n t :
  forallb f (seqZ 0 n) = true -> 0 <= t < n -> f t = true.
Proof.
  intros H Ht. rewrite forallb_forall in H. apply H.
  apply list_elem_of_In, elem_of_seqZ. lia.
Qed.

(** The low [k] bits under a multiple of [2^k]. *)
Lemma lor_low a k y :
  0 <= k -> 0 <= y < 2 ^ k -> Z.lor (a * 2 ^ k) y = a * 2 ^ k + y.
Proof.
  intros Hk Hy.
  assert (D : Z.land (a * 2 ^ k) y = 0).
  { apply Z.bits_inj'. intros i Hi. rewrite Z.land_spec, Z.bits_0.
    destruct (Z.lt_ge_cases i k) as [Hlt|Hge].
    - rewrite Z.mul_pow2_bits_low by lia. reflexivity.
    - assert (T : Z.testbit y i = false).
      { apply Z.testbit_false; [lia|].
        rewrite Z.div_small; [reflexivity|].
        split; [lia|]. apply Z.lt_le_trans with (2 ^ k); [lia|].
        apply Z.pow_le_mono_r; lia. }
      rewrite T. apply andb_false_r. }
  rewrite <- Z.lxor_lor by exact D. symmetry.
  apply Z.add_nocarry_lxor. exact D.
Qed.

Lemma lead2_bits t :
  0 <= t < 32 ->
  (Z.lor 192 t <? 128) = false /\ Z.land (Z.lor 192 t) 224 = 192
  /\ Z.land (Z.lor 192 t) 31 = t.
Proof.
  intros H.
  assert (E : lead2_ok t = true)
    by (apply (below_bound lead2_ok 32); [vm_compute; reflexivity|exact H]).
  unfold lead2_ok in E. rewrite !andb_true_iff, negb_true_iff in E.
  destruct E as [[E1 E2] E3]. apply Z.eqb_eq in E2, E3. auto.
Qed.

Lemma lead3_bits t :
  0 <= t < 16 ->
  (Z.lor 224 t <? 128) = false /\ (Z.land (Z.lor 224 t) 224 =? 192) = false
  /\ Z.land (Z.lor 224 t) 240 = 224 /\ Z.land (Z.lor 224 t) 15 = t.
Proof.
  intros H.
  assert (E : lead3_ok t = true)
    by (apply (below_bound lead3_ok 16); [vm_compute; reflexivity|exact H]).
  unfold lead3_ok in E. rewrite !andb_true_iff, !negb_true_iff in E.
  destruct E as [[[E1 E2] E3] E4]. apply Z.eqb_eq in E3, E4. auto.
Qed.

Lemma lead4_bits t :
  0 <= t < 8 ->
  (Z.lor 240 t <? 128) = false /\ (Z.land (Z.lor 240 t) 224 =? 192) = false
  /\ (Z.land (Z.lor 240 t) 240 =? 224) = false
  /\ Z.land (Z.lor 240 t) 248 = 240 /\ Z.land (Z.lor 240 t) 7 = t.
Proof.
  intros H.
  assert (E : lead4_ok t = true)
    by (apply (below_bound lead4_ok 8); [vm_compute; reflexivity|exact H]).
  unfold lead4_ok in E. rewrite !andb_true_iff, !negb_true_iff in E.
  destruct E as [[[[E1 E2] E3] E4] E5]. apply Z.eqb_eq in E4, E5. auto.
Qed.

Lemma cont_bits y : 0 <= y < 64 -> Z.land (Z.lor 128 y) 63 = y.
Proof.
  intros H.
  assert (E : cont_ok y = true)
    by (apply (below_bound cont_ok 64); [vm_compute; reflexivity|exact H]).
  apply Z.eqb_eq. exact E.
Qed.

Lemma low6 x : Z.land x 63 = x mod 64.
Proof. change 63 with (Z.ones 6). rewrite Z.land_ones by lia. reflexivity. Qed.

Lemma shiftr_div x k : 0 <= k -> Z.shiftr x k = x / 2 ^ k.
Proof. intros H. apply Z.shiftr_div_pow2. exact H. Qed.

(** The three multi-byte forms, decoded. *)
Lemma decode_two cp rest :
  128 <= cp < 2048 ->
  tui_utf8_decode ([Z.lor 0xC0 (Z.shiftr cp 6); Z.lor 0x80 (Z.land cp 0x3F)]
                     ++ rest) = (2, cp).
Proof.
  intros H. cbn [app tui_utf8_decode].
  rewrite (shiftr_div cp 6) by lia. change (2 ^ 6) with 64.
  rewrite (low6 cp).
  assert (T : 0 <= cp / 64 < 32) by (Z.div_mod_to_equations; lia).
  assert (Y : 0 <= cp mod 64 < 64) by (Z.div_mod_to_equations; lia).
  destruct (lead2_bits _ T) as (A1 & A2 & A3). rewrite A1, A2, A3.
  rewrite Z.eqb_refl, (cont_bits _ Y).
  rewrite Z.shiftl_mul_pow2 by lia. rewrite lor_low by (simpl; lia).
  f_equal. change (2 ^ 6) with 64. Z.div_mod_to_equations. lia.
Qed.

Lemma decode_three cp rest :
  2048 <= cp < 65536 ->
  tui_utf8_decode ([Z.lor 0xE0 (Z.shiftr cp 12);
                    Z.lor 0x80 (Z.land (Z.shiftr cp 6) 0x3F);
                    Z.lor 0x80 (Z.land cp 0x3F)] ++ rest) = (3, cp).
Proof.
  intros H. cbn [app tui_utf8_decode].
  rewrite (shiftr_div cp 6), (shiftr_div cp 12) by lia.
  change (2 ^ 6) with 64. change (2 ^ 12) with 4096.
  rewrite (low6 cp), (low6 (cp / 64)).
  assert (T : 0 <= cp / 4096 < 16) by (Z.div_mod_to_equations; lia).
  assert (Y1 : 0 <= (cp / 64) mod 64 < 64)
    by (Z.div_mod_to_equations; lia).
  assert (Y2 : 0 <= cp mod 64 < 64) by (Z.div_mod_to_equations; lia).
  destruct (lead3_bits _ T) as (A1 & A2 & A3 & A4).
  rewrite A1, A2, A3, A4. rewrite Z.eqb_refl.
  rewrite (cont_bits _ Y1), (cont_bits _ Y2).
  rewrite !Z.shiftl_mul_pow2 by lia.
  rewrite (lor_low (cp / 4096) 12) by (simpl; lia).
  replace (cp / 4096 * 2 ^ 12 + (cp / 64) mod 64 * 2 ^ 6)
    with ((cp / 4096 * 64 + (cp / 64) mod 64) * 2 ^ 6) by lia.
  rewrite lor_low by (simpl; lia).
  f_equal. change (2 ^ 6) with 64. Z.div_mod_to_equations. lia.
Qed.

Lemma decode_four cp rest :
  65536 <= cp < 1114112 ->
  tui_utf8_decode ([Z.lor 0xF0 (Z.shiftr cp 18);
                    Z.lor 0x80 (Z.land (Z.shiftr cp 12) 0x3F);
                    Z.lor 0x80 (Z.land (Z.shiftr cp 6) 0x3F);
                    Z.lor 0x80 (Z.land cp 0x3F)] ++ rest) = (4, cp).
Proof.
  intros H. cbn [app tui_utf8_decode].
  rewrite (shiftr_div cp 6), (shiftr_div cp 12), (shiftr_div cp 18) by lia.
  change (2 ^ 6) with 64. change (2 ^ 12) with 4096.
  change (2 ^ 18) with 262144.
  rewrite (low6 cp), (low6 (cp / 64)), (low6 (cp / 4096)).
  assert (T : 0 <= cp / 262144 < 8) by (Z.div_mod_to_equations; lia).
  assert (Y0 : 0 <= (cp / 4096) mod 64 < 64)
    by (Z.div_mod_to_equations; lia).
  assert (Y1 : 0 <= (cp / 64) mod 64 < 64) by (Z.div_mod_to_equations; lia).
  assert (Y2 : 0 <= cp mod 64 < 64) by (Z.div_mod_to_equations; lia).
  destruct (lead4_bits _ T) as (A1 & A2 & A3 & A4 & A5).
  rewrite A1, A2, A3, A4, A5. rewrite Z.eqb_refl.
  rewrite (cont_bits _ Y0), (cont_bits _ Y1), (cont_bits _ Y2).
  rewrite !Z.shiftl_mul_pow2 by lia.
  rewrite (lor_low (cp / 262144) 18) by (simpl; lia).
  replace (cp / 262144 * 2 ^ 18 + (cp / 4096) mod 64 * 2 ^ 12)
    with ((cp / 262144 * 64 + (cp / 4096) mod 64) * 2 ^ 12) by lia.
  rewrite lor_low by (simpl; lia).
  replace ((cp / 262144 * 64 + (cp / 4096) mod 64) * 2 ^ 12
           + (cp / 64) mod 64 * 2 ^ 6)
    with (((cp / 262144 * 64 + (cp / 4096) mod 64) * 64
           + (cp / 64) mod 64) * 2 ^ 6) by lia.
  rewrite lor_low by (simpl; lia).
  f_equal. change (2 ^ 6) with 64. Z.div_mod_to_equations. lia.
Qed.

(** X8.  Decoding what [tui_utf8_encode] wrote gives the code point back,
    with the number of bytes written, whatever follows those bytes: for
    every code point below 0x110000. *)
Theorem utf8_decode_encode cp rest :
  0 <= cp < 0x110000 ->
  tui_utf8_decode (tui_utf8_encode cp ++ rest)
  = (Z.of_nat (length (tui_utf8_encode cp)), cp).
Proof.
  intros H. unfold tui_utf8_encode.
  destruct (Z.ltb_spec cp 128) as [H1|H1].
  { cbn [app tui_utf8_decode length].
    destruct (Z.ltb_spec cp 128); [reflexivity|lia]. }
  destruct (Z.ltb_spec cp 2048) as [H2|H2].
  { cbn [length]. apply decode_two. lia. }
  destruct (Z.ltb_spec cp 65536) as [H3|H3].
  { cbn [length]. apply decode_three. lia. }
  destruct (Z.ltb_spec cp 1114112) as [H4|H4]; [|lia].
  cbn [length]. apply decode_four. lia.
Qed.

Lemma utf8_decode_encode_witness :
  0 <= 0x20AC < 0x110000
  /\ tui_utf8_encode 0x20AC = [0xE2; 0x82; 0xAC]
  /\ tui_utf8_decode (tui_utf8_encode 0x20AC ++ bytes "x") = (3, 0x20AC).
Proof.
  split; [lia|]. split; [reflexivity|].
  apply (utf8_decode_encode 0x20AC (bytes "x")). lia.
Defined.


(** ** The output buffer *)

Lemma flush_empties c : output_buffer (tui_output_flush c) = [].
Proof.
  unfold tui_output_flush, output_pos.
  destruct (output_buffer c) as [|b l] eqn:E.
  - cbn [length]. change (0 <? Z.of_nat 0) with false. cbv iota. exact E.
  - destruct (Z.ltb_spec 0 (Z.of_nat (length (b :: l)))) as [_|H];
      [reflexivity|cbn [length] in H; lia].
Qed.

(** X9.  [tui_output_write] hands on the bytes it is given in order, none
    lost and none twice, whatever their number and however full the buffer
    is: what has been emitted (delivered to the terminal, or waiting in the
    buffer) grows by exactly those bytes, the buffer never overruns, and no
    other field of the context changes.  Two writes in a row emit the two
    strings one after the other, and a flush delivers what waits without
    changing what has been emitted. *)
Theorem output_write_keeps_order c d1 d2 :
  output_pos c <= TUI_OUTPUT_BUFFER_SIZE ->
  emitted (tui_output_write c d1) = emitted c ++ d1
  /\ output_pos (tui_output_write c d1) <= TUI_OUTPUT_BUFFER_SIZE
  /\ out_only c (tui_output_write c d1)
  /\ emitted (tui_output_write (tui_output_write c d1) d2)
     = emitted c ++ d1 ++ d2
  /\ emitted (tui_output_flush (tui_output_write c d1)) = emitted c ++ d1
  /\ output_buffer (tui_output_flush (tui_output_write c d1)) = [].
Proof.
  intros H. destruct (write_appends c d1 H) as (O1 & E1 & P1).
  destruct (write2_appends c d1 d2 H) as (_ & E2 & _).
  split; [exact E1|]. split; [exact P1|]. split; [exact O1|].
  split; [exact E2|]. split; [rewrite flush_emitted; exact E1|].
  apply flush_empties.
Qed.

Lemma output_write_keeps_order_witness :
  output_pos (example_ctx 80 24 false) <= TUI_OUTPUT_BUFFER_SIZE
  /\ emitted (tui_output_write
                (tui_output_write (example_ctx 80 24 false) (bytes "ab"))
                (bytes "c"))
     = emitted (example_ctx 80 24 false) ++ bytes "ab" ++ bytes "c".
Proof.
  assert (H : output_pos (example_ctx 80 24 false) <= TUI_OUTPUT_BUFFER_SIZE).
  { unfold output_pos. cbn [example_ctx output_buffer length].
    unfold TUI_OUTPUT_BUFFER_SIZE. lia. }
  split; [exact H|].
  exact (proj1 (proj2 (proj2 (proj2
           (output_write_keeps_order (example_ctx 80 24 false)
              (bytes "ab") (bytes "c") H))))).
Defined.

(** ** Decimal numbers *)

Lemma digits_value_snoc ds d :
  digits_value (ds ++ [d]) = digits_value ds * 10 + (d - 48).
Proof. unfold digits_value. rewrite foldl_app. reflexivity. Qed.

(** The digit loop of [tui_output_int]: with room for them, it puts the
    digits of [value] in front of [buf]. *)
Lemma int_digits_loop_spec fuel : forall value pos buf,
  0 <= value < 10 ^ Z.of_nat fuel -> Z.of_nat fuel <= pos ->
  exists ds,
    snd (int_digits_loop fuel value pos buf) = ds ++ buf
    /\ fst (int_digits_loop fuel value pos buf) = pos - Z.of_nat (length ds)
    /\ digits_value ds = value
    /\ Forall is_digit ds
    /\ (0 < value -> exists d rest, ds = d :: rest /\ d <> 48)
    /\ (value = 0 -> ds = []).
Proof.
  induction fuel as [|fuel IH]; intros value pos buf Hv Hp.
  - exists []. cbn [int_digits_loop fst snd length app].
    change (10 ^ Z.of_nat 0) with 1 in Hv.
    split; [reflexivity|]. split; [lia|]. split; [cbv; lia|].
    split; [constructor|]. split; [lia|reflexivity].
  - cbn [int_digits_loop].
    destruct (Z.ltb_spec 0 value) as [Hpos|Hz]; cbn [andb].
    + destruct (Z.ltb_spec 0 pos) as [_|]; [|lia].
      rewrite Z.quot_div_nonneg, Z.rem_mod_nonneg by lia.
      assert (Hq : 0 <= value / 10 < 10 ^ Z.of_nat fuel).
      { rewrite Nat2Z.inj_succ, Z.pow_succ_r in Hv by lia.
        split; [apply Z.div_pos; lia|].
        apply Z.div_lt_upper_bound; lia. }
      destruct (IH (value / 10) (pos - 1) ((48 + value mod 10) :: buf) Hq)
        as (ds & E & P & V & F & L & Z0); [lia|].
      exists (ds ++ [48 + value mod 10]).
      rewrite E, P, <- app_assoc, length_app. cbn [length app].
      split; [reflexivity|]. split; [lia|].
      split; [rewrite digits_value_snoc, V;
              Z.div_mod_to_equations; lia|].
      split.
      { apply Forall_app. split; [exact F|].
        constructor; [|constructor].
        unfold is_digit. Z.div_mod_to_equations. lia. }
      split; [|lia].
      intros _. destruct (Z.eq_dec (value / 10) 0) as [Hq0|Hq0].
      * rewrite (Z0 Hq0). exists (48 + value mod 10), [].
        split; [reflexivity|]. Z.div_mod_to_equations. lia.
      * destruct L as (d & rest & -> & Hd); [lia|].
        exists d, (rest ++ [48 + value mod 10]). split; [reflexivity|exact Hd].
    + assert (value = 0) by lia. subst value.
      exists []. cbn [fst snd length app].
      split; [reflexivity|]. split; [lia|]. split; [reflexivity|].
      split; [constructor|]. split; [lia|reflexivity].
Qed.

(** A positive [int] is written as its digits, most significant first and
    without a leading zero. *)
Lemma decimal_positive v :
  0 < v < 2 ^ 31 ->
  exists d rest,
    decimal v = d :: rest /\ d <> 48 /\ Forall is_digit (decimal v)
    /\ digits_value (decimal v) = v
    /\ snd (int_digits_loop 15 v 15 []) = decimal v
    /\ 0 < fst (int_digits_loop 15 v 15 []).
Proof.
  intros Hv.
  assert (Hb : 0 <= v < 10 ^ Z.of_nat 15)
    by (change (10 ^ Z.of_nat 15) with 1000000000000000;
        change (2 ^ 31) with 2147483648 in Hv; lia).
  assert (H15 : Z.of_nat 15 <= 15) by (simpl; lia).
  destruct (int_digits_loop_spec 15 v 15 [] Hb H15)
    as (ds & E & P & V & F & L & _).
  destruct L as (d & rest & Eds & Hd); [lia|].
  rewrite app_nil_r in E.
  assert (Hlen : Z.of_nat (length ds) <= 10).
  { (* a number below 2^31 has at most ten digits *)
    destruct (Z.le_gt_cases (Z.of_nat (length ds)) 10) as [Hle|Hgt];
      [exact Hle|exfalso].
    assert (G : forall l : list Z,
              Forall is_digit l ->
              forall d0, 49 <= d0 <= 57 ->
                10 ^ Z.of_nat (length l) <= digits_value (d0 :: l)).
    { intros l. induction l as [|a l IHl] using rev_ind; intros Fl d0 Hd0.
      - unfold digits_value. simpl. lia.
      - apply Forall_app in Fl. destruct Fl as [Fl Fa].
        inversion Fa as [|? ? Ha _]; subst. unfold is_digit in Ha.
        change (d0 :: l ++ [a]) with ((d0 :: l) ++ [a]).
        rewrite digits_value_snoc, length_app. cbn [length].
        rewrite Nat2Z.inj_add, Z.pow_add_r by lia.
        specialize (IHl Fl d0 Hd0). change (10 ^ Z.of_nat 1) with 10. lia. }
    rewrite Eds in F, V, Hgt.
    inversion F as [|? ? Fd Fr]; subst. unfold is_digit in Fd.
    assert (Hd1 : 49 <= d <= 57) by lia.
    pose proof (G rest Fr d Hd1) as Hbig.
    cbn [length] in Hgt.
    assert (10 ^ 10 <= 10 ^ Z.of_nat (length rest))
      by (apply Z.pow_le_mono_r; lia).
    change (10 ^ 10) with 10000000000 in *.
    change (2 ^ 31) with 2147483648 in Hv. lia. }
  assert (Dv : decimal v = ds).
  { unfold decimal. destruct (Z.eqb_spec v 0); [lia|].
    destruct (Z.ltb_spec v 0); [lia|].
    destruct (int_digits_loop 15 v 15 []) as [p b]. cbn [fst snd] in *.
    subst b. reflexivity. }
  exists d, rest. rewrite Dv. repeat split; try assumption; lia.
Qed.

(** Inside the [int] range a value is what the [int] holds. *)
Lemma int_wrap_id v : - 2 ^ 31 <= v < 2 ^ 31 -> int_wrap v = v.
Proof.
  intros H. unfold int_wrap. change (2 ^ 31) with 2147483648 in *.
  change (2 ^ 32) with 4294967296. rewrite Z.mod_small; lia.
Qed.

(** X10.  [tui_output_int] appends to the output the text of its [int]
    argument, which is: for a positive value its decimal digits, most
    significant first and without a leading zero, standing for the value;
    for 0 the single digit 0; for a negative value above the least [int]
    a minus sign and then the text of its absolute value; for the least
    [int], - 2^31, whose negation is not an [int] and comes out as itself,
    a minus sign and no digit. *)
Theorem output_int_emits_decimal c v :
  - 2 ^ 31 <= v < 2 ^ 31 -> output_pos c <= TUI_OUTPUT_BUFFER_SIZE ->
  emitted (tui_output_int c v) = emitted c ++ decimal v
  /\ (0 < v ->
      exists d rest,
        decimal v = d :: rest /\ d <> 48 /\ Forall is_digit (decimal v)
        /\ digits_value (decimal v) = v)
  /\ (v = 0 -> decimal v = [48])
  /\ (- 2 ^ 31 < v < 0 -> decimal v = 45 :: decimal (- v))
  /\ (v = - 2 ^ 31 -> decimal v = [45]).
Proof.
  intros Hv Hp. split.
  { unfold tui_output_int, tui_output_str.
    destruct (write_appends c (decimal v) Hp) as (_ & Em & _). exact Em. }
  split.
  { intros H. destruct (decimal_positive v) as (d & rest & E & D & F & V & _);
      [lia|].
    exists d, rest. auto. }
  split; [intros ->; reflexivity|]. split.
  - intros H.
    destruct (decimal_positive (- v)) as (_ & _ & _ & _ & _ & _ & S & P);
      [lia|].
    unfold decimal at 1. destruct (Z.eqb_spec v 0); [lia|].
    destruct (Z.ltb_spec v 0); [|lia]. rewrite int_wrap_id by lia.
    destruct (int_digits_loop 15 (- v) 15 []) as [p b]. cbn [fst snd] in *.
    subst b. destruct (Z.ltb_spec 0 p); [reflexivity|lia].
  - intros ->. reflexivity.
Qed.

Lemma output_int_emits_decimal_witness :
  (- 2 ^ 31 <= -204 < 2 ^ 31
   /\ output_pos (tui_output_write (example_ctx 80 24 false) (bytes "ab"))
      <= TUI_OUTPUT_BUFFER_SIZE)
  /\ decimal (-204) = bytes "-204"
  /\ decimal (- 2 ^ 31) = bytes "-"
  /\ decimal (2 ^ 31 - 1) = bytes "2147483647"
  /\ emitted (tui_output_int
                (tui_output_write (example_ctx 80 24 false) (bytes "ab"))
                (-204))
     = emitted (tui_output_write (example_ctx 80 24 false) (bytes "ab"))
       ++ bytes "-204".
Proof.
  assert (H0 : output_pos (example_ctx 80 24 false)
               <= TUI_OUTPUT_BUFFER_SIZE).
  { unfold output_pos. cbn [example_ctx output_buffer length].
    unfold TUI_OUTPUT_BUFFER_SIZE. lia. }
  pose proof (appends_pos _ _ _
                (write_appends (example_ctx 80 24 false) (bytes "ab") H0))
    as H.
  assert (V : - 2 ^ 31 <= -204 < 2 ^ 31) by (simpl; lia).
  split; [split; [exact V|exact H]|].
  split; [reflexivity|]. split; [reflexivity|]. split; [reflexivity|].
  exact (proj1 (output_int_emits_decimal _ (-204) V H)).
Defined.

(** ** Terminal size *)

(** X11.  After [tui_get_terminal_size] the size is positive and fits the
    cell buffers: at most 512 columns and 256 rows.  It is the answer of
    the size query cut down to those bounds when the query succeeds with a
    positive number of columns and of rows, and 80 x 24 in every other
    case; no other field changes. *)
Theorem terminal_size_is_clamped c ws :
  0 < width (tui_get_terminal_size c ws) <= TUI_MAX_WIDTH
  /\ 0 < height (tui_get_terminal_size c ws) <= TUI_MAX_HEIGHT
  /\ (width (tui_get_terminal_size c ws),
      height (tui_get_terminal_size c ws))
     = match ws with
       | Some (cols, rows) =>
         if (0 <? cols) && (0 <? rows)
         then (Z.min cols TUI_MAX_WIDTH, Z.min rows TUI_MAX_HEIGHT)
         else (80, 24)
       | None => (80, 24)
       end
  /\ tui_get_terminal_size c ws
     = set_height (height (tui_get_terminal_size c ws))
         (set_width (width (tui_get_terminal_size c ws)) c).
Proof.
  destruct (get_terminal_size_shape c ws) as (w & h & E & Hw & Hh).
  split; [rewrite E; exact Hw|]. split; [rewrite E; exact Hh|].
  split; [|rewrite E; reflexivity].
  unfold tui_get_terminal_size, TUI_MAX_WIDTH, TUI_MAX_HEIGHT.
  destruct ws as [[cols rows]|]; [|reflexivity].
  destruct ((0 <? cols) && (0 <? rows)); [|reflexivity].
  cbn [width height set_width set_height].
  destruct (Z.ltb_spec 512 cols), (Z.ltb_spec 256 rows); f_equal; lia.
Qed.


(** ** Cells of the back buffer *)

Lemma cell_index_inj x y x' y' :
  0 <= x < TUI_MAX_WIDTH -> 0 <= y -> 0 <= x' < TUI_MAX_WIDTH -> 0 <= y' ->
  cell_index x y = cell_index x' y' -> x = x' /\ y = y'.
Proof. unfold cell_index, TUI_MAX_WIDTH. intros. lia. Qed.

Lemma set_back_buffer_same c : set_back_buffer (back_buffer c) c = c.
Proof. destruct c. reflexivity. Qed.

Lemma set_back_buffer_twice b b' c :
  set_back_buffer b (set_back_buffer b' c) = set_back_buffer b c.
Proof. reflexivity. Qed.

Lemma visible_in_range c x y :
  ctx_wf c -> visible c x y ->
  (cell_index x y < length (back_buffer c))%nat.
Proof.
  intros [_ Hb Hw Hh _] [Hx Hy]. rewrite Hb.
  apply cell_index_in_range; lia.
Qed.

Lemma set_cell_off c x y cp :
  in_frame c = false \/ ~ visible c x y -> ctx_set_cell c x y cp = c.
Proof.
  unfold ctx_set_cell, visible. intros [->|H]; [reflexivity|].
  destruct (in_frame c); [|reflexivity]. cbn [negb].
  destruct (Z.ltb_spec x 0), (Z.leb_spec (width c) x), (Z.ltb_spec y 0),
    (Z.leb_spec (height c) y); cbn [orb]; try reflexivity.
  exfalso. apply H. lia.
Qed.

Lemma set_cell_on c x y cp :
  in_frame c = true -> visible c x y ->
  ctx_set_cell c x y cp
  = set_back_buffer (<[cell_index x y := pen_cell c cp]> (back_buffer c)) c.
Proof.
  unfold ctx_set_cell, visible. intros -> [Hx Hy]. cbn [negb].
  destruct (Z.ltb_spec x 0), (Z.leb_spec (width c) x), (Z.ltb_spec y 0),
    (Z.leb_spec (height c) y); cbn [orb]; try lia.
  reflexivity.
Qed.

(** X12.  In a frame, [tui_set_cell] on a cell of the visible rectangle
    stores the code point with the current pen in that cell and changes no
    other cell, in particular none of another column or row, and nothing
    else of the context; outside a frame, or on a cell that is not
    visible, it changes nothing at all. *)
Theorem set_cell_writes_one_cell c x y cp :
  ctx_wf c ->
  (in_frame c = true -> visible c x y ->
   back_buffer (ctx_set_cell c x y cp) !! cell_index x y
   = Some (pen_cell c cp)
   /\ (forall x' y', 0 <= x' < TUI_MAX_WIDTH -> 0 <= y' ->
         (x', y') <> (x, y) ->
         back_buffer (ctx_set_cell c x y cp) !! cell_index x' y'
         = back_buffer c !! cell_index x' y')
   /\ ctx_set_cell c x y cp
      = set_back_buffer (back_buffer (ctx_set_cell c x y cp)) c)
  /\ (in_frame c = false \/ ~ visible c x y -> ctx_set_cell c x y cp = c).
Proof.
  intros Hwf. split; [|apply set_cell_off].
  intros Hin Hv. rewrite (set_cell_on c x y cp Hin Hv).
  cbn [back_buffer set_back_buffer].
  split; [apply list_lookup_insert_eq, visible_in_range; assumption|].
  split; [|reflexivity].
  intros x' y' Hx' Hy' Hne. apply list_lookup_insert_ne.
  intros E. apply Hne. destruct Hwf as [_ _ Hw _ _]. destruct Hv as [Hx Hy].
  destruct (cell_index_inj x y x' y') as [-> ->]; try lia. reflexivity.
Qed.

Lemma set_cell_writes_one_cell_witness :
  ctx_wf (set_in_frame true (example_ctx 80 24 false))
  /\ back_cell (ctx_set_cell (set_in_frame true (example_ctx 80 24 false))
                  3 2 (chr "x")) 3 2
     = Some (plain_cell "x").
Proof.
  assert (W : ctx_wf (set_in_frame true (example_ctx 80 24 false))).
  { apply set_in_frame_wf, example_ctx_wf;
      unfold TUI_MAX_WIDTH, TUI_MAX_HEIGHT; lia. }
  split; [exact W|].
  assert (V : visible (set_in_frame true (example_ctx 80 24 false)) 3 2).
  { unfold visible. cbn [set_in_frame example_ctx width height]. lia. }
  exact (proj1 (proj1 (set_cell_writes_one_cell _ 3 2 (chr "x") W)
                  eq_refl V)).
Defined.

(** ** Painting a list of points *)

Lemma set_cells_snoc c pts p ch :
  set_cells c (pts ++ [p]) ch
  = ctx_set_cell (set_cells c pts ch) (fst p) (snd p) ch.
Proof. unfold set_cells. rewrite foldl_app. reflexivity. Qed.

(** What a run of [tui_set_cell] calls with one code point leaves: the
    pen cell at every visible point of the list, every other cell and
    every other field as before. *)
Lemma set_cells_spec ch c :
  ctx_wf c -> in_frame c = true ->
  forall pts,
    set_cells c pts ch = set_back_buffer (back_buffer (set_cells c pts ch)) c
    /\ length (back_buffer (set_cells c pts ch)) = length (back_buffer c)
    /\ (forall p, In p pts -> visible c (fst p) (snd p) ->
          back_buffer (set_cells c pts ch) !! cell_index (fst p) (snd p)
          = Some (pen_cell c ch))
    /\ (forall j, (forall p, In p pts -> visible c (fst p) (snd p) ->
                     cell_index (fst p) (snd p) <> j) ->
          back_buffer (set_cells c pts ch) !! j = back_buffer c !! j).
Proof.
  intros Hwf Hin pts. induction pts as [|p pts IH] using rev_ind.
  - unfold set_cells. cbn [foldl]. rewrite set_back_buffer_same.
    split; [reflexivity|]. split; [reflexivity|].
    split; [intros p []|reflexivity].
  - rewrite set_cells_snoc. destruct IH as (E & L & A & B).
    revert E L A B. generalize (set_cells c pts ch) as c1.
    intros c1 E L A B.
    assert (Hin1 : in_frame c1 = true) by (rewrite E; exact Hin).
    assert (Hw1 : width c1 = width c) by (rewrite E; reflexivity).
    assert (Hh1 : height c1 = height c) by (rewrite E; reflexivity).
    assert (Hpen : pen_cell c1 ch = pen_cell c ch)
      by (rewrite E; reflexivity).
    assert (Hvis : forall a b, visible c1 a b <-> visible c a b)
      by (intros a b; unfold visible; rewrite Hw1, Hh1; reflexivity).
    destruct (Z.ltb_spec (fst p) 0) as [X0|X0];
      [|destruct (Z.leb_spec (width c) (fst p)) as [X1|X1];
        [|destruct (Z.ltb_spec (snd p) 0) as [Y0|Y0];
          [|destruct (Z.leb_spec (height c) (snd p)) as [Y1|Y1]]]].
    5: { (* the point is visible *)
      assert (V : visible c (fst p) (snd p)) by (unfold visible; lia).
      rewrite (set_cell_on c1 _ _ ch Hin1 (proj2 (Hvis _ _) V)), Hpen.
      cbn [back_buffer set_back_buffer].
      assert (Hlt : (cell_index (fst p) (snd p) < length (back_buffer c1))%nat)
        by (rewrite L; apply visible_in_range; assumption).
      split.
      { etransitivity; [|apply set_back_buffer_twice].
        f_equal. exact E. }
      split; [rewrite length_insert; exact L|].
      split.
      - intros q Hq Vq.
        destruct (Nat.eq_dec (cell_index (fst p) (snd p))
                    (cell_index (fst q) (snd q))) as [Eq|Ne].
        + rewrite <- Eq. apply list_lookup_insert_eq. exact Hlt.
        + rewrite list_lookup_insert_ne by exact Ne.
          apply in_app_or in Hq. destruct Hq as [Hq|[<-|[]]];
            [apply A; assumption|congruence].
      - intros j Hj. rewrite list_lookup_insert_ne.
        + apply B. intros q Hq. apply Hj. apply in_or_app. left. exact Hq.
        + apply Hj; [apply in_or_app; right; left; reflexivity|exact V]. }
    all: assert (NV : ~ visible c (fst p) (snd p)) by (unfold visible; lia);
      rewrite (set_cell_off c1 _ _ ch
                 (or_intror (fun v => NV (proj1 (Hvis _ _) v))));
      (split; [exact E|]); (split; [exact L|]); split;
      [ intros q Hq Vq; apply in_app_or in Hq;
        destruct Hq as [Hq|[<-|[]]]; [apply A; assumption|contradiction]
      | intros j Hj; apply B; intros q Hq; apply Hj, in_or_app; left;
        exact Hq ].
Qed.

Lemma foldl_grid {A} (f : A -> Z -> Z -> A) (gx gy : Z -> Z) xs ys :
  forall a,
  foldl (fun a j => foldl (fun a i => f a (gx i) (gy j)) a xs) a ys
  = foldl (fun a p => f a (fst p) (snd p)) a (grid (map gx xs) (map gy ys)).
Proof.
  unfold grid. induction ys as [|y ys IH]; intros a; [reflexivity|].
  cbn [foldl flat_map map]. rewrite foldl_app, IH. f_equal.
  clear IH. revert a. induction xs as [|x xs IHx]; intros a; [reflexivity|].
  cbn [foldl map fst snd]. apply IHx.
Qed.

Lemma in_grid xs ys p : In p (grid xs ys) <-> In (fst p) xs /\ In (snd p) ys.
Proof.
  unfold grid. rewrite in_flat_map. split.
  - intros (y & Hy & Hp). apply in_map_iff in Hp.
    destruct Hp as (x & <- & Hx). auto.
  - intros [Hx Hy]. exists (snd p). split; [exact Hy|].
    apply in_map_iff. exists (fst p). split; [destruct p; reflexivity|exact Hx].
Qed.

Lemma in_seqZ m n k : In k (seqZ m n) <-> m <= k < m + n.
Proof. rewrite <- list_elem_of_In. apply elem_of_seqZ. Qed.

Lemma fill_is_set_cells c x y w h ch :
  in_frame c = true ->
  ctx_fill c x y w h ch
  = set_cells c (grid (map (Z.add x) (seqZ 0 w)) (map (Z.add y) (seqZ 0 h))) ch.
Proof.
  intros Hin. unfold ctx_fill, set_cells. rewrite Hin. cbn [negb].
  exact (foldl_grid (fun c a b => ctx_set_cell c a b ch) (Z.add x) (Z.add y)
           (seqZ 0 w) (seqZ 0 h) c).
Qed.

Lemma in_offsets x n k : In k (map (Z.add x) (seqZ 0 n)) <-> x <= k < x + n.
Proof.
  rewrite in_map_iff. split.
  - intros (i & <- & Hi). apply in_seqZ in Hi. lia.
  - intros H. exists (k - x). split; [lia|]. apply in_seqZ. lia.
Qed.

Lemma in_rect_spec x y w h px py :
  in_rect x y w h px py = true <-> x <= px < x + w /\ y <= py < y + h.
Proof.
  unfold in_rect. rewrite !andb_true_iff, !Z.leb_le, !Z.ltb_lt. lia.
Qed.

(** The picture a rectangle of [tui_set_cell] calls leaves. *)
Lemma rect_spec c x y w h ch :
  ctx_wf c -> in_frame c = true ->
  let c' :=
    set_cells c (grid (map (Z.add x) (seqZ 0 w)) (map (Z.add y) (seqZ 0 h)))
              ch in
  (forall px py, visible c px py ->
     back_buffer c' !! cell_index px py
     = if in_rect x y w h px py then Some (pen_cell c ch)
       else back_buffer c !! cell_index px py)
  /\ (forall j, (forall px py, visible c px py -> cell_index px py <> j) ->
        back_buffer c' !! j = back_buffer c !! j)
  /\ c' = set_back_buffer (back_buffer c') c.
Proof.
  intros Hwf Hin c'. subst c'.
  destruct (set_cells_spec ch c Hwf Hin
              (grid (map (Z.add x) (seqZ 0 w)) (map (Z.add y) (seqZ 0 h))))
    as (E & _ & A & B).
  split; [|split; [|exact E]].
  - intros px py V. destruct (in_rect x y w h px py) eqn:R.
    + apply in_rect_spec in R.
      apply (A (px, py)); [|exact V].
      apply in_grid. cbn [fst snd]. rewrite !in_offsets. exact R.
    + apply B. intros [qx qy] Hq Vq Eq. cbn [fst snd] in *.
      apply in_grid in Hq. cbn [fst snd] in Hq. rewrite !in_offsets in Hq.
      destruct Hwf as [_ _ Hw _ _]. destruct V as [Vx Vy], Vq as [Qx Qy].
      destruct (cell_index_inj qx qy px py) as [-> ->]; try lia.
      apply in_rect_spec in Hq. congruence.
  - intros j Hj. apply B. intros [qx qy] _ Vq. apply Hj. exact Vq.
Qed.

(** X13.  In a frame, [tui_fill] stores the code point with the current
    pen in every cell of the rectangle that lies in the visible area, and
    changes no other cell and nothing else of the context: the part of the
    rectangle off the screen is cut off, and a width or height of zero or
    less paints nothing. *)
Theorem fill_paints_rectangle c x y w h ch :
  ctx_wf c -> in_frame c = true ->
  (forall px py, visible c px py ->
     back_buffer (ctx_fill c x y w h ch) !! cell_index px py
     = if in_rect x y w h px py then Some (pen_cell c ch)
       else back_buffer c !! cell_index px py)
  /\ (forall j, (forall px py, visible c px py -> cell_index px py <> j) ->
        back_buffer (ctx_fill c x y w h ch) !! j = back_buffer c !! j)
  /\ ctx_fill c x y w h ch
     = set_back_buffer (back_buffer (ctx_fill c x y w h ch)) c.
Proof.
  intros Hwf Hin. rewrite (fill_is_set_cells c x y w h ch Hin).
  exact (rect_spec c x y w h ch Hwf Hin).
Qed.

Lemma fill_paints_rectangle_witness :
  ctx_wf (set_in_frame true (example_ctx 80 24 false))
  /\ back_cell (ctx_fill (set_in_frame true (example_ctx 80 24 false))
                  78 (-1) 5 3 (chr "x")) 79 1
     = Some (plain_cell "x")
  /\ back_cell (ctx_fill (set_in_frame true (example_ctx 80 24 false))
                  78 (-1) 5 3 (chr "x")) 79 2
     = back_cell (set_in_frame true (example_ctx 80 24 false)) 79 2.
Proof.
  assert (W : ctx_wf (set_in_frame true (example_ctx 80 24 false))).
  { apply set_in_frame_wf, example_ctx_wf;
      unfold TUI_MAX_WIDTH, TUI_MAX_HEIGHT; lia. }
  split; [exact W|].
  assert (V : forall py, 0 <= py < 24 ->
            visible (set_in_frame true (example_ctx 80 24 false)) 79 py).
  { intros py Hpy. unfold visible.
    cbn [set_in_frame example_ctx width height]. lia. }
  pose proof (proj1 (fill_paints_rectangle _ 78 (-1) 5 3 (chr "x") W eq_refl))
    as P.
  split.
  - exact (P 79 1 (V 1 ltac:(lia))).
  - exact (P 79 2 (V 2 ltac:(lia))).
Defined.

Lemma hline_is_rect c x y len ch :
  in_frame c = true ->
  ctx_hline c x y len ch
  = set_cells c (grid (map (Z.add x) (seqZ 0 len)) (map (Z.add y) (seqZ 0 1)))
              ch.
Proof.
  intros Hin. unfold ctx_hline, set_cells, grid. rewrite Hin. cbn [negb].
  change (seqZ 0 1) with [0]. cbn [map flat_map]. rewrite app_nil_r.
  rewrite Z.add_0_r. generalize (seqZ 0 len) as xs. intros xs. revert c Hin.
  induction xs as [|i xs IH]; intros c Hin; [reflexivity|].
  cbn [foldl map fst snd]. apply IH.
  rewrite (dw_frame _ _ (set_cell_keeps c (x + i) y ch)). exact Hin.
Qed.

Lemma vline_is_rect c x y len ch :
  in_frame c = true ->
  ctx_vline c x y len ch
  = set_cells c (grid (map (Z.add x) (seqZ 0 1)) (map (Z.add y) (seqZ 0 len)))
              ch.
Proof.
  intros Hin. unfold ctx_vline, set_cells, grid. rewrite Hin. cbn [negb].
  change (seqZ 0 1) with [0]. cbn [map]. rewrite Z.add_0_r.
  generalize (seqZ 0 len) as ys. intros ys. revert c Hin.
  induction ys as [|j ys IH]; intros c Hin; [reflexivity|].
  cbn [foldl map flat_map app fst snd]. apply IH.
  rewrite (dw_frame _ _ (set_cell_keeps c x (y + j) ch)). exact Hin.
Qed.

(** X14.  In a frame, [tui_hline] paints the cells of row [y] from column
    [x] on, [len] of them, and [tui_vline] the cells of column [x] from
    row [y] on, as far as they are visible; no other visible cell changes.
    A line that starts left of or above the screen is painted from the
    edge on, not shifted. *)
Theorem lines_paint_segments c x y len ch px py :
  ctx_wf c -> in_frame c = true -> visible c px py ->
  back_buffer (ctx_hline c x y len ch) !! cell_index px py
  = (if (py =? y) && (x <=? px) && (px <? x + len)
     then Some (pen_cell c ch) else back_buffer c !! cell_index px py)
  /\ back_buffer (ctx_vline c x y len ch) !! cell_index px py
     = (if (px =? x) && (y <=? py) && (py <? y + len)
        then Some (pen_cell c ch) else back_buffer c !! cell_index px py).
Proof.
  intros Hwf Hin V. split.
  - rewrite (hline_is_rect c x y len ch Hin).
    rewrite (proj1 (rect_spec c x y len 1 ch Hwf Hin) px py V).
    unfold in_rect.
    destruct (Z.eqb_spec py y), (Z.leb_spec x px), (Z.ltb_spec px (x + len)),
      (Z.leb_spec y py), (Z.ltb_spec py (y + 1)); cbn [andb];
      try reflexivity; lia.
  - rewrite (vline_is_rect c x y len ch Hin).
    rewrite (proj1 (rect_spec c x y 1 len ch Hwf Hin) px py V).
    unfold in_rect.
    destruct (Z.eqb_spec px x), (Z.leb_spec x px), (Z.ltb_spec px (x + 1)),
      (Z.leb_spec y py), (Z.ltb_spec py (y + len)); cbn [andb];
      try reflexivity; lia.
Qed.

Lemma lines_paint_segments_witness :
  ctx_wf (set_in_frame true (example_ctx 80 24 false))
  /\ back_cell (ctx_hline (set_in_frame true (example_ctx 80 24 false))
                  (-2) 1 4 (chr "x")) 0 1
     = Some (plain_cell "x")
  /\ back_cell (ctx_hline (set_in_frame true (example_ctx 80 24 false))
                  (-2) 1 4 (chr "x")) 2 1
     = back_cell (set_in_frame true (example_ctx 80 24 false)) 2 1.
Proof.
  assert (W : ctx_wf (set_in_frame true (example_ctx 80 24 false))).
  { apply set_in_frame_wf, example_ctx_wf;
      unfold TUI_MAX_WIDTH, TUI_MAX_HEIGHT; lia. }
  split; [exact W|].
  assert (V : forall px, 0 <= px < 80 ->
            visible (set_in_frame true (example_ctx 80 24 false)) px 1).
  { intros px Hpx. unfold visible.
    cbn [set_in_frame example_ctx width height]. lia. }
  split.
  - exact (proj1 (lines_paint_segments _ (-2) 1 4 (chr "x") 0 1 W eq_refl
                    (V 0 ltac:(lia)))).
  - exact (proj1 (lines_paint_segments _ (-2) 1 4 (chr "x") 2 1 W eq_refl
                    (V 2 ltac:(lia)))).
Defined.

Lemma clear_rows_width ys : forall c W,
  width c = W ->
  foldl (fun c y => foldl (fun c x => ctx_set_cell c x y 32) c
                          (seqZ 0 (width c))) c ys
  = foldl (fun c y => foldl (fun c x => ctx_set_cell c x y 32) c (seqZ 0 W))
          c ys.
Proof.
  induction ys as [|y ys IH]; intros c W HW; [reflexivity|].
  cbn [foldl]. rewrite HW. apply IH.
  rewrite (dw_width _ _ (draw_keeps_foldl
                           (fun c x => ctx_set_cell c x y 32) (seqZ 0 W)
                           (fun c a => set_cell_keeps c a y 32) c)).
  exact HW.
Qed.

Lemma clear_is_rect c :
  in_frame c = true ->
  ctx_clear c
  = set_cells c (grid (map (Z.add 0) (seqZ 0 (width c)))
                      (map (Z.add 0) (seqZ 0 (height c)))) 32.
Proof.
  intros Hin. unfold ctx_clear, set_cells. rewrite Hin. cbn [negb].
  rewrite (clear_rows_width (seqZ 0 (height c)) c (width c) eq_refl).
  exact (foldl_grid (fun c a b => ctx_set_cell c a b 32) (Z.add 0) (Z.add 0)
           (seqZ 0 (width c)) (seqZ 0 (height c)) c).
Qed.

(** X15.  In a frame, [tui_clear] leaves a space with the current pen,
    that is with the current colours and style and not with the default
    ones, in every cell of the visible area; the cells of the buffer
    outside the visible area and the rest of the context stay as they
    are. *)
Theorem clear_paints_the_screen c :
  ctx_wf c -> in_frame c = true ->
  (forall px py, visible c px py ->
     back_buffer (ctx_clear c) !! cell_index px py = Some (pen_cell c 32))
  /\ (forall j, (forall px py, visible c px py -> cell_index px py <> j) ->
        back_buffer (ctx_clear c) !! j = back_buffer c !! j)
  /\ ctx_clear c = set_back_buffer (back_buffer (ctx_clear c)) c.
Proof.
  intros Hwf Hin. rewrite (clear_is_rect c Hin).
  destruct (rect_spec c 0 0 (width c) (height c) 32 Hwf Hin) as (A & B & E).
  split; [|split; [exact B|exact E]].
  intros px py V. rewrite (A px py V).
  replace (in_rect 0 0 (width c) (height c) px py) with true; [reflexivity|].
  symmetry. apply in_rect_spec. destruct V. lia.
Qed.

Lemma set_current_bg_wf c v : ctx_wf c -> ctx_wf (set_current_bg v c).
Proof. intros [A B C D E]. split; assumption. Qed.

Lemma clear_paints_the_screen_witness :
  ctx_wf (set_current_bg TUI_COLOR_RED
            (set_in_frame true (example_ctx 80 24 false)))
  /\ back_cell (ctx_clear (set_current_bg TUI_COLOR_RED
                  (set_in_frame true (example_ctx 80 24 false)))) 79 23
     = Some (mk_cell 32 TUI_COLOR_DEFAULT TUI_COLOR_RED TUI_COLOR_DEFAULT
                     TUI_STYLE_NONE).
Proof.
  assert (W : ctx_wf (set_current_bg TUI_COLOR_RED
                        (set_in_frame true (example_ctx 80 24 false)))).
  { apply set_current_bg_wf, set_in_frame_wf, example_ctx_wf;
      unfold TUI_MAX_WIDTH, TUI_MAX_HEIGHT; lia. }
  split; [exact W|].
  assert (V : visible (set_current_bg TUI_COLOR_RED
                         (set_in_frame true (example_ctx 80 24 false))) 79 23).
  { unfold visible. cbn [set_current_bg set_in_frame example_ctx width height].
    lia. }
  exact (proj1 (clear_paints_the_screen _ W eq_refl) 79 23 V).
Defined.


(** ** The start of a frame *)

Lemma inserts_length (v : tui_cell) pts : forall buf,
  length (foldl (fun b p => <[cell_index (fst p) (snd p) := v]> b) buf pts)
  = length buf.
Proof.
  induction pts as [|p pts IH]; intros buf; [reflexivity|].
  cbn [foldl]. rewrite IH. apply length_insert.
Qed.

Lemma inserts_lookup (v : tui_cell) buf pts : forall p,
  In p pts -> (cell_index (fst p) (snd p) < length buf)%nat ->
  foldl (fun b p => <[cell_index (fst p) (snd p) := v]> b) buf pts
    !! cell_index (fst p) (snd p) = Some v.
Proof.
  induction pts as [|q pts IH] using rev_ind; intros p Hp Hlt; [destruct Hp|].
  rewrite foldl_app. cbn [foldl].
  destruct (Nat.eq_dec (cell_index (fst q) (snd q))
              (cell_index (fst p) (snd p))) as [E|Ne].
  - rewrite E. apply list_lookup_insert_eq. rewrite inserts_length. exact Hlt.
  - rewrite list_lookup_insert_ne by exact Ne.
    apply in_app_or in Hp. destruct Hp as [Hp|[<-|[]]];
      [apply IH; assumption|congruence].
Qed.

Lemma clear_buffer_is_inserts buf w h :
  tui_clear_buffer buf w h
  = foldl (fun b p => <[cell_index (fst p) (snd p) := tui_make_empty_cell]> b)
          buf (grid (map (Z.add 0) (seqZ 0 w)) (map (Z.add 0) (seqZ 0 h))).
Proof.
  unfold tui_clear_buffer.
  exact (foldl_grid (fun b x y => <[cell_index x y := tui_make_empty_cell]> b)
           (Z.add 0) (Z.add 0) (seqZ 0 w) (seqZ 0 h) buf).
Qed.

(** [tui_clear_buffer] blanks the cells of its rectangle. *)
Lemma clear_buffer_lookup buf w h x y :
  0 <= x < w -> 0 <= y < h -> (cell_index x y < length buf)%nat ->
  tui_clear_buffer buf w h !! cell_index x y = Some tui_make_empty_cell.
Proof.
  intros Hx Hy Hlt. rewrite clear_buffer_is_inserts.
  apply (inserts_lookup tui_make_empty_cell buf _ (x, y)); [|exact Hlt].
  apply in_grid. cbn [fst snd]. rewrite !in_offsets. lia.
Qed.

Lemma clear_buffer_whole buf :
  length buf = Z.to_nat (TUI_MAX_WIDTH * TUI_MAX_HEIGHT) ->
  tui_clear_buffer buf TUI_MAX_WIDTH TUI_MAX_HEIGHT
  = replicate (Z.to_nat (TUI_MAX_WIDTH * TUI_MAX_HEIGHT)) tui_make_empty_cell.
Proof.
  assert (Hn : Z.of_nat (Z.to_nat (TUI_MAX_WIDTH * TUI_MAX_HEIGHT))
               = TUI_MAX_WIDTH * TUI_MAX_HEIGHT)
    by (unfold TUI_MAX_WIDTH, TUI_MAX_HEIGHT; lia).
  revert Hn. generalize (Z.to_nat (TUI_MAX_WIDTH * TUI_MAX_HEIGHT)) as n.
  intros n Hn Hlen. apply list_eq. intros j.
  destruct (Nat.lt_ge_cases j n) as [Hlt|Hge].
  - rewrite (lookup_replicate_2 n tui_make_empty_cell j Hlt).
    assert (Ej : j = cell_index (Z.of_nat j mod TUI_MAX_WIDTH)
                                (Z.of_nat j / TUI_MAX_WIDTH)).
    { unfold cell_index, TUI_MAX_WIDTH. Z.div_mod_to_equations. lia. }
    rewrite Ej. apply clear_buffer_lookup.
    + unfold TUI_MAX_WIDTH. Z.div_mod_to_equations. lia.
    + unfold TUI_MAX_WIDTH, TUI_MAX_HEIGHT in *. Z.div_mod_to_equations. lia.
    + rewrite <- Ej, Hlen. exact Hlt.
  - rewrite (proj1 (lookup_replicate_None n tui_make_empty_cell j) Hge).
    apply lookup_ge_None. rewrite clear_buffer_length, Hlen. exact Hge.
Qed.

(** X16.  On an initialized context [tui_begin_frame] opens a frame on a
    back buffer that is blank in each of its 512 x 256 cells, with the
    default foreground, background and style but with the underline colour
    of the frame before, which it does not reset; it leaves the front
    buffer alone and writes nothing to the terminal.  On a context that is
    not initialized it does nothing. *)
Theorem begin_frame_starts_blank c ws :
  ctx_wf c ->
  (initialized c = true ->
   back_buffer (ctx_begin_frame c ws)
   = replicate (Z.to_nat (TUI_MAX_WIDTH * TUI_MAX_HEIGHT)) tui_make_empty_cell
   /\ in_frame (ctx_begin_frame c ws) = true
   /\ current_fg (ctx_begin_frame c ws) = TUI_COLOR_DEFAULT
   /\ current_bg (ctx_begin_frame c ws) = TUI_COLOR_DEFAULT
   /\ current_style (ctx_begin_frame c ws) = TUI_STYLE_NONE
   /\ current_underline_color (ctx_begin_frame c ws)
      = current_underline_color c
   /\ front_buffer (ctx_begin_frame c ws) = front_buffer c
   /\ tty_out (ctx_begin_frame c ws) = tty_out c
   /\ output_buffer (ctx_begin_frame c ws) = output_buffer c)
  /\ (initialized c = false -> ctx_begin_frame c ws = c).
Proof.
  intros [Hf Hb Hw Hh Ho]. split; intros Hi; unfold ctx_begin_frame;
    rewrite Hi; cbn [negb]; [|reflexivity].
  destruct (get_terminal_size_shape c ws) as (w & h & -> & _ & _).
  ctx_simpl. split; [apply clear_buffer_whole; exact Hb|].
  repeat split.
Qed.

Lemma begin_frame_starts_blank_witness :
  ctx_wf (set_in_frame false (example_ctx 80 24 false))
  /\ in_frame (ctx_begin_frame (set_in_frame false (example_ctx 80 24 false))
                 (Some (100, 30))) = true.
Proof.
  assert (W : ctx_wf (set_in_frame false (example_ctx 80 24 false))).
  { apply set_in_frame_wf, example_ctx_wf;
      unfold TUI_MAX_WIDTH, TUI_MAX_HEIGHT; lia. }
  split; [exact W|].
  exact (proj1 (proj2 (proj1 (begin_frame_starts_blank _ (Some (100, 30)) W)
                         eq_refl))).
Defined.

(** ** The output of a frame *)

Lemma grows_refl c : grows c c.
Proof. intros H. split; [exact H|]. exists []. rewrite app_nil_r. reflexivity. Qed.

Lemma grows_trans c1 c2 c3 : grows c1 c2 -> grows c2 c3 -> grows c1 c3.
Proof.
  intros H12 H23 H. destruct (H12 H) as (P2 & d2 & E2).
  destruct (H23 P2) as (P3 & d3 & E3). split; [exact P3|].
  exists (d2 ++ d3). rewrite E3, E2, app_assoc. reflexivity.
Qed.

Lemma write_grows c data : grows c (tui_output_write c data).
Proof.
  intros H. destruct (write_appends c data H) as (_ & E & P).
  split; [exact P|]. exists data. exact E.
Qed.

Lemma set_front_grows c c' b : grows c c' -> grows c (set_front_buffer b c').
Proof. intros H. exact H. Qed.

Ltac solve_grows :=
  repeat match goal with
         | |- grows _ (tui_output_write _ _) =>
           eapply grows_trans; [|apply write_grows]
         | |- grows _ (tui_output_str _ _) =>
           eapply grows_trans; [|apply write_grows]
         | |- grows _ (tui_output_int _ _) =>
           eapply grows_trans; [|apply write_grows]
         | |- grows _ (if ?b then _ else _) => destruct b
         end;
  apply grows_refl.

Lemma move_cursor_grows c x y : grows c (tui_ansi_move_cursor c x y).
Proof. unfold tui_ansi_move_cursor. cbv zeta. solve_grows. Qed.

Lemma set_fg_grows c color : grows c (tui_ansi_set_fg c color).
Proof. unfold tui_ansi_set_fg. cbv zeta. solve_grows. Qed.

Lemma set_bg_grows c color : grows c (tui_ansi_set_bg c color).
Proof. unfold tui_ansi_set_bg. cbv zeta. solve_grows. Qed.

Lemma set_underline_color_grows c color :
  grows c (tui_ansi_set_underline_color c color).
Proof. unfold tui_ansi_set_underline_color. cbv zeta. solve_grows. Qed.

Lemma set_style_grows c s : grows c (tui_ansi_set_style c s).
Proof.
  unfold tui_ansi_set_style. cbv zeta.
  repeat match goal with
         | |- context [if style_has ?a ?b then _ else _] =>
           destruct (style_has a b)
         end; solve_grows.
Qed.

Lemma reset_grows c : grows c (tui_ansi_reset c).
Proof. apply write_grows. Qed.

Lemma diff_cell_grows st x y :
  grows (ds_ctx st) (ds_ctx (diff_cell st x y))
  /\ needs_redraw (ds_ctx (diff_cell st x y)) = needs_redraw (ds_ctx st).
Proof.
  unfold diff_cell.
  destruct (front_buffer (ds_ctx st) !! cell_index x y) as [f|];
    [|split; [apply grows_refl|reflexivity]].
  destruct (back_buffer (ds_ctx st) !! cell_index x y) as [b|];
    [|split; [apply grows_refl|reflexivity]].
  destruct (tui_cell_equal f b); [split; [apply grows_refl|reflexivity]|].
  cbv zeta. cbn [ds_ctx].
  match goal with
  | |- grows _ (set_front_buffer _ ?C) /\ _ =>
    assert (Ho : out_only (ds_ctx st) C) by solve_out_only;
    assert (Hg : grows (ds_ctx st) C)
  end.
  { eapply grows_trans; [|apply write_grows].
    repeat match goal with
           | |- grows _ (if ?b then _ else _) => destruct b
           | |- grows _ (tui_ansi_set_underline_color _ _) =>
             eapply grows_trans; [|apply set_underline_color_grows]
           | |- grows _ (tui_ansi_set_bg _ _) =>
             eapply grows_trans; [|apply set_bg_grows]
           | |- grows _ (tui_ansi_set_fg _ _) =>
             eapply grows_trans; [|apply set_fg_grows]
           | |- grows _ (tui_ansi_set_style _ _) =>
             eapply grows_trans; [|apply set_style_grows]
           | |- grows _ (tui_ansi_reset _) =>
             eapply grows_trans; [|apply reset_grows]
           | |- grows _ (tui_ansi_move_cursor _ _ _) =>
             eapply grows_trans; [|apply move_cursor_grows]
           end; apply grows_refl. }
  split; [apply set_front_grows; exact Hg|].
  destruct (out_only_flags _ _ Ho) as (_ & _ & Hn). exact Hn.
Qed.

Lemma diff_fold_grows y xs : forall st,
  grows (ds_ctx st) (ds_ctx (foldl (fun st x => diff_cell st x y) st xs))
  /\ needs_redraw (ds_ctx (foldl (fun st x => diff_cell st x y) st xs))
     = needs_redraw (ds_ctx st).
Proof.
  induction xs as [|x xs IH]; intros st; cbn [foldl].
  - split; [apply grows_refl|reflexivity].
  - destruct (IH (diff_cell st x y)) as [G N].
    destruct (diff_cell_grows st x y) as [G1 N1].
    split; [eapply grows_trans; eassumption|congruence].
Qed.

Lemma diff_rows_grows ys : forall st,
  grows (ds_ctx st) (ds_ctx (foldl diff_row st ys))
  /\ needs_redraw (ds_ctx (foldl diff_row st ys)) = needs_redraw (ds_ctx st).
Proof.
  induction ys as [|y ys IH]; intros st; cbn [foldl].
  - split; [apply grows_refl|reflexivity].
  - destruct (IH (diff_row st y)) as [G N].
    destruct (diff_fold_grows y (seqZ 0 (width (ds_ctx st))) st) as [G1 N1].
    split; [eapply grows_trans; [exact G1|exact G]|].
    rewrite N. exact N1.
Qed.

Lemma redraw_prologue_emitted c :
  output_pos c <= TUI_OUTPUT_BUFFER_SIZE ->
  emitted (redraw_prologue c) = emitted c ++ redraw_bytes c
  /\ output_pos (redraw_prologue c) <= TUI_OUTPUT_BUFFER_SIZE
  /\ needs_redraw (redraw_prologue c) = false.
Proof.
  intros H. unfold redraw_prologue, redraw_bytes.
  destruct (needs_redraw c) eqn:Hn;
    [|rewrite app_nil_r; split; [reflexivity|split; [exact H|exact Hn]]].
  unfold hard_clear, tui_output_str.
  assert (H0 : output_pos (set_needs_redraw false c) <= TUI_OUTPUT_BUFFER_SIZE)
    by exact H.
  pose proof (write_appends _ (ESC :: bytes "[0m") H0) as A1.
  pose proof (write_appends _ (ESC :: bytes "[2J") (appends_pos _ _ _ A1)) as A2.
  pose proof (write_appends _ (ESC :: bytes "[H") (appends_pos _ _ _ A2)) as A3.
  pose proof (flush_appends
                (tui_output_write
                   (tui_output_write
                      (tui_output_write (set_needs_redraw false c)
                         (ESC :: bytes "[0m")) (ESC :: bytes "[2J"))
                   (ESC :: bytes "[H"))) as A4.
  pose proof (appends_trans _ _ _ _ _ A1
                (appends_trans _ _ _ _ _ A2
                   (appends_trans _ _ _ _ _ A3 A4))) as (O & E & P).
  revert O E P.
  generalize (tui_output_flush
                (tui_output_write
                   (tui_output_write
                      (tui_output_write (set_needs_redraw false c)
                         (ESC :: bytes "[0m")) (ESC :: bytes "[2J"))
                   (ESC :: bytes "[H"))) as X.
  intros X O E P. rewrite app_nil_r in E.
  split; [exact E|]. split; [exact P|].
  cbn [needs_redraw set_front_buffer].
  destruct (out_only_flags _ _ O) as (_ & _ & ->). reflexivity.
Qed.

Lemma frame_epilogue_flushed c :
  output_buffer (frame_epilogue c) = []
  /\ needs_redraw (frame_epilogue c) = needs_redraw c.
Proof.
  unfold frame_epilogue.
  assert (Hx : out_only c (tui_output_flush (tui_ansi_end_sync (place_cursor c)))).
  { eapply out_only_trans; [apply place_cursor_out_only|]. solve_out_only. }
  pose proof (flush_empties (tui_ansi_end_sync (place_cursor c))) as Hf.
  destruct (out_only_flags _ _ Hx) as (_ & _ & Hn). clear Hx.
  revert Hf Hn.
  generalize (tui_output_flush (tui_ansi_end_sync (place_cursor c))) as X.
  intros X Hf Hn. split; [exact Hf|exact Hn].
Qed.

Lemma diff_loop_grows c :
  grows c (ds_ctx (diff_loop (diff_start c)))
  /\ needs_redraw (ds_ctx (diff_loop (diff_start c))) = needs_redraw c
  /\ cursor_bytes (ds_ctx (diff_loop (diff_start c))) = cursor_bytes c.
Proof.
  destruct (diff_rows_grows (seqZ 0 (height (ds_ctx (diff_start c))))
              (diff_start c)) as [G N].
  destruct (diff_loop_keeps (diff_start c)) as [_ _ _ _ (Kv & Kx & Ky) _ _].
  split; [exact G|]. split; [exact N|].
  unfold cursor_bytes. rewrite Kv, Kx, Ky. reflexivity.
Qed.

Lemma begin_sync_emitted c :
  output_pos c <= TUI_OUTPUT_BUFFER_SIZE ->
  emitted (tui_ansi_begin_sync c) = emitted c ++ BEGIN_SYNC
  /\ output_pos (tui_ansi_begin_sync c) <= TUI_OUTPUT_BUFFER_SIZE
  /\ needs_redraw (tui_ansi_begin_sync c) = needs_redraw c
  /\ cursor_bytes (tui_ansi_begin_sync c) = cursor_bytes c.
Proof.
  intros H. destruct (begin_sync_appends c H) as (O & E & P).
  split; [exact E|]. split; [exact P|].
  destruct (out_only_flags _ _ O) as (_ & _ & N). split; [exact N|].
  unfold cursor_bytes. destruct (out_only_cursor _ _ O) as (-> & -> & ->).
  reflexivity.
Qed.

Lemma redraw_prologue_cursor c :
  cursor_bytes (redraw_prologue c) = cursor_bytes c.
Proof.
  destruct (redraw_prologue_keeps c) as (_ & _ & _ & _ & _ & Cv & Cx & Cy).
  unfold cursor_bytes. rewrite Cv, Cx, Cy. reflexivity.
Qed.

(** The output of the four blocks of [tui_end_frame], put together. *)
Lemma frame_output_chain c c1 c2 c3 c4 body :
  emitted c1 = emitted c ++ redraw_bytes c ->
  emitted c2 = emitted c1 ++ BEGIN_SYNC ->
  emitted c3 = emitted c2 ++ body ->
  emitted c4 = emitted c3 ++ cursor_bytes c3 ++ END_SYNC ->
  cursor_bytes c3 = cursor_bytes c ->
  output_buffer c4 = [] ->
  tty_out c4
  = emitted c ++ redraw_bytes c ++ BEGIN_SYNC ++ body ++ cursor_bytes c
      ++ END_SYNC.
Proof.
  intros E1 E2 E3 E4 Hc F. unfold emitted in E4 at 1.
  rewrite F, app_nil_r in E4. rewrite E4, E3, E2, E1, Hc, <- !app_assoc.
  reflexivity.
Qed.

Lemma end_frame_off c :
  initialized c = false \/ in_frame c = false -> ctx_end_frame c = c.
Proof.
  unfold ctx_end_frame. intros [->| ->]; [reflexivity|].
  destruct (initialized c); reflexivity.
Qed.

(** ** The bytes of a frame *)

Lemma appends_step c1 c2 c3 d1 d2 :
  appends c1 c2 d1 ->
  (output_pos c2 <= TUI_OUTPUT_BUFFER_SIZE -> appends c2 c3 d2) ->
  appends c1 c3 (d1 ++ d2).
Proof.
  intros A1 A2. eapply appends_trans; [exact A1|].
  apply A2. exact (appends_pos _ _ _ A1).
Qed.

Lemma appends_if (b : bool) c c' d :
  output_pos c <= TUI_OUTPUT_BUFFER_SIZE ->
  appends c c' d -> appends c (if b then c' else c) (if b then d else []).
Proof. intros H A. destruct b; [exact A|apply appends_nil; exact H]. Qed.

Lemma flag_appends style flag code c :
  output_pos c <= TUI_OUTPUT_BUFFER_SIZE ->
  appends c (if style_has style flag
             then tui_output_str c (ESC :: bytes code) else c)
          (flag_bytes style flag code).
Proof.
  intros H. unfold flag_bytes. apply appends_if; [exact H|].
  apply write_appends. exact H.
Qed.

Lemma set_style_appends c s :
  output_pos c <= TUI_OUTPUT_BUFFER_SIZE ->
  appends c (tui_ansi_set_style c s) (style_bytes s).
Proof.
  intros H. unfold tui_ansi_set_style, style_bytes. cbv zeta.
  do 7 (eapply appends_step; [apply flag_appends; assumption|intros ?]).
  apply flag_appends. assumption.
Qed.

Lemma rgb_appends select default color c :
  output_pos c <= TUI_OUTPUT_BUFFER_SIZE ->
  appends c
    (if negb (Z.land color 0x80000000 =? 0) then
       tui_output_str c (ESC :: bytes default)
     else
       tui_output_str
         (tui_output_int
            (tui_output_str
               (tui_output_int
                  (tui_output_str
                     (tui_output_int
                        (tui_output_str c (ESC :: bytes select))
                        (Z.land (Z.shiftr color 16) 0xFF))
                     (bytes ";"))
                  (Z.land (Z.shiftr color 8) 0xFF))
               (bytes ";"))
            (Z.land color 0xFF))
         (bytes "m"))
    (rgb_bytes select default color).
Proof.
  intros H. unfold rgb_bytes, tui_output_int, tui_output_str.
  destruct (negb (Z.land color 0x80000000 =? 0)).
  - apply write_appends. exact H.
  - do 6 (eapply appends_step; [apply write_appends; assumption|intros ?]).
    apply write_appends. assumption.
Qed.

Lemma set_fg_appends c color :
  output_pos c <= TUI_OUTPUT_BUFFER_SIZE ->
  appends c (tui_ansi_set_fg c color) (rgb_bytes "[38;2;" "[39m" color).
Proof. exact (rgb_appends "[38;2;" "[39m" color c). Qed.

Lemma set_bg_appends c color :
  output_pos c <= TUI_OUTPUT_BUFFER_SIZE ->
  appends c (tui_ansi_set_bg c color) (rgb_bytes "[48;2;" "[49m" color).
Proof. exact (rgb_appends "[48;2;" "[49m" color c). Qed.

Lemma set_underline_color_appends c color :
  output_pos c <= TUI_OUTPUT_BUFFER_SIZE ->
  appends c (tui_ansi_set_underline_color c color)
          (rgb_bytes "[58;2;" "[59m" color).
Proof.
  intros H. unfold tui_ansi_set_underline_color, rgb_bytes. cbv zeta.
  destruct (negb (Z.land color 0x80000000 =? 0)); apply write_appends; exact H.
Qed.

Lemma restyle_appends c s :
  output_pos c <= TUI_OUTPUT_BUFFER_SIZE ->
  appends c (tui_ansi_set_style (tui_ansi_reset c) s)
          ((ESC :: bytes "[0m") ++ style_bytes s).
Proof.
  intros H. eapply appends_step; [apply write_appends; exact H|].
  apply set_style_appends.
Qed.

Lemma eqb_sent (a b : Z) :
  (if negb (a =? b) then a else b) = a.
Proof. destruct (Z.eqb_spec a b); simpl; congruence. Qed.

(** One changed cell: its bytes are appended, the front buffer takes the
    cell, and the loop goes on from that cell. *)
Lemma diff_cell_changed c px py prev x y f b :
  output_pos c <= TUI_OUTPUT_BUFFER_SIZE ->
  front_buffer c !! cell_index x y = Some f ->
  back_buffer c !! cell_index x y = Some b ->
  tui_cell_equal f b = false ->
  exists c',
    diff_cell (diff_after c px py prev) x y
    = diff_after (set_front_buffer (<[cell_index x y := b]> (front_buffer c))
                                   c') x y b
    /\ appends c c' (cell_bytes px py prev x y b).
Proof.
  intros Hp Hf Hb Hne. unfold diff_cell, diff_after.
  cbn [ds_ctx last_x last_y last_fg last_bg last_underline_color last_style].
  rewrite Hf, Hb, Hne. cbv zeta.
  set (restyle := negb (style b =? style prev)).
  set (c1 := if negb (px =? x - 1) || negb (py =? y)
             then tui_ansi_move_cursor c x y else c).
  set (c2 := if restyle then tui_ansi_set_style (tui_ansi_reset c1) (style b)
             else c1).
  set (lfg := if restyle then 0xFFFFFFFF else fg prev).
  set (lbg := if restyle then 0xFFFFFFFF else bg prev).
  set (lul := if restyle then 0xFFFFFFFF else underline_color prev).
  set (c3 := if negb (fg b =? lfg) then tui_ansi_set_fg c2 (fg b) else c2).
  set (c4 := if negb (bg b =? lbg) then tui_ansi_set_bg c3 (bg b) else c3).
  set (c5 := if negb (underline_color b =? lul)
             then tui_ansi_set_underline_color c4 (underline_color b)
             else c4).
  set (c6 := tui_output_write c5 (tui_utf8_encode (codepoint b))).
  assert (A1 : appends c c1
                 (if (px =? x - 1) && (py =? y) then [] else move_bytes x y)).
  { subst c1. unfold move_bytes.
    destruct (px =? x - 1), (py =? y); cbn [negb orb andb];
      solve [apply appends_nil; exact Hp
            |apply move_cursor_appends; exact Hp]. }
  assert (A2 : output_pos c1 <= TUI_OUTPUT_BUFFER_SIZE ->
               appends c1 c2
                 (if restyle then (ESC :: bytes "[0m") ++ style_bytes (style b)
                  else [])).
  { intros H. subst c2. apply appends_if; [exact H|].
    apply restyle_appends. exact H. }
  assert (A3 : output_pos c2 <= TUI_OUTPUT_BUFFER_SIZE ->
               appends c2 c3
                 (if fg b =? lfg then []
                  else rgb_bytes "[38;2;" "[39m" (fg b))).
  { intros H. subst c3. destruct (fg b =? lfg); cbn [negb];
      [apply appends_nil|apply set_fg_appends]; exact H. }
  assert (A4 : output_pos c3 <= TUI_OUTPUT_BUFFER_SIZE ->
               appends c3 c4
                 (if bg b =? lbg then []
                  else rgb_bytes "[48;2;" "[49m" (bg b))).
  { intros H. subst c4. destruct (bg b =? lbg); cbn [negb];
      [apply appends_nil|apply set_bg_appends]; exact H. }
  assert (A5 : output_pos c4 <= TUI_OUTPUT_BUFFER_SIZE ->
               appends c4 c5
                 (if underline_color b =? lul then []
                  else rgb_bytes "[58;2;" "[59m" (underline_color b))).
  { intros H. subst c5. destruct (underline_color b =? lul); cbn [negb];
      [apply appends_nil|apply set_underline_color_appends]; exact H. }
  assert (A6 : output_pos c5 <= TUI_OUTPUT_BUFFER_SIZE ->
               appends c5 c6 (tui_utf8_encode (codepoint b))).
  { intros H. apply write_appends. exact H. }
  pose proof (appends_step _ _ _ _ _ A1
                (fun H => appends_step _ _ _ _ _ (A2 H)
                   (fun H => appends_step _ _ _ _ _ (A3 H)
                      (fun H => appends_step _ _ _ _ _ (A4 H)
                         (fun H => appends_step _ _ _ _ _ (A5 H) A6)))))
    as A.
  exists c6. split; [|exact A].
  destruct A as (O & _ & _).
  rewrite (out_only_front _ _ O).
  clearbody c6. clear. subst lfg lbg lul.
  f_equal.
  - destruct restyle; apply eqb_sent.
  - destruct restyle; apply eqb_sent.
  - destruct restyle; apply eqb_sent.
  - subst restyle. apply eqb_sent.
Qed.

Lemma diff_cell_same st x y :
  match front_buffer (ds_ctx st) !! cell_index x y,
        back_buffer (ds_ctx st) !! cell_index x y with
  | Some f, Some b => tui_cell_equal f b = true
  | _, _ => True
  end ->
  diff_cell st x y = st.
Proof.
  unfold diff_cell.
  destruct (front_buffer (ds_ctx st) !! cell_index x y) as [f|];
    [|reflexivity].
  destruct (back_buffer (ds_ctx st) !! cell_index x y) as [b|];
    [|reflexivity].
  intros ->. reflexivity.
Qed.

Lemma changed_cells_cons front back p pts :
  changed_cells front back (p :: pts)
  = match front !! cell_index (fst p) (snd p),
          back !! cell_index (fst p) (snd p) with
    | Some f, Some b =>
      if tui_cell_equal f b then changed_cells front back pts
      else (p, b) :: changed_cells front back pts
    | _, _ => changed_cells front back pts
    end.
Proof.
  unfold changed_cells. cbn [omap list_omap].
  destruct (front !! cell_index (fst p) (snd p)) as [f|]; [|reflexivity].
  destruct (back !! cell_index (fst p) (snd p)) as [b|]; [|reflexivity].
  destruct (tui_cell_equal f b); reflexivity.
Qed.

(** Writing a cell that the loop has passed does not change what the loop
    finds at the points still to come. *)
Lemma changed_cells_insert front back j v pts :
  j ∉ (fun p => cell_index (fst p) (snd p)) <$> pts ->
  changed_cells (<[j := v]> front) back pts = changed_cells front back pts.
Proof.
  induction pts as [|p pts IH]; intros Hj; [reflexivity|].
  rewrite fmap_cons in Hj. apply not_elem_of_cons in Hj as [Hne Hj].
  rewrite !changed_cells_cons, (IH Hj).
  rewrite list_lookup_insert_ne by exact Hne. reflexivity.
Qed.

(** The loop over a list of points with pairwise different cells. *)
Lemma diff_cells_emitted pts : forall c px py prev,
  output_pos c <= TUI_OUTPUT_BUFFER_SIZE ->
  NoDup ((fun p => cell_index (fst p) (snd p)) <$> pts) ->
  emitted (ds_ctx (foldl (fun st p => diff_cell st (fst p) (snd p))
                         (diff_after c px py prev) pts))
  = emitted c
      ++ cells_bytes px py prev
           (changed_cells (front_buffer c) (back_buffer c) pts).
Proof.
  induction pts as [|[x y] pts IH]; intros c px py prev Hp Hnd.
  - cbn [foldl diff_after ds_ctx changed_cells omap list_omap cells_bytes].
    rewrite app_nil_r. reflexivity.
  - rewrite fmap_cons in Hnd. apply NoDup_cons in Hnd as [Hnew Hnd].
    cbn [foldl fst snd] in *. rewrite changed_cells_cons. cbn [fst snd].
    destruct (front_buffer c !! cell_index x y) as [f|] eqn:Ef;
      [|rewrite diff_cell_same
          by (cbn [diff_after ds_ctx]; rewrite Ef; exact I);
        apply IH; assumption].
    destruct (back_buffer c !! cell_index x y) as [b|] eqn:Eb;
      [|rewrite diff_cell_same
          by (cbn [diff_after ds_ctx]; rewrite Ef, Eb; exact I);
        apply IH; assumption].
    destruct (tui_cell_equal f b) eqn:E;
      [rewrite diff_cell_same
          by (cbn [diff_after ds_ctx]; rewrite Ef, Eb; exact E);
        apply IH; assumption|].
    destruct (diff_cell_changed c px py prev x y f b Hp Ef Eb E)
      as (c' & -> & O & Em & P).
    rewrite IH; [|exact P|exact Hnd].
    cbn [cells_bytes].
    change (front_buffer (set_front_buffer ?v c')) with v.
    change (back_buffer (set_front_buffer ?v c')) with (back_buffer c').
    change (emitted (set_front_buffer ?v c')) with (emitted c').
    rewrite (out_only_back _ _ O), Em, (changed_cells_insert _ _ _ _ _ Hnew).
    rewrite <- app_assoc. reflexivity.
Qed.

Lemma grid_NoDup xs ys : NoDup xs -> NoDup ys -> NoDup (grid xs ys).
Proof.
  intros Hx Hy. unfold grid.
  induction Hy as [|y ys Hn Hy IH]; cbn [flat_map]; [constructor|].
  apply NoDup_app. split; [|split; [|exact IH]].
  - change (NoDup ((fun x => (x, y)) <$> xs)).
    apply NoDup_fmap_2; [|exact Hx]. intros a b E. congruence.
  - intros p Hp Hq. apply Hn.
    apply list_elem_of_In, in_map_iff in Hp. destruct Hp as (x & <- & _).
    apply list_elem_of_In, in_flat_map in Hq. destruct Hq as (y' & Hy' & Hq).
    apply in_map_iff in Hq. destruct Hq as (x' & Hq & _).
    apply list_elem_of_In. congruence.
Qed.

(** The cells of the visible rectangle are different cells of a buffer. *)
Lemma screen_cells_NoDup w h :
  w <= TUI_MAX_WIDTH ->
  NoDup ((fun p => cell_index (fst p) (snd p))
           <$> grid (seqZ 0 w) (seqZ 0 h)).
Proof.
  intros Hw. apply NoDup_fmap_2_strong.
  - intros [x y] [x' y'] Hp Hq E.
    apply list_elem_of_In, in_grid in Hp.
    apply list_elem_of_In, in_grid in Hq.
    cbn [fst snd] in *. rewrite !in_seqZ in Hp, Hq.
    destruct (cell_index_inj x y x' y') as [-> ->];
      [lia|lia|lia|lia|exact E|reflexivity].
  - apply grid_NoDup; apply NoDup_seqZ.
Qed.

(** The two nested loops of the diff visit the visible rectangle row by
    row. *)
Lemma diff_rows_grid W ys : forall st,
  width (ds_ctx st) = W ->
  foldl diff_row st ys
  = foldl (fun st p => diff_cell st (fst p) (snd p)) st (grid (seqZ 0 W) ys).
Proof.
  unfold grid. induction ys as [|y ys IH]; intros st Hw; [reflexivity|].
  cbn [foldl flat_map]. rewrite foldl_app.
  assert (E : diff_row st y
              = foldl (fun st p => diff_cell st (fst p) (snd p)) st
                      (map (fun x => (x, y)) (seqZ 0 W))).
  { unfold diff_row. rewrite Hw. generalize (seqZ 0 W) as xs. clear.
    intros xs. revert st.
    induction xs as [|x xs IHx]; intros st; [reflexivity|].
    cbn [foldl map fst snd]. apply IHx. }
  rewrite <- E. apply IH.
  rewrite (dk_width _ _ (diff_row_keeps st y)). exact Hw.
Qed.

Lemma diff_loop_emitted c :
  output_pos c <= TUI_OUTPUT_BUFFER_SIZE -> width c <= TUI_MAX_WIDTH ->
  emitted (ds_ctx (diff_loop (diff_start c)))
  = emitted c
      ++ cells_bytes (-2) (-2) nothing_sent
           (changed_cells (front_buffer c) (back_buffer c)
                          (grid (seqZ 0 (width c)) (seqZ 0 (height c)))).
Proof.
  intros Hp Hw. unfold diff_loop.
  rewrite (diff_rows_grid (width c)) by reflexivity.
  change (ds_ctx (diff_start c)) with c.
  change (diff_start c) with (diff_after c (-2) (-2) nothing_sent).
  apply diff_cells_emitted; [exact Hp|].
  apply screen_cells_NoDup. exact Hw.
Qed.

Lemma redraw_prologue_front c :
  ctx_wf c -> front_buffer (redraw_prologue c) = screen_before c.
Proof.
  intros [Hf _ _ _ _]. unfold redraw_prologue, screen_before.
  destruct (needs_redraw c); [|reflexivity].
  pose proof (hard_clear_out_only (set_needs_redraw false c)) as Hx.
  revert Hx. generalize (hard_clear (set_needs_redraw false c)) as X.
  intros X Hx. ctx_simpl. rewrite (out_only_front _ _ Hx).
  apply clear_buffer_whole. exact Hf.
Qed.

Lemma begin_sync_keeps c :
  front_buffer (tui_ansi_begin_sync c) = front_buffer c
  /\ back_buffer (tui_ansi_begin_sync c) = back_buffer c
  /\ width (tui_ansi_begin_sync c) = width c
  /\ height (tui_ansi_begin_sync c) = height c.
Proof.
  assert (O : out_only c (tui_ansi_begin_sync c)) by solve_out_only.
  destruct (out_only_size _ _ O) as [Hw Hh].
  split; [exact (out_only_front _ _ O)|].
  split; [exact (out_only_back _ _ O)|]. split; assumption.
Qed.

(** The bytes of the cells of a frame are those of the diff loop. *)
Lemma diff_loop_body c :
  ctx_wf c ->
  emitted (ds_ctx (diff_loop
                     (diff_start (tui_ansi_begin_sync (redraw_prologue c)))))
  = emitted (tui_ansi_begin_sync (redraw_prologue c)) ++ frame_body c.
Proof.
  intros W. pose proof W as [_ _ Hw _ Ho].
  destruct (redraw_prologue_emitted c Ho) as (_ & P1 & _).
  destruct (begin_sync_emitted (redraw_prologue c) P1) as (_ & P2 & _).
  destruct (redraw_prologue_keeps c) as (Kb & Kw & Kh & _).
  destruct (begin_sync_keeps (redraw_prologue c)) as (Sf & Sb & Sw & Sh).
  rewrite diff_loop_emitted; [|exact P2|rewrite Sw, Kw; exact Hw].
  rewrite Sf, Sb, Sw, Sh, Kb, Kw, Kh, (redraw_prologue_front c W).
  reflexivity.
Qed.

(** What [tui_end_frame] sends inside a frame. *)
Lemma end_frame_output c :
  ctx_wf c -> initialized c = true -> in_frame c = true ->
  tty_out (ctx_end_frame c)
  = emitted c ++ redraw_bytes c ++ BEGIN_SYNC ++ frame_body c
      ++ cursor_bytes c ++ END_SYNC
  /\ output_buffer (ctx_end_frame c) = []
  /\ needs_redraw (ctx_end_frame c) = false.
Proof.
  intros W Hi Hin. pose proof W as [_ _ _ _ Ho].
  rewrite (end_frame_unfold c Hi Hin).
  destruct (redraw_prologue_emitted c Ho) as (E1 & P1 & N1).
  destruct (begin_sync_emitted (redraw_prologue c) P1) as (E2 & P2 & N2 & C2).
  destruct (diff_loop_grows (tui_ansi_begin_sync (redraw_prologue c)))
    as (G & N3 & C3).
  destruct (G P2) as (P3 & _).
  pose proof (diff_loop_body c W) as E3.
  destruct (frame_epilogue_flushed
              (ds_ctx (diff_loop
                         (diff_start (tui_ansi_begin_sync (redraw_prologue c))))))
    as [F N4].
  split; [|split; [exact F|]].
  - eapply frame_output_chain;
      [exact E1|exact E2|exact E3|apply frame_epilogue_emitted; exact P3|
       |exact F].
    rewrite C3, C2. apply redraw_prologue_cursor.
  - rewrite N4, N3, N2. exact N1.
Qed.

(** X17.  Inside a frame [tui_end_frame] sends the terminal everything
    that was waiting and then one block: the sequence that starts a
    synchronized update; for each cell of the visible rectangle whose back
    cell is not the cell on the screen, row by row and from left to right,
    the bytes of that cell, which are the cursor address unless the cell
    follows the changed cell before it in its row, the reset and the style
    flags when the style is not that of the changed cell before, each
    colour that is not the one sent last, and the character in UTF-8; the
    cursor address and the sequence that shows the cursor when the cursor
    is visible; and the sequence that ends the synchronized update as the
    last bytes.  Only the erase sequences of a full redraw come before the
    block, and the screen then counts as blank.  Nothing stays in the
    output buffer, and no full redraw stays pending.  Outside a frame, or
    on a context that is not initialized, [tui_end_frame] does nothing. *)
Theorem end_frame_sends_one_sync_block c :
  ctx_wf c ->
  (initialized c = true -> in_frame c = true ->
   tty_out (ctx_end_frame c)
   = emitted c ++ redraw_bytes c ++ BEGIN_SYNC
       ++ cells_bytes (-2) (-2) nothing_sent
            (changed_cells (screen_before c) (back_buffer c)
                           (grid (seqZ 0 (width c)) (seqZ 0 (height c))))
       ++ cursor_bytes c ++ END_SYNC
   /\ output_buffer (ctx_end_frame c) = []
   /\ needs_redraw (ctx_end_frame c) = false)
  /\ (initialized c = false \/ in_frame c = false -> ctx_end_frame c = c).
Proof.
  intros W. split; [|apply end_frame_off].
  intros Hi Hin. exact (end_frame_output c W Hi Hin).
Qed.

Lemma drawn_wf c calls : ctx_wf c -> ctx_wf (run_draw_calls c calls).
Proof.
  intros [Wf Wb Ww Wh Wo].
  destruct (run_draw_calls_keeps calls c) as [Ki Kf Kw Kh Kfr Kbl Ko Kidle].
  split.
  - rewrite Kfr. exact Wf.
  - rewrite Kbl. exact Wb.
  - rewrite Kw. exact Ww.
  - rewrite Kh. exact Wh.
  - apply Ko. exact Wo.
Qed.

Lemma hi_frame_wf : ctx_wf hi_frame.
Proof.
  apply drawn_wf. apply example_ctx_wf; unfold TUI_MAX_WIDTH, TUI_MAX_HEIGHT; lia.
Qed.

Lemma end_frame_sends_one_sync_block_witness :
  ctx_wf hi_frame
  /\ changed_cells (screen_before hi_frame) (back_buffer hi_frame)
                   (grid (seqZ 0 (width hi_frame)) (seqZ 0 (height hi_frame)))
     = [(1, 0, mk_cell 72 TUI_COLOR_RED TUI_COLOR_DEFAULT TUI_COLOR_DEFAULT
                       TUI_STYLE_BOLD);
        (2, 0, mk_cell 105 TUI_COLOR_RED TUI_COLOR_DEFAULT TUI_COLOR_DEFAULT
                       TUI_STYLE_BOLD)]
  /\ tty_out (ctx_end_frame hi_frame)
     = BEGIN_SYNC
         ++ (ESC :: bytes "[1;2H") ++ (ESC :: bytes "[0m")
         ++ (ESC :: bytes "[1m") ++ (ESC :: bytes "[38;2;204;0;0m")
         ++ (ESC :: bytes "[49m") ++ (ESC :: bytes "[59m") ++ bytes "Hi"
         ++ (ESC :: bytes "[2;4H") ++ (ESC :: bytes "[?25h")
         ++ END_SYNC.
Proof.
  split; [exact hi_frame_wf|].
  assert (Hi : initialized hi_frame = true) by (vm_compute; reflexivity).
  assert (Hin : in_frame hi_frame = true) by (vm_compute; reflexivity).
  split; [vm_compute; reflexivity|].
  rewrite (proj1 (proj1 (end_frame_sends_one_sync_block hi_frame hi_frame_wf)
                        Hi Hin)).
  vm_compute. reflexivity.
Defined.

Lemma written_wf c data : ctx_wf c -> ctx_wf (tui_output_write c data).
Proof.
  intros [Wf Wb Ww Wh Wo]. destruct (write_appends c data Wo) as (O & _ & P).
  destruct (out_only_size _ _ O) as [Ew Eh]. split.
  - rewrite (out_only_front _ _ O). exact Wf.
  - rewrite (out_only_back _ _ O). exact Wb.
  - rewrite Ew. exact Ww.
  - rewrite Eh. exact Wh.
  - exact P.
Qed.

(** C1.  A frame is [tui_begin_frame], any sequence of drawing calls and
    [tui_end_frame].  [tui_end_frame] leaves the back buffer as the
    drawing calls composed it and sends the terminal the bytes of the
    cells in which it differs from the screen, with nothing left in the
    output buffer; after it the front buffer holds at every cell of the
    visible rectangle the very cell of that back buffer.  The context is
    outside a frame again, and there no drawing call changes either
    buffer, so the front buffer stays the state that was flushed last. *)
Theorem end_frame_front_equals_back c ws calls :
  ctx_wf c -> initialized c = true ->
  (forall x y, visible (run_frame c ws calls) x y ->
               eq_at (run_frame c ws calls) (cell_index x y))
  /\ back_buffer (run_frame c ws calls)
     = back_buffer (run_draw_calls (ctx_begin_frame c ws) calls)
  /\ (tty_out (run_frame c ws calls)
      = emitted (run_draw_calls (ctx_begin_frame c ws) calls)
          ++ redraw_bytes (run_draw_calls (ctx_begin_frame c ws) calls)
          ++ BEGIN_SYNC
          ++ frame_body (run_draw_calls (ctx_begin_frame c ws) calls)
          ++ cursor_bytes (run_draw_calls (ctx_begin_frame c ws) calls)
          ++ END_SYNC
      /\ output_buffer (run_frame c ws calls) = [])
  /\ in_frame (run_frame c ws calls) = false
  /\ (forall calls',
        front_buffer (run_draw_calls (run_frame c ws calls) calls')
        = front_buffer (run_frame c ws calls)
        /\ back_buffer (run_draw_calls (run_frame c ws calls) calls')
           = back_buffer (run_frame c ws calls)).
Proof.
  intros Hwf Hi. unfold run_frame.
  destruct (begin_frame_wf c ws Hwf Hi) as (W1 & I1 & F1 & _).
  revert W1 I1 F1. generalize (ctx_begin_frame c ws) as c1. intros c1 W1 I1 F1.
  pose proof (drawn_wf c1 calls W1) as W2.
  pose proof (run_draw_calls_keeps calls c1) as K.
  revert W2 K. generalize (run_draw_calls c1 calls) as c2. intros c2 W2 K.
  destruct K as [Ki Kf _ _ _ _ _ _].
  assert (I2 : initialized c2 = true) by (rewrite Ki; exact I1).
  assert (F2 : in_frame c2 = true) by (rewrite Kf; exact F1).
  destruct (end_frame_syncs c2 W2 I2 F2) as (S & Sb & Sw & Sh & Sin & _ & _).
  destruct (end_frame_output c2 W2 I2 F2) as (Et & Eo & _).
  revert S Sb Sw Sh Sin Et Eo. generalize (ctx_end_frame c2) as c3.
  intros c3 S Sb Sw Sh Sin Et Eo.
  split; [|split; [exact Sb|split; [split; [exact Et|exact Eo]|split]]].
  - intros x y [Hx Hy]. apply S. split; lia.
  - exact Sin.
  - intros calls'. pose proof (run_draw_calls_keeps calls' c3) as K'.
    split; [apply (dw_front _ _ K') | apply (dw_idle _ _ K'); exact Sin].
Qed.

(** [tui_begin_frame] on a well-formed context, with the cleared back
    buffer written out. *)
Lemma begin_frame_blank c ws :
  ctx_wf c -> initialized c = true ->
  ctx_begin_frame c ws
  = set_in_frame true
      (set_button_pressed false
         (set_current_style TUI_STYLE_NONE
            (set_current_bg TUI_COLOR_DEFAULT
               (set_current_fg TUI_COLOR_DEFAULT
                  (set_back_buffer blank_buffer
                     (tui_get_terminal_size c ws)))))).
Proof.
  intros [_ Hb _ _ _] Hi. unfold ctx_begin_frame. rewrite Hi.
  cbn [negb]. cbv zeta. unfold blank_buffer.
  rewrite clear_buffer_whole; [reflexivity|].
  destruct (get_terminal_size_shape c ws) as (w & h & -> & _). exact Hb.
Qed.

Lemma end_frame_front_equals_back_witness :
  (ctx_wf (tui_output_write (example_ctx 10 3 false) (bytes "ab"))
   /\ initialized (tui_output_write (example_ctx 10 3 false) (bytes "ab"))
      = true)
  /\ front_buffer
       (run_frame (tui_output_write (example_ctx 10 3 false) (bytes "ab"))
                  (Some (10, 3)) hi_calls) !! cell_index 1 0
     = Some (mk_cell 72 TUI_COLOR_RED TUI_COLOR_DEFAULT TUI_COLOR_DEFAULT
                     TUI_STYLE_BOLD)
  /\ tty_out
       (run_frame (tui_output_write (example_ctx 10 3 false) (bytes "ab"))
                  (Some (10, 3)) hi_calls)
     = bytes "ab" ++ BEGIN_SYNC
         ++ (ESC :: bytes "[1;2H") ++ (ESC :: bytes "[0m")
         ++ (ESC :: bytes "[1m") ++ (ESC :: bytes "[38;2;204;0;0m")
         ++ (ESC :: bytes "[49m") ++ (ESC :: bytes "[59m") ++ bytes "Hi"
         ++ (ESC :: bytes "[2;4H") ++ (ESC :: bytes "[?25h")
         ++ END_SYNC.
Proof.
  assert (W : ctx_wf (tui_output_write (example_ctx 10 3 false) (bytes "ab"))).
  { apply written_wf.
    apply example_ctx_wf; unfold TUI_MAX_WIDTH, TUI_MAX_HEIGHT; lia. }
  assert (I : initialized
                (tui_output_write (example_ctx 10 3 false) (bytes "ab"))
              = true) by (vm_compute; reflexivity).
  split; [split; [exact W|exact I]|].
  destruct (end_frame_front_equals_back _ (Some (10, 3)) hi_calls W I)
    as (S & Sb & (Et & _) & _).
  revert S Sb Et. unfold run_frame.
  rewrite (begin_frame_blank _ (Some (10, 3)) W I). intros S Sb Et.
  split.
  - destruct (S 1 0) as (cell & Hf & Hb).
    { split; vm_compute; split; (reflexivity || discriminate). }
    rewrite Hf, <- Hb, Sb. vm_compute. reflexivity.
  - rewrite Et. vm_compute. reflexivity.
Defined.

(** Two buffers that agree, cell by cell, on a rectangle at the origin. *)
Lemma lookups_agree (a b : list tui_cell) w h :
  forallb (fun p =>
             match a !! cell_index (fst p) (snd p),
                   b !! cell_index (fst p) (snd p) with
             | Some u, Some v => tui_cell_equal u v
             | None, None => true
             | _, _ => false
             end) (grid (seqZ 0 w) (seqZ 0 h)) = true ->
  forall x y, 0 <= x < w -> 0 <= y < h ->
    a !! cell_index x y = b !! cell_index x y.
Proof.
  intros H x y Hx Hy. rewrite forallb_forall in H.
  specialize (H (x, y)). cbn [fst snd] in H.
  destruct (a !! cell_index x y) as [u|], (b !! cell_index x y) as [v|].
  - f_equal. apply tui_cell_equal_eq. apply H.
    apply in_grid. cbn [fst snd]. rewrite !in_seqZ. lia.
  - discriminate H. apply in_grid. cbn [fst snd]. rewrite !in_seqZ. lia.
  - discriminate H. apply in_grid. cbn [fst snd]. rewrite !in_seqZ. lia.
  - reflexivity.
Qed.

Lemma hi_frame_flags : initialized hi_frame = true /\ in_frame hi_frame = true.
Proof. split; vm_compute; reflexivity. Qed.

Lemma hi_again_blank :
  hi_again
  = run_draw_calls
      (set_in_frame true
         (set_button_pressed false
            (set_current_style TUI_STYLE_NONE
               (set_current_bg TUI_COLOR_DEFAULT
                  (set_current_fg TUI_COLOR_DEFAULT
                     (set_back_buffer blank_buffer
                        (tui_get_terminal_size (ctx_end_frame hi_frame)
                                               (Some (10, 3))))))))) hi_calls.
Proof.
  destruct hi_frame_flags as [I F].
  destruct (end_frame_syncs hi_frame hi_frame_wf I F)
    as (_ & _ & _ & _ & _ & Si & Swf).
  unfold hi_again. rewrite (begin_frame_blank _ (Some (10, 3)) Swf Si).
  reflexivity.
Qed.

Lemma hi_same_frame_again : same_frame_again hi_frame hi_again.
Proof.
  destruct hi_frame_flags as [I F].
  destruct (end_frame_syncs hi_frame hi_frame_wf I F)
    as (_ & _ & _ & _ & _ & Si & Swf).
  destruct (begin_frame_wf _ (Some (10, 3)) Swf Si) as (W1 & I1 & F1 & Fr1).
  assert (K : draw_keeps
                (ctx_begin_frame (ctx_end_frame hi_frame) (Some (10, 3)))
                hi_again)
    by exact (run_draw_calls_keeps hi_calls _).
  split.
  - exact hi_frame_wf.
  - exact I.
  - exact F.
  - apply drawn_wf. exact W1.
  - rewrite (dw_init _ _ K). exact I1.
  - rewrite (dw_frame _ _ K). exact F1.
  - rewrite hi_again_blank. vm_compute. reflexivity.
  - rewrite hi_again_blank. vm_compute. reflexivity.
  - rewrite hi_again_blank. vm_compute. reflexivity.
  - rewrite (dw_front _ _ K). exact Fr1.
  - assert (Ew : width hi_frame = 10) by (vm_compute; reflexivity).
    assert (Eh : height hi_frame = 3) by (vm_compute; reflexivity).
    intros x y [Hx Hy]. rewrite Ew in Hx. rewrite Eh in Hy.
    revert x y Hx Hy. apply lookups_agree.
    rewrite hi_again_blank. vm_compute. reflexivity.
Qed.

Lemma second_end_frame_output_witness :
  same_frame_again hi_frame hi_again
  /\ emitted (ctx_end_frame hi_again)
     = emitted hi_again ++ BEGIN_SYNC
         ++ ((ESC :: bytes "[2;4H") ++ (ESC :: bytes "[?25h")) ++ END_SYNC.
Proof.
  split; [exact hi_same_frame_again|].
  assert (C : cursor_bytes hi_again
              = (ESC :: bytes "[2;4H") ++ (ESC :: bytes "[?25h")).
  { rewrite hi_again_blank. vm_compute. reflexivity. }
  rewrite <- C.
  exact (second_end_frame_output hi_frame hi_again hi_same_frame_again).
Defined.


(** ** Hit test *)

Lemma hit_children_found rec children : forall hit h,
  hit_children rec hit children = Some h ->
  hit = Some h \/ exists child, In child children /\ rec child = Some h.
Proof.
  unfold hit_children.
  induction children as [|ch children IH]; intros hit h H; cbn [foldl] in H.
  - left. exact H.
  - destruct (IH _ _ H) as [E|(child & Hin & Hc)].
    + destruct hit as [h0|]; [left; exact E|].
      right. exists ch. split; [left; reflexivity|exact E].
    + right. exists child. split; [right; exact Hin|exact Hc].
Qed.

Lemma hit_test_step fuel ws i wd x y :
  ws !! i = Some wd ->
  tui_widget_hit_test_recursive (S fuel) ws (Some i) x y
  = if negb (w_visible wd) then None
    else if negb (tui_widget_contains_point ws wd x y) then None
    else match hit_children
                 (fun child =>
                    tui_widget_hit_test_recursive fuel ws (Some child) x y)
                 None (reverse (w_children wd)) with
         | Some hit => Some hit
         | None => Some i
         end.
Proof. intros E. cbn [tui_widget_hit_test_recursive]. rewrite E. reflexivity. Qed.

Lemma hit_test_sound fuel ws x y : forall w h,
  tui_widget_hit_test_recursive fuel ws w x y = Some h ->
  exists hd, ws !! h = Some hd /\ w_visible hd = true
             /\ tui_widget_contains_point ws hd x y = true.
Proof.
  induction fuel as [|fuel IH]; intros w h H; [discriminate H|].
  destruct w as [i|]; [|discriminate H].
  destruct (ws !! i) as [wd|] eqn:E;
    [|cbn [tui_widget_hit_test_recursive] in H; rewrite E in H; discriminate H].
  rewrite (hit_test_step fuel ws i wd x y E) in H.
  destruct (w_visible wd) eqn:V; [|discriminate H]. cbn [negb] in H.
  destruct (tui_widget_contains_point ws wd x y) eqn:C; [|discriminate H].
  cbn [negb] in H.
  destruct (hit_children _ None (reverse (w_children wd))) as [h'|] eqn:Hc.
  - injection H as <-. apply hit_children_found in Hc.
    destruct Hc as [Hc|(child & _ & Hc)]; [discriminate Hc|].
    exact (IH _ _ Hc).
  - injection H as <-. exists wd. auto.
Qed.

(** X18.  The hit test answers no widget exactly when the widget it starts
    from is hidden or does not contain the point; otherwise it answers a
    widget that is visible and contains the point itself, so a hidden
    child is never hit, whatever its bounds. *)
Theorem hit_test_answers_visible_widget fuel ws r wd x y :
  ws !! r = Some wd ->
  match tui_widget_hit_test_recursive (S fuel) ws (Some r) x y with
  | Some h =>
    w_visible wd && tui_widget_contains_point ws wd x y = true
    /\ exists hd, ws !! h = Some hd /\ w_visible hd = true
                  /\ tui_widget_contains_point ws hd x y = true
  | None => w_visible wd && tui_widget_contains_point ws wd x y = false
  end.
Proof.
  intros E.
  destruct (tui_widget_hit_test_recursive (S fuel) ws (Some r) x y) as [h|]
    eqn:H.
  - split; [|exact (hit_test_sound _ _ _ _ _ _ H)].
    rewrite (hit_test_step fuel ws r wd x y E) in H.
    destruct (w_visible wd); [|discriminate H].
    destruct (tui_widget_contains_point ws wd x y); [reflexivity|discriminate H].
  - rewrite (hit_test_step fuel ws r wd x y E) in H.
    destruct (w_visible wd); [|reflexivity].
    destruct (tui_widget_contains_point ws wd x y); [|reflexivity].
    cbn [negb] in H. destruct (hit_children _ _ _); discriminate H.
Qed.

Lemma hit_test_answers_visible_widget_witness :
  framed_button !! 0%nat = Some (mk_widget TUI_WIDGET_PANEL 10 3 20 5 None
                                   [1%nat; 2%nat] true true false false 0 []
                                   true OtherState)
  /\ tui_wm_hit_test (Some button_manager) framed_button 13 4 = Some 1%nat
  /\ tui_wm_hit_test (Some button_manager) framed_button 11 3 = Some 0%nat
  /\ match tui_widget_hit_test_recursive 3 framed_button (Some 0%nat) 13 4 with
     | Some h =>
       exists hd, framed_button !! h = Some hd /\ w_visible hd = true
                  /\ tui_widget_contains_point framed_button hd 13 4 = true
     | None => False
     end.
Proof.
  split; [reflexivity|]. split; [reflexivity|]. split; [reflexivity|].
  pose proof (hit_test_answers_visible_widget 2 framed_button 0 _ 13 4 eq_refl)
    as H.
  destruct (tui_widget_hit_test_recursive 3 framed_button (Some 0%nat) 13 4);
    [exact (proj2 H)|discriminate H].
Defined.

(** ** Focus *)

Lemma mark_focused_lookup ws w b j :
  mark_focused ws w b !! j
  = match ws !! j with
    | Some wd => Some (if bool_decide (w = Some j) then set_w_focused b wd
                       else wd)
    | None => None
    end.
Proof.
  unfold mark_focused. destruct w as [i|].
  - destruct (ws !! i) as [wi|] eqn:Ei.
    + destruct (decide (i = j)) as [->|Hne].
      * rewrite list_lookup_insert_eq by (eapply lookup_lt_Some; exact Ei).
        rewrite Ei. rewrite bool_decide_eq_true_2 by reflexivity. reflexivity.
      * rewrite list_lookup_insert_ne by exact Hne.
        destruct (ws !! j); [|reflexivity].
        rewrite bool_decide_eq_false_2 by congruence. reflexivity.
    + destruct (ws !! j) as [wj|] eqn:Ej; [|reflexivity].
      rewrite bool_decide_eq_false_2 by congruence. reflexivity.
  - destruct (ws !! j); [|reflexivity].
    rewrite bool_decide_eq_false_2 by discriminate. reflexivity.
Qed.

(** X19.  [tui_wm_focus] keeps the focus flags in step with the manager:
    when no widget other than the focused one carries the flag before the
    call, then after it the manager's focus is the widget given, that
    widget carries the flag, and no other widget does, the one that had
    the focus included.  With [NULL] for the widget no flag is left.  No
    widget changes in anything but its flag. *)
Theorem focus_moves_the_flag wm ws widget :
  one_focus wm ws ->
  focus (fst (tui_wm_focus wm ws widget)) = widget
  /\ one_focus (fst (tui_wm_focus wm ws widget))
               (snd (tui_wm_focus wm ws widget))
  /\ (forall i wd, widget = Some i -> ws !! i = Some wd ->
        snd (tui_wm_focus wm ws widget) !! i = Some (set_w_focused true wd))
  /\ length (snd (tui_wm_focus wm ws widget)) = length ws
  /\ (forall j wd, ws !! j = Some wd ->
        exists wd', snd (tui_wm_focus wm ws widget) !! j = Some wd'
                    /\ same_but_focus wd wd').
Proof.
  intros Inv. unfold tui_wm_focus. cbn [fst snd].
  assert (L : forall j,
    mark_focused (mark_focused ws (focus wm) false) widget true !! j
    = match ws !! j with
      | Some wd =>
        Some (if bool_decide (widget = Some j) then set_w_focused true wd
              else if bool_decide (focus wm = Some j)
                   then set_w_focused false wd else wd)
      | None => None
      end).
  { intros j. rewrite !mark_focused_lookup.
    destruct (ws !! j) as [wd|]; [|reflexivity].
    destruct (bool_decide (widget = Some j)), (bool_decide (focus wm = Some j));
      reflexivity. }
  split; [reflexivity|]. split; [|split; [|split]].
  - intros j wd' Hj Hf. cbn [focus set_focus]. rewrite L in Hj.
    destruct (ws !! j) as [wd|] eqn:Ej; [|discriminate Hj].
    injection Hj as <-.
    destruct (bool_decide (widget = Some j)) eqn:Ew;
      [apply bool_decide_eq_true_1 in Ew; exact Ew|].
    destruct (bool_decide (focus wm = Some j)) eqn:Ef;
      [discriminate Hf|].
    apply bool_decide_eq_false_1 in Ef. exfalso. apply Ef.
    exact (Inv j wd Ej Hf).
  - intros i wd -> Ei. rewrite L, Ei.
    rewrite bool_decide_eq_true_2 by reflexivity. reflexivity.
  - apply Nat.le_antisymm.
    + destruct (Nat.le_gt_cases (length (mark_focused (mark_focused ws (focus wm) false) widget true)) (length ws)) as [H|H]; [exact H|].
      destruct (lookup_lt_is_Some_2 _ _ H) as [x Hx].
      rewrite L in Hx. rewrite lookup_ge_None_2 in Hx by lia. discriminate Hx.
    + destruct (Nat.le_gt_cases (length ws) (length (mark_focused (mark_focused ws (focus wm) false) widget true))) as [H|H]; [exact H|].
      destruct (lookup_lt_is_Some_2 _ _ H) as [x Hx].
      pose proof (L (length (mark_focused (mark_focused ws (focus wm) false)
                               widget true))) as HL.
      rewrite Hx in HL. rewrite lookup_ge_None_2 in HL by lia. discriminate HL.
  - intros j wd Ej. rewrite L, Ej. eexists. split; [reflexivity|].
    unfold same_but_focus.
    destruct (bool_decide (widget = Some j)); [reflexivity|].
    destruct (bool_decide (focus wm = Some j)); reflexivity.
Qed.

Lemma focus_moves_the_flag_witness :
  one_focus (set_focus None button_manager) framed_button
  /\ focus (fst (tui_wm_focus (set_focus None button_manager) framed_button
                   (Some 1%nat))) = Some 1%nat.
Proof.
  assert (I : one_focus (set_focus None button_manager) framed_button).
  { intros j wd Hj Hf.
    destruct j as [|[|[|j]]]; cbn in Hj; try discriminate Hj;
      injection Hj as <-; discriminate Hf. }
  split; [exact I|].
  exact (proj1 (focus_moves_the_flag _ framed_button (Some 1%nat) I)).
Defined.

(** ** Wide cells *)

(** X20.  Inside a frame [tui_set_cell_wide] stores the code point in the
    cell and a space in the cell to its right, both with the current pen,
    when both cells are visible, and changes no other cell.  In the last
    column, where the right half would not fit, and anywhere else off the
    drawable range it stores nothing: a wide character is never cut in
    half. *)
Theorem set_cell_wide_writes_two_cells c x y cp :
  ctx_wf c -> in_frame c = true ->
  (0 <= x < width c - 1 -> 0 <= y < height c ->
   back_buffer (ctx_set_cell_wide c x y cp) !! cell_index x y
   = Some (pen_cell c cp)
   /\ back_buffer (ctx_set_cell_wide c x y cp) !! cell_index (x + 1) y
      = Some (pen_cell c 32)
   /\ (forall x' y', 0 <= x' < TUI_MAX_WIDTH -> 0 <= y' ->
         (x', y') <> (x, y) -> (x', y') <> (x + 1, y) ->
         back_buffer (ctx_set_cell_wide c x y cp) !! cell_index x' y'
         = back_buffer c !! cell_index x' y'))
  /\ (~ (0 <= x < width c - 1 /\ 0 <= y < height c) ->
      ctx_set_cell_wide c x y cp = c).
Proof.
  intros Hwf Hin. unfold ctx_set_cell_wide. rewrite Hin. cbn [negb].
  destruct (Z.ltb_spec x 0), (Z.leb_spec (width c - 1) x), (Z.ltb_spec y 0),
    (Z.leb_spec (height c) y); cbn [orb];
    try (split; [intros; lia|reflexivity]).
  split; [|intros Hno; exfalso; apply Hno; lia].
  intros Hx Hy. cbn [back_buffer set_back_buffer].
  assert (V1 : visible c x y) by (unfold visible; lia).
  assert (V2 : visible c (x + 1) y) by (unfold visible; lia).
  pose proof (visible_in_range c x y Hwf V1) as L1.
  pose proof (visible_in_range c (x + 1) y Hwf V2) as L2.
  destruct Hwf as [_ _ Hw _ _].
  assert (Ne : cell_index x y <> cell_index (x + 1) y).
  { intros E. destruct (cell_index_inj x y (x + 1) y) as [? _]; try lia. }
  split; [|split].
  - rewrite list_lookup_insert_ne by congruence.
    apply list_lookup_insert_eq. exact L1.
  - apply list_lookup_insert_eq. rewrite length_insert. exact L2.
  - intros x' y' Hx' Hy' N1 N2.
    rewrite !list_lookup_insert_ne; [reflexivity| |].
    + intros E. apply N1.
      destruct (cell_index_inj x y x' y') as [-> ->]; try lia. reflexivity.
    + intros E. apply N2.
      destruct (cell_index_inj (x + 1) y x' y') as [<- <-]; try lia.
      reflexivity.
Qed.

Lemma set_cell_wide_writes_two_cells_witness :
  ctx_wf (set_in_frame true (example_ctx 80 24 false))
  /\ ctx_set_cell_wide (set_in_frame true (example_ctx 80 24 false))
       79 0 0x4E2D
     = set_in_frame true (example_ctx 80 24 false).
Proof.
  assert (W : ctx_wf (set_in_frame true (example_ctx 80 24 false))).
  { apply set_in_frame_wf, example_ctx_wf;
      unfold TUI_MAX_WIDTH, TUI_MAX_HEIGHT; lia. }
  split; [exact W|].
  apply (proj2 (set_cell_wide_writes_two_cells _ 79 0 0x4E2D W eq_refl)).
  cbn [set_in_frame example_ctx width height]. lia.
Defined.


(** ** Text area: the cursor stays in the text *)



Ltac ta_simpl :=
  cbn [lines line_count line_capacity cursor_row cursor_col scroll_row
       line_numbers editable max_line_len set_lines set_line_count
       set_cursor_row set_cursor_col set_scroll_row fst snd].







Lemma cstr_id l : Forall (fun b => b <> 0) l -> cstr l = l.
Proof.
  induction 1 as [|b l Hb _ IH]; [reflexivity|]. cbn [cstr].
  destruct (Z.eqb_spec b 0); [contradiction|]. rewrite IH. reflexivity.
Qed.

Lemma line_at_ok (P : option (list Z) -> Prop) ls i :
  Forall P ls -> P None -> P (line_at ls i).
Proof.
  intros HF HN. unfold line_at.
  destruct (ls !! Z.to_nat i) as [o|] eqn:E; cbn [default]; [|exact HN].
  exact (proj1 (Forall_lookup P ls) HF _ _ E).
Qed.

Lemma line_at_insert_same ls i v :
  0 <= i < Z.of_nat (length ls) -> line_at (<[Z.to_nat i := v]> ls) i = v.
Proof.
  intros Hi. rewrite line_at_insert by lia. rewrite Z.eqb_refl.
  destruct (Z.ltb_spec i (Z.of_nat (length ls))); [reflexivity|lia].
Qed.

Lemma line_at_insert_other ls i j v :
  0 <= i -> 0 <= j -> i <> j -> line_at (<[Z.to_nat j := v]> ls) i = line_at ls i.
Proof.
  intros Hi Hj Hne. rewrite line_at_insert by lia.
  destruct (Z.eqb_spec i j); [contradiction|reflexivity].
Qed.













Lemma line_ok_at m ls i l :
  Forall (line_ok m) ls -> line_at ls i = Some l ->
  Forall (fun b => b <> 0) l /\ Z.of_nat (length l) < m.
Proof.
  intros HF E. pose proof (line_at_ok (line_ok m) ls i HF I) as H.
  rewrite E in H. exact H.
Qed.



Lemma set_w_state_same w st : w_state w = st -> set_w_state st w = w.
Proof. intros <-. destruct w. reflexivity. Qed.





Lemma hello_text_ok :
  text_ok hello_state [Some (bytes "Hello World"); None; None; None].
Proof.
  assert (L : line_len (line_at [Some (bytes "Hello World"); None; None; None]
                          0) = 11) by reflexivity.
  split; cbn [hello_state line_count line_capacity cursor_row cursor_col
              length].
  - lia.
  - lia.
  - lia.
  - rewrite L. lia.
  - constructor; [|repeat constructor].
    split; [|vm_compute; reflexivity].
    apply Forall_forall. intros b Hb E. subst b. vm_compute in Hb.
    repeat (apply elem_of_cons in Hb; destruct Hb as [Hb|Hb];
            [discriminate Hb|]).
    inversion Hb.
Qed.


(** ** Text area: editing keys undo each other *)

(** A key that is no navigation key, on an editable text area. *)
Lemma textarea_key_edit ws w e ok ta ls :
  w_state w = TextareaState ta -> lines ta = Some ls ->
  line_count ta <> 0 -> type (base e) = TUI_EVENT_KEY ->
  textarea_navigate w ta ls e = None -> editable ta = true ->
  tui_widget_handle_textarea_input ws w e ok
  = (set_w_state
       (TextareaState
          (set_lines (Some (fst (fst (textarea_edit w ta ls e ok))))
                     (snd (fst (textarea_edit w ta ls e ok))))) w,
     snd (textarea_edit w ta ls e ok)).
Proof.
  intros Hst Hls Hn Hty Hnav Hed. unfold tui_widget_handle_textarea_input.
  rewrite Hst, Hls. destruct (Z.eqb_spec (line_count ta) 0); [contradiction|].
  rewrite Hty. rewrite bool_decide_eq_false_2 by discriminate.
  rewrite bool_decide_eq_true_2 by reflexivity. cbn [negb].
  rewrite Hnav, Hed. cbn [negb].
  destruct (textarea_edit w ta ls e ok) as [[ls' ta'] r]. reflexivity.
Qed.

Lemma edit_char w ta ls e ok line :
  key (base e) = TUI_KEY_CHAR ->
  line_at ls (cursor_row ta) = Some line ->
  Z.of_nat (length line) < ta_max_len ta - 1 -> 32 <= ch (base e) ->
  textarea_edit w ta ls e ok
  = (<[Z.to_nat (cursor_row ta)
       := Some (insert_at line (cursor_col ta) [Z.land (ch (base e)) 0xFF])]>
       ls,
     set_cursor_col (cursor_col ta + 1) ta, true).
Proof.
  intros K Hl Hm Hc. unfold textarea_edit. fold (ta_max_len ta).
  rewrite K, Hl. cbn [line_len].
  destruct (Z.ltb_spec (Z.of_nat (length line)) (ta_max_len ta - 1)); [|lia].
  destruct (Z.leb_spec 32 (ch (base e))); [|lia]. reflexivity.
Qed.

Lemma edit_backspace_char w ta ls e ok line :
  key (base e) = TUI_KEY_BACKSPACE ->
  line_at ls (cursor_row ta) = Some line -> 0 < cursor_col ta ->
  textarea_edit w ta ls e ok
  = (<[Z.to_nat (cursor_row ta)
       := Some (delete_at line (cursor_col ta - 1))]> ls,
     set_cursor_col (cursor_col ta - 1) ta, true).
Proof.
  intros K Hl Hc. unfold textarea_edit. rewrite K, Hl.
  destruct (Z.ltb_spec 0 (cursor_col ta)); [reflexivity|lia].
Qed.

Lemma delete_inserted line c b :
  0 <= c <= Z.of_nat (length line) ->
  delete_at (take (Z.to_nat c) line ++ [b] ++ drop (Z.to_nat c) line) c = line.
Proof.
  intros Hc. unfold delete_at.
  assert (Hl : length (take (Z.to_nat c) line) = Z.to_nat c)
    by (rewrite length_take; lia).
  rewrite (take_app_length' _ _ _ (eq_sym Hl)).
  replace (Z.to_nat (c + 1)) with (length (take (Z.to_nat c) line ++ [b]))
    by (rewrite length_app, Hl; cbn [length]; lia).
  rewrite (app_assoc (take (Z.to_nat c) line) [b]), drop_app_length.
  apply take_drop.
Qed.

Lemma textarea_state_eta ta ls l' c' :
  lines ta = Some ls ->
  set_lines (Some ls)
    (set_cursor_col (cursor_col ta) (set_lines l' (set_cursor_col c' ta)))
  = ta.
Proof.
  intros H. destruct ta as [l n cap r c s nums ed m]. cbn in *. subst.
  reflexivity.
Qed.

Lemma set_w_state_twice st st' w :
  set_w_state st (set_w_state st' w) = set_w_state st w.
Proof. reflexivity. Qed.

Lemma line_at_lookup ls i o :
  line_at ls i = Some o -> ls !! Z.to_nat i = Some (Some o).
Proof.
  unfold line_at. destruct (ls !! Z.to_nat i) as [x|]; simpl.
  - intros ->. reflexivity.
  - discriminate.
Qed.

(** X22.  On an editable text area, a character key followed by
    Backspace leaves the widget exactly as it was: the character goes in
    at the cursor, the cursor moves one column to the right, and Backspace
    takes that character out again and moves the cursor back.  The line
    has room for one more byte, and the character is one the handler
    accepts: 32 or above, with a low byte that is not NUL. *)
Theorem textarea_backspace_undoes_char ws w e_char e_bs ok ta ls line :
  w_state w = TextareaState ta -> lines ta = Some ls -> text_ok ta ls ->
  editable ta = true ->
  line_at ls (cursor_row ta) = Some line ->
  Z.of_nat (length line) < ta_max_len ta - 1 ->
  type (base e_char) = TUI_EVENT_KEY -> key (base e_char) = TUI_KEY_CHAR ->
  32 <= ch (base e_char) -> Z.land (ch (base e_char)) 0xFF <> 0 ->
  type (base e_bs) = TUI_EVENT_KEY -> key (base e_bs) = TUI_KEY_BACKSPACE ->
  (exists ta1 ls1,
     tui_widget_handle_textarea_input ws w e_char ok
     = (set_w_state (TextareaState ta1) w, true)
     /\ lines ta1 = Some ls1
     /\ line_at ls1 (cursor_row ta)
        = Some (take (Z.to_nat (cursor_col ta)) line
                  ++ [Z.land (ch (base e_char)) 0xFF]
                  ++ drop (Z.to_nat (cursor_col ta)) line)
     /\ cursor_row ta1 = cursor_row ta
     /\ cursor_col ta1 = cursor_col ta + 1)
  /\ tui_widget_handle_textarea_input ws
       (fst (tui_widget_handle_textarea_input ws w e_char ok)) e_bs ok
     = (w, true).
Proof.
  intros Hst Hls H Hed Hl Hroom Tc Kc Hc32 Hnz Tb Kb.
  pose proof H as [A B C D E]. rewrite Hl in D. cbn [line_len] in D.
  destruct (line_ok_at _ _ _ _ E Hl) as [Ln Lm].
  assert (Hrow : 0 <= cursor_row ta < Z.of_nat (length ls)) by lia.
  assert (Hins : insert_at line (cursor_col ta)
                   [Z.land (ch (base e_char)) 0xFF]
                 = take (Z.to_nat (cursor_col ta)) line
                     ++ [Z.land (ch (base e_char)) 0xFF]
                     ++ drop (Z.to_nat (cursor_col ta)) line).
  { unfold insert_at. apply cstr_id.
    apply Forall_app. split; [apply Forall_take; exact Ln|].
    apply Forall_app. split; [|apply Forall_drop; exact Ln].
    constructor; [exact Hnz|constructor]. }
  assert (Step1 :
    tui_widget_handle_textarea_input ws w e_char ok
    = (set_w_state
         (TextareaState
            (set_lines
               (Some (<[Z.to_nat (cursor_row ta)
                        := Some (take (Z.to_nat (cursor_col ta)) line
                                   ++ [Z.land (ch (base e_char)) 0xFF]
                                   ++ drop (Z.to_nat (cursor_col ta)) line)]>
                        ls))
               (set_cursor_col (cursor_col ta + 1) ta))) w, true)).
  { rewrite (textarea_key_edit ws w e_char ok ta ls Hst Hls) ; try assumption.
    - rewrite (edit_char w ta ls e_char ok line Kc Hl Hroom Hc32).
      cbn [fst snd]. rewrite Hins. reflexivity.
    - lia.
    - unfold textarea_navigate. rewrite Kc. reflexivity. }
  split.
  - eexists _, _. split; [exact Step1|]. split; [reflexivity|].
    split; [apply line_at_insert_same; exact Hrow|].
    split; reflexivity.
  - rewrite Step1. cbn [fst].
    set (ls1 := <[Z.to_nat (cursor_row ta)
                  := Some (take (Z.to_nat (cursor_col ta)) line
                             ++ [Z.land (ch (base e_char)) 0xFF]
                             ++ drop (Z.to_nat (cursor_col ta)) line)]> ls).
    set (ta1 := set_lines (Some ls1) (set_cursor_col (cursor_col ta + 1) ta)).
    assert (Hl1 : line_at ls1 (cursor_row ta1)
                  = Some (take (Z.to_nat (cursor_col ta)) line
                            ++ [Z.land (ch (base e_char)) 0xFF]
                            ++ drop (Z.to_nat (cursor_col ta)) line))
      by (apply line_at_insert_same; exact Hrow).
    rewrite (textarea_key_edit ws (set_w_state (TextareaState ta1) w) e_bs ok
               ta1 ls1 eq_refl eq_refl).
    + rewrite (edit_backspace_char _ ta1 ls1 e_bs ok _ Kb Hl1)
        by (unfold ta1; ta_simpl; lia).
      cbn [fst snd]. unfold ta1. ta_simpl.
      replace (cursor_col ta + 1 - 1) with (cursor_col ta) by lia.
      rewrite delete_inserted by lia.
      unfold ls1. rewrite list_insert_insert_eq.
      rewrite (list_insert_id ls (Z.to_nat (cursor_row ta)) (Some line)).
      * rewrite (textarea_state_eta ta ls _ _ Hls), set_w_state_twice.
        f_equal. apply set_w_state_same. exact Hst.
      * apply line_at_lookup. exact Hl.
    + unfold ta1. ta_simpl. lia.
    + exact Tb.
    + unfold textarea_navigate. rewrite Kb. reflexivity.
    + exact Hed.
Qed.

Lemma textarea_backspace_undoes_char_witness :
  text_ok hello_state [Some (bytes "Hello World"); None; None; None]
  /\ tui_widget_handle_textarea_input [hello_textarea]
       (fst (tui_widget_handle_textarea_input [hello_textarea] hello_textarea
               (at_target (key_press TUI_KEY_CHAR (chr "x")) 0) true))
       (at_target (key_press TUI_KEY_BACKSPACE 0) 0) true
     = (hello_textarea, true).
Proof.
  split; [exact hello_text_ok|].
  apply (textarea_backspace_undoes_char [hello_textarea] hello_textarea
           (at_target (key_press TUI_KEY_CHAR (chr "x")) 0)
           (at_target (key_press TUI_KEY_BACKSPACE 0) 0) true hello_state
           [Some (bytes "Hello World"); None; None; None]
           (bytes "Hello World") eq_refl eq_refl hello_text_ok eq_refl
           eq_refl);
    try reflexivity; try (intros ?; discriminate); try (cbn; lia);
    vm_compute; discriminate.
Defined.

(** The loop that closes a gap: the lines from [a] to [a + k - 1] each
    take the value of the line after, the others stay. *)
Lemma up_steps_spec (k : nat) : forall ls a i,
  0 <= a -> a + Z.of_nat k <= Z.of_nat (length ls) -> 0 <= i ->
  line_at (foldl (fun ls i => <[Z.to_nat i := line_at ls (i + 1)]> ls) ls
                 (seqZ a (Z.of_nat k))) i
  = if (a <=? i) && (i <? a + Z.of_nat k) then line_at ls (i + 1)
    else line_at ls i.
Proof.
  induction k as [|k IH]; intros ls a i Ha Hlen Hi.
  - cbn [seqZ foldl]. change (seqZ a (Z.of_nat 0)) with (@nil Z).
    cbn [foldl].
    destruct (Z.leb_spec a i), (Z.ltb_spec i (a + Z.of_nat 0));
      cbn [andb]; try reflexivity; lia.
  - rewrite seqZ_cons by lia. cbn [foldl].
    replace (Z.pred (Z.of_nat (S k))) with (Z.of_nat k) by lia.
    rewrite IH by (rewrite ?length_insert; lia).
    destruct (Z.leb_spec (Z.succ a) i) as [H1|H1];
      destruct (Z.ltb_spec i (Z.succ a + Z.of_nat k)) as [H2|H2];
      destruct (Z.leb_spec a i) as [H3|H3];
      destruct (Z.ltb_spec i (a + Z.of_nat (S k))) as [H4|H4];
      cbn [andb]; try lia.
    + apply line_at_insert_other; lia.
    + apply line_at_insert_other; lia.
    + replace i with a by lia. apply line_at_insert_same. lia.
    + apply line_at_insert_other; lia.
Qed.

Lemma shift_up_spec ls from n i :
  0 <= from -> n - 1 <= Z.of_nat (length ls) -> 0 <= i ->
  line_at (shift_up ls from n) i
  = if (from <=? i) && (i <? n - 1) then line_at ls (i + 1) else line_at ls i.
Proof.
  intros Hf Hn Hi. unfold shift_up.
  destruct (Z.le_gt_cases (n - 1 - from) 0) as [Hk|Hk].
  - rewrite seqZ_nil by lia. cbn [foldl].
    destruct (Z.leb_spec from i), (Z.ltb_spec i (n - 1)); cbn [andb];
      try reflexivity; lia.
  - replace (n - 1 - from) with (Z.of_nat (Z.to_nat (n - 1 - from))) by lia.
    rewrite up_steps_spec by lia.
    destruct (Z.leb_spec from i),
      (Z.ltb_spec i (from + Z.of_nat (Z.to_nat (n - 1 - from)))),
      (Z.ltb_spec i (n - 1)); cbn [andb]; try reflexivity; lia.
Qed.

Lemma edit_enter w ta ls e line :
  key (base e) = TUI_KEY_ENTER ->
  line_at ls (cursor_row ta) = Some line ->
  line_count ta < line_capacity ta ->
  Z.of_nat (length line) < ta_max_len ta ->
  textarea_edit w ta ls e true
  = (<[Z.to_nat (cursor_row ta)
       := Some (take (Z.to_nat (cursor_col ta)) line)]>
       (<[Z.to_nat (cursor_row ta + 1)
          := Some (drop (Z.to_nat (cursor_col ta)) line)]>
          (shift_down ls (cursor_row ta) (line_count ta))),
     set_scroll_row (scroll_down_to w (cursor_row ta + 1) (scroll_row ta))
       (set_cursor_col 0
          (set_cursor_row (cursor_row ta + 1)
             (set_line_count (line_count ta + 1) ta))),
     true).
Proof.
  intros K Hl Hc Hm. unfold textarea_edit. fold (ta_max_len ta).
  rewrite K, Hl.
  destruct (Z.ltb_spec (line_count ta) (line_capacity ta)); [|lia].
  rewrite (take_ge (drop (Z.to_nat (cursor_col ta)) line))
    by (rewrite length_drop; lia).
  reflexivity.
Qed.

Lemma edit_backspace_join w ta ls e ok line prev :
  key (base e) = TUI_KEY_BACKSPACE ->
  line_at ls (cursor_row ta) = Some line ->
  cursor_col ta = 0 -> 0 < cursor_row ta ->
  line_at ls (cursor_row ta - 1) = Some prev ->
  Z.of_nat (length prev) + Z.of_nat (length line) < ta_max_len ta ->
  textarea_edit w ta ls e ok
  = (shift_up (<[Z.to_nat (cursor_row ta - 1) := Some (prev ++ line)]> ls)
              (cursor_row ta) (line_count ta),
     set_scroll_row (scroll_up_to (cursor_row ta - 1) (scroll_row ta))
       (set_cursor_col (Z.of_nat (length prev))
          (set_cursor_row (cursor_row ta - 1)
             (set_line_count (line_count ta - 1) ta))),
     true).
Proof.
  intros K Hl Hc Hr Hp Hm. unfold textarea_edit. fold (ta_max_len ta).
  rewrite K, Hl, Hp, Hc. cbn [line_len].
  change (0 <? 0) with false. change (0 =? 0) with true. cbn [andb].
  destruct (Z.ltb_spec 0 (cursor_row ta)); [|lia].
  destruct (Z.ltb_spec (Z.of_nat (length prev) + Z.of_nat (length line))
              (ta_max_len ta)); [|lia].
  reflexivity.
Qed.

(** X23.  On an editable text area with room for one more line, Enter
    followed by Backspace gives the text back: the line that Enter split
    at the cursor is joined again, the lines below return to their rows,
    the line count and the cursor are as before.  (The scroll position may
    have followed the cursor, and the slot after the last line keeps a
    stale pointer.) *)
Theorem textarea_backspace_undoes_enter ws w e_enter e_bs ta ls line :
  w_state w = TextareaState ta -> lines ta = Some ls -> text_ok ta ls ->
  editable ta = true ->
  line_at ls (cursor_row ta) = Some line ->
  line_count ta < line_capacity ta ->
  type (base e_enter) = TUI_EVENT_KEY -> key (base e_enter) = TUI_KEY_ENTER ->
  type (base e_bs) = TUI_EVENT_KEY -> key (base e_bs) = TUI_KEY_BACKSPACE ->
  exists ta2 ls2,
    tui_widget_handle_textarea_input ws
      (fst (tui_widget_handle_textarea_input ws w e_enter true)) e_bs true
    = (set_w_state (TextareaState ta2) w, true)
    /\ lines ta2 = Some ls2
    /\ line_count ta2 = line_count ta
    /\ cursor_row ta2 = cursor_row ta
    /\ cursor_col ta2 = cursor_col ta
    /\ (forall i, 0 <= i < line_count ta -> line_at ls2 i = line_at ls i).
Proof.
  intros Hst Hls H Hed Hl Hcap Te Ke Tb Kb.
  pose proof H as [A B C D E]. rewrite Hl in D. cbn [line_len] in D.
  destruct (line_ok_at _ _ _ _ E Hl) as [Ln Lm].
  set (row := cursor_row ta) in *. set (col := cursor_col ta) in *.
  rewrite (textarea_key_edit ws w e_enter true ta ls Hst Hls);
    [|lia|exact Te|unfold textarea_navigate; rewrite Ke; reflexivity|exact Hed].
  rewrite (edit_enter w ta ls e_enter line Ke Hl Hcap Lm). cbn [fst snd].
  fold row. fold col.
  set (ls0 := shift_down ls row (line_count ta)).
  set (ls3 := <[Z.to_nat row := Some (take (Z.to_nat col) line)]>
               (<[Z.to_nat (row + 1) := Some (drop (Z.to_nat col) line)]> ls0)).
  set (ta1 := set_lines (Some ls3)
                (set_scroll_row (scroll_down_to w (row + 1) (scroll_row ta))
                   (set_cursor_col 0
                      (set_cursor_row (row + 1)
                         (set_line_count (line_count ta + 1) ta))))).
  assert (L0 : length ls0 = length ls) by apply shift_down_length.
  assert (L3 : length ls3 = length ls)
    by (unfold ls3; rewrite !length_insert; exact L0).
  assert (R1 : cursor_row ta1 = row + 1) by reflexivity.
  assert (Hcur : line_at ls3 (cursor_row ta1)
                 = Some (drop (Z.to_nat col) line)).
  { rewrite R1. unfold ls3. rewrite line_at_insert_other by lia.
    apply line_at_insert_same. lia. }
  assert (Hprev : line_at ls3 (cursor_row ta1 - 1)
                  = Some (take (Z.to_nat col) line)).
  { rewrite R1. replace (row + 1 - 1) with row by lia. unfold ls3.
    apply line_at_insert_same. rewrite length_insert. lia. }
  assert (Hfit : Z.of_nat (length (take (Z.to_nat col) line))
                 + Z.of_nat (length (drop (Z.to_nat col) line))
                 < ta_max_len ta1).
  { rewrite length_take, length_drop.
    change (ta_max_len ta1) with (ta_max_len ta). lia. }
  rewrite (textarea_key_edit ws (set_w_state (TextareaState ta1) w) e_bs true
             ta1 ls3 eq_refl eq_refl);
    [|unfold ta1; ta_simpl; lia|exact Tb
     |unfold textarea_navigate; rewrite Kb; reflexivity|exact Hed].
  rewrite (edit_backspace_join _ ta1 ls3 e_bs true _ _ Kb Hcur eq_refl
             ltac:(rewrite R1; lia) Hprev Hfit).
  cbn [fst snd]. rewrite set_w_state_twice. rewrite take_drop.
  eexists _, _. split; [reflexivity|]. split; [reflexivity|].
  unfold ta1. ta_simpl. split; [lia|]. split; [lia|].
  split; [rewrite length_take; lia|].
  intros i Hi. replace (row + 1 - 1) with row by lia.
  rewrite shift_up_spec by (rewrite ?length_insert, ?L3; lia).
  destruct (Z.leb_spec (row + 1) i) as [Hlo|Hlo].
  - destruct (Z.ltb_spec i (line_count ta + 1 - 1)); [|lia]. cbn [andb].
    rewrite line_at_insert_other by lia. unfold ls3.
    rewrite !line_at_insert_other by lia. unfold ls0.
    rewrite shift_down_spec by lia.
    destruct (Z.leb_spec (row + 2) (i + 1)); [|lia].
    destruct (Z.leb_spec (i + 1) (line_count ta)); [|lia]. cbn [andb].
    replace (i + 1 - 1) with i by lia. reflexivity.
  - cbn [andb]. destruct (Z.eq_dec i row) as [->|Hne].
    + rewrite line_at_insert_same by (rewrite L3; lia).
      symmetry. exact Hl.
    + rewrite line_at_insert_other by lia. unfold ls3.
      rewrite !line_at_insert_other by lia. unfold ls0.
      rewrite shift_down_spec by lia.
      destruct (Z.leb_spec (row + 2) i); [lia|]. reflexivity.
Qed.

Lemma textarea_backspace_undoes_enter_witness :
  text_ok hello_state [Some (bytes "Hello World"); None; None; None]
  /\ exists ta2 ls2,
       tui_widget_handle_textarea_input [hello_textarea]
         (fst (tui_widget_handle_textarea_input [hello_textarea]
                 hello_textarea (at_target (key_press TUI_KEY_ENTER 0) 0)
                 true))
         (at_target (key_press TUI_KEY_BACKSPACE 0) 0) true
       = (set_w_state (TextareaState ta2) hello_textarea, true)
       /\ lines ta2 = Some ls2
       /\ line_count ta2 = 1
       /\ cursor_row ta2 = 0
       /\ cursor_col ta2 = 5
       /\ (forall i, 0 <= i < 1 ->
             line_at ls2 i
             = line_at [Some (bytes "Hello World"); None; None; None] i).
Proof.
  split; [exact hello_text_ok|].
  apply (textarea_backspace_undoes_enter [hello_textarea] hello_textarea
           (at_target (key_press TUI_KEY_ENTER 0) 0)
           (at_target (key_press TUI_KEY_BACKSPACE 0) 0) hello_state
           [Some (bytes "Hello World"); None; None; None]
           (bytes "Hello World") eq_refl eq_refl hello_text_ok eq_refl
           eq_refl);
    try reflexivity; cbn; lia.
Defined.


(** ** Typed characters *)

Lemma lead_len_table b : 0 <= b < 256 -> lead_len b = lead_len_by_range b.
Proof.
  intros H. apply Z.eqb_eq.
  apply (below_bound (fun b => lead_len b =? lead_len_by_range b) 256);
    [vm_compute; reflexivity|exact H].
Qed.

(** A byte that is no control byte, no space, no DEL: the decoder takes it
    for the start of a character. *)
Lemma parse_plain_byte av peek ev :
  1 <= av -> 33 <= peek 0 -> peek 0 <> 127 ->
  parse_escape_sequence av peek ev = parse_char av peek (peek 0) (reset_event ev).
Proof.
  intros Ha Hb Hd. unfold parse_escape_sequence.
  destruct (Z.ltb_spec av 1); [lia|]. cbv zeta.
  destruct (Z.eqb_spec (peek 0) 27); [lia|].
  destruct (Z.eqb_spec (peek 0) 13); [lia|].
  destruct (Z.eqb_spec (peek 0) 10); [lia|]. cbn [orb].
  destruct (Z.eqb_spec (peek 0) 127); [lia|].
  destruct (Z.eqb_spec (peek 0) 8); [lia|]. cbn [orb].
  destruct (Z.eqb_spec (peek 0) 9); [lia|].
  destruct (Z.eqb_spec (peek 0) 32); [lia|].
  destruct (Z.eqb_spec (peek 0) 0); [lia|].
  destruct (Z.leb_spec 1 (peek 0)); [|lia].
  destruct (Z.leb_spec (peek 0) 26); [lia|]. reflexivity.
Qed.

Lemma parse_char_emits av peek b0 ev n :
  lead_len b0 = n -> 1 <= n <= av ->
  parse_char av peek b0 ev
  = Emitted n None
      (set_ch (snd (tui_utf8_decode (map peek (seqZ 0 n))))
              (key_event TUI_KEY_CHAR ev)).
Proof.
  intros Hn Hav.
  change (parse_char av peek b0 ev)
    with (let len := lead_len b0 in
          if len =? 0 then Dropped 1
          else if av <? len then Incomplete
          else Emitted len None
                 (set_ch (snd (tui_utf8_decode (map peek (seqZ 0 len))))
                         (key_event TUI_KEY_CHAR ev))).
  cbv zeta. rewrite Hn.
  destruct (Z.eqb_spec n 0); [lia|]. destruct (Z.ltb_spec av n); [lia|].
  reflexivity.
Qed.

Lemma peek_all l m :
  map (list_peek (l ++ m)) (seqZ 0 (Z.of_nat (length l))) = l.
Proof.
  apply list_eq. intros i. change map with (@fmap list _) at 1.
  rewrite list_lookup_fmap.
  destruct (Nat.lt_ge_cases i (length l)) as [Hlt|Hge].
  - rewrite lookup_seqZ_lt by lia. cbn [fmap option_fmap option_map].
    unfold list_peek. rewrite Z.add_0_l, Nat2Z.id.
    rewrite lookup_app_l by exact Hlt.
    destruct (lookup_lt_is_Some_2 l i Hlt) as [x ->]. reflexivity.
  - rewrite lookup_seqZ_ge by lia. rewrite lookup_ge_None_2 by exact Hge.
    reflexivity.
Qed.

(** The first byte of an encoded character tells the decoder how long
    the encoding is. *)
Lemma encode_lead cp :
  0 <= cp < 0x110000 ->
  exists b0 tl,
    tui_utf8_encode cp = b0 :: tl
    /\ (if cp <? 128 then b0 = cp else 192 <= b0 < 248)
    /\ lead_len b0 = Z.of_nat (length (b0 :: tl))
    /\ tui_utf8_decode (b0 :: tl) = (Z.of_nat (length (b0 :: tl)), cp).
Proof.
  intros H. unfold tui_utf8_encode.
  destruct (Z.ltb_spec cp 128) as [H1|H1].
  { exists cp, []. split; [reflexivity|]. split; [reflexivity|]. split.
    - rewrite lead_len_table by lia. unfold lead_len_by_range.
      destruct (Z.ltb_spec cp 128); [reflexivity|lia].
    - cbn [tui_utf8_decode length].
      destruct (Z.ltb_spec cp 128); [reflexivity|lia]. }
  destruct (Z.ltb_spec cp 2048) as [H2|H2].
  { eexists _, _. split; [reflexivity|].
    assert (T : 0 <= cp / 64 < 32) by (Z.div_mod_to_equations; lia).
    assert (B : Z.lor 192 (Z.shiftr cp 6) = 192 + cp / 64).
    { rewrite (shiftr_div cp 6) by lia. change (2 ^ 6) with 64.
      change 192 with (3 * 2 ^ 6). apply lor_low; simpl; lia. }
    rewrite B. split; [lia|]. split.
    - rewrite lead_len_table by lia. unfold lead_len_by_range.
      destruct (Z.ltb_spec (192 + cp / 64) 128); [lia|].
      destruct (Z.ltb_spec (192 + cp / 64) 192); [lia|].
      destruct (Z.ltb_spec (192 + cp / 64) 224); [reflexivity|lia].
    - rewrite <- B. cbn [length].
      rewrite <- (app_nil_r [_; _]). apply decode_two. lia. }
  destruct (Z.ltb_spec cp 65536) as [H3|H3].
  { eexists _, _. split; [reflexivity|].
    assert (T : 0 <= cp / 4096 < 16) by (Z.div_mod_to_equations; lia).
    assert (B : Z.lor 224 (Z.shiftr cp 12) = 224 + cp / 4096).
    { rewrite (shiftr_div cp 12) by lia. change (2 ^ 12) with 4096.
      change 224 with (7 * 2 ^ 5). apply lor_low; simpl; lia. }
    rewrite B. split; [lia|]. split.
    - rewrite lead_len_table by lia. unfold lead_len_by_range.
      destruct (Z.ltb_spec (224 + cp / 4096) 128); [lia|].
      destruct (Z.ltb_spec (224 + cp / 4096) 192); [lia|].
      destruct (Z.ltb_spec (224 + cp / 4096) 224); [lia|].
      destruct (Z.ltb_spec (224 + cp / 4096) 240); [reflexivity|lia].
    - rewrite <- B. cbn [length].
      rewrite <- (app_nil_r [_; _; _]). apply decode_three. lia. }
  destruct (Z.ltb_spec cp 1114112) as [H4|H4]; [|lia].
  eexists _, _. split; [reflexivity|].
  assert (T : 0 <= cp / 262144 < 8) by (Z.div_mod_to_equations; lia).
  assert (B : Z.lor 240 (Z.shiftr cp 18) = 240 + cp / 262144).
  { rewrite (shiftr_div cp 18) by lia. change (2 ^ 18) with 262144.
    change 240 with (15 * 2 ^ 4). apply lor_low; simpl; lia. }
  rewrite B. split; [lia|]. split.
  - rewrite lead_len_table by lia. unfold lead_len_by_range.
    destruct (Z.ltb_spec (240 + cp / 262144) 128); [lia|].
    destruct (Z.ltb_spec (240 + cp / 262144) 192); [lia|].
    destruct (Z.ltb_spec (240 + cp / 262144) 224); [lia|].
    destruct (Z.ltb_spec (240 + cp / 262144) 240); [lia|].
    destruct (Z.ltb_spec (240 + cp / 262144) 248); [reflexivity|lia].
  - rewrite <- B. cbn [length].
    rewrite <- (app_nil_r [_; _; _; _]). apply decode_four. lia.
Qed.

(** One typed character at the head of a stream. *)
Lemma char_decodes cp rest :
  typed cp ->
  decode_list (tui_utf8_encode cp ++ rest)
  = Emitted (Z.of_nat (length (tui_utf8_encode cp))) None
            (key_press TUI_KEY_CHAR cp).
Proof.
  intros [Hr Hdel].
  destruct (encode_lead cp) as (b0 & tl & E & Hb & Hl & Hdec); [lia|].
  assert (Hb' : 33 <= b0 /\ b0 <> 127).
  { destruct (Z.ltb_spec cp 128); [subst b0; lia|lia]. }
  destruct Hb' as [Hb1 Hb2].
  rewrite E. unfold decode_list.
  assert (P0 : list_peek ((b0 :: tl) ++ rest) 0 = b0) by reflexivity.
  rewrite parse_plain_byte;
    [|rewrite length_app; cbn [length]; lia|rewrite P0; exact Hb1
     |rewrite P0; exact Hb2].
  rewrite P0.
  rewrite (parse_char_emits _ _ b0 _ (Z.of_nat (length (b0 :: tl))) Hl)
    by (rewrite length_app; cbn [length]; lia).
  rewrite peek_all, Hdec. reflexivity.
Qed.

(** X24.  Text typed at the terminal arrives as it was typed: when the
    input is the UTF-8 encoding, as [tui_utf8_encode] writes it, of a
    sequence of code points that are printable characters of their own
    (33 or above, not DEL, below 0x110000), the decoder turns it into one
    character key event per code point, in order, each with its code point
    and no modifier, drops no byte and keeps none back; [tui_poll_event]
    called until it answers 0 delivers exactly these events. *)
Theorem typed_text_arrives cps :
  Forall typed cps ->
  events_of (flat_map tui_utf8_encode cps) = map (key_press TUI_KEY_CHAR) cps
  /\ rest_of (flat_map tui_utf8_encode cps) = []
  /\ forall c ev,
       ring_wf c -> ring_contents c = [] -> tty_in c = [] ->
       feed_at_once c ev (flat_map tui_utf8_encode cps)
       = map (key_press TUI_KEY_CHAR) cps.
Proof.
  intros H.
  assert (A : events_of (flat_map tui_utf8_encode cps)
              = map (key_press TUI_KEY_CHAR) cps
              /\ rest_of (flat_map tui_utf8_encode cps) = []).
  { induction H as [|cp cps Hcp _ IH].
    - cbn [flat_map map]. destruct (events_incomplete [] decode_nil) as [-> ->].
      split; reflexivity.
    - cbn [flat_map map].
      destruct (events_emitted _ _ _ _
                  (char_decodes cp (flat_map tui_utf8_encode cps) Hcp))
        as [-> ->].
      rewrite Nat2Z.id, drop_app_length. destruct IH as [-> ->].
      split; reflexivity. }
  destruct A as [A1 A2]. split; [exact A1|]. split; [exact A2|].
  intros c ev W R T. rewrite (feed_at_once_events c ev _ W), R, T.
  exact A1.
Qed.

Lemma typed_text_arrives_witness :
  Forall typed [0x20AC; 0x41]
  /\ flat_map tui_utf8_encode [0x20AC; 0x41] = [0xE2; 0x82; 0xAC; 0x41]
  /\ events_of (flat_map tui_utf8_encode [0x20AC; 0x41])
     = [key_press TUI_KEY_CHAR 0x20AC; key_press TUI_KEY_CHAR 0x41].
Proof.
  assert (H : Forall typed [0x20AC; 0x41])
    by (repeat constructor; unfold typed; lia).
  split; [exact H|]. split; [reflexivity|].
  exact (proj1 (typed_text_arrives [0x20AC; 0x41] H)).
Defined.

(** ** Text measure *)

Lemma text_char_len_lead b : lead_len b <> 0 -> text_char_len b = lead_len b.
Proof.
  unfold text_char_len, lead_len.
  destruct (Z.land b 128 =? 0); [reflexivity|].
  destruct (Z.land b 224 =? 192); [reflexivity|].
  destruct (Z.land b 240 =? 224); [reflexivity|].
  destruct (Z.land b 248 =? 240); [reflexivity|]. intros H. contradiction.
Qed.

Lemma text_width_chars cps : forall pre w fuel,
  Forall (fun cp => 0 < cp < 0x110000) cps ->
  (length (flat_map tui_utf8_encode cps) <= fuel)%nat ->
  text_width_loop fuel (pre ++ flat_map tui_utf8_encode cps)
                  (Z.of_nat (length pre)) w
  = w + Z.of_nat (length cps).
Proof.
  induction cps as [|cp cps IH]; intros pre w fuel HF Hfuel.
  - cbn [flat_map length]. rewrite app_nil_r.
    destruct fuel as [|fuel]; cbn [text_width_loop]; [lia|].
    destruct (Z.ltb_spec (Z.of_nat (length pre)) (Z.of_nat (length pre)));
      lia.
  - inversion HF as [|? ? Hcp HF']; subst. cbn [flat_map] in *.
    destruct (encode_lead cp) as (b0 & tl & E & _ & Hl & _); [lia|].
    rewrite E in *. rewrite length_app in Hfuel. cbn [length] in Hfuel.
    destruct fuel as [|fuel]; [lia|]. cbn [text_width_loop].
    destruct (Z.ltb_spec (Z.of_nat (length pre))
                (Z.of_nat (length (pre ++ (b0 :: tl)
                                     ++ flat_map tui_utf8_encode cps))))
      as [_|Hge]; [|rewrite !length_app in Hge; cbn [length] in Hge; lia].
    rewrite Nat2Z.id, lookup_app_r, Nat.sub_diag by lia.
    cbn [app lookup list_lookup default from_option id].
    rewrite text_char_len_lead by (rewrite Hl; cbn [length]; lia).
    rewrite Hl. rewrite <- Nat2Z.inj_add, <- length_app.
    change (pre ++ b0 :: tl ++ flat_map tui_utf8_encode cps)
      with (pre ++ (b0 :: tl) ++ flat_map tui_utf8_encode cps).
    rewrite (app_assoc pre (b0 :: tl)).
    rewrite IH; [cbn [length]; lia|exact HF'|lia].
Qed.

(** X25.  [tui_text_width] counts characters, not columns: for a string
    that is the UTF-8 encoding of a sequence of code points (none of them
    0, each below 0x110000) it answers the number of code points, a
    double-width or a combining character counting 1 like any other; for
    [NULL] it answers 0. *)
Theorem text_width_counts_code_points cps :
  Forall (fun cp => 0 < cp < 0x110000) cps ->
  tui_text_width (Some (flat_map tui_utf8_encode cps)) = Z.of_nat (length cps)
  /\ tui_text_width None = 0.
Proof.
  intros H. split; [|reflexivity]. unfold tui_text_width.
  exact (text_width_chars cps [] 0 _ H (Nat.le_refl _)).
Qed.

Lemma text_width_counts_code_points_witness :
  Forall (fun cp => 0 < cp < 0x110000) [0x4E2D; 0x301; 0x41]
  /\ map tui_char_width [0x4E2D; 0x301; 0x41] = [2; 0; 1]
  /\ tui_text_width (Some (flat_map tui_utf8_encode [0x4E2D; 0x301; 0x41]))
     = 3.
Proof.
  assert (H : Forall (fun cp => 0 < cp < 0x110000) [0x4E2D; 0x301; 0x41])
    by (repeat constructor; lia).
  split; [exact H|]. split; [reflexivity|].
  exact (proj1 (text_width_counts_code_points [0x4E2D; 0x301; 0x41] H)).
Defined.


(** ** Base64 *)

Lemma list_ind3 (P : list Z -> Prop) :
  P [] -> (forall a, P [a]) -> (forall a b, P [a; b]) ->
  (forall a b c l, P l -> P (a :: b :: c :: l)) ->
  forall l, P l.
Proof.
  intros H0 H1 H2 H3.
  assert (A : forall l, P l /\ (forall a, P (a :: l))
                        /\ (forall a b, P (a :: b :: l))).
  { induction l as [|x l (IH0 & IH1 & IH2)].
    - split; [exact H0|]. split; [exact H1|exact H2].
    - split; [apply IH1|]. split; [intros a; apply IH2|].
      intros a b. apply H3. exact IH0. }
  intros l. exact (proj1 (A l)).
Qed.

Lemma base64_char_index i :
  0 <= i < 64 -> base64_index (base64_char i) = i /\ base64_char i <> 61.
Proof.
  intros H.
  assert (E : (base64_index (base64_char i) =? i)
              && negb (base64_char i =? 61) = true).
  { apply (below_bound (fun i => (base64_index (base64_char i) =? i)
                                 && negb (base64_char i =? 61)) 64);
      [vm_compute; reflexivity|exact H]. }
  apply andb_true_iff in E. destruct E as [E1 E2].
  apply Z.eqb_eq in E1. apply negb_true_iff, Z.eqb_neq in E2. auto.
Qed.

(** The four six-bit groups of three bytes. *)
Lemma base64_quad_groups a0 a1 a2 :
  is_byte a0 -> is_byte a1 -> is_byte a2 ->
  base64_quad a0 a1 a2
  = [a0 / 4; (a0 mod 4) * 16 + a1 / 16; (a1 mod 16) * 4 + a2 / 64;
     a2 mod 64].
Proof.
  unfold is_byte, base64_quad. intros H0 H1 H2.
  rewrite !low6. rewrite !shiftr_div by lia. rewrite !Z.shiftl_mul_pow2 by lia.
  rewrite (lor_low a0 4 (a1 / 2 ^ 4))
    by (change (2 ^ 4) with 16; Z.div_mod_to_equations; lia).
  rewrite (lor_low a1 2 (a2 / 2 ^ 6))
    by (change (2 ^ 6) with 64; change (2 ^ 2) with 4;
        Z.div_mod_to_equations; lia).
  change (2 ^ 4) with 16. change (2 ^ 2) with 4. change (2 ^ 6) with 64.
  f_equal; [Z.div_mod_to_equations; lia|].
  f_equal; [Z.div_mod_to_equations; lia|].
  f_equal. Z.div_mod_to_equations. lia.
Qed.

Lemma base64_put_room size out cs :
  Z.of_nat (length out) + Z.of_nat (length cs) <= size - 1 ->
  base64_put size out cs = out ++ cs.
Proof.
  intros H. unfold base64_put. rewrite take_ge by lia. reflexivity.
Qed.

Lemma base64_put_bound size out cs :
  Z.of_nat (length out) <= size - 1 ->
  Z.of_nat (length (base64_put size out cs)) <= size - 1.
Proof.
  intros H. unfold base64_put. rewrite length_app, length_take. lia.
Qed.

Lemma base64_loop_bound size input : forall out,
  Z.of_nat (length out) <= size - 1 ->
  Z.of_nat (length (base64_loop input size out)) <= size - 1.
Proof.
  induction input as [|a|a b|a b c l IH] using list_ind3; intros out H;
    cbn [base64_loop].
  - exact H.
  - apply base64_put_bound, base64_put_bound. exact H.
  - apply base64_put_bound, base64_put_bound. exact H.
  - apply IH, base64_put_bound. exact H.
Qed.

Lemma base64_length_step n :
  base64_length (S (S (S n))) = base64_length n + 4.
Proof. unfold base64_length. Z.div_mod_to_equations. lia. Qed.

Lemma base64_length_nonneg n : 0 <= base64_length n.
Proof. unfold base64_length. Z.div_mod_to_equations. lia. Qed.

Lemma base64_text_length input :
  Z.of_nat (length (base64_text input)) = base64_length (length input).
Proof.
  induction input as [|a|a b|a b c l IH] using list_ind3.
  - reflexivity.
  - reflexivity.
  - reflexivity.
  - change (base64_text (a :: b :: c :: l))
      with (map base64_char (base64_quad a b c) ++ base64_text l).
    rewrite length_app, Nat2Z.inj_add, IH.
    change (length (a :: b :: c :: l)) with (S (S (S (length l)))).
    rewrite base64_length_step, length_map. cbn [base64_quad length]. lia.
Qed.

Lemma base64_loop_room size input : forall out,
  Z.of_nat (length out) + base64_length (length input) <= size - 1 ->
  base64_loop input size out = out ++ base64_text input.
Proof.
  induction input as [|a|a b|a b c l IH] using list_ind3; intros out H.
  - cbn [base64_loop base64_text]. rewrite app_nil_r. reflexivity.
  - change (base64_length (length [a])) with 4 in H.
    cbn [base64_loop base64_text].
    rewrite (base64_put_room size out) by (rewrite ?length_map, ?length_take; cbn [base64_quad length]; lia).
    rewrite base64_put_room
      by (rewrite ?length_app, ?length_map, ?length_take; cbn [base64_quad length]; lia).
    rewrite <- app_assoc. reflexivity.
  - change (base64_length (length [a; b])) with 4 in H.
    cbn [base64_loop base64_text].
    rewrite (base64_put_room size out) by (rewrite ?length_map, ?length_take; cbn [base64_quad length]; lia).
    rewrite base64_put_room
      by (rewrite ?length_app, ?length_map, ?length_take; cbn [base64_quad length]; lia).
    rewrite <- app_assoc. reflexivity.
  - change (length (a :: b :: c :: l)) with (S (S (S (length l)))) in H.
    rewrite base64_length_step in H.
    pose proof (base64_length_nonneg (length l)) as Hn.
    change (base64_loop (a :: b :: c :: l) size out)
      with (base64_loop l size
              (base64_put size out (map base64_char (base64_quad a b c)))).
    change (base64_text (a :: b :: c :: l))
      with (map base64_char (base64_quad a b c) ++ base64_text l).
    rewrite base64_put_room by (rewrite ?length_map; cbn [base64_quad length]; lia).
    rewrite IH by (rewrite ?length_app, ?length_map; cbn [base64_quad length]; lia).
    rewrite <- app_assoc. reflexivity.
Qed.

Lemma base64_inverse_text input :
  Forall is_byte input -> base64_inverse (base64_text input) = input.
Proof.
  induction input as [|a|a b|a b c l IH] using list_ind3; intros HF.
  - reflexivity.
  - inversion HF as [|? ? Ha _]; subst.
    assert (Hz : is_byte 0) by (unfold is_byte; lia).
    cbn [base64_text]. rewrite (base64_quad_groups a 0 0 Ha Hz Hz).
    cbn [take map app base64_inverse]. unfold is_byte in Ha.
    destruct (base64_char_index (a / 4)) as [-> _];
      [Z.div_mod_to_equations; lia|].
    destruct (base64_char_index (a mod 4 * 16 + 0 / 16)) as [-> _];
      [Z.div_mod_to_equations; lia|].
    change (61 =? 61) with true. cbv iota.
    f_equal. Z.div_mod_to_equations. lia.
  - inversion HF as [|? ? Ha HF']; subst.
    inversion HF' as [|? ? Hb _]; subst.
    assert (Hz : is_byte 0) by (unfold is_byte; lia).
    cbn [base64_text]. rewrite (base64_quad_groups a b 0 Ha Hb Hz).
    cbn [take map app base64_inverse]. unfold is_byte in Ha, Hb.
    destruct (base64_char_index (a / 4)) as [-> _];
      [Z.div_mod_to_equations; lia|].
    destruct (base64_char_index (a mod 4 * 16 + b / 16)) as [-> _];
      [Z.div_mod_to_equations; lia|].
    destruct (base64_char_index (b mod 16 * 4 + 0 / 64)) as [-> N2];
      [Z.div_mod_to_equations; lia|].
    destruct (Z.eqb_spec (base64_char (b mod 16 * 4 + 0 / 64)) 61);
      [contradiction|].
    change (61 =? 61) with true. cbv iota.
    f_equal; [Z.div_mod_to_equations; lia|].
    f_equal. Z.div_mod_to_equations. lia.
  - inversion HF as [|? ? Ha HF1]; subst.
    inversion HF1 as [|? ? Hb HF2]; subst.
    inversion HF2 as [|? ? Hc HF3]; subst.
    change (base64_text (a :: b :: c :: l))
      with (map base64_char (base64_quad a b c) ++ base64_text l).
    rewrite (base64_quad_groups a b c Ha Hb Hc).
    cbn [map app base64_inverse]. unfold is_byte in Ha, Hb, Hc.
    destruct (base64_char_index (a / 4)) as [-> _];
      [Z.div_mod_to_equations; lia|].
    destruct (base64_char_index (a mod 4 * 16 + b / 16)) as [-> _];
      [Z.div_mod_to_equations; lia|].
    destruct (base64_char_index (b mod 16 * 4 + c / 64)) as [-> N2];
      [Z.div_mod_to_equations; lia|].
    destruct (base64_char_index (c mod 64)) as [-> N3];
      [Z.div_mod_to_equations; lia|].
    destruct (Z.eqb_spec (base64_char (b mod 16 * 4 + c / 64)) 61);
      [contradiction|].
    destruct (Z.eqb_spec (base64_char (c mod 64)) 61); [contradiction|].
    rewrite (IH HF3).
    f_equal; [Z.div_mod_to_equations; lia|].
    f_equal; [Z.div_mod_to_equations; lia|].
    f_equal. Z.div_mod_to_equations. lia.
Qed.

(** X26.  [tui_base64_encode] never writes past its buffer: the string it
    leaves is at most [output_size - 1] characters long, which leaves room
    for the terminator.  When the buffer has room for the whole encoding,
    as it has with the size [tui_clipboard_set] allocates, the string has
    four characters for every three bytes begun, and the encoding is
    lossless: inputs that differ never have the same encoding. *)
Theorem base64_encode_fits_and_is_lossless input output_size :
  Forall is_byte input -> 1 <= output_size ->
  Z.of_nat (length (tui_base64_encode input output_size)) <= output_size - 1
  /\ (base64_length (length input) < output_size ->
      Z.of_nat (length (tui_base64_encode input output_size))
      = base64_length (length input)
      /\ forall input' output_size',
           Forall is_byte input' ->
           base64_length (length input') < output_size' ->
           tui_base64_encode input' output_size'
           = tui_base64_encode input output_size ->
           input' = input).
Proof.
  intros HF Hs. unfold tui_base64_encode. split.
  - apply base64_loop_bound. cbn [length]. lia.
  - intros Hroom.
    rewrite (base64_loop_room output_size input [])
      by (cbn [length]; lia).
    cbn [app]. split; [apply base64_text_length|].
    intros input' size' HF' Hroom' E.
    rewrite (base64_loop_room size' input' []) in E by (cbn [length]; lia).
    cbn [app] in E.
    rewrite <- (base64_inverse_text input HF), <- E.
    symmetry. apply base64_inverse_text. exact HF'.
Qed.

Lemma base64_encode_fits_and_is_lossless_witness :
  Forall is_byte (bytes "Hi!?")
  /\ tui_base64_encode (bytes "Hi!?") 9 = bytes "SGkhPw=="
  /\ tui_base64_encode (bytes "Hi!?") 4 = bytes "SGk"
  /\ Z.of_nat (length (tui_base64_encode (bytes "Hi!?") 4)) <= 4 - 1.
Proof.
  assert (H : Forall is_byte (bytes "Hi!?")).
  { apply Forall_forall. intros b Hb. vm_compute in Hb.
    repeat (apply elem_of_cons in Hb; destruct Hb as [->|Hb];
            [unfold is_byte; lia|]).
    inversion Hb. }
  split; [exact H|]. split; [reflexivity|]. split; [reflexivity|].
  exact (proj1 (base64_encode_fits_and_is_lossless (bytes "Hi!?") 4 H
                  ltac:(lia))).
Defined.


(** ** Resize events *)

Lemma terminal_size_same c ws :
  width (tui_get_terminal_size c ws) = width c ->
  height (tui_get_terminal_size c ws) = height c ->
  tui_get_terminal_size c ws = c.
Proof.
  destruct (get_terminal_size_shape c ws) as (w & h & -> & _ & _).
  cbn [width height set_width set_height]. intros -> ->.
  destruct c. reflexivity.
Qed.

(** X27.  A resize is reported before any input and costs none.  When the
    resize signal has been received and the terminal size, cut down to
    512 x 256, differs from the one the context holds, [tui_poll_event]
    answers 1 with a RESIZE event that carries the new size, takes the new
    size over, marks the context as resized and due for a full redraw, and
    neither reads from the terminal nor touches the input ring.  When the
    size is the same, the call goes on exactly as if no signal had been
    received. *)
Theorem resize_is_reported_first c ev ws :
  (width (tui_get_terminal_size c ws) <> width c
   \/ height (tui_get_terminal_size c ws) <> height c ->
   exists c' ev',
     ctx_poll_event c ev (Some ws) = (c', 1, ev')
     /\ type ev' = TUI_EVENT_RESIZE /\ key ev' = TUI_KEY_NONE
     /\ new_width ev' = width c' /\ new_height ev' = height c'
     /\ 0 < width c' <= TUI_MAX_WIDTH /\ 0 < height c' <= TUI_MAX_HEIGHT
     /\ c' = set_needs_redraw true
               (set_resized true (set_height (height c')
                                    (set_width (width c') c))))
  /\ (width (tui_get_terminal_size c ws) = width c ->
      height (tui_get_terminal_size c ws) = height c ->
      ctx_poll_event c ev (Some ws) = ctx_poll_event c ev None).
Proof.
  split.
  - intros Hne. unfold ctx_poll_event. cbv zeta.
    destruct (get_terminal_size_shape c ws) as (w & h & E & Hw & Hh).
    rewrite E in *. cbn [width height set_width set_height] in Hne.
    cbn [width height set_width set_height].
    assert (C : negb (w =? width c) || negb (h =? height c) = true).
    { destruct (Z.eqb_spec w (width c)), (Z.eqb_spec h (height c));
        cbn [negb orb]; try reflexivity. destruct Hne; contradiction. }
    rewrite C. eexists _, _. split; [reflexivity|].
    cbn [type key new_width new_height set_type set_new_width set_new_height
         width height set_needs_redraw set_resized set_width set_height].
    repeat split; try lia.
  - intros Hw Hh. unfold ctx_poll_event. cbv zeta.
    rewrite (terminal_size_same c ws Hw Hh). reflexivity.
Qed.

Lemma resize_is_reported_first_witness :
  exists c' ev',
    ctx_poll_event (example_ctx 80 24 false) blank_event (Some (Some (100, 30)))
    = (c', 1, ev')
    /\ type ev' = TUI_EVENT_RESIZE /\ key ev' = TUI_KEY_NONE
    /\ new_width ev' = width c' /\ new_height ev' = height c'
    /\ 0 < width c' <= TUI_MAX_WIDTH /\ 0 < height c' <= TUI_MAX_HEIGHT
    /\ c' = set_needs_redraw true
              (set_resized true
                 (set_height (height c')
                    (set_width (width c') (example_ctx 80 24 false)))).
Proof.
  apply (proj1 (resize_is_reported_first (example_ctx 80 24 false) blank_event
                  (Some (100, 30)))).
  left. cbn [tui_get_terminal_size]. cbn. discriminate.
Defined.

(** ** The path to a widget *)

Lemma build_path_loop_chain ws n : forall w,
  (length (build_path_loop n ws w) <= n)%nat
  /\ (forall t, w = Some t -> (0 < n)%nat ->
        head (build_path_loop n ws w) = Some t)
  /\ (forall i a b,
        build_path_loop n ws w !! i = Some a ->
        build_path_loop n ws w !! S i = Some b -> parent_of ws a = Some b)
  /\ ((length (build_path_loop n ws w) < n)%nat ->
      forall r, last (build_path_loop n ws w) = Some r ->
                parent_of ws r = None).
Proof.
  induction n as [|n IH]; intros w.
  - cbn [build_path_loop length]. split; [lia|]. split; [intros; lia|].
    split; [intros i a b H; discriminate H|]. intros H; lia.
  - destruct w as [t|]; cbn [build_path_loop].
    2: { cbn [length]. split; [lia|]. split; [intros; discriminate|].
         split; [intros i a b H; discriminate H|].
         intros _ r H. discriminate H. }
    fold (parent_of ws t).
    destruct (IH (parent_of ws t)) as (L & Hd & Ch & Rt).
    cbn [length]. split; [lia|].
    split; [intros t' [= <-] _; reflexivity|]. split.
    + intros [|i] a b Ha Hb.
      * cbn in Ha. injection Ha as <-. cbn in Hb.
        destruct n as [|n]; [discriminate Hb|].
        destruct (parent_of ws t) as [p|] eqn:P; [|discriminate Hb].
        pose proof (Hd p eq_refl ltac:(lia)) as Hh.
        destruct (build_path_loop (S n) ws (Some p)) as [|x l];
          [discriminate Hh|].
        cbn in Hh, Hb. congruence.
      * exact (Ch i a b Ha Hb).
    + intros Hlt r Hr.
      destruct (build_path_loop n ws (parent_of ws t)) as [|x l] eqn:El.
      * cbn in Hr. injection Hr as <-.
        destruct n as [|n]; [cbn [length] in Hlt; lia|].
        destruct (parent_of ws t) as [p|] eqn:P; [|reflexivity].
        cbn [build_path_loop] in El. discriminate El.
      * apply Rt; [cbn [length] in *; lia|].
        rewrite <- Hr. symmetry. apply last_cons_cons.
Qed.

(** X28.  [tui_widget_build_path] answers the chain of ancestors that
    ends in the target: the target is the last entry, every entry is the
    parent of the entry after it, and there are at most [max_depth]
    entries.  When there are fewer, the first entry has no parent: the
    path starts at the root.  When the limit is reached, the path is the
    nearest [max_depth] widgets, and the root may be missing. *)
Theorem build_path_is_ancestor_chain ws t d :
  last (tui_widget_build_path ws t (S d)) = Some t
  /\ (length (tui_widget_build_path ws t (S d)) <= S d)%nat
  /\ (forall i p q,
        tui_widget_build_path ws t (S d) !! i = Some p ->
        tui_widget_build_path ws t (S d) !! S i = Some q ->
        parent_of ws q = Some p)
  /\ ((length (tui_widget_build_path ws t (S d)) < S d)%nat ->
      exists r, head (tui_widget_build_path ws t (S d)) = Some r
                /\ parent_of ws r = None).
Proof.
  unfold tui_widget_build_path.
  destruct (build_path_loop_chain ws (S d) (Some t)) as (L & Hd & Ch & Rt).
  set (l := build_path_loop (S d) ws (Some t)) in *.
  pose proof (Hd t eq_refl ltac:(lia)) as Hh.
  split; [rewrite last_reverse; exact Hh|].
  split; [rewrite length_reverse; exact L|]. split.
  - intros i p q Hp Hq.
    assert (Hi : (S i < length l)%nat).
    { apply lookup_lt_Some in Hq. rewrite length_reverse in Hq. exact Hq. }
    rewrite reverse_lookup in Hp by lia. rewrite reverse_lookup in Hq by lia.
    apply (Ch (length l - S (S i))%nat q p Hq).
    replace (S (length l - S (S i))) with (length l - S i)%nat by lia.
    exact Hp.
  - rewrite length_reverse. intros Hlt.
    destruct (last l) as [r|] eqn:El.
    + exists r. split; [rewrite head_reverse; exact El|].
      apply Rt; [exact Hlt|reflexivity].
    + destruct l as [|x l']; [discriminate Hh|].
      apply last_None in El. discriminate El.
Qed.


(** ** Boxes *)

Lemma draw_items_snoc c items it :
  draw_items c (items ++ [it])
  = ctx_set_cell (draw_items c items) (fst (fst it)) (snd (fst it)) (snd it).
Proof. unfold draw_items. rewrite foldl_app. reflexivity. Qed.

(** What a run of [tui_set_cell] calls leaves when no two of them give a
    visible cell different code points. *)
Lemma draw_items_spec c :
  ctx_wf c -> in_frame c = true ->
  forall items,
    draw_items c items = set_back_buffer (back_buffer (draw_items c items)) c
    /\ length (back_buffer (draw_items c items)) = length (back_buffer c)
    /\ (forall px py ch,
          In (px, py, ch) items -> visible c px py ->
          (forall ch', In (px, py, ch') items -> ch' = ch) ->
          back_buffer (draw_items c items) !! cell_index px py
          = Some (pen_cell c ch))
    /\ (forall j, (forall px py ch, In (px, py, ch) items ->
                     visible c px py -> cell_index px py <> j) ->
          back_buffer (draw_items c items) !! j = back_buffer c !! j).
Proof.
  intros Hwf Hin items. induction items as [|[[qx qy] qc] items IH] using rev_ind.
  - unfold draw_items. cbn [foldl]. rewrite set_back_buffer_same.
    split; [reflexivity|]. split; [reflexivity|].
    split; [intros px py ch []|reflexivity].
  - rewrite draw_items_snoc. cbn [fst snd]. destruct IH as (E & L & A & B).
    revert E L A B. generalize (draw_items c items) as c1.
    intros c1 E L A B.
    assert (Hin1 : in_frame c1 = true) by (rewrite E; exact Hin).
    assert (Hw1 : width c1 = width c) by (rewrite E; reflexivity).
    assert (Hh1 : height c1 = height c) by (rewrite E; reflexivity).
    assert (Hpen : forall ch, pen_cell c1 ch = pen_cell c ch)
      by (intros ch; rewrite E; reflexivity).
    assert (Hvis : forall a b, visible c1 a b <-> visible c a b)
      by (intros a b; unfold visible; rewrite Hw1, Hh1; reflexivity).
    assert (Dec : visible c qx qy \/ ~ visible c qx qy)
      by (unfold visible; lia).
    destruct Dec as [V|NV].
    + rewrite (set_cell_on c1 _ _ qc Hin1 (proj2 (Hvis _ _) V)), Hpen.
      cbn [back_buffer set_back_buffer].
      assert (Hlt : (cell_index qx qy < length (back_buffer c1))%nat)
        by (rewrite L; apply visible_in_range; assumption).
      split.
      { etransitivity; [|apply set_back_buffer_twice]. f_equal. exact E. }
      split; [rewrite length_insert; exact L|].
      split.
      * intros px py ch Hp Vp Hc.
        destruct (Nat.eq_dec (cell_index qx qy) (cell_index px py)) as [Eq|Ne].
        -- rewrite <- Eq. rewrite list_lookup_insert_eq by exact Hlt.
           destruct Hwf as [_ _ Hw _ _]. destruct V as [Vx Vy], Vp as [Px Py].
           destruct (cell_index_inj qx qy px py) as [-> ->]; try lia.
           rewrite (Hc qc) by (apply in_or_app; right; left; reflexivity).
           reflexivity.
        -- rewrite list_lookup_insert_ne by exact Ne.
           apply in_app_or in Hp. destruct Hp as [Hp|[Hp|[]]].
           ++ apply A; [exact Hp|exact Vp|].
              intros ch' H'. apply Hc, in_or_app. left. exact H'.
           ++ injection Hp as -> -> ->. contradiction Ne; reflexivity.
      * intros j Hj. rewrite list_lookup_insert_ne.
        -- apply B. intros px py ch Hp. apply (Hj px py ch).
           apply in_or_app. left. exact Hp.
        -- apply (Hj qx qy qc); [apply in_or_app; right; left; reflexivity|].
           exact V.
    + rewrite (set_cell_off c1 _ _ qc
                 (or_intror (fun v => NV (proj1 (Hvis _ _) v)))).
      split; [exact E|]. split; [exact L|]. split.
      * intros px py ch Hp Vp Hc. apply in_app_or in Hp.
        destruct Hp as [Hp|[Hp|[]]].
        -- apply A; [exact Hp|exact Vp|].
           intros ch' H'. apply Hc, in_or_app. left. exact H'.
        -- injection Hp as -> -> ->. contradiction.
      * intros j Hj. apply B. intros px py ch Hp. apply (Hj px py ch).
        apply in_or_app. left. exact Hp.
Qed.

Lemma foldl_pairs {A} (f : A -> Z * Z * Z -> A) (g1 g2 : Z -> Z * Z * Z) l :
  forall a,
  foldl (fun a i => f (f a (g1 i)) (g2 i)) a l
  = foldl f a (flat_map (fun i => [g1 i; g2 i]) l).
Proof.
  induction l as [|i l IH]; intros a; [reflexivity|].
  cbn [foldl flat_map app]. apply IH.
Qed.

Lemma box_is_draw_items c x y w h style :
  in_frame c = true -> 2 <= w -> 2 <= h ->
  ctx_box c x y w h style = draw_items c (box_items x y w h style).
Proof.
  intros Hin Hw Hh. unfold ctx_box, draw_items, box_items. rewrite Hin.
  destruct (Z.ltb_spec w 2); [lia|]. destruct (Z.ltb_spec h 2); [lia|].
  cbn [negb orb]. cbv zeta. rewrite !foldl_app. cbn [foldl fst snd].
  rewrite <- (foldl_pairs
                (fun c it => ctx_set_cell c (fst (fst it)) (snd (fst it))
                                          (snd it))
                (fun i => (x, y + i, box_char style 5))
                (fun i => (x + w - 1, y + i, box_char style 5))).
  rewrite <- (foldl_pairs
                (fun c it => ctx_set_cell c (fst (fst it)) (snd (fst it))
                                          (snd it))
                (fun i => (x + i, y, box_char style 4))
                (fun i => (x + i, y + h - 1, box_char style 4))).
  reflexivity.
Qed.

Lemma in_box_items x y w h style px py ch :
  2 <= w -> 2 <= h ->
  In (px, py, ch) (box_items x y w h style) ->
  on_border x y w h px py = true /\ ch = box_glyph x y w h style px py.
Proof.
  intros Hw Hh Hi. unfold box_items in Hi.
  assert (G : forall qx qy g,
            x <= qx < x + w -> y <= qy < y + h ->
            (qx = x \/ qx = x + w - 1 \/ qy = y \/ qy = y + h - 1) ->
            g = box_glyph x y w h style qx qy ->
            on_border x y w h qx qy = true
            /\ g = box_glyph x y w h style qx qy).
  { intros qx qy g Hx Hy Hb Hg. split; [|exact Hg]. unfold on_border.
    apply andb_true_iff. split; [apply in_rect_spec; lia|].
    destruct (Z.eqb_spec qx x), (Z.eqb_spec qx (x + w - 1)),
      (Z.eqb_spec qy y), (Z.eqb_spec qy (y + h - 1)); cbn [orb];
      try reflexivity; lia. }
  apply in_app_or in Hi. destruct Hi as [Hi|Hi].
  - cbn [In] in Hi.
    destruct Hi as [Hi|[Hi|[Hi|[Hi|[]]]]]; injection Hi as <- <- <-;
      apply G; try lia; unfold box_glyph;
      repeat match goal with
             | |- context [Z.eqb ?a ?b] => destruct (Z.eqb_spec a b)
             end; try reflexivity; lia.
  - apply in_app_or in Hi. destruct Hi as [Hi|Hi];
      apply in_flat_map in Hi; destruct Hi as (i & Hs & Hi);
      apply in_seqZ in Hs; cbn [In] in Hi;
      destruct Hi as [Hi|[Hi|[]]]; injection Hi as <- <- <-;
      apply G; try lia; unfold box_glyph;
      repeat match goal with
             | |- context [Z.eqb ?a ?b] => destruct (Z.eqb_spec a b)
             end; try reflexivity; lia.
Qed.

Lemma border_in_box_items x y w h style px py :
  2 <= w -> 2 <= h -> on_border x y w h px py = true ->
  In (px, py, box_glyph x y w h style px py) (box_items x y w h style).
Proof.
  intros Hw Hh Hb. unfold on_border in Hb. apply andb_true_iff in Hb.
  destruct Hb as [Hr Hb]. apply in_rect_spec in Hr.
  unfold box_items, box_glyph.
  destruct (Z.eqb_spec py y) as [->|Ny].
  - destruct (Z.eqb_spec px x) as [->|Nx];
      [apply in_or_app; left; cbn [In]; auto|].
    destruct (Z.eqb_spec px (x + w - 1)) as [->|Nx'];
      [apply in_or_app; left; cbn [In]; auto|].
    apply in_or_app. right. apply in_or_app. left.
    apply in_flat_map. exists (px - x). split; [apply in_seqZ; lia|].
    left. f_equal. f_equal. lia.
  - destruct (Z.eqb_spec py (y + h - 1)) as [->|Ny'].
    + destruct (Z.eqb_spec px x) as [->|Nx];
        [apply in_or_app; left; cbn [In]; auto|].
      destruct (Z.eqb_spec px (x + w - 1)) as [->|Nx'];
        [apply in_or_app; left; cbn [In]; auto 6|].
      apply in_or_app. right. apply in_or_app. left.
      apply in_flat_map. exists (px - x). split; [apply in_seqZ; lia|].
      right. left. f_equal. f_equal. lia.
    + cbn [orb] in Hb.
      apply in_or_app. right. apply in_or_app. right.
      apply in_flat_map. exists (py - y). split; [apply in_seqZ; lia|].
      destruct (Z.eqb_spec px x) as [->|Nx].
      * left. f_equal. f_equal. lia.
      * destruct (Z.eqb_spec px (x + w - 1)) as [->|Nx'];
          [|cbn [orb] in Hb; discriminate Hb].
        right. left. f_equal. f_equal. lia.
Qed.

(** X29.  Inside a frame [tui_box], for a box at least two cells wide and
    two high, draws the border of the rectangle and nothing else: each
    visible cell on the border gets the glyph of its place, a corner, the
    horizontal or the vertical stroke of the style, with the current pen,
    and every other visible cell, the inside of the box included, stays
    as it is.  A style outside the enumeration draws single lines; a box
    narrower or lower than two cells draws nothing. *)
Theorem box_draws_its_border c x y w h style :
  ctx_wf c -> in_frame c = true ->
  (2 <= w -> 2 <= h ->
   forall px py, visible c px py ->
     back_buffer (ctx_box c x y w h style) !! cell_index px py
     = if on_border x y w h px py
       then Some (pen_cell c (box_glyph x y w h style px py))
       else back_buffer c !! cell_index px py)
  /\ (w < 2 \/ h < 2 -> ctx_box c x y w h style = c)
  /\ (style < 0 \/ TUI_BORDER_ASCII < style ->
      ctx_box c x y w h style = ctx_box c x y w h TUI_BORDER_SINGLE).
Proof.
  intros Hwf Hin. split; [|split].
  - intros Hw Hh px py V.
    rewrite (box_is_draw_items c x y w h style Hin Hw Hh).
    destruct (draw_items_spec c Hwf Hin (box_items x y w h style))
      as (_ & _ & A & B).
    destruct (on_border x y w h px py) eqn:Hb.
    + apply A; [apply border_in_box_items; assumption|exact V|].
      intros ch' H'.
      exact (proj2 (in_box_items x y w h style px py ch' Hw Hh H')).
    + apply B. intros qx qy ch Hq Vq Eq.
      destruct (in_box_items x y w h style qx qy ch Hw Hh Hq) as [Hb' _].
      destruct Hwf as [_ _ Hmw _ _]. destruct V as [Vx Vy], Vq as [Qx Qy].
      destruct (cell_index_inj qx qy px py) as [-> ->]; try lia.
      congruence.
  - intros Hs. unfold ctx_box. rewrite Hin. cbn [negb orb].
    destruct (Z.ltb_spec w 2); [reflexivity|].
    destruct (Z.ltb_spec h 2); [reflexivity|lia].
  - intros Hs.
    assert (E : forall k, box_char style k = box_char TUI_BORDER_SINGLE k).
    { intros k. unfold box_char, TUI_BORDER_ASCII, TUI_BORDER_SINGLE in *.
      destruct (Z.ltb_spec style 0), (Z.ltb_spec 5 style); cbn [orb];
        try reflexivity; lia. }
    unfold ctx_box. rewrite !E. reflexivity.
Qed.

Lemma box_draws_its_border_witness :
  ctx_wf (set_in_frame true (example_ctx 80 24 false))
  /\ back_cell (ctx_box (set_in_frame true (example_ctx 80 24 false))
                  78 0 4 3 TUI_BORDER_ASCII) 78 0
     = Some (plain_cell "+")
  /\ back_cell (ctx_box (set_in_frame true (example_ctx 80 24 false))
                  78 0 4 3 TUI_BORDER_ASCII) 79 0
     = Some (plain_cell "-")
  /\ back_cell (ctx_box (set_in_frame true (example_ctx 80 24 false))
                  78 0 4 3 TUI_BORDER_ASCII) 79 1
     = back_cell (set_in_frame true (example_ctx 80 24 false)) 79 1.
Proof.
  assert (W : ctx_wf (set_in_frame true (example_ctx 80 24 false))).
  { apply set_in_frame_wf, example_ctx_wf;
      unfold TUI_MAX_WIDTH, TUI_MAX_HEIGHT; lia. }
  split; [exact W|].
  assert (V : forall px py, 0 <= px < 80 -> 0 <= py < 24 ->
            visible (set_in_frame true (example_ctx 80 24 false)) px py).
  { intros px py Hx Hy. unfold visible.
    cbn [set_in_frame example_ctx width height]. lia. }
  pose proof (proj1 (box_draws_its_border _ 78 0 4 3 TUI_BORDER_ASCII W
                       eq_refl) ltac:(lia) ltac:(lia)) as P.
  split; [exact (P 78 0 (V 78 0 ltac:(lia) ltac:(lia)))|].
  split; [exact (P 79 0 (V 79 0 ltac:(lia) ltac:(lia)))|].
  exact (P 79 1 (V 79 1 ltac:(lia) ltac:(lia))).
Defined.
